(** * Podsync update engine: storage gateway, artifact store, progress
    tracker, feed updater and scheduler start-up, embedded from the Go
    sources and checked against the specification.

    Conventions of the embedding.
    - A Go [string] is a Rocq [string] (a sequence of 8-bit characters).
    - A Go [int]/[int64] is a [Z]; where a value supplied by a caller enters
      an arithmetic operation the two's-complement wrap-around is written
      out with [wrap64].  Counters that only count elements of a list held
      in memory are left unwrapped.
    - [time.Time] is the number of nanoseconds since the zero instant, so
      that [IsZero] is a comparison with 0.
    - A Go [error] is a value of [error]; sentinel errors are constructors,
      so that the identity tests of the source ([err == model.ErrNotFound])
      are equality tests here.
    - The Badger key-value store is a finite map from keys to typed values:
      [json.Marshal]/[json.Unmarshal] of a Go struct is the injection into
      the corresponding constructor of [Value] and its partial inverse. *)

From Stdlib Require Import ZArith String Ascii List Lia QArith Lqa.
From stdpp Require Import base option gmap strings pretty list sorting fin_maps.

Close Scope Q_scope.
Local Open Scope string_scope.
Local Open Scope list_scope.
Local Open Scope Z_scope.

(** ** Machine integers and time *)

Definition wrap64 (z : Z) : Z := (z + 2 ^ 63) mod 2 ^ 64 - 2 ^ 63.

Module time.
Definition Time := Z.
Definition IsZero (t : Time) : bool := t =? 0.
Definition Before (t u : Time) : bool := t <? u.
Definition After (t u : Time) : bool := u <? t.
End time.

(** ** Errors *)

Inductive error :=
| ErrNotFound            (* model.ErrNotFound *)
| ErrAlreadyExists       (* model.ErrAlreadyExists *)
| ErrTooManyRequests     (* ytdl.ErrTooManyRequests *)
| ErrNotExist (path : string)   (* the os error for a missing file *)
| ErrOther (msg : string)       (* errors.New, errors.Errorf, errors.Wrap *)
| ErrWrapped (msg : string) (cause : error).
    (* fmt.Errorf(msg + "%w", cause): Unwrap gives the cause *)

#[global] Instance error_eq_dec : EqDecision error.
Proof. solve_decision. Defined.

(** [err.Error()]. The messages of the sentinels declared outside the
    sources at hand are those of the Go standard library
    ([http.StatusText]) and of the model package. *)
Fixpoint Error (e : error) : string :=
  match e with
  | ErrNotFound => "not found"
  | ErrAlreadyExists => "object already exists"
  | ErrTooManyRequests => "Too Many Requests"
  | ErrNotExist path => "file does not exist: " +:+ path
  | ErrOther msg => msg
  | ErrWrapped msg cause => msg +:+ Error cause
  end.

(** [errors.Wrap(err, msg)]: a fresh error value, never identical to a
    sentinel; no caller in the sources inspects its cause. *)
Definition Wrap (e : error) (msg : string) : error :=
  ErrOther (msg +:+ ": " +:+ Error e).

(** [os.IsNotExist(err)]: it looks through the error types of package
    [os] only, not through an error built with [%w]. *)
Definition IsNotExist (e : error) : bool :=
  match e with ErrNotExist _ => true | _ => false end.

(** [errors.Is(err, os.ErrNotExist)]: it follows the chain of [Unwrap]. *)
Fixpoint IsErrNotExist (e : error) : bool :=
  match e with
  | ErrNotExist _ => true
  | ErrWrapped _ cause => IsErrNotExist cause
  | _ => false
  end.

(** ** Data model (package model) *)

(** Modelled from the spec: the declaration of [model.EpisodeStatus] and of
    its constants is not among the sources; the spec lists the eight
    statuses, and the sources name each of them ([model.EpisodeNew], ...). *)
Inductive EpisodeStatus :=
| EpisodeNew | EpisodeQueued | EpisodeDownloading | EpisodeDownloaded
| EpisodeError | EpisodeCleaned | EpisodeBlocked | EpisodeIgnored.

#[global] Instance EpisodeStatus_eq_dec : EqDecision EpisodeStatus.
Proof. solve_decision. Defined.

(** Modelled from the spec: [model.Episode] is declared outside the
    sources; the fields are the ones the update engine reads or writes. *)
Module Episode.
Record t := mk {
    ID : string;
    Title : string;
    Description : string;
    Duration : Z;
    VideoURL : string;
    PubDate : time.Time;
    Size : Z;
    Status : EpisodeStatus;
    Error : string
  }.
#[global] Instance Episode_eq_dec : EqDecision t.
Proof. solve_decision. Defined.

Definition setStatus (s : EpisodeStatus) (e : t) : t :=
    mk (ID e) (Title e) (Description e) (Duration e) (VideoURL e)
       (PubDate e) (Size e) s (Error e).
Definition setSize (n : Z) (e : t) : t :=
    mk (ID e) (Title e) (Description e) (Duration e) (VideoURL e)
       (PubDate e) n (Status e) (Error e).
Definition setError (m : string) (e : t) : t :=
    mk (ID e) (Title e) (Description e) (Duration e) (VideoURL e)
       (PubDate e) (Size e) (Status e) m.
Definition setTitle (m : string) (e : t) : t :=
    mk (ID e) m (Description e) (Duration e) (VideoURL e)
       (PubDate e) (Size e) (Status e) (Error e).
Definition setDescription (m : string) (e : t) : t :=
    mk (ID e) (Title e) m (Duration e) (VideoURL e)
       (PubDate e) (Size e) (Status e) (Error e).
End Episode.

(** Modelled from the spec: [model.Feed] is declared outside the sources.
    The episode list travels with the value in memory; the stored feed
    record does not contain it (episodes live under their own keys, and
    [GetFeed] rebuilds the list from a prefix scan). *)
Module Feed.
Record t := mk {
    ID : string;
    Title : string;
    Description : string;
    Episodes : list Episode.t
  }.
#[global] Instance Feed_eq_dec : EqDecision t.
Proof. solve_decision. Defined.

Definition setID (i : string) (f : t) : t :=
    mk i (Title f) (Description f) (Episodes f).
Definition setEpisodes (l : list Episode.t) (f : t) : t :=
    mk (ID f) (Title f) (Description f) l.
End Feed.

(** [model.JobType], [model.JobStatus] and [model.TriggerType] are Go
    string types. *)
Definition JobTypeFeedUpdate := "feed_update".
Definition JobTypeEpisodeRetry := "episode_retry".
Definition JobTypeEpisodeDelete := "episode_delete".
Definition JobTypeEpisodeBlock := "episode_block".

Definition JobStatusRunning := "running".
Definition JobStatusSuccess := "success".
Definition JobStatusFailed := "failed".
Definition JobStatusPartial := "partial".

Definition TriggerScheduled := "scheduled".
Definition TriggerManual := "manual".

Module EpisodeDetail.
Record t := mk {
    ID : string;
    Title : string;
    Status : string;
    Error : string;
    Size : Z;
    Duration : Z
  }.
#[global] Instance EpisodeDetail_eq_dec : EqDecision t.
Proof. solve_decision. Defined.
End EpisodeDetail.

Module JobStatistics.
Record t := mk {
    EpisodesQueued : Z;
    EpisodesDownloaded : Z;
    EpisodesFailed : Z;
    EpisodesIgnored : Z;
    BytesDownloaded : Z;
    EpisodeDetails : list EpisodeDetail.t
  }.
#[global] Instance JobStatistics_eq_dec : EqDecision t.
Proof. solve_decision. Defined.

  (** The zero value, [model.JobStatistics{}]. *)
Definition zero : t := mk 0 0 0 0 0 [].
End JobStatistics.

Module HistoryEntry.
Record t := mk {
    ID : string;
    JobType : string;
    FeedID : string;
    FeedTitle : string;
    EpisodeID : string;
    EpisodeTitle : string;
    StartTime : time.Time;
    EndTime : option time.Time;
    Duration : Z;
    Status : string;
    TriggerType : string;
    Statistics : JobStatistics.t;
    Error : string
  }.
#[global] Instance HistoryEntry_eq_dec : EqDecision t.
Proof. solve_decision. Defined.
End HistoryEntry.

Module HistoryFilters.
Record t := mk {
    FeedID : string;
    JobType : string;
    Status : string;
    StartDate : time.Time;
    EndDate : time.Time;
    Search : string
  }.

Definition setSearch (s : string) (f : t) : t :=
    mk (FeedID f) (JobType f) (Status f) (StartDate f) (EndDate f) s.

  (** [model.HistoryFilters{}]. *)
Definition zero : t := mk "" "" "" 0 0 "".
End HistoryFilters.

(** ** Storage gateway (package db, Badger backend) *)

(** What a key holds: the JSON encoding of one of the Go values the gateway
    stores, or the raw bytes of a history identifier (feed index). *)
Inductive Value :=
| VVersion (n : Z)
| VFeed (f : Feed.t)
| VEpisode (e : Episode.t)
| VHistory (h : HistoryEntry.t)
| VBytes (s : string).

#[global] Instance Value_eq_dec : EqDecision Value.
Proof. solve_decision. Defined.

Inductive result (A : Type) :=
| Ok (a : A)
| Err (e : error).
Arguments Ok {A} a.
Arguments Err {A} e.

Module db.

Definition CurrentVersion : Z := 1.

Definition versionPath : string := "podsync/version".
Definition feedPrefix : string := "feed/".
Definition feedPath (feedID : string) : string := "feed/" +:+ feedID.
Definition episodePrefix (feedID : string) : string :=
  "episode/" +:+ feedID +:+ "/".
Definition episodePath (feedID episodeID : string) : string :=
  "episode/" +:+ feedID +:+ "/" +:+ episodeID.
Definition historyPrefix : string := "history/".
Definition historyPath (id : string) : string := "history/" +:+ id.
Definition historyByFeed (feedID id : string) : string :=
  "history_feed/" +:+ feedID +:+ "/" +:+ id.

(** [getKey]: the resource path under [podsync/v<CurrentVersion>/]. *)
Definition getKey (resourcePath : string) : string :=
  "podsync/v1/" +:+ resourcePath.

(** A transaction sees the store as a finite map; [db.Update] commits the
    map the closure leaves behind when the closure returns nil, and
    discards it otherwise; [db.View] never writes. *)
Definition Update (b : gmap string Value)
    (fn : gmap string Value -> gmap string Value * option error)
  : gmap string Value * option error :=
  let '(txn, err) := fn b in
  match err with
  | None => (txn, None)
  | Some e => (b, Some e)
  end.

Definition setObj (txn : gmap string Value) (key : string) (obj : Value)
    (overwrite : bool) : gmap string Value * option error :=
  if negb overwrite then
    match txn !! key with
    | Some _ => (txn, Some ErrAlreadyExists)
    | None => (<[key := obj]> txn, None)
    end
  else (<[key := obj]> txn, None).

(** [json.Unmarshal] into the type of the output parameter.  A value
    written for another record type (the JSON object of another struct, or
    the raw bytes of a feed-index line) is answered with an error here.
    [json.Unmarshal] itself accepts any JSON object and keeps the fields
    whose names it knows; what it makes of a record of another type depends
    on the JSON names of [model.Feed] and [model.Episode], which are
    declared outside the sources.  The gateway writes each key range with
    one type only; a property that depends on the decoding of a key says
    what the key holds. *)
Definition unmarshalEpisode (v : Value) : result Episode.t :=
  match v with
  | VEpisode e => Ok e
  | _ => Err (ErrOther "json: cannot unmarshal into model.Episode")
  end.

Definition unmarshalFeed (v : Value) : result Feed.t :=
  match v with
  | VFeed f => Ok f
  | _ => Err (ErrOther "json: cannot unmarshal into model.Feed")
  end.

Definition unmarshalHistory (v : Value) : result HistoryEntry.t :=
  match v with
  | VHistory h => Ok h
  | _ => Err (ErrOther "json: cannot unmarshal into model.HistoryEntry")
  end.

(** [getObj], instantiated at the type of the output parameter. *)
Definition getObj {A} (unmarshalObj : Value -> result A)
    (txn : gmap string Value) (key : string) : result A :=
  match txn !! key with
  | None => Err ErrNotFound
  | Some v => unmarshalObj v
  end.

(** The stored feed record: the episode list is not part of it. *)
Definition marshalFeed (feed : Feed.t) : Value :=
  VFeed (Feed.setEpisodes [] feed).

(** *** Prefix iteration *)

Definition Item : Type := string * Value.

Definition key_le (a b : Item) : Prop := String.leb a.1 b.1 = true.

#[global] Instance key_le_dec : RelDecision key_le.
Proof. intros a b. unfold key_le. apply _. Defined.

(** Badger's iterator is a library type outside the sources; it is
    modelled by its documented contract.  The cursor is the list of the
    items from the current one on, in the direction of the iteration.
    [Seek] moves to the first key at or after the seek key going forward,
    to the last key at or before it going backward, and to the start for
    an empty key; [Rewind] seeks to the prefix of the options; [Valid]
    holds on an item whose key has that prefix; [Next] is the tail. *)
Fixpoint dropWhile {A} (f : A -> bool) (l : list A) : list A :=
  match l with
  | [] => []
  | x :: rest => if f x then dropWhile f rest else l
  end.

Fixpoint takeWhile {A} (f : A -> bool) (l : list A) : list A :=
  match l with
  | [] => []
  | x :: rest => if f x then x :: takeWhile f rest else []
  end.

Definition Seek (all : list Item) (reverse : bool) (key : string)
  : list Item :=
  if String.eqb key "" then all
  else dropWhile (fun item : Item =>
                    negb (if reverse then String.leb item.1 key
                          else String.leb key item.1)) all.

Definition Valid (prefix : string) (position : list Item) : bool :=
  match position with
  | [] => false
  | item :: _ => String.prefix prefix item.1
  end.

(** The items the loop of [iterator] hands to its callback.  A reverse
    iterator with a prefix seeks to the prefix followed by the byte 0xFF
    and rewinds when that position is not valid; the loop runs while the
    cursor is valid. *)
Definition prefixItems (txn : gmap string Value) (prefix : string)
    (reverse : bool) : list Item :=
  let sorted := merge_sort key_le (map_to_list txn) in
  let all := if reverse then rev sorted else sorted in
  let Rewind := Seek all reverse prefix in
  let position :=
    if reverse && (0 <? String.length prefix)%nat then
      let seekKey := prefix +:+ String "255" "" in
      let position := Seek all reverse seekKey in
      if negb (Valid prefix position) then Rewind else position
    else Rewind in
  takeWhile (fun item : Item => String.prefix prefix item.1) position.

(** The loop of [iterator]: the callback is run on each item in turn and
    the first error stops the scan.  The callback updates the variables its
    closure captured, here the state [St]. *)
Fixpoint iterate {St} (items : list Item)
    (callback : Item -> St -> St * option error) (st : St)
  : St * option error :=
  match items with
  | [] => (st, None)
  | item :: rest =>
      let '(st', err) := callback item st in
      match err with
      | Some e => (st', Some e)
      | None => iterate rest callback st'
      end
  end.

Definition iterator {St} (txn : gmap string Value) (prefix : string)
    (reverse : bool) (callback : Item -> St -> St * option error) (st : St)
  : St * option error :=
  iterate (prefixItems txn prefix reverse) callback st.

(** *** Feeds and episodes *)

Definition walkEpisodes {St} (txn : gmap string Value) (feedID : string)
    (cb : Episode.t -> St -> St * option error) (st : St)
  : St * option error :=
  iterator txn (getKey (episodePrefix feedID)) false
    (fun item st =>
       match unmarshalEpisode item.2 with
       | Err e => (st, Some e)
       | Ok episode => cb episode st
       end) st.

Definition WalkEpisodes {St} (b : gmap string Value) (feedID : string)
    (cb : Episode.t -> St -> St * option error) (st : St)
  : St * option error :=
  walkEpisodes b feedID cb st.

(** The loop of [AddFeed] over [feed.Episodes]. *)
Fixpoint appendEpisodes (txn : gmap string Value) (feedID : string)
    (episodes : list Episode.t) : gmap string Value * option error :=
  match episodes with
  | [] => (txn, None)
  | episode :: rest =>
      let episodeKey := getKey (episodePath feedID (Episode.ID episode)) in
      let '(txn', err) := setObj txn episodeKey (VEpisode episode) false in
      match err with
      | None => appendEpisodes txn' feedID rest
      | Some e =>
          if decide (e = ErrAlreadyExists) then
            appendEpisodes txn' feedID rest
          else
            (txn', Some (Wrap e ("failed to save episode " +:+ feedID)))
      end
  end.

Definition AddFeed (b : gmap string Value) (feedID : string) (feed : Feed.t)
  : gmap string Value * option error :=
  Update b (fun txn =>
    let feedKey := getKey (feedPath feedID) in
    let '(txn1, err) := setObj txn feedKey (marshalFeed feed) true in
    match err with
    | Some e => (txn1, Some e)
    | None => appendEpisodes txn1 feedID (Feed.Episodes feed)
    end).

Definition GetFeed (b : gmap string Value) (feedID : string)
  : result Feed.t :=
  let feedKey := getKey (feedPath feedID) in
  match getObj unmarshalFeed b feedKey with
  | Err e => Err e
  | Ok feed =>
      let feed := Feed.setID feedID feed in
      match walkEpisodes b feedID
              (fun episode (l : list Episode.t) => (l ++ [episode], None))
              (Feed.Episodes feed) with
      | (_, Some e) => Err e
      | (episodes, None) => Ok (Feed.setEpisodes episodes feed)
      end
  end.

Definition GetEpisode (b : gmap string Value) (feedID episodeID : string)
  : result Episode.t :=
  getObj unmarshalEpisode b (getKey (episodePath feedID episodeID)).

Definition UpdateEpisode (b : gmap string Value) (feedID episodeID : string)
    (cb : Episode.t -> result Episode.t) : gmap string Value * option error :=
  let key := getKey (episodePath feedID episodeID) in
  Update b (fun txn =>
    match getObj unmarshalEpisode txn key with
    | Err e => (txn, Some e)
    | Ok episode =>
        match cb episode with
        | Err e => (txn, Some e)
        | Ok episode =>
            if decide (Episode.ID episode <> episodeID) then
              (txn, Some (ErrOther "can't change episode ID"))
            else setObj txn key (VEpisode episode) true
        end
    end).

Definition DeleteEpisode (b : gmap string Value) (feedID episodeID : string)
  : gmap string Value * option error :=
  let key := getKey (episodePath feedID episodeID) in
  Update b (fun txn => (delete key txn, None)).

(** *** History *)

Definition AddHistory (b : gmap string Value) (entry : HistoryEntry.t)
  : gmap string Value * option error :=
  Update b (fun txn =>
    let historyKey := getKey (historyPath (HistoryEntry.ID entry)) in
    let '(txn1, err) := setObj txn historyKey (VHistory entry) true in
    match err with
    | Some e => (txn1, Some (Wrap e "failed to save history entry"))
    | None =>
        if decide (HistoryEntry.FeedID entry <> "") then
          let feedIndexKey :=
            getKey (historyByFeed (HistoryEntry.FeedID entry)
                                  (HistoryEntry.ID entry)) in
          (<[feedIndexKey := VBytes (HistoryEntry.ID entry)]> txn1, None)
        else (txn1, None)
    end).

Definition GetHistory (b : gmap string Value) (id : string)
  : result HistoryEntry.t :=
  getObj unmarshalHistory b (getKey (historyPath id)).

Definition UpdateHistory (b : gmap string Value) (id : string)
    (cb : HistoryEntry.t -> result HistoryEntry.t)
  : gmap string Value * option error :=
  let key := getKey (historyPath id) in
  Update b (fun txn =>
    match getObj unmarshalHistory txn key with
    | Err e => (txn, Some e)
    | Ok entry =>
        match cb entry with
        | Err e => (txn, Some e)
        | Ok entry =>
            if decide (HistoryEntry.ID entry <> id) then
              (txn, Some (ErrOther "can't change history entry ID"))
            else setObj txn key (VHistory entry) true
        end
    end).

(** [toLower] on a byte. *)
Definition toLower (c : ascii) : ascii :=
  let n := N_of_ascii c in
  if (65 <=? n)%N && (n <=? 90)%N then ascii_of_N (n + 32) else c.

(** [s[i]] for an index the source has checked to be in range. *)
Definition byteAt (s : string) (i : nat) : ascii :=
  match String.get i s with
  | Some c => c
  | None => Ascii.zero
  end.

Definition len (s : string) : Z := Z.of_nat (String.length s).

(** The loop [for i := 0; i <= len(s)-len(substr); i++]. *)
Definition simpleContains (s substr : string) : bool :=
  existsb
    (fun i => String.eqb (String.substring i (String.length substr) s) substr)
    (seq 0 (Z.to_nat (len s - len substr + 1))).

Definition contains (s substr : string) : bool :=
  (len substr <=? len s) &&
  (String.eqb s substr || (len substr =? 0) ||
   ((0 <? len s) &&
    (Ascii.eqb (byteAt s 0) (byteAt substr 0) ||
     Ascii.eqb (toLower (byteAt s 0)) (toLower (byteAt substr 0)))) &&
   ((len s =? 0) || (len substr =? 0) || simpleContains s substr)).

(** The five tests under "Apply filters" in the callback of [ListHistory]:
    [true] when none of them returns early. *)
Definition applyFilters (filters : HistoryFilters.t) (entry : HistoryEntry.t)
  : bool :=
  if negb (String.eqb (HistoryFilters.JobType filters) "") &&
     negb (String.eqb (HistoryEntry.JobType entry)
                      (HistoryFilters.JobType filters)) then false
  else if negb (String.eqb (HistoryFilters.Status filters) "") &&
          negb (String.eqb (HistoryEntry.Status entry)
                           (HistoryFilters.Status filters)) then false
  else if negb (time.IsZero (HistoryFilters.StartDate filters)) &&
          time.Before (HistoryEntry.StartTime entry)
                      (HistoryFilters.StartDate filters) then false
  else if negb (time.IsZero (HistoryFilters.EndDate filters)) &&
          time.After (HistoryEntry.StartTime entry)
                     (HistoryFilters.EndDate filters) then false
  else if negb (String.eqb (HistoryFilters.Search filters) "") &&
          negb (String.eqb (HistoryEntry.EpisodeTitle entry) "") then
    if negb (contains (HistoryEntry.EpisodeTitle entry)
                      (HistoryFilters.Search filters)) then false
    else true
  else true.

(** The entry an item of the scan stands for: through the feed index when a
    feed filter is set, directly otherwise. *)
Definition loadEntry (txn : gmap string Value) (filters : HistoryFilters.t)
    (item : Item) : result HistoryEntry.t :=
  if negb (String.eqb (HistoryFilters.FeedID filters) "") then
    match item.2 with
    | VBytes historyID =>
        getObj unmarshalHistory txn (getKey (historyPath historyID))
    | _ => Err (ErrOther "feed index entry is not a history identifier")
    end
  else unmarshalHistory item.2.

(** The callback of [ListHistory]; the captured variables are [entries] and
    [total]. *)
Definition listCallback (txn : gmap string Value)
    (filters : HistoryFilters.t) (skip pageSize : Z) (item : Item)
    (st : list HistoryEntry.t * Z)
  : (list HistoryEntry.t * Z) * option error :=
  let '(entries, total) := st in
  match loadEntry txn filters item with
  | Err e => ((entries, total), Some e)
  | Ok entry =>
      if negb (applyFilters filters entry) then ((entries, total), None)
      else
        (* Count total matching entries *)
        let total := total + 1 in
        (* Skip entries before the current page *)
        if total <=? skip then ((entries, total), None)
        else
          (* Add to entries *)
          let entries := entries ++ [entry] in
          (* Stop if we've collected enough for this page *)
          if Z.of_nat (length entries) >=? pageSize then
            ((entries, total), None)
          else ((entries, total), None)
  end.

(** [opts.Prefix]: the feed index when filtering by feed, the main history
    table otherwise. *)
Definition listPrefix (filters : HistoryFilters.t) : string :=
  if negb (String.eqb (HistoryFilters.FeedID filters) "") then
    getKey (historyByFeed (HistoryFilters.FeedID filters) "")
  else getKey historyPrefix.

Definition ListHistory (b : gmap string Value) (filters : HistoryFilters.t)
    (page pageSize : Z) : list HistoryEntry.t * Z * option error :=
  let skip := wrap64 ((page - 1) * pageSize) in
  let '((entries, total), err) :=
    iterator b (listPrefix filters) true
      (listCallback b filters skip pageSize) ([], 0) in
  (entries, total, err).

(** The entries of a scan that pass the filters, in scan order: what
    [total] counts. *)
Definition matchingEntries (txn : gmap string Value)
    (filters : HistoryFilters.t) (items : list Item) : list HistoryEntry.t :=
  omap (fun item =>
          match loadEntry txn filters item with
          | Ok entry => if applyFilters filters entry then Some entry else None
          | Err _ => None
          end) items.

(** *** Feeds: enumeration and removal *)

(** [WalkFeeds]: every item under the feed prefix is decoded and handed to
    the callback with its identifier taken from the key, the part after
    [podsync/v1/feed/]. *)
Definition WalkFeeds {St} (b : gmap string Value)
    (cb : Feed.t -> St -> St * option error) (st : St) : St * option error :=
  let prefix := getKey feedPrefix in
  iterator b prefix false
    (fun item st =>
       match unmarshalFeed item.2 with
       | Err e => (st, Some e)
       | Ok feed =>
           let key := item.1 in
           let feed :=
             if (String.length prefix <? String.length key)%nat then
               Feed.setID
                 (String.substring (String.length prefix)
                    (String.length key - String.length prefix) key) feed
             else feed in
           cb feed st
       end) st.

(** [DeleteFeed]: one transaction that deletes the feed record and then
    every key the iterator finds under the episode prefix of the feed.
    [txn.Delete] of a key that is not bound is not an error. *)
Definition DeleteFeed (b : gmap string Value) (feedID : string)
  : gmap string Value * option error :=
  Update b (fun txn =>
    let feedKey := getKey (feedPath feedID) in
    let txn := delete feedKey txn in
    match iterator txn (getKey (episodePrefix feedID)) false
            (fun item (txn : gmap string Value) => (delete item.1 txn, None))
            txn with
    | (txn, Some e) =>
        (txn, Some (Wrap e ("failed to iterate episodes for feed " +:+ feedID)))
    | (txn, None) => (txn, None)
    end).

(** *** History: removal, retention and statistics *)

Definition DeleteHistory (b : gmap string Value) (id : string)
  : gmap string Value * option error :=
  Update b (fun txn =>
    (* First, get the entry to find the feed ID *)
    let key := getKey (historyPath id) in
    match getObj unmarshalHistory txn key with
    | Err e =>
        if decide (e = ErrNotFound) then (txn, None) (* Already deleted *)
        else (txn, Some e)
    | Ok entry =>
        (* Delete from main history table *)
        let txn := delete key txn in
        (* Delete from feed index if it exists *)
        if decide (HistoryEntry.FeedID entry <> "") then
          (delete (getKey (historyByFeed (HistoryEntry.FeedID entry) id)) txn,
           None)
        else (txn, None)
    end).

(** The callback of [CleanupHistory]; the captured variables are [entries]
    and [entriesToDelete]. *)
Definition markEntry (retentionDays maxEntries : Z) (cutoffTime : time.Time)
    (item : Item) (st : list HistoryEntry.t * list string)
  : (list HistoryEntry.t * list string) * option error :=
  let '(entries, entriesToDelete) := st in
  match unmarshalHistory item.2 with
  | Err e => (st, Some e)
  | Ok entry =>
      let entries := entries ++ [entry] in
      (* Special case: delete all if both retentionDays and maxEntries are 0 *)
      if (retentionDays =? 0) && (maxEntries =? 0) then
        ((entries, entriesToDelete ++ [HistoryEntry.ID entry]), None)
      (* Mark for deletion if older than retention period *)
      else if (retentionDays >? 0) &&
              time.Before (HistoryEntry.StartTime entry) cutoffTime then
        ((entries, entriesToDelete ++ [HistoryEntry.ID entry]), None)
      (* Mark for deletion if we exceed max entries (keeping newest) *)
      else if (maxEntries >? 0) &&
              (Z.of_nat (length entries) >? maxEntries) then
        ((entries, entriesToDelete ++ [HistoryEntry.ID entry]), None)
      else ((entries, entriesToDelete), None)
  end.

(** "Delete marked entries": one [DeleteHistory] per identifier, the first
    failure ends the loop. *)
Fixpoint deleteMarked (b : gmap string Value) (entriesToDelete : list string)
  : gmap string Value * option error :=
  match entriesToDelete with
  | [] => (b, None)
  | id :: rest =>
      match DeleteHistory b id with
      | (b', Some e) => (b', Some e)
      | (b', None) => deleteMarked b' rest
      end
  end.

(** [CleanupHistory]; [cutoffTime] is [time.Now().AddDate(0, 0,
    -retentionDays)], a calendar computation in the local time zone that
    the caller of the model supplies. *)
Definition CleanupHistory (b : gmap string Value) (cutoffTime : time.Time)
    (retentionDays maxEntries : Z) : gmap string Value * option error :=
  match iterator b (getKey historyPrefix) true
          (markEntry retentionDays maxEntries cutoffTime) ([], []) with
  | (_, Some e) => (b, Some e)
  | ((_, entriesToDelete), None) => deleteMarked b entriesToDelete
  end.

(** "Find oldest entry". *)
Definition oldest (entries : list HistoryEntry.t) : option HistoryEntry.t :=
  match entries with
  | [] => None
  | first :: _ =>
      Some (fold_left
              (fun oldestEntry entry =>
                 if time.Before (HistoryEntry.StartTime entry)
                                (HistoryEntry.StartTime oldestEntry)
                 then entry else oldestEntry)
              entries first)
  end.

Definition GetHistoryStats (b : gmap string Value)
  : Z * option HistoryEntry.t * option error :=
  match iterator b (getKey historyPrefix) false
          (fun item (st : list HistoryEntry.t * Z) =>
             let '(entries, count) := st in
             match unmarshalHistory item.2 with
             | Err e => (st, Some e)
             | Ok entry => ((entries ++ [entry], count + 1), None)
             end) ([], 0) with
  | ((_, count), Some e) => (count, None, Some e)
  | ((entries, count), None) => (count, oldest entries, None)
  end.

(** *** Transactions whose primitives fail

    The definitions above take the primitives of the store at their best.
    In Badger, [txn.Get] can answer with an error other than
    [ErrKeyNotFound], [txn.Set] can refuse a write (a transaction that grew
    too big, for one), and [txn.Commit] can fail on a conflict.  [Faults]
    says when they do, and with which message, as a function of what the
    transaction holds; the errors of Badger are values of their own, never
    one of the sentinels of package [model].  [faulty] repeats [Update],
    [setObj] and [AddFeed] over such primitives. *)
Record Faults := mkFaults {
  getFault : gmap string Value -> string -> option string;
  setFault : gmap string Value -> string -> Value -> option string;
  commitFault : gmap string Value -> option string
}.

Definition noFaults : Faults :=
  mkFaults (fun _ _ => None) (fun _ _ _ => None) (fun _ => None).

Module faulty.

Section Faulty.

(** [strconv.Quote], the verb [%q]. *)
Variable Quote : string -> string.
Variable F : Faults.

(** [db.Update]: the closure runs on the transaction; its error discards
    the transaction, and so does a failing commit. *)
Definition Update (b : gmap string Value)
    (fn : gmap string Value -> gmap string Value * option error)
  : gmap string Value * option error :=
  let '(txn, err) := fn b in
  match err with
  | Some e => (b, Some e)
  | None =>
      match commitFault F txn with
      | Some msg => (b, Some (ErrOther msg))
      | None => (txn, None)
      end
  end.

Definition txnSet (txn : gmap string Value) (key : string) (data : Value)
  : gmap string Value * option error :=
  match setFault F txn key data with
  | Some msg => (txn, Some (ErrOther msg))
  | None => (<[key := data]> txn, None)
  end.

Definition setObj (txn : gmap string Value) (key : string) (obj : Value)
    (overwrite : bool) : gmap string Value * option error :=
  if negb overwrite then
    (* Overwrites are not allowed, make sure there is no object with the
       given key *)
    match getFault F txn key with
    | Some msg =>
        (txn, Some (Wrap (ErrOther msg) "failed to check whether key exists"))
    | None =>
        match txn !! key with
        | Some _ => (txn, Some ErrAlreadyExists)
        | None => txnSet txn key obj
        end
    end
  else txnSet txn key obj.

Fixpoint appendEpisodes (txn : gmap string Value) (feedID : string)
    (episodes : list Episode.t) : gmap string Value * option error :=
  match episodes with
  | [] => (txn, None)
  | episode :: rest =>
      let episodeKey := getKey (episodePath feedID (Episode.ID episode)) in
      let '(txn', err) := setObj txn episodeKey (VEpisode episode) false in
      match err with
      | None => appendEpisodes txn' feedID rest
      | Some e =>
          if decide (e = ErrAlreadyExists) then
            appendEpisodes txn' feedID rest
          else
            (txn', Some (Wrap e ("failed to save episode " +:+ Quote feedID)))
      end
  end.

Definition AddFeed (b : gmap string Value) (feedID : string) (feed : Feed.t)
  : gmap string Value * option error :=
  Update b (fun txn =>
    (* Insert or update feed info *)
    let feedKey := getKey (feedPath feedID) in
    let '(txn1, err) := setObj txn feedKey (marshalFeed feed) true in
    match err with
    | Some e => (txn1, Some e)
    | None =>
        (* Append new episodes *)
        appendEpisodes txn1 feedID (Feed.Episodes feed)
    end).

End Faulty.

End faulty.

End db.

(** ** Artifact store (package fs, local backend) *)

Module fs.

(** An [io.Reader]: the chunks successive [Read] calls deliver, followed by
    [io.EOF] ([failure = None]) or by a read error. *)
Record Reader := mkReader {
  chunks : list string;
  failure : option error
}.

(** Everything the reader delivers before it ends. *)
Definition content (r : Reader) : string :=
  fold_right String.append "" (chunks r).

(** A reader over a complete file sitting in a temporary directory. *)
Definition fileReader (content : string) : Reader := mkReader [content] None.

Definition len (s : string) : Z := Z.of_nat (String.length s).

(** The disk below the root directory of the store, keyed by the name
    relative to the root ([filepath.Join(l.rootDir, name)]); directories are
    implicit, so [os.MkdirAll] of the parent has nothing to do. *)

(** [dest.Write(chunk)] on the open destination file. *)
Definition write (disk : gmap string string) (path chunk : string)
  : gmap string string :=
  match disk !! path with
  | Some content => <[path := content +:+ chunk]> disk
  | None => <[path := chunk]> disk
  end.

(** [io.Copy(dest, source)]: every chunk read is written before the next
    read; a read error ends the copy with what was written so far. *)
Fixpoint Copy (disk : gmap string string) (path : string)
    (chunks : list string) (failure : option error) (written : Z)
  : gmap string string * Z * option error :=
  match chunks with
  | [] => (disk, written, failure)
  | chunk :: rest =>
      Copy (write disk path chunk) path rest failure (written + len chunk)
  end.

(** [os.Create]: the file is created, or truncated when it exists. *)
Definition osCreate (disk : gmap string string) (path : string)
  : gmap string string :=
  <[path := ""]> disk.

Definition copyFile (disk : gmap string string) (source : Reader)
    (destinationPath : string) : gmap string string * Z * option error :=
  let dest := osCreate disk destinationPath in
  let '(disk', written, err) :=
    Copy dest destinationPath (chunks source) (failure source) 0 in
  match err with
  | Some e => (disk', 0, Some (Wrap e "failed to copy data"))
  | None => (disk', written, None)
  end.

Definition Create (disk : gmap string string) (name : string)
    (reader : Reader) : gmap string string * Z * option error :=
  let path := name in
  let '(disk', written, err) := copyFile disk reader path in
  match err with
  | Some e => (disk', 0, Some (Wrap e "failed to copy file"))
  | None => (disk', written, None)
  end.

(** The successive states of the disk while [Create] runs: after
    [os.Create], then after each write of [io.Copy]. *)
Fixpoint copyStates (disk : gmap string string) (path : string)
    (chunks : list string) : list (gmap string string) :=
  match chunks with
  | [] => []
  | chunk :: rest =>
      write disk path chunk :: copyStates (write disk path chunk) path rest
  end.

Definition createStates (disk : gmap string string) (name : string)
    (reader : Reader) : list (gmap string string) :=
  osCreate disk name :: copyStates (osCreate disk name) name (chunks reader).

(** [os.Remove] through [Delete]: the error of [os.Remove] is wrapped with
    [fmt.Errorf("failed to delete file %s: %w", path, err)].  Names stand
    for paths; the root directory is left out of them. *)
Definition Delete (disk : gmap string string) (name : string)
  : gmap string string * option error :=
  let path := name in
  match disk !! path with
  | Some _ => (delete path disk, None)
  | None =>
      (disk,
       Some (ErrWrapped ("failed to delete file " +:+ path +:+ ": ")
                        (ErrNotExist path)))
  end.

Definition Size (disk : gmap string string) (name : string) : result Z :=
  match disk !! name with
  | Some content => Ok (len content)
  | None => Err (ErrNotExist name)
  end.

(** *** Open, and Size through Open *)

(** What lies under [./html], the directory of the Web UI assets: its
    regular files keyed by their name relative to the directory, and the
    size [Stat] reports for the directory itself when it exists. *)
Record UI := mkUI {
  html : gmap string string;
  htmlDir : option Z
}.

(** An open [http.File]: a regular file with its content, or a
    directory. *)
Inductive File :=
| RegularFile (content : string)
| Directory (size : Z).

Definition StatSize (f : File) : Z :=
  match f with
  | RegularFile content => len content
  | Directory size => size
  end.

(** [os.Open(filepath.Join(l.rootDir, name))]. *)
Definition openData (disk : gmap string string) (name : string)
  : result File :=
  match disk !! name with
  | Some content => Ok (RegularFile content)
  | None => Err (ErrNotExist name)
  end.

Definition Open (webUIEnabled : bool) (ui : UI) (disk : gmap string string)
    (name : string) : result File :=
  if webUIEnabled then
    (* For root directory, open the html directory itself *)
    if String.eqb name "/" then
      match htmlDir ui with
      | Some size => Ok (Directory size)
      | None => Err (ErrNotExist "./html")
      end
    else
      (* Try to serve from html/ directory first for UI assets *)
      match html ui !! name with
      | Some content => Ok (RegularFile content)
      | None =>
          (* Fall back to serving from data directory *)
          openData disk name
      end
  else openData disk name.

(** [Size] as the source has it, through [Open] and [Stat]. *)
Definition Size' (webUIEnabled : bool) (ui : UI) (disk : gmap string string)
    (name : string) : result Z :=
  match Open webUIEnabled ui disk name with
  | Err e => Err e
  | Ok file => Ok (StatSize file)
  end.

End fs.

(** ** Progress tracker (package progress) *)

Module progress.

(** [Percent] and [OverallPercent] are [float64] in the source; they are
    rationals here, so that the arithmetic of [updateFeedPercent] is
    exact. *)
Module EpisodeProgress.
Record t := mk {
  FeedID : string;
  EpisodeID : string;
  EpisodeTitle : string;
  Stage : string;
  Percent : Q;
  Downloaded : Z;
  Total : Z;
  Speed : string;
  StartTime : time.Time;
  LastUpdateTime : time.Time
}.
End EpisodeProgress.

Module FeedProgress.
Record t := mk {
  FeedID : string;
  TotalEpisodes : Z;
  CompletedCount : Z;
  DownloadingCount : Z;
  QueuedCount : Z;
  OverallPercent : Q;
  StartTime : time.Time
}.
Definition setOverallPercent (p : Q) (fp : t) : t :=
  mk (FeedID fp) (TotalEpisodes fp) (CompletedCount fp) (DownloadingCount fp)
     (QueuedCount fp) p (StartTime fp).
Definition setDownloadingCount (n : Z) (fp : t) : t :=
  mk (FeedID fp) (TotalEpisodes fp) (CompletedCount fp) n
     (QueuedCount fp) (OverallPercent fp) (StartTime fp).
Definition setCompletedCount (n : Z) (fp : t) : t :=
  mk (FeedID fp) (TotalEpisodes fp) n (DownloadingCount fp)
     (QueuedCount fp) (OverallPercent fp) (StartTime fp).
Definition setQueuedCount (n : Z) (fp : t) : t :=
  mk (FeedID fp) (TotalEpisodes fp) (CompletedCount fp) (DownloadingCount fp)
     n (OverallPercent fp) (StartTime fp).
End FeedProgress.

Record Tracker := mkTracker {
  feedProgress : gmap string FeedProgress.t;
  episodeProgress : gmap string EpisodeProgress.t
}.

Definition New : Tracker := mkTracker ∅ ∅.

(** The episode records the loop of [updateFeedPercent] and of [ClearFeed]
    selects: those whose [FeedID] field is the feed's. *)
Definition episodesOf (t : Tracker) (feedID : string)
  : list EpisodeProgress.t :=
  List.filter (fun ep => String.eqb (EpisodeProgress.FeedID ep) feedID)
              (List.map snd (map_to_list (episodeProgress t))).

(** [updateFeedPercent]; the caller stores the result back under the feed
    ([fp] is a pointer into the map in the source). *)
Definition updateFeedPercent (t : Tracker) (fp : FeedProgress.t)
  : FeedProgress.t :=
  if FeedProgress.TotalEpisodes fp =? 0 then
    FeedProgress.setOverallPercent 0%Q fp
  else
    let completed := inject_Z (FeedProgress.CompletedCount fp) in
    let completed :=
      fold_left (fun acc ep => (acc + EpisodeProgress.Percent ep / 100)%Q)
                (episodesOf t (FeedProgress.FeedID fp)) completed in
    FeedProgress.setOverallPercent
      ((completed / inject_Z (FeedProgress.TotalEpisodes fp)) * 100)%Q fp.

Definition InitFeedProgress (t : Tracker) (now : time.Time)
    (feedID : string) (totalEpisodes : Z) : Tracker :=
  mkTracker
    (<[feedID := FeedProgress.mk feedID totalEpisodes 0 0 0 0%Q now]>
       (feedProgress t))
    (episodeProgress t).

Definition StartEpisode (t : Tracker) (now : time.Time)
    (feedID episodeID episodeTitle : string) : Tracker :=
  let key := feedID +:+ "/" +:+ episodeID in
  let t :=
    mkTracker (feedProgress t)
      (<[key := EpisodeProgress.mk feedID episodeID episodeTitle
                  "downloading" 0%Q 0 0 "" now now]> (episodeProgress t)) in
  match feedProgress t !! feedID with
  | Some fp =>
      let fp :=
        FeedProgress.setDownloadingCount
          (wrap64 (FeedProgress.DownloadingCount fp + 1)) fp in
      let fp :=
        if FeedProgress.QueuedCount fp >? 0 then
          FeedProgress.setQueuedCount
            (wrap64 (FeedProgress.QueuedCount fp - 1)) fp
        else fp in
      mkTracker (<[feedID := updateFeedPercent t fp]> (feedProgress t))
                (episodeProgress t)
  | None => t
  end.

Definition UpdateEpisode (t : Tracker) (now : time.Time)
    (feedID episodeID stage : string) (percent : Q) (downloaded total : Z)
    (speed : string) : Tracker :=
  let key := feedID +:+ "/" +:+ episodeID in
  let ep :=
    match episodeProgress t !! key with
    | Some ep => ep
    | None =>
        (* Episode wasn't started properly, create it *)
        EpisodeProgress.mk feedID episodeID "" "" 0%Q 0 0 "" now 0
    end in
  let ep :=
    EpisodeProgress.mk (EpisodeProgress.FeedID ep)
      (EpisodeProgress.EpisodeID ep) (EpisodeProgress.EpisodeTitle ep)
      stage percent downloaded total speed
      (EpisodeProgress.StartTime ep) now in
  mkTracker (feedProgress t) (<[key := ep]> (episodeProgress t)).

Definition CompleteEpisode (t : Tracker) (feedID episodeID : string)
  : Tracker :=
  let key := feedID +:+ "/" +:+ episodeID in
  let t := mkTracker (feedProgress t) (delete key (episodeProgress t)) in
  match feedProgress t !! feedID with
  | Some fp =>
      let fp :=
        if FeedProgress.DownloadingCount fp >? 0 then
          FeedProgress.setDownloadingCount
            (wrap64 (FeedProgress.DownloadingCount fp - 1)) fp
        else fp in
      let fp :=
        FeedProgress.setCompletedCount
          (wrap64 (FeedProgress.CompletedCount fp + 1)) fp in
      mkTracker (<[feedID := updateFeedPercent t fp]> (feedProgress t))
                (episodeProgress t)
  | None => t
  end.

Definition QueueEpisodes (t : Tracker) (feedID : string) (count : Z)
  : Tracker :=
  match feedProgress t !! feedID with
  | Some fp =>
      let fp :=
        FeedProgress.setQueuedCount
          (wrap64 (FeedProgress.QueuedCount fp + count)) fp in
      mkTracker (<[feedID := updateFeedPercent t fp]> (feedProgress t))
                (episodeProgress t)
  | None => t
  end.

Definition ClearFeed (t : Tracker) (feedID : string) : Tracker :=
  mkTracker
    (delete feedID (feedProgress t))
    (filter (fun kv : string * EpisodeProgress.t =>
               EpisodeProgress.FeedID kv.2 <> feedID)
            (episodeProgress t)).

(** The operations the pipeline and the download driver perform on the
    tracker, as data. *)
Inductive Op :=
| OpInit (feedID : string) (totalEpisodes : Z)
| OpQueue (feedID : string) (count : Z)
| OpStart (feedID episodeID episodeTitle : string)
| OpUpdate (feedID episodeID stage : string) (percent : Q)
           (downloaded total : Z) (speed : string)
| OpComplete (feedID episodeID : string)
| OpClear (feedID : string).

Definition apply (now : time.Time) (op : Op) (t : Tracker) : Tracker :=
  match op with
  | OpInit feedID totalEpisodes => InitFeedProgress t now feedID totalEpisodes
  | OpQueue feedID count => QueueEpisodes t feedID count
  | OpStart feedID episodeID title => StartEpisode t now feedID episodeID title
  | OpUpdate feedID episodeID stage percent downloaded total speed =>
      UpdateEpisode t now feedID episodeID stage percent downloaded total speed
  | OpComplete feedID episodeID => CompleteEpisode t feedID episodeID
  | OpClear feedID => ClearFeed t feedID
  end.

(** A sequence of operations, each stamped with the time of its call. *)
Definition run (ops : list (time.Time * Op)) (t : Tracker) : Tracker :=
  fold_left (fun t '(now, op) => apply now op t) ops t.

(** *** Reading the tracker *)

(** The readers return copies; a copy of an immutable value is the value. *)
Definition GetFeedProgress (t : Tracker) (feedID : string)
  : option FeedProgress.t :=
  feedProgress t !! feedID.

Definition GetAllFeedProgress (t : Tracker) : gmap string FeedProgress.t :=
  feedProgress t.

Definition GetEpisodeProgress (t : Tracker) (feedID episodeID : string)
  : option EpisodeProgress.t :=
  let key := feedID +:+ "/" +:+ episodeID in
  episodeProgress t !! key.

(** The order of a [range] over a Go map is unspecified; the list is in the
    order of [map_to_list]. *)
Definition GetAllEpisodeProgress (t : Tracker) : list EpisodeProgress.t :=
  List.map snd (map_to_list (episodeProgress t)).

Definition GetEpisodesForFeed (t : Tracker) (feedID : string)
  : list EpisodeProgress.t :=
  List.filter (fun ep => String.eqb (EpisodeProgress.FeedID ep) feedID)
              (List.map snd (map_to_list (episodeProgress t))).

Definition HasActiveDownloads (t : Tracker) : bool :=
  (0 <? Z.of_nat (size (feedProgress t))) ||
  (0 <? Z.of_nat (size (episodeProgress t))).

End progress.

(** ** Feed configuration (package feed) *)

(** Modelled from the spec: [feed.Config] and [feed.Cleanup] are declared
    outside the sources; the fields are the ones the update engine and the
    scheduler read.  [UpdatePeriod] is a [time.Duration] in nanoseconds. *)
Module feed.

Module Cleanup.
Record t := mk { KeepLast : Z }.
#[global] Instance Cleanup_eq_dec : EqDecision t.
Proof. solve_decision. Defined.
End Cleanup.

Module Config.
Record t := mk {
  ID : string;
  URL : string;
  PageSize : Z;
  UpdatePeriod : Z;
  CronSchedule : string;
  Clean : option Cleanup.t
}.
Definition setCronSchedule (s : string) (c : t) : t :=
  mk (ID c) (URL c) (PageSize c) (UpdatePeriod c) s (Clean c).
#[global] Instance Config_eq_dec : EqDecision t.
Proof. solve_decision. Defined.
End Config.

End feed.

(** ** History recorder (package history) *)

Module history.

(** Seconds between the zero instant of [time.Time] and the Unix epoch. *)
Definition unixEpoch : Z := 62135596800.

(** [t.Unix()]. *)
Definition Unix (t : time.Time) : Z := t / 1000000000 - unixEpoch.

(** [t.Sub(u)]: the difference, saturated to the range of a Duration. *)
Definition Sub (t u : time.Time) : Z :=
  Z.max (- 2 ^ 63) (Z.min (2 ^ 63 - 1) (t - u)).

(** [string(episode.Status)].  Modelled from the spec: the constants are
    declared outside the sources; the spec gives their spelling. *)
Definition statusString (s : EpisodeStatus) : string :=
  match s with
  | EpisodeNew => "new"
  | EpisodeQueued => "queued"
  | EpisodeDownloading => "downloading"
  | EpisodeDownloaded => "downloaded"
  | EpisodeError => "error"
  | EpisodeCleaned => "cleaned"
  | EpisodeBlocked => "blocked"
  | EpisodeIgnored => "ignored"
  end.

(** The manager; its storage is the store the operations are applied to. *)
Record Manager := mkManager { enabled : bool }.

(** [fmt.Sprintf("%d-%s", timestamp, uuid.New().String())]. *)
Definition newEntryID (now : time.Time) (uuid : string) : string :=
  pretty (Unix now) +:+ "-" +:+ uuid.

Definition LogFeedUpdateStart (m : Manager) (b : gmap string Value)
    (now : time.Time) (uuid : string) (feedID feedTitle triggerType : string)
  : gmap string Value * string * option error :=
  if negb (enabled m) then (b, "", None)
  else
    let entryID := newEntryID now uuid in
    let entry :=
      HistoryEntry.mk entryID JobTypeFeedUpdate feedID feedTitle "" ""
        now None 0 JobStatusRunning triggerType JobStatistics.zero "" in
    match db.AddHistory b entry with
    | (b', Some e) => (b', "", Some e)
    | (b', None) => (b', entryID, None)
    end.

(** The mutation both [LogFeedUpdateEnd] and [LogFeedUpdateEndWithEpisodes]
    pass to [UpdateHistory]. *)
Definition closeEntry (now : time.Time) (status : string)
    (stats : JobStatistics.t) (errMsg : string) (entry : HistoryEntry.t)
  : HistoryEntry.t :=
  HistoryEntry.mk (HistoryEntry.ID entry) (HistoryEntry.JobType entry)
    (HistoryEntry.FeedID entry) (HistoryEntry.FeedTitle entry)
    (HistoryEntry.EpisodeID entry) (HistoryEntry.EpisodeTitle entry)
    (HistoryEntry.StartTime entry) (Some now)
    (Sub now (HistoryEntry.StartTime entry)) status
    (HistoryEntry.TriggerType entry) stats errMsg.

Definition LogFeedUpdateEnd (m : Manager) (b : gmap string Value)
    (now : time.Time) (entryID status : string) (stats : JobStatistics.t)
    (errMsg : string) : gmap string Value * option error :=
  if negb (enabled m) || String.eqb entryID "" then (b, None)
  else
    db.UpdateHistory b entryID
      (fun entry => Ok (closeEntry now status stats errMsg entry)).

(** The loop collecting the details of the processed episodes; an episode
    that cannot be read is skipped. *)
Fixpoint episodeDetails (b : gmap string Value) (feedID : string)
    (episodeIDs : list string) : list EpisodeDetail.t :=
  match episodeIDs with
  | [] => []
  | episodeID :: rest =>
      match db.GetEpisode b feedID episodeID with
      | Err _ => episodeDetails b feedID rest
      | Ok episode =>
          EpisodeDetail.mk (Episode.ID episode) (Episode.Title episode)
            (statusString (Episode.Status episode)) (Episode.Error episode)
            (Episode.Size episode) (Episode.Duration episode)
          :: episodeDetails b feedID rest
      end
  end.

Definition setEpisodeDetails (l : list EpisodeDetail.t)
    (s : JobStatistics.t) : JobStatistics.t :=
  JobStatistics.mk (JobStatistics.EpisodesQueued s)
    (JobStatistics.EpisodesDownloaded s) (JobStatistics.EpisodesFailed s)
    (JobStatistics.EpisodesIgnored s) (JobStatistics.BytesDownloaded s) l.

Definition LogFeedUpdateEndWithEpisodes (m : Manager)
    (b : gmap string Value) (now : time.Time) (entryID feedID : string)
    (episodeIDs : list string) (status : string) (stats : JobStatistics.t)
    (errMsg : string) : gmap string Value * option error :=
  if negb (enabled m) || String.eqb entryID "" then (b, None)
  else
    let stats := setEpisodeDetails (episodeDetails b feedID episodeIDs) stats in
    db.UpdateHistory b entryID
      (fun entry => Ok (closeEntry now status stats errMsg entry)).

(** The three recorders of manual episode operations; each writes one
    closed entry. *)
Definition LogEpisodeRetry (m : Manager) (b : gmap string Value)
    (now : time.Time) (uuid : string)
    (feedID feedTitle episodeID episodeTitle : string) (success : bool)
    (errMsg : string) : gmap string Value * option error :=
  if negb (enabled m) then (b, None)
  else
    let entryID := newEntryID now uuid in
    let status := if negb success then JobStatusFailed else JobStatusSuccess in
    db.AddHistory b
      (HistoryEntry.mk entryID JobTypeEpisodeRetry feedID feedTitle episodeID
         episodeTitle now (Some now) 0 status TriggerManual
         JobStatistics.zero errMsg).

Definition LogEpisodeDelete (m : Manager) (b : gmap string Value)
    (now : time.Time) (uuid : string)
    (feedID feedTitle episodeID episodeTitle : string) (success : bool)
    (errMsg : string) : gmap string Value * option error :=
  if negb (enabled m) then (b, None)
  else
    let entryID := newEntryID now uuid in
    let status := if negb success then JobStatusFailed else JobStatusSuccess in
    db.AddHistory b
      (HistoryEntry.mk entryID JobTypeEpisodeDelete feedID feedTitle episodeID
         episodeTitle now (Some now) 0 status TriggerManual
         JobStatistics.zero errMsg).

Definition LogEpisodeBlock (m : Manager) (b : gmap string Value)
    (now : time.Time) (uuid : string)
    (feedID feedTitle episodeID episodeTitle : string) (success : bool)
    (errMsg : string) : gmap string Value * option error :=
  if negb (enabled m) then (b, None)
  else
    let entryID := newEntryID now uuid in
    let status := if negb success then JobStatusFailed else JobStatusSuccess in
    db.AddHistory b
      (HistoryEntry.mk entryID JobTypeEpisodeBlock feedID feedTitle episodeID
         episodeTitle now (Some now) 0 status TriggerManual
         JobStatistics.zero errMsg).

(** [CleanupOldEntries]; the cut-off is the one [CleanupHistory] computes
    from the clock. *)
Definition CleanupOldEntries (m : Manager) (b : gmap string Value)
    (cutoffTime : time.Time) (retentionDays maxEntries : Z)
  : gmap string Value * option error :=
  if negb (enabled m) then (b, None)
  else db.CleanupHistory b cutoffTime retentionDays maxEntries.

End history.

(** ** Feed updater (package update) *)

Module update.

(** One call of the progress callback by the download driver: what
    [parseProgressLine] reads from a line of output. *)
Record ProgressLine := mkLine {
  lineStage : string;
  linePercent : Q;
  lineDownloaded : Z;
  lineTotal : Z;
  lineSpeed : string
}.

(** The state the pipeline works on: the database, the artifact store, the
    progress tracker, the trace of the episodes handed to the download
    driver, and the progress callback installed in the driver, the field
    [progressCallback] of [YoutubeDl].  The only callback the sources
    install is the closure of [downloadEpisodes], which reports to the
    tracker under the feed and episode identifiers it captured; it is kept
    as that pair. *)
Record World := mkWorld {
  database : gmap string Value;
  storage : gmap string string;
  progressTracker : progress.Tracker;
  downloadRequests : list string;
  progressCallback : option (string * string)
}.

Definition setDatabase (b : gmap string Value) (w : World) : World :=
  mkWorld b (storage w) (progressTracker w) (downloadRequests w)
          (progressCallback w).
Definition setStorage (d : gmap string string) (w : World) : World :=
  mkWorld (database w) d (progressTracker w) (downloadRequests w)
          (progressCallback w).
Definition setTracker (t : progress.Tracker) (w : World) : World :=
  mkWorld (database w) (storage w) t (downloadRequests w)
          (progressCallback w).
Definition logRequest (episodeID : string) (w : World) : World :=
  mkWorld (database w) (storage w) (progressTracker w)
          (downloadRequests w ++ [episodeID]) (progressCallback w).
(** [SetProgressCallback]. *)
Definition SetProgressCallback (callback : option (string * string))
    (w : World) : World :=
  mkWorld (database w) (storage w) (progressTracker w) (downloadRequests w)
          callback.

(** What lies outside the engine during one run: the clock (taken as
    constant during the run), the random part of the history identifier,
    the answer of the listing adapter ([builder.ParseURL], the key lookup,
    [builder.New] and [provider.Build], whose errors [updateFeed] returns
    as they are), the answer of the download driver for each episode, and
    the progress lines the driver parses while it downloads the episode. *)
Record Env := mkEnv {
  now : time.Time;
  uuid : string;
  listing : result Feed.t;
  download : Episode.t -> result fs.Reader;
  progressLines : Episode.t -> list ProgressLine
}.

(** [ytdl]: whether the downloader is the [*ytdl.YoutubeDl], the one that
    takes a progress callback. *)
Record Manager := mkManager {
  hostname : string;
  historyManager : history.Manager;
  ytdl : bool
}.

Section Pipeline.

(** Functions of the repository that are not among the sources. *)
Variable EpisodeName : feed.Config.t -> Episode.t -> string.
Variable matchFilters : Episode.t -> feed.Config.t -> bool.
Variable feedBuild : Feed.t -> feed.Config.t -> string -> result string.
Variable BuildOPML : gmap string Value -> string -> result string.
(** [sort.Slice(list, less)], a library function that is not stable. *)
Variable sortSlice :
  (Episode.t -> Episode.t -> bool) -> list Episode.t -> list Episode.t.

Variable u : Manager.
Variable env : Env.

Definition logHistoryEnd (b : gmap string Value) (historyID status : string)
    (stats : JobStatistics.t) (errMsg : string) : gmap string Value :=
  (history.LogFeedUpdateEnd (historyManager u) b (now env) historyID status
     stats errMsg).1.

Definition logHistoryEndWithEpisodes (b : gmap string Value)
    (historyID feedID : string) (episodeIDs : list string) (status : string)
    (stats : JobStatistics.t) (errMsg : string) : gmap string Value :=
  (history.LogFeedUpdateEndWithEpisodes (historyManager u) b (now env)
     historyID feedID episodeIDs status stats errMsg).1.

(** *** updateFeed *)

(** The callback of the first walk: [episodeSet] and [blockedEpisodes]. *)
Definition classify (episode : Episode.t)
    (st : gset string * gset string)
  : (gset string * gset string) * option error :=
  let '(episodeSet, blockedEpisodes) := st in
  if decide (Episode.Status episode = EpisodeBlocked) then
    ((episodeSet, {[Episode.ID episode]} ∪ blockedEpisodes), None)
  else if decide (Episode.Status episode <> EpisodeDownloaded /\
                  Episode.Status episode <> EpisodeCleaned) then
    (({[Episode.ID episode]} ∪ episodeSet, blockedEpisodes), None)
  else ((episodeSet, blockedEpisodes), None).

(** [for id := range episodeSet { DeleteEpisode }]. *)
Fixpoint removeEpisodes (b : gmap string Value) (feedID : string)
    (ids : list string) : gmap string Value * option error :=
  match ids with
  | [] => (b, None)
  | id :: rest =>
      match db.DeleteEpisode b feedID id with
      | (b', Some e) => (b', Some e)
      | (b', None) => removeEpisodes b' feedID rest
      end
  end.

Definition updateFeed (feedConfig : feed.Config.t) (b : gmap string Value)
  : gmap string Value * option error :=
  match listing env with
  | Err e => (b, Some e)
  | Ok result =>
      let feedID := feed.Config.ID feedConfig in
      match db.WalkEpisodes b feedID classify (∅, ∅) with
      | (_, Some e) => (b, Some e)
      | ((episodeSet, blockedEpisodes), None) =>
          let filteredEpisodes :=
            List.filter
              (fun episode =>
                 negb (bool_decide (Episode.ID episode ∈ blockedEpisodes)))
              (Feed.Episodes result) in
          let result := Feed.setEpisodes filteredEpisodes result in
          match db.AddFeed b feedID result with
          | (b1, Some e) => (b1, Some e)
          | (b1, None) =>
              let episodeSet :=
                fold_left (fun s episode => s ∖ {[Episode.ID episode]})
                          (Feed.Episodes result) episodeSet in
              removeEpisodes b1 feedID (elements episodeSet)
          end
      end
  end.

(** *** fetchEpisodes *)

(** The walk reads a snapshot; [UpdateEpisode] inside the callback writes
    to the database in a transaction of its own.  The state of the callback
    is the database, the download list and the remaining page size. *)
Definition selectEpisode (feedConfig : feed.Config.t) (episode : Episode.t)
    (st : gmap string Value * list Episode.t * Z)
  : (gmap string Value * list Episode.t * Z) * option error :=
  let '(b, downloadList, pageSize) := st in
  let feedID := feed.Config.ID feedConfig in
  if decide (Episode.Status episode = EpisodeBlocked) then (st, None)
  else if decide (Episode.Status episode <> EpisodeNew /\
                  Episode.Status episode <> EpisodeError) then (st, None)
  else if negb (matchFilters episode feedConfig) then
    if decide (Episode.Status episode = EpisodeNew) then
      let '(b', _) :=
        db.UpdateEpisode b feedID (Episode.ID episode)
          (fun ep => Ok (Episode.setStatus EpisodeIgnored ep)) in
      ((b', downloadList, pageSize), None)
    else (st, None)
  else
    let pageSize := wrap64 (pageSize - 1) in
    if pageSize <? 0 then ((b, downloadList, pageSize), None)
    else ((b, downloadList ++ [episode], pageSize), None).

Definition fetchEpisodes (feedConfig : feed.Config.t)
    (b : gmap string Value)
  : gmap string Value * result (list Episode.t) :=
  let feedID := feed.Config.ID feedConfig in
  match db.WalkEpisodes b feedID (selectEpisode feedConfig)
          (b, [], feed.Config.PageSize feedConfig) with
  | ((b', _, _), Some e) => (b', Err (Wrap e "failed to build update list"))
  | ((b', downloadList, _), None) => (b', Ok downloadList)
  end.

(** *** downloadEpisodes *)

Definition artifactPath (feedConfig : feed.Config.t) (episode : Episode.t)
  : string :=
  feed.Config.ID feedConfig +:+ "/" +:+ EpisodeName feedConfig episode.

(** [UpdateEpisode] with a mutator that cannot fail. *)
Definition mutateEpisode (w : World) (feedID episodeID : string)
    (f : Episode.t -> Episode.t) : World * option error :=
  let '(b, err) :=
    db.UpdateEpisode (database w) feedID episodeID (fun ep => Ok (f ep)) in
  (setDatabase b w, err).

(** The progress callback at work: [execWithProgress] hands every progress
    line to the callback that is installed, if any. *)
Definition reportProgress (w : World) (line : ProgressLine) : World :=
  match progressCallback w with
  | Some (feedID, episodeID) =>
      setTracker
        (progress.UpdateEpisode (progressTracker w) (now env) feedID
           episodeID (lineStage line) (linePercent line)
           (lineDownloaded line) (lineTotal line) (lineSpeed line)) w
  | None => w
  end.

(** The driver at work on an episode, up to its answer: the request is
    noted in the trace and the progress lines are reported. *)
Definition downloading (episode : Episode.t) (w : World) : World :=
  fold_left reportProgress (progressLines env episode)
            (logRequest (Episode.ID episode) w).

(** The first loop: every candidate becomes [queued]; a failure is only
    logged. *)
Fixpoint markQueued (w : World) (feedID : string)
    (downloadList : list Episode.t) : World :=
  match downloadList with
  | [] => w
  | episode :: rest =>
      markQueued
        (mutateEpisode w feedID (Episode.ID episode)
           (Episode.setStatus EpisodeQueued)).1
        feedID rest
  end.

(** How one turn of the download loop ends. *)
Inductive Flow :=
| Continue            (* next candidate *)
| Break               (* leave the loop, return nil *)
| Return (e : error). (* return the error *)

Definition downloadEpisode (feedConfig : feed.Config.t)
    (episode : Episode.t) (w : World) : World * Flow :=
  let feedID := feed.Config.ID feedConfig in
  let path := artifactPath feedConfig episode in
  match fs.Size (storage w) path with
  | Ok size =>
      (* File already exists, update file status and disk size *)
      match mutateEpisode w feedID (Episode.ID episode)
              (fun ep => Episode.setStatus EpisodeDownloaded
                           (Episode.setSize size ep)) with
      | (w, Some e) => (w, Return e)
      | (w, None) => (w, Continue)
      end
  | Err e =>
      if negb (IsNotExist e) then (w, Return e)
      else
        (* Update episode status to downloading and start progress tracking *)
        let w :=
          (mutateEpisode w feedID (Episode.ID episode)
             (Episode.setStatus EpisodeDownloading)).1 in
        let w :=
          setTracker
            (progress.StartEpisode (progressTracker w) (now env) feedID
               (Episode.ID episode) (Episode.Title episode)) w in
        (* Set up progress callback for ytdl if it supports it *)
        let w :=
          if ytdl u then
            SetProgressCallback (Some (feedID, Episode.ID episode)) w
          else w in
        let w := downloading episode w in
        match download env episode with
        | Err e =>
            if decide (e = ErrTooManyRequests) then (w, Break)
            else
              match mutateEpisode w feedID (Episode.ID episode)
                      (fun ep => Episode.setError (Error e)
                                   (Episode.setStatus EpisodeError ep)) with
              | (w, Some e') => (w, Return e')
              | (w, None) => (w, Continue)
              end
        | Ok tempFile =>
            let '(disk, fileSize, err) :=
              fs.Create (storage w) path tempFile in
            let w := setStorage disk w in
            match err with
            | Some e => (w, Return e)
            | None =>
                (* post episode download hooks: their failures are logged *)
                match mutateEpisode w feedID (Episode.ID episode)
                        (fun ep => Episode.setStatus EpisodeDownloaded
                                     (Episode.setSize fileSize ep)) with
                | (w, Some e) => (w, Return e)
                | (w, None) =>
                    (setTracker
                       (progress.CompleteEpisode (progressTracker w) feedID
                          (Episode.ID episode)) w,
                     Continue)
                end
            end
        end
  end.

Fixpoint downloadLoop (feedConfig : feed.Config.t)
    (downloadList : list Episode.t) (w : World) : World * option error :=
  match downloadList with
  | [] => (w, None)
  | episode :: rest =>
      match downloadEpisode feedConfig episode w with
      | (w, Continue) => downloadLoop feedConfig rest w
      | (w, Break) => (w, None)
      | (w, Return e) => (w, Some e)
      end
  end.

Definition downloadEpisodes (feedConfig : feed.Config.t)
    (downloadList : list Episode.t) (w : World) : World * option error :=
  let downloadCount := Z.of_nat (length downloadList) in
  let feedID := feed.Config.ID feedConfig in
  if negb (downloadCount >? 0) then (w, None)
  else
    let w :=
      setTracker
        (progress.InitFeedProgress (progressTracker w) (now env) feedID
           downloadCount) w in
    let w := markQueued w feedID downloadList in
    let w :=
      setTracker
        (progress.QueueEpisodes (progressTracker w) feedID downloadCount) w in
    let '(w, err) := downloadLoop feedConfig downloadList w in
    (* defer u.progressTracker.ClearFeed(feedID) *)
    (setTracker (progress.ClearFeed (progressTracker w) feedID) w, err).

Record episodeStats := mkStats {
  downloaded : Z;
  failed : Z;
  bytesDownloaded : Z
}.

Fixpoint collectEpisodeStats (b : gmap string Value) (feedID : string)
    (episodes : list Episode.t) (stats : episodeStats) : episodeStats :=
  match episodes with
  | [] => stats
  | ep :: rest =>
      match db.GetEpisode b feedID (Episode.ID ep) with
      | Err _ => collectEpisodeStats b feedID rest stats
      | Ok current =>
          let stats :=
            match Episode.Status current with
            | EpisodeDownloaded =>
                mkStats (downloaded stats + 1) (failed stats)
                        (wrap64 (bytesDownloaded stats + Episode.Size current))
            | EpisodeError =>
                mkStats (downloaded stats) (failed stats + 1)
                        (bytesDownloaded stats)
            | _ => stats
            end in
          collectEpisodeStats b feedID rest stats
      end
  end.

Definition downloadEpisodesWithStats (feedConfig : feed.Config.t)
    (downloadList : list Episode.t) (w : World) : World * (Z * Z * Z) :=
  let feedID := feed.Config.ID feedConfig in
  let initialStats :=
    collectEpisodeStats (database w) feedID downloadList (mkStats 0 0 0) in
  let '(w, _) := downloadEpisodes feedConfig downloadList w in
  let finalStats :=
    collectEpisodeStats (database w) feedID downloadList (mkStats 0 0 0) in
  (w, (downloaded finalStats - downloaded initialStats,
       failed finalStats - failed initialStats,
       wrap64 (bytesDownloaded finalStats - bytesDownloaded initialStats))).

(** *** cleanup *)

(** [multierror]: the accumulated errors, nil when there is none. *)
Definition ErrorOrNil (errs : list error) : option error :=
  match errs with
  | [] => None
  | _ => Some (ErrOther (String.concat "; " (List.map Error errs)))
  end.

Definition cleanEpisode (feedConfig : feed.Config.t) (episode : Episode.t)
    (st : World * list error) : World * list error :=
  let '(w, result) := st in
  let feedID := feed.Config.ID feedConfig in
  let path := artifactPath feedConfig episode in
  let '(disk, err) := fs.Delete (storage w) path in
  let w := setStorage disk w in
  match
    match err with
    | Some e => if negb (IsErrNotExist e) then Some e else None
    | None => None
    end
  with
  | Some e =>
      (* failed to delete episode file: continue *)
      (w, result ++ [Wrap e ("failed to delete episode: " +:+
                             Episode.ID episode)])
  | None =>
      match mutateEpisode w feedID (Episode.ID episode)
              (fun ep => Episode.setDescription ""
                           (Episode.setTitle ""
                              (Episode.setStatus EpisodeCleaned ep))) with
      | (w, Some e) =>
          (w, result ++ [Wrap e ("failed to set state for cleaned episode: "
                                 +:+ Episode.ID episode)])
      | (w, None) => (w, result)
      end
  end.

Definition cleanup (feedConfig : feed.Config.t) (w : World)
  : World * option error :=
  match feed.Config.Clean feedConfig with
  | None => (w, None)
  | Some clean =>
      let count := feed.Cleanup.KeepLast clean in
      if count <? 1 then (w, None)
      else
        match db.WalkEpisodes (database w) (feed.Config.ID feedConfig)
                (fun episode (list : list Episode.t) =>
                   if decide (Episode.Status episode = EpisodeDownloaded)
                   then (list ++ [episode], None) else (list, None)) [] with
        | (_, Some e) => (w, Some e)
        | (list, None) =>
            if count >? Z.of_nat (length list) then (w, None)
            else
              let list :=
                sortSlice
                  (fun a b => time.After (Episode.PubDate a)
                                         (Episode.PubDate b)) list in
              let '(w, result) :=
                fold_left (fun st episode => cleanEpisode feedConfig episode st)
                          (drop (Z.to_nat count) list) (w, []) in
              (w, ErrorOrNil result)
        end
  end.

(** *** buildXML, buildOPML *)

Definition buildXML (feedConfig : feed.Config.t) (w : World)
  : World * option error :=
  match db.GetFeed (database w) (feed.Config.ID feedConfig) with
  | Err e => (w, Some e)
  | Ok f =>
      match feedBuild f feedConfig (hostname u) with
      | Err e => (w, Some e)
      | Ok podcast =>
          let xmlName := feed.Config.ID feedConfig +:+ ".xml" in
          let '(disk, _, err) :=
            fs.Create (storage w) xmlName (fs.fileReader podcast) in
          match err with
          | Some e =>
              (setStorage disk w, Some (Wrap e "failed to upload new XML feed"))
          | None => (setStorage disk w, None)
          end
      end
  end.

Definition buildOPML (w : World) : World * option error :=
  match BuildOPML (database w) (hostname u) with
  | Err e => (w, Some e)
  | Ok opml =>
      let xmlName := "podsync" +:+ ".opml" in
      let '(disk, _, err) :=
        fs.Create (storage w) xmlName (fs.fileReader opml) in
      match err with
      | Some e => (setStorage disk w, Some (Wrap e "failed to upload OPML"))
      | None => (setStorage disk w, None)
      end
  end.

(** *** Update *)

Definition setCounts (queued downloaded failed bytes : Z)
    (s : JobStatistics.t) : JobStatistics.t :=
  JobStatistics.mk queued downloaded failed (JobStatistics.EpisodesIgnored s)
    bytes (JobStatistics.EpisodeDetails s).

(** "Determine final status". *)
Definition finalStatus (stats : JobStatistics.t) : string :=
  if (JobStatistics.EpisodesFailed stats >? 0) &&
     (JobStatistics.EpisodesDownloaded stats >? 0) then JobStatusPartial
  else if JobStatistics.EpisodesFailed stats >? 0 then JobStatusFailed
  else JobStatusSuccess.

Definition failWith (w : World) (historyID : string)
    (stats : JobStatistics.t) (updateErr : error) : World * option error :=
  (setDatabase
     (logHistoryEnd (database w) historyID JobStatusFailed stats
        (Error updateErr)) w,
   Some updateErr).

(** "Get feed info for history logging": the title of the stored feed, the
    feed identifier when there is none. *)
Definition feedTitleOf (feedConfig : feed.Config.t) (w : World) : string :=
  let feedID := feed.Config.ID feedConfig in
  match db.GetFeed (database w) feedID with
  | Ok feedInfo =>
      if negb (String.eqb (Feed.Title feedInfo) "") then Feed.Title feedInfo
      else feedID
  | Err _ => feedID
  end.

Definition Update (feedConfig : feed.Config.t) (w : World)
  : World * option error :=
  let feedID := feed.Config.ID feedConfig in
  let feedTitle := feedTitleOf feedConfig w in
  (* Log history entry start *)
  let '(b, historyID, _) :=
    history.LogFeedUpdateStart (historyManager u) (database w) (now env)
      (uuid env) feedID feedTitle TriggerScheduled in
  let w := setDatabase b w in
  let stats := JobStatistics.zero in
  match updateFeed feedConfig (database w) with
  | (b, Some err) =>
      failWith (setDatabase b w) historyID stats (Wrap err "update failed")
  | (b, None) =>
      let w := setDatabase b w in
      match fetchEpisodes feedConfig (database w) with
      | (b, Err err) =>
          failWith (setDatabase b w) historyID stats
            (Wrap err "fetch episodes failed")
      | (b, Ok episodesToDownload) =>
          let w := setDatabase b w in
          let episodeIDs := List.map Episode.ID episodesToDownload in
          let '(w, (downloadedCount, failedCount, bytesDownloaded)) :=
            downloadEpisodesWithStats feedConfig episodesToDownload w in
          let stats :=
            setCounts (Z.of_nat (length episodesToDownload)) downloadedCount
              failedCount bytesDownloaded stats in
          (* a cleanup failure is logged *)
          let '(w, _) := cleanup feedConfig w in
          match buildXML feedConfig w with
          | (w, Some err) =>
              failWith w historyID stats (Wrap err "xml build failed")
          | (w, None) =>
              match buildOPML w with
              | (w, Some err) =>
                  failWith w historyID stats (Wrap err "opml build failed")
              | (w, None) =>
                  let status := finalStatus stats in
                  (setDatabase
                     (logHistoryEndWithEpisodes (database w) historyID feedID
                        episodeIDs status stats "") w,
                   None)
              end
          end
      end
  end.

(** *** Manual operations on one episode *)

(** [getFeedTitle]: the stored title, the feed identifier when the feed
    cannot be read or has no title. *)
Definition getFeedTitle (b : gmap string Value) (feedID : string) : string :=
  match db.GetFeed b feedID with
  | Err _ => feedID
  | Ok feed =>
      if negb (String.eqb (Feed.Title feed) "") then Feed.Title feed
      else feedID
  end.

(** [strconv.Quote], behind the verb [%q] of the error messages. *)
Variable Quote : string -> string.

Definition logEpisodeDelete (w : World) (feedID episodeID episodeTitle : string)
    (success : bool) (errMsg : string) : World :=
  setDatabase
    (history.LogEpisodeDelete (historyManager u) (database w) (now env)
       (uuid env) feedID (getFeedTitle (database w) feedID) episodeID
       episodeTitle success errMsg).1 w.

Definition logEpisodeBlock (w : World) (feedID episodeID episodeTitle : string)
    (success : bool) (errMsg : string) : World :=
  setDatabase
    (history.LogEpisodeBlock (historyManager u) (database w) (now env)
       (uuid env) feedID (getFeedTitle (database w) feedID) episodeID
       episodeTitle success errMsg).1 w.

Definition logEpisodeRetry (w : World) (feedID episodeID episodeTitle : string)
    (success : bool) (errMsg : string) : World :=
  setDatabase
    (history.LogEpisodeRetry (historyManager u) (database w) (now env)
       (uuid env) feedID (getFeedTitle (database w) feedID) episodeID
       episodeTitle success errMsg).1 w.

(** [DeleteEpisode]: "deletes both the database entry and media file for an
    episode".  [feeds] is the table of configured feeds. *)
Definition DeleteEpisode (feeds : gmap string feed.Config.t)
    (feedID episodeID : string) (w : World) : World * option error :=
  match feeds !! feedID with
  | None => (w, Some (ErrOther ("feed " +:+ Quote feedID +:+ " not found")))
  | Some feedConfig =>
      (* Get the episode from the database *)
      match db.GetEpisode (database w) feedID episodeID with
      | Err err =>
          (logEpisodeDelete w feedID episodeID "" false (Error err),
           Some (Wrap err ("failed to get episode " +:+ feedID +:+ "/" +:+
                           episodeID)))
      | Ok episode =>
          let episodeTitle := Episode.Title episode in
          (* Delete the media file if it exists; a failure is logged *)
          let path := feedID +:+ "/" +:+ EpisodeName feedConfig episode in
          let '(disk, _) := fs.Delete (storage w) path in
          let w := setStorage disk w in
          (* Delete the database entry *)
          match db.DeleteEpisode (database w) feedID episodeID with
          | (b, Some err) =>
              (logEpisodeDelete (setDatabase b w) feedID episodeID
                 episodeTitle false (Error err),
               Some (Wrap err ("failed to delete episode from database " +:+
                               feedID +:+ "/" +:+ episodeID)))
          | (b, None) =>
              (logEpisodeDelete (setDatabase b w) feedID episodeID
                 episodeTitle true "", None)
          end
      end
  end.

(** [BlockEpisode]: "marks an episode as blocked, preventing it from being
    re-downloaded". *)
Definition BlockEpisode (feeds : gmap string feed.Config.t)
    (feedID episodeID : string) (w : World) : World * option error :=
  match feeds !! feedID with
  | None => (w, Some (ErrOther ("feed " +:+ Quote feedID +:+ " not found")))
  | Some feedConfig =>
      let afterRecord (w : World) (episode : Episode.t)
          (episodeTitle : string) : World * option error :=
        (* Delete the media file if it exists; a failure is logged *)
        let path := feedID +:+ "/" +:+ EpisodeName feedConfig episode in
        let '(disk, _) := fs.Delete (storage w) path in
        let w := setStorage disk w in
        (logEpisodeBlock w feedID episodeID episodeTitle true "", None) in
      match db.GetEpisode (database w) feedID episodeID with
      | Err err =>
          if decide (err = ErrNotFound) then
            (* Episode doesn't exist, create a blocked entry *)
            let episode :=
              Episode.mk episodeID "" "" 0 "" 0 0 EpisodeBlocked "" in
            let tempFeed := Feed.mk feedID "" "" [episode] in
            match db.AddFeed (database w) feedID tempFeed with
            | (b, Some err) =>
                (logEpisodeBlock (setDatabase b w) feedID episodeID "" false
                   (Error err),
                 Some (Wrap err ("failed to create blocked episode " +:+
                                 feedID +:+ "/" +:+ episodeID)))
            | (b, None) => afterRecord (setDatabase b w) episode ""
            end
          else
            (logEpisodeBlock w feedID episodeID "" false (Error err),
             Some (Wrap err ("failed to get episode " +:+ feedID +:+ "/" +:+
                             episodeID)))
      | Ok episode =>
          let episodeTitle := Episode.Title episode in
          (* Episode exists, update status to blocked *)
          match mutateEpisode w feedID episodeID
                  (Episode.setStatus EpisodeBlocked) with
          | (w, Some err) =>
              (logEpisodeBlock w feedID episodeID episodeTitle false
                 (Error err),
               Some (Wrap err ("failed to block episode " +:+ feedID +:+ "/"
                               +:+ episodeID)))
          | (w, None) => afterRecord w episode episodeTitle
          end
      end
  end.

(** [RetryEpisode]: "retries downloading a single episode". *)
Definition RetryEpisode (feeds : gmap string feed.Config.t)
    (feedID episodeID : string) (w : World) : World * option error :=
  match feeds !! feedID with
  | None => (w, Some (ErrOther ("feed " +:+ Quote feedID +:+ " not found")))
  | Some feedConfig =>
      match db.GetEpisode (database w) feedID episodeID with
      | Err err =>
          (logEpisodeRetry w feedID episodeID "" false (Error err),
           Some (Wrap err ("failed to get episode " +:+ feedID +:+ "/" +:+
                           episodeID)))
      | Ok episode =>
          let episodeTitle := Episode.Title episode in
          let path := feedID +:+ "/" +:+ EpisodeName feedConfig episode in
          (* Reset episode status to new and clear any error message *)
          match mutateEpisode w feedID episodeID
                  (fun ep => Episode.setError ""
                               (Episode.setStatus EpisodeNew ep)) with
          | (w, Some err) =>
              (w, Some (Wrap err "failed to reset episode status"))
          | (w, None) =>
              (* Check whether episode already exists on disk *)
              match fs.Size (storage w) path with
              | Ok size =>
                  (* File already exists, update file status and disk size *)
                  match mutateEpisode w feedID episodeID
                          (fun ep => Episode.setStatus EpisodeDownloaded
                                       (Episode.setSize size ep)) with
                  | (w, Some err) => (w, Some err)
                  | (w, None) => (w, None)
                  end
              | Err err =>
                  if negb (IsNotExist err) then (w, Some err)
                  else
                    (* Download episode to disk; no callback is
                       installed here: the last one stays in place *)
                    let w := downloading episode w in
                    match download env episode with
                    | Err err =>
                        (* Update episode status to error with the error
                           message; a failure of the update is logged *)
                        let w :=
                          (mutateEpisode w feedID episodeID
                             (fun ep => Episode.setError (Error err)
                                          (Episode.setStatus EpisodeError ep))
                          ).1 in
                        (logEpisodeRetry w feedID episodeID episodeTitle false
                           (Error err),
                         Some (Wrap err "download failed"))
                    | Ok tempFile =>
                        let '(disk, fileSize, err) :=
                          fs.Create (storage w) path tempFile in
                        let w := setStorage disk w in
                        match err with
                        | Some err =>
                            let w :=
                              (mutateEpisode w feedID episodeID
                                 (fun ep =>
                                    Episode.setError
                                      ("failed to copy file: " +:+ Error err)
                                      (Episode.setStatus EpisodeError ep))).1 in
                            (w, Some err)
                        | None =>
                            (* post episode download hooks: their failures
                               are logged *)
                            match mutateEpisode w feedID episodeID
                                    (fun ep =>
                                       Episode.setError ""
                                         (Episode.setStatus EpisodeDownloaded
                                            (Episode.setSize fileSize ep)))
                            with
                            | (w, Some err) => (w, Some err)
                            | (w, None) =>
                                (* Rebuild XML feed; a failure is logged *)
                                let w := (buildXML feedConfig w).1 in
                                (logEpisodeRetry w feedID episodeID
                                   episodeTitle true "", None)
                            end
                        end
                    end
              end
          end
      end
  end.

End Pipeline.

End update.

(** ** Scheduler start-up (package main, the cron scheduler goroutine) *)

Module scheduler.

(** An entry of the cron registry: its identifier, its schedule, and the
    feed configuration its function pushes onto the update queue. *)
Record Entry := mkEntry {
  EntryID : Z;
  Spec : string;
  cronFeed : feed.Config.t
}.

(** The cron engine [c], the map [m] from feed identifiers to entries, and
    the update queue as the sequence of the configurations sent to it (a
    send on the full channel waits for the worker; the order of the sends
    is what is kept here). *)
Record State := mkState {
  entries : list Entry;
  m : gmap string Z;
  updates : list feed.Config.t;
  running : bool
}.

Definition init : State := mkState [] ∅ [] false.

Definition send (f : feed.Config.t) (st : State) : State :=
  mkState (entries st) (m st) (updates st ++ [f]) (running st).

Section Cron.

(** [time.Duration.String] and the cron parser's verdict on a schedule,
    both from libraries. *)
Variable durationString : Z -> string.
Variable validSpec : string -> bool.

(** [c.AddFunc(spec, cmd)]: entry identifiers are handed out in sequence,
    starting at 1. *)
Definition AddFunc (spec : string) (job : feed.Config.t) (st : State)
  : result (Z * State) :=
  if validSpec spec then
    let id := Z.of_nat (length (entries st)) + 1 in
    Ok (id, mkState (entries st ++ [mkEntry id spec job]) (m st)
                    (updates st) (running st))
  else Err (ErrOther ("bad cron spec: " +:+ spec)).

(** The schedule synthesised for a feed without cron expression. *)
Definition effective (_feed : feed.Config.t) : feed.Config.t :=
  if String.eqb (feed.Config.CronSchedule _feed) "" then
    feed.Config.setCronSchedule
      ("@every " +:+ durationString (feed.Config.UpdatePeriod _feed)) _feed
  else _feed.

(** One turn of [for _, _feed := range cfg.Feeds]. *)
Definition schedule (_feed : feed.Config.t) (st : State) : result State :=
  (* Track if this feed has an explicit cron schedule *)
  let hasExplicitCronSchedule :=
    negb (String.eqb (feed.Config.CronSchedule _feed) "") in
  let cronFeed := effective _feed in
  match AddFunc (feed.Config.CronSchedule cronFeed) cronFeed st with
  | Err e =>
      Err (ErrOther ("can't create cron task for feed: " +:+
                     feed.Config.ID cronFeed))
  | Ok (cronID, st) =>
      let st :=
        mkState (entries st) (<[feed.Config.ID cronFeed := cronID]> (m st))
                (updates st) (running st) in
      (* Only perform initial update if no explicit cron schedule is
         configured *)
      if negb hasExplicitCronSchedule then Ok (send cronFeed st) else Ok st
  end.

Fixpoint scheduleAll (feeds : list feed.Config.t) (st : State)
  : result State :=
  match feeds with
  | [] => Ok st
  | _feed :: rest =>
      match schedule _feed st with
      | Err e => Err e
      | Ok st => scheduleAll rest st
      end
  end.

(** The goroutine up to and including [c.Start()]; [feeds] lists the
    configurations in the order the range over [cfg.Feeds] visits them. *)
Definition cronScheduler (feeds : list feed.Config.t) : result State :=
  match scheduleAll feeds init with
  | Err e => Err e
  | Ok st => Ok (mkState (entries st) (m st) (updates st) true)
  end.

(** The function registered with [AddFunc], run by the engine when the
    entry's schedule fires; a stopped engine fires nothing. *)
Definition fire (id : Z) (st : State) : State :=
  if running st then
    match List.find (fun e => EntryID e =? id) (entries st) with
    | Some e => send (cronFeed e) st
    | None => st
    end
  else st.

Definition fireAll (ids : list Z) (st : State) : State :=
  fold_left (fun st id => fire id st) ids st.

End Cron.

End scheduler.

(** ** Notions used to state the properties *)

(** The keys a scan with the given prefix reaches: every key with the
    prefix going forward; going backward with a non-empty prefix only the
    keys that are not above the seek key, the prefix followed by the byte
    0xFF. *)
Definition reached (prefix : string) (reverse : bool) (key : string) : bool :=
  String.prefix prefix key &&
  (negb reverse || String.eqb prefix "" ||
   String.leb key (prefix +:+ String "255" "")).

Definition episodeKey (feedID episodeID : string) : string :=
  db.getKey (db.episodePath feedID episodeID).

Definition wellKeyedItem (feedID : string) (k : string) (v : Value) : bool :=
  if String.prefix (db.getKey (db.episodePrefix feedID)) k then
    match v with
    | VEpisode e => String.eqb k (episodeKey feedID (Episode.ID e))
    | _ => false
    end
  else true.

(** The prefix range of the feed holds nothing but episodes of the feed,
    each under the key built from its own identifier: what [WalkEpisodes]
    delivers are the episodes that belong to the feed. *)
Definition wellKeyed (b : gmap string Value) (feedID : string) : Prop :=
  map_Forall (fun k v => wellKeyedItem feedID k v = true) b.

(** The episodes a walk over the feed delivers, in the order of the walk. *)
Definition storedEpisodes (b : gmap string Value) (feedID : string)
  : list Episode.t :=
  omap (fun item : db.Item =>
          match db.unmarshalEpisode item.2 with
          | Ok e => Some e
          | Err _ => None
          end)
       (db.prefixItems b (db.getKey (db.episodePrefix feedID)) false).

(** The statuses [updateFeed] puts into its removal set: every status but
    blocked, downloaded and cleaned. *)
Definition pending (e : Episode.t) : Prop :=
  Episode.Status e <> EpisodeBlocked /\
  Episode.Status e <> EpisodeDownloaded /\
  Episode.Status e <> EpisodeCleaned.

(** A feed in interval mode: no explicit cron expression. *)
Definition interval (f : feed.Config.t) : bool :=
  String.eqb (feed.Config.CronSchedule f) "".

(** *** A discipline for the callers of the tracker *)

Definition progressKey (feedID episodeID : string) : string :=
  feedID +:+ "/" +:+ episodeID.

(** An episode is active for a feed when the tracker holds its record. *)
Definition active (t : progress.Tracker) (feedID episodeID : string) : Prop :=
  exists ep,
    progress.episodeProgress t !! progressKey feedID episodeID = Some ep /\
    progress.EpisodeProgress.FeedID ep = feedID.

(** When an operation respects the discipline: a feed is initialised with
    the length of a list and without leftover episode records; an episode
    is started at most once and only while fewer than [total_episodes]
    episodes have been started; progress is reported and completion
    signalled only for an active episode, with a percentage between 0 and
    100.  The tracker checks none of this. *)
Definition allowed (op : progress.Op) (t : progress.Tracker) : Prop :=
  match op with
  | progress.OpInit feedID totalEpisodes =>
      0 <= totalEpisodes < 2 ^ 63 /\ progress.episodesOf t feedID = []
  | progress.OpQueue _ _ => True
  | progress.OpStart feedID episodeID _ =>
      progress.episodeProgress t !! progressKey feedID episodeID = None /\
      forall fp,
        progress.feedProgress t !! feedID = Some fp ->
        progress.FeedProgress.CompletedCount fp +
        progress.FeedProgress.DownloadingCount fp <
        progress.FeedProgress.TotalEpisodes fp
  | progress.OpUpdate feedID episodeID _ percent _ _ _ =>
      active t feedID episodeID /\ (0 <= percent <= 100)%Q
  | progress.OpComplete feedID episodeID => active t feedID episodeID
  | progress.OpClear _ => True
  end.

Fixpoint disciplined (ops : list (time.Time * progress.Op))
    (t : progress.Tracker) : Prop :=
  match ops with
  | [] => True
  | (now, op) :: rest =>
      allowed op t /\ disciplined rest (progress.apply now op t)
  end.

(** The invariant the discipline maintains. *)
Definition feedOk (t : progress.Tracker) (feedID : string)
    (fp : progress.FeedProgress.t) : Prop :=
  progress.FeedProgress.FeedID fp = feedID /\
  0 <= progress.FeedProgress.CompletedCount fp /\
  0 <= progress.FeedProgress.DownloadingCount fp /\
  progress.FeedProgress.CompletedCount fp +
  progress.FeedProgress.DownloadingCount fp
    <= progress.FeedProgress.TotalEpisodes fp /\
  progress.FeedProgress.TotalEpisodes fp < 2 ^ 63 /\
  Z.of_nat (length (progress.episodesOf t feedID))
    <= progress.FeedProgress.DownloadingCount fp /\
  (0 <= progress.FeedProgress.OverallPercent fp <= 100)%Q.

Definition trackerOk (t : progress.Tracker) : Prop :=
  (forall feedID fp,
      progress.feedProgress t !! feedID = Some fp -> feedOk t feedID fp) /\
  (forall k ep,
      progress.episodeProgress t !! k = Some ep ->
      (0 <= progress.EpisodeProgress.Percent ep <= 100)%Q).

(** What the cleanup stage turns a downloaded episode into. *)
Definition cleaned (e : Episode.t) : Episode.t :=
  Episode.setDescription "" (Episode.setTitle "" (Episode.setStatus EpisodeCleaned e)).

(** The comparison [cleanup] hands to [sort.Slice]: newer first. *)
Definition newerFirst (a b : Episode.t) : bool :=
  time.After (Episode.PubDate a) (Episode.PubDate b).

(** The downloaded episodes of a feed, in the order of the walk. *)
Definition downloadedEpisodes (b : gmap string Value) (feedID : string)
  : list Episode.t :=
  List.filter (fun e => bool_decide (Episode.Status e = EpisodeDownloaded))
              (storedEpisodes b feedID).

(** [a] is not older than [b]. *)
Definition notOlder (a b : Episode.t) : Prop :=
  Episode.PubDate b <= Episode.PubDate a.

Definition historyKey (id : string) : string := db.getKey (db.historyPath id).

(** A key outside the records of a feed: neither its feed record nor one of
    its episode keys. *)
Definition foreign (feedID : string) (k : string) : Prop :=
  k <> db.getKey (db.feedPath feedID) /\
  forall episodeID, k <> episodeKey feedID episodeID.

(** How many of the candidates were in status error before the run. *)
Definition errorCount (l : list Episode.t) : Z :=
  Z.of_nat (length (List.filter
                      (fun e => bool_decide (Episode.Status e = EpisodeError))
                      l)).

(** What [fetchEpisodes] lets into the download list: new episodes and
    episodes whose last attempt failed. *)
Definition candidate (e : Episode.t) : Prop :=
  Episode.Status e = EpisodeNew \/ Episode.Status e = EpisodeError.

(** ** Concrete stores *)

Module examples.

Definition mkEntry (id : string) (start : time.Time) (title : string)
  : HistoryEntry.t :=
  HistoryEntry.mk id JobTypeFeedUpdate "" "" "" title start None 0
    JobStatusSuccess TriggerScheduled JobStatistics.zero "".

(** A store filled through [AddHistory], oldest entry first. *)
Definition addAll (l : list HistoryEntry.t) : gmap string Value :=
  fold_left (fun b e => (db.AddHistory b e).1) l ∅.

(** One hundred entries with ascending timestamps 1000, ..., 1099; the
    identifiers are [<unix seconds>-<suffix>] as the recorder builds them. *)
Definition hundred : list HistoryEntry.t :=
  List.map (fun n => mkEntry (pretty n +:+ "-job") (Z.of_nat n) "")
           (seq 1000 100).

Definition store100 : gmap string Value := addAll hundred.

(** A feed update (no episode title) and an episode retry, with a search
    string that occurs in neither. *)
Definition updateEntry : HistoryEntry.t := mkEntry "1700000000-u" 1700000000 "".
Definition retryEntry : HistoryEntry.t :=
  HistoryEntry.mk "1700000100-r" JobTypeEpisodeRetry "" "" "ep1" "Morning news"
    1700000100 (Some 1700000100) 0 JobStatusSuccess TriggerManual
    JobStatistics.zero "".
Definition store2 : gmap string Value := addAll [updateEntry; retryEntry].
Definition searchFilter : HistoryFilters.t :=
  HistoryFilters.setSearch "zebra" HistoryFilters.zero.

(** Episodes as a listing delivers them. *)
Definition mkEpisode (id title : string) (pub : time.Time)
    (status : EpisodeStatus) : Episode.t :=
  Episode.mk id title ("about " +:+ title) 300 ("https://video/" +:+ id) pub 0
    status "".

(** A store where episode [a] of feed [f1] is already downloaded. *)
Definition storedA : Episode.t :=
  Episode.setSize 4096 (mkEpisode "a" "First" 10 EpisodeDownloaded).
Definition storeA : gmap string Value :=
  <[db.getKey (db.episodePath "f1" "a") := VEpisode storedA]> ∅.

(** A listing that carries [a] again (as new) and a fresh episode [b]. *)
Definition listedA : Episode.t := mkEpisode "a" "First (renamed)" 10 EpisodeNew.
Definition listedB : Episode.t := mkEpisode "b" "Second" 20 EpisodeNew.
Definition listingAB : Feed.t :=
  Feed.mk "f1" "Channel" "A channel" [listedA; listedB].

(** Instances of the functions that are not among the sources. *)
Definition EpisodeName (_ : feed.Config.t) (episode : Episode.t) : string :=
  Episode.ID episode +:+ ".mp3".
Definition matchFilters (_ : Episode.t) (_ : feed.Config.t) : bool := true.
Definition feedBuild (f : Feed.t) (_ : feed.Config.t) (host : string)
  : result string :=
  Ok ("<rss " +:+ host +:+ ">" +:+
      String.concat ","
        (List.map Episode.ID
           (List.filter
              (fun ep => bool_decide (Episode.Status ep = EpisodeDownloaded))
              (Feed.Episodes f))) +:+ "</rss>").
Definition BuildOPML (_ : gmap string Value) (_ : string) : result string :=
  Ok "<opml/>".

(** A stable insertion sort as the instance of [sort.Slice]. *)
Fixpoint insertBy (less : Episode.t -> Episode.t -> bool) (x : Episode.t)
    (l : list Episode.t) : list Episode.t :=
  match l with
  | [] => [x]
  | y :: rest => if less y x then y :: insertBy less x rest else x :: l
  end.
Definition sortSlice (less : Episode.t -> Episode.t -> bool)
    (l : list Episode.t) : list Episode.t :=
  fold_right (insertBy less) [] l.

Definition manager : update.Manager :=
  update.mkManager "http://pod" (history.mkManager true) true.

Definition feedF1 : feed.Config.t :=
  feed.Config.mk "f1" "https://video/channel" 50 3600000000000 "" None.

(** Scenario "rate limit mid-run": the listing returns A, B, C and the
    driver answers TooManyRequests on B. *)
Definition epA : Episode.t := mkEpisode "A" "Alpha" 10 EpisodeNew.
Definition epB : Episode.t := mkEpisode "B" "Beta" 20 EpisodeNew.
Definition epC : Episode.t := mkEpisode "C" "Gamma" 30 EpisodeNew.
(** The progress lines of a download: half way, done, then encoding. *)
Definition threeLines : list update.ProgressLine :=
  [update.mkLine "downloading" (50 # 1) 1000 2000 "1.00MiB/s";
   update.mkLine "downloading" (100 # 1) 2000 2000 "";
   update.mkLine "encoding" (100 # 1) 0 0 ""].
Definition rateLimited : update.Env :=
  update.mkEnv 63800000000000000000 "uuid-1"
    (Ok (Feed.mk "f1" "Channel" "A channel" [epA; epB; epC]))
    (fun episode =>
       if String.eqb (Episode.ID episode) "B" then Err ErrTooManyRequests
       else Ok (fs.fileReader ("media of " +:+ Episode.ID episode)))
    (fun episode =>
       if String.eqb (Episode.ID episode) "B" then [] else threeLines).
Definition emptyWorld : update.World :=
  update.mkWorld ∅ ∅ progress.New [] None.

Definition run (env : update.Env) (cfg : feed.Config.t) (w : update.World)
  : update.World * option error :=
  update.Update EpisodeName matchFilters feedBuild BuildOPML sortSlice
    manager env cfg w.

(** Feed [f1] with one episode of each status that is neither new nor
    error: [q] queued, [g] downloading, [i] ignored, [d] downloaded,
    [c] cleaned, [k] blocked; and a listing that contains none of them. *)
Definition storeOf (feedID : string) (l : list Episode.t) : gmap string Value :=
  fold_left (fun b e => <[episodeKey feedID (Episode.ID e) := VEpisode e]> b)
            l ∅.
Definition epQ : Episode.t := mkEpisode "q" "Queued" 1 EpisodeQueued.
Definition epG : Episode.t := mkEpisode "g" "Downloading" 2 EpisodeDownloading.
Definition epI : Episode.t := mkEpisode "i" "Ignored" 3 EpisodeIgnored.
Definition epD : Episode.t := mkEpisode "d" "Downloaded" 4 EpisodeDownloaded.
Definition epK : Episode.t := mkEpisode "k" "Blocked" 5 EpisodeBlocked.
Definition epCl : Episode.t := mkEpisode "c" "" 6 EpisodeCleaned.
Definition storeStatuses : gmap string Value :=
  storeOf "f1" [epQ; epG; epI; epD; epCl; epK].
Definition listingOf (l : list Episode.t) : update.Env :=
  update.mkEnv 63800000000000000000 "uuid-2"
    (Ok (Feed.mk "f1" "Channel" "A channel" l))
    (fun _ => Err (ErrOther "no network"))
    (fun _ => []).
(** The provider still lists the blocked episode, as new. *)
Definition listedK : Episode.t := mkEpisode "k" "Blocked" 5 EpisodeNew.

(** Two readers for the artifact store: one delivers its data in two
    chunks, the other breaks after the first chunk. *)
Definition twoChunks : fs.Reader := fs.mkReader ["abc"; "def"] None.
Definition broken : fs.Reader :=
  fs.mkReader ["abc"] (Some (ErrOther "unexpected EOF")).

(** Two configured feeds: [f1] updates every hour, [f2] has a cron
    expression. *)
Definition feedF2 : feed.Config.t :=
  feed.Config.mk "f2" "https://video/other" 50 3600000000000 "0 3 * * *" None.
Definition durationString (d : Z) : string :=
  pretty (d / 1000000000) +:+ "s".
Definition validSpec (spec : string) : bool := negb (String.eqb spec "").

(** Tracker traces: completion signalled twice for a feed of one episode;
    and the trace of a run that downloads one episode of two. *)
Definition completedTwice : list (time.Time * progress.Op) :=
  [(1, progress.OpInit "f1" 1);
   (2, progress.OpComplete "f1" "a");
   (3, progress.OpComplete "f1" "a")].
Definition oneOfTwo : list (time.Time * progress.Op) :=
  [(1, progress.OpInit "f1" 2);
   (1, progress.OpQueue "f1" 2);
   (2, progress.OpStart "f1" "a" "First");
   (3, progress.OpUpdate "f1" "a" "downloading" 50%Q 512 1024 "1.0MiB/s");
   (4, progress.OpComplete "f1" "a");
   (5, progress.OpStart "f1" "b" "Second")].

(** Scenario "cleanup keeps last 2": four downloaded episodes published at
    1 < 2 < 3 < 4; the artifact of the oldest one is already gone. *)
Definition feedKeep2 : feed.Config.t :=
  feed.Config.mk "f1" "https://video/channel" 50 3600000000000 ""
    (Some (feed.Cleanup.mk 2)).
Definition ep1 : Episode.t := mkEpisode "e1" "One" 1 EpisodeDownloaded.
Definition ep2 : Episode.t := mkEpisode "e2" "Two" 2 EpisodeDownloaded.
Definition ep3 : Episode.t := mkEpisode "e3" "Three" 3 EpisodeDownloaded.
Definition ep4 : Episode.t := mkEpisode "e4" "Four" 4 EpisodeDownloaded.
Definition fourDownloaded : update.World :=
  update.mkWorld
    (storeOf "f1" [ep3; ep1; ep4; ep2])
    (<["f1/e2.mp3" := "two"]>
       (<["f1/e3.mp3" := "three"]> (<["f1/e4.mp3" := "four"]> ∅)))
    progress.New [] None.

End examples.

(** ** Further notions: keys of the gateway *)

Definition feedKey (feedID : string) : string := db.getKey (db.feedPath feedID).

Definition historyIndexKey (feedID id : string) : string :=
  db.getKey (db.historyByFeed feedID id).

(** A key of the episode range of a feed: what [DeleteFeed] and
    [WalkEpisodes] scan. *)
Definition inEpisodeRange (feedID k : string) : bool :=
  String.prefix (db.getKey (db.episodePrefix feedID)) k.

(** A key of the main history table. *)
Definition inHistoryRange (k : string) : bool :=
  String.prefix (db.getKey db.historyPrefix) k.

(** The main history table holds nothing but entries, each under the key
    built from its own identifier. *)
Definition historyKeyed (b : gmap string Value) : Prop :=
  forall k v,
    b !! k = Some v -> inHistoryRange k = true ->
    exists entry, v = VHistory entry /\ k = historyKey (HistoryEntry.ID entry).

(** Whether a scan of the main history table reaches the entry with the
    given identifier: always going forward; going backward only when the
    identifier is not above the one-byte string 0xFF, that is, unless it
    starts with the byte 0xFF and goes on. *)
Definition scanned (reverse : bool) (id : string) : bool :=
  negb reverse || String.leb id (String "255" "").

(** The entries a scan of the main history table delivers, in the order of
    the scan; with [reverse] newest identifier first, the scan of
    [CleanupHistory]. *)
Definition historyScan (b : gmap string Value) (reverse : bool)
  : list HistoryEntry.t :=
  omap (fun item : db.Item =>
          match db.unmarshalHistory item.2 with
          | Ok e => Some e
          | Err _ => None
          end)
       (db.prefixItems b (db.getKey db.historyPrefix) reverse).

(** The feeds [WalkFeeds] hands to its callback, in the order of the walk. *)
Definition listFeeds (b : gmap string Value) : list Feed.t * option error :=
  db.WalkFeeds b (fun f (l : list Feed.t) => (l ++ [f], None)) [].

(** The feed range holds nothing but feed records. *)
Definition feedsDecodable (b : gmap string Value) : Prop :=
  forall k v,
    b !! k = Some v -> String.prefix (db.getKey db.feedPrefix) k = true ->
    exists f, v = VFeed f.

(** What the callback of [WalkFeeds] receives for an item of the scan. *)
Definition walkedFeed (item : db.Item) : option Feed.t :=
  match db.unmarshalFeed item.2 with
  | Err _ => None
  | Ok f =>
      let prefix := db.getKey db.feedPrefix in
      Some (if (String.length prefix <? String.length item.1)%nat then
              Feed.setID
                (String.substring (String.length prefix)
                   (String.length item.1 - String.length prefix) item.1) f
            else f)
  end.

(** The three tests of [CleanupHistory] for the entry met at position [i]
    (counted from 0) of the newest-first scan: delete-all mode, older than
    the retention period, beyond the first [maxEntries] entries scanned. *)
Definition marked (retentionDays maxEntries : Z) (cutoffTime : time.Time)
    (i : nat) (entry : HistoryEntry.t) : bool :=
  ((retentionDays =? 0) && (maxEntries =? 0)) ||
  ((retentionDays >? 0) &&
   time.Before (HistoryEntry.StartTime entry) cutoffTime) ||
  ((maxEntries >? 0) && (Z.of_nat (S i) >? maxEntries)).

(** The identifiers marked in a scan that has already met [n] entries. *)
Fixpoint markedIDs (retentionDays maxEntries : Z) (cutoffTime : time.Time)
    (n : nat) (l : list HistoryEntry.t) : list string :=
  match l with
  | [] => []
  | entry :: rest =>
      (if marked retentionDays maxEntries cutoffTime n entry
       then [HistoryEntry.ID entry] else []) ++
      markedIDs retentionDays maxEntries cutoffTime (S n) rest
  end.

(** ** Further notions: the stages of an update *)

(** What [fetchEpisodes] puts on the download list, page size permitting:
    an episode that is new or in error and passes the filters. *)
Definition selectable (matchFilters : Episode.t -> feed.Config.t -> bool)
    (cfg : feed.Config.t) (e : Episode.t) : bool :=
  bool_decide (Episode.Status e = EpisodeNew \/
               Episode.Status e = EpisodeError) &&
  matchFilters e cfg.

(** What [fetchEpisodes] marks as ignored: a new episode that fails the
    filters. *)
Definition ignorable (matchFilters : Episode.t -> feed.Config.t -> bool)
    (cfg : feed.Config.t) (e : Episode.t) : bool :=
  bool_decide (Episode.Status e = EpisodeNew) && negb (matchFilters e cfg).

(** The closed entry a manual operation on an episode records. *)
Definition manualEntry (jobType : string) (now : time.Time) (uuid : string)
    (feedID feedTitle episodeID episodeTitle : string) (success : bool)
    (errMsg : string) : HistoryEntry.t :=
  HistoryEntry.mk (history.newEntryID now uuid) jobType feedID feedTitle
    episodeID episodeTitle now (Some now) 0
    (if success then JobStatusSuccess else JobStatusFailed) TriggerManual
    JobStatistics.zero errMsg.

(** What the three recorders of manual operations do to the database. *)
Definition recorded (m : history.Manager) (b b' : gmap string Value)
    (entry : HistoryEntry.t) : Prop :=
  (history.enabled m = true ->
   db.GetHistory b' (HistoryEntry.ID entry) = Ok entry) /\
  (forall k,
      (history.enabled m = true ->
       k <> historyKey (HistoryEntry.ID entry) /\
       k <> historyIndexKey (HistoryEntry.FeedID entry)
              (HistoryEntry.ID entry)) ->
      b' !! k = b !! k).

(** ** Further concrete stores *)

Module samples.

(** Two feeds written through [AddFeed]; the record of [f1] carries another
    identifier inside. *)
Definition twoFeeds : gmap string Value :=
  (db.AddFeed
     (db.AddFeed ∅ "f1"
        (Feed.mk "inner" "Channel" "A channel" [examples.listedA])).1
     "f2" (Feed.mk "f2" "Other" "Another channel" [])).1.

(** A journal of three entries of feed [f1], written through
    [AddHistory]. *)
Definition entryA : HistoryEntry.t :=
  HistoryEntry.mk "1700000000-a" JobTypeFeedUpdate "f1" "Channel" "" ""
    1700000000000000000 (Some 1700000005000000000) 5000000000
    JobStatusSuccess TriggerScheduled JobStatistics.zero "".
Definition entryB : HistoryEntry.t :=
  HistoryEntry.mk "1700000100-b" JobTypeEpisodeRetry "f1" "Channel" "a" "First"
    1700000100000000000 (Some 1700000100000000000) 0
    JobStatusFailed TriggerManual JobStatistics.zero "no network".
Definition entryC : HistoryEntry.t :=
  HistoryEntry.mk "1700000200-c" JobTypeFeedUpdate "f1" "Channel" "" ""
    1700000200000000000 None 0
    JobStatusRunning TriggerScheduled JobStatistics.zero "".
Definition journal : gmap string Value :=
  examples.addAll [entryB; entryC; entryA].

(** A filter that rejects the episode titled "Second", and a store of feed
    [f1] with two new episodes, a downloaded and a blocked one. *)
Definition pickyFilter (e : Episode.t) (_ : feed.Config.t) : bool :=
  negb (String.eqb (Episode.Title e) "Second").
Definition mixedStore : gmap string Value :=
  examples.storeOf "f1"
    [examples.listedA; examples.listedB; examples.epD; examples.epK].

(** Candidates A, B, C stored as new; the file of A is already in the
    artifact store; the driver fails on B and delivers everything else. *)
Definition flaky : update.Env :=
  update.mkEnv 63800000000000000000 "uuid-3"
    (Ok (Feed.mk "f1" "Channel" "A channel"
           [examples.epA; examples.epB; examples.epC]))
    (fun episode =>
       if String.eqb (Episode.ID episode) "B"
       then Err (ErrOther "video unavailable")
       else Ok (fs.fileReader ("media of " +:+ Episode.ID episode)))
    (fun _ => examples.threeLines).
Definition withFileOfA : update.World :=
  update.mkWorld
    (examples.storeOf "f1" [examples.epA; examples.epB; examples.epC])
    (<["f1/A.mp3" := "old file"]> ∅) progress.New [] None.

(** The listing adapter cannot reach the channel. *)
Definition unreachable : update.Env :=
  update.mkEnv 63800000000000000000 "uuid-4"
    (Err (ErrOther "channel not found"))
    (fun episode => Ok (fs.fileReader ("media of " +:+ Episode.ID episode)))
    (fun _ => examples.threeLines).
(** The table of configured feeds. *)
Definition feeds : gmap string feed.Config.t := <["f1" := examples.feedF1]> ∅.
(** [strconv.Quote] on identifiers that need no escaping. *)
Definition Quote (s : string) : string :=
  String "034"%char (s +:+ String "034"%char "").
(** A journal with an entry whose identifier starts with the byte 0xFF. *)
Definition highEntry : HistoryEntry.t :=
  HistoryEntry.mk (String "255" "x") JobTypeFeedUpdate "f1" "Channel" "" ""
    1700000300000000000 None 0 JobStatusRunning TriggerScheduled
    JobStatistics.zero "".
Definition highJournal : gmap string Value :=
  examples.addAll [entryA; highEntry].
(** Scenario "retry after a failed run".  The first run of [f1] lists the
    episode A and the driver fails on it; the episode is then retried by
    hand and downloads; the next run lists A and B. *)
Definition failing : update.Env :=
  update.mkEnv 63800000000000000000 "uuid-5"
    (Ok (Feed.mk "f1" "Channel" "A channel" [examples.epA]))
    (fun _ => Err (ErrOther "connection reset"))
    (fun _ => []).
Definition recovered : update.Env :=
  update.mkEnv 63800000100000000000 "uuid-6"
    (Ok (Feed.mk "f1" "Channel" "A channel" [examples.epA; examples.epB]))
    (fun episode => Ok (fs.fileReader ("media of " +:+ Episode.ID episode)))
    (fun _ => examples.threeLines).
Definition afterFailedRun : update.World :=
  (examples.run failing examples.feedF1 examples.emptyWorld).1.
Definition afterRetry : update.World :=
  (update.RetryEpisode examples.EpisodeName examples.feedBuild
     examples.manager recovered Quote feeds "f1" "A" afterFailedRun).1.
(** The next run, up to the call of [downloadEpisodes]: the listing is
    stored and the candidates are selected. *)
Definition nextRunStored : update.World :=
  update.setDatabase
    (update.updateFeed recovered examples.feedF1
       (update.database afterRetry)).1
    afterRetry.
Definition nextRunCandidates : list Episode.t :=
  match update.fetchEpisodes examples.matchFilters examples.feedF1
          (update.database nextRunStored) with
  | (_, Ok l) => l
  | (_, Err _) => []
  end.
Definition nextRunSelected : update.World :=
  update.setDatabase
    (update.fetchEpisodes examples.matchFilters examples.feedF1
       (update.database nextRunStored)).1
    nextRunStored.
(** [downloadEpisodes] of the next run, up to the end of its download
    loop: the state the tracker shows until the deferred [ClearFeed]. *)
Definition nextRunLoop : update.World * option error :=
  let w := nextRunSelected in
  let downloadCount := Z.of_nat (length nextRunCandidates) in
  let w :=
    update.setTracker
      (progress.InitFeedProgress (update.progressTracker w)
         (update.now recovered) "f1" downloadCount) w in
  let w := update.markQueued w "f1" nextRunCandidates in
  let w :=
    update.setTracker
      (progress.QueueEpisodes (update.progressTracker w) "f1" downloadCount)
      w in
  update.downloadLoop examples.EpisodeName examples.manager recovered
    examples.feedF1 nextRunCandidates w.
(** Two feeds whose identifiers are [a] and [a/b]: the keys of the episodes
    of [a/b] start with the key prefix of the episodes of [a].  Feed [a]
    keeps one downloaded episode. *)
Definition feedA : feed.Config.t :=
  feed.Config.mk "a" "https://video/a" 50 3600000000000 ""
    (Some (feed.Cleanup.mk 1)).
Definition listingA : update.Env :=
  update.mkEnv 63800000000000000000 "uuid-7"
    (Ok (Feed.mk "a" "Channel A" "A channel" [examples.listedK]))
    (fun _ => Err (ErrOther "no network"))
    (fun _ => []).
(** Feed [a] holds the blocked episode [k]; feed [a/b] holds a new episode
    with the same identifier. *)
Definition otherK : Episode.t :=
  examples.mkEpisode "k" "Of the other feed" 7 EpisodeNew.
Definition nestedBlocked : gmap string Value :=
  <[episodeKey "a/b" "k" := VEpisode otherK]>
    (examples.storeOf "a" [examples.epK]).
(** Feed [a] holds the downloaded episodes [e3] and [e4]; feed [a/b] holds
    the downloaded episode [e5], the newest of the three. *)
Definition ep5 : Episode.t :=
  examples.mkEpisode "e5" "Five" 5 EpisodeDownloaded.
Definition nestedDownloaded : update.World :=
  update.mkWorld
    (<[episodeKey "a/b" "e5" := VEpisode ep5]>
       (examples.storeOf "a" [examples.ep3; examples.ep4]))
    (<["a/e3.mp3" := "three"]>
       (<["a/e4.mp3" := "four"]> (<["a/b/e5.mp3" := "five"]> ∅)))
    progress.New [] None.
(** Transactions that refuse the write of the episode [b] of feed [f1], and
    transactions that cannot commit. *)
Definition tooBig : db.Faults :=
  db.mkFaults (fun _ _ => None)
    (fun _ key _ =>
       if String.eqb key (episodeKey "f1" "b")
       then Some "Txn is too big to fit into one request" else None)
    (fun _ => None).
Definition conflicting : db.Faults :=
  db.mkFaults (fun _ _ => None) (fun _ _ _ => None)
    (fun _ => Some "Transaction Conflict. Please retry").
End samples.

(** * Properties *)

(** ** Keys and prefix scans *)

Arguments db.getKey : simpl never.

Lemma prefix_app_same (a b c : string) :
  String.prefix (a +:+ b) (a +:+ c) = String.prefix b c.
Proof.
  induction a as [|x a IH]; simpl; [done|].
  destruct (ascii_dec x x); [exact IH | congruence].
Qed.

Lemma prefix_empty (s : string) : String.prefix "" s = true.
Proof. by destruct s. Qed.

Lemma append_inj_l (a b c : string) : a +:+ b = a +:+ c -> b = c.
Proof.
  induction a as [|x a IH]; simpl; [done|].
  intros H. injection H as H. auto.
Qed.

Lemma append_assoc (a b c : string) : (a +:+ b) +:+ c = a +:+ (b +:+ c).
Proof.
  induction a as [|x a IH]; [done|].
  change (String x ((a +:+ b) +:+ c) = String x (a +:+ (b +:+ c))).
  by f_equal.
Qed.

Lemma append_empty_r (a : string) : a +:+ "" = a.
Proof.
  induction a as [|x a IH]; [done|].
  change (String x (a +:+ "") = String x a). by f_equal.
Qed.

Lemma string_leb_trans (a : string) :
  forall b c, String.leb a b = true -> String.leb b c = true ->
              String.leb a c = true.
Proof.
  unfold String.leb.
  induction a as [|x a IH]; intros [|y b] [|z c]; simpl; try done.
  unfold Ascii.compare.
  destruct (N.compare_spec (N_of_ascii x) (N_of_ascii y)) as [Hxy|Hxy|Hxy],
           (N.compare_spec (N_of_ascii y) (N_of_ascii z)) as [Hyz|Hyz|Hyz],
           (N.compare_spec (N_of_ascii x) (N_of_ascii z)) as [Hxz|Hxz|Hxz];
    try done; try lia.
  apply IH.
Qed.

Lemma prefix_leb (p : string) : forall k, String.prefix p k = true -> String.leb p k = true.
Proof.
  unfold String.leb.
  induction p as [|x p IH]; intros [|y k]; simpl; try done.
  destruct (ascii_dec x y) as [->|]; [|done]. intros H.
  unfold Ascii.compare. rewrite N.compare_refl. by apply IH.
Qed.

(* between p and something that has prefix p *)
Lemma prefix_between (p : string) :
  forall x y, String.leb p x = true -> String.leb x y = true ->
              String.prefix p y = true -> String.prefix p x = true.
Proof.
  unfold String.leb.
  induction p as [|a p IH]; intros [|b x] [|c y]; simpl; try done.
  destruct (ascii_dec a c) as [->|]; [|done].
  unfold Ascii.compare.
  destruct (N.compare_spec (N_of_ascii c) (N_of_ascii b)) as [Hxy|Hxy|Hxy],
           (N.compare_spec (N_of_ascii b) (N_of_ascii c)) as [Hyz|Hyz|Hyz];
    try done; try lia.
  apply (f_equal ascii_of_N) in Hxy. rewrite !ascii_N_embedding in Hxy.
  subst c.
  destruct (ascii_dec b b); [|done]. apply IH.
Qed.

Lemma prefix_seekKey (p : string) : String.prefix p (p +:+ String "255" "") = true.
Proof. induction p as [|a p IH]; simpl; [done|]. by destruct (ascii_dec a a). Qed.

Lemma dropWhile_filter {A} (R : relation A) (P : A -> bool) (l : list A) :
  StronglySorted R l ->
  (forall x y, R x y -> P x = true -> P y = true) ->
  db.dropWhile (fun x => negb (P x)) l = List.filter P l.
Proof.
  intros Hs Hmono. induction Hs as [|x l Hs IH Hx]; simpl; [done|].
  destruct (P x) eqn:HP; simpl; [|exact IH].
  f_equal. symmetry. apply forallb_filter_id. apply forallb_forall.
  intros y Hy. apply (Hmono x y); [|done].
  rewrite Forall_forall in Hx. apply Hx. by apply list_elem_of_In.
Qed.

Lemma filter_none {A} (Q : A -> bool) (l : list A) :
  (forall y, y ∈ l -> Q y = false) -> List.filter Q l = [].
Proof.
  induction l as [|x l IH]; intros H; simpl; [done|].
  rewrite (H x) by left. apply IH. intros y Hy. apply H. by right.
Qed.

Lemma takeWhile_filter {A} (R : relation A) (Q : A -> bool) (l : list A) :
  StronglySorted R l ->
  (forall x y, x ∈ l -> y ∈ l -> R x y -> Q y = true -> Q x = true) ->
  db.takeWhile Q l = List.filter Q l.
Proof.
  intros Hs Hmono. induction Hs as [|x l Hs IH Hx]; simpl; [done|].
  destruct (Q x) eqn:HQ.
  - f_equal. apply IH. intros a b Ha Hb. apply Hmono; by right.
  - symmetry. apply filter_none. intros y Hy.
    destruct (Q y) eqn:HQy; [|done].
    rewrite <- HQ. symmetry. apply (Hmono x y); [by left|by right| |done].
    rewrite Forall_forall in Hx. by apply Hx.
Qed.

Lemma filter_filter {A} (P Q : A -> bool) (l : list A) :
  List.filter Q (List.filter P l) = List.filter (fun x => Q x && P x) l.
Proof.
  induction l as [|x l IH]; simpl; [done|].
  destruct (P x) eqn:HP; simpl; rewrite ?andb_true_r, ?andb_false_r;
    [destruct (Q x)|]; by rewrite IH.
Qed.

Lemma filter_sorted {A} (R : relation A) (P : A -> bool) (l : list A) :
  StronglySorted R l -> StronglySorted R (List.filter P l).
Proof.
  induction 1 as [|x l Hs IH Hx]; simpl; [constructor|].
  destruct (P x); [|done]. constructor; [done|].
  rewrite Forall_forall in *. intros y Hy. apply Hx.
  apply list_elem_of_In, filter_In in Hy as [Hy _]. by apply list_elem_of_In.
Qed.

Lemma rev_sorted {A} (R : relation A) (l : list A) :
  StronglySorted R l -> StronglySorted (flip R) (rev l).
Proof.
  induction 1 as [|x l Hs IH Hx]; simpl; [constructor|].
  apply StronglySorted_app. split; [|split; [done|repeat constructor]].
  intros a b Ha Hb. apply list_elem_of_In in Hb. destruct Hb as [<-|[]].
  rewrite Forall_forall in Hx. apply Hx.
  apply list_elem_of_In. apply list_elem_of_In, in_rev in Ha. done.
Qed.

Lemma key_le_trans : Transitive db.key_le.
Proof. intros a b c. unfold db.key_le. apply string_leb_trans. Qed.

Lemma key_le_total : Total db.key_le.
Proof. intros a b. unfold db.key_le. apply String.leb_total. Qed.

Lemma sorted_all (txn : gmap string Value) :
  StronglySorted db.key_le (merge_sort db.key_le (map_to_list txn)).
Proof.
  apply (@StronglySorted_merge_sort _ db.key_le _ key_le_trans key_le_total).
Qed.

Lemma trivially_sorted {A} (l : list A) : StronglySorted (fun _ _ => True) l.
Proof. induction l; constructor; [done|]. by apply Forall_forall. Qed.

Lemma prefix_refl (p : string) : String.prefix p p = true.
Proof. induction p as [|a p IH]; simpl; [done|]. by destruct (ascii_dec a a). Qed.

(** The scan of [iterator], item by item. *)
Lemma prefixItems_filter (txn : gmap string Value) prefix reverse :
  db.prefixItems txn prefix reverse =
  (if reverse then @rev db.Item else id)
    (List.filter (fun item : db.Item => reached prefix reverse item.1)
       (merge_sort db.key_le (map_to_list txn))).
Proof.
  unfold db.prefixItems.
  set (L := merge_sort db.key_le (map_to_list txn)).
  pose proof (sorted_all txn) as HL. fold L in HL.
  set (has := fun item : db.Item => String.prefix prefix item.1).
  destruct reverse.
  - (* backward *)
    pose proof (rev_sorted _ _ HL) as HD.
    rewrite <- filter_rev.
    set (D := rev L) in *.
    assert (forall key,
              key <> "" ->
              db.Seek D true key =
              List.filter (fun item : db.Item => String.leb item.1 key) D)
      as Hseek.
    { intros key Hkey. unfold db.Seek.
      apply String.eqb_neq in Hkey. rewrite Hkey.
      apply (dropWhile_filter (flip db.key_le)); [done|].
      intros x y Hxy Hx. unfold flip, db.key_le in Hxy.
      by apply (string_leb_trans _ _ _ Hxy). }
    assert (forall key,
              String.prefix prefix key = true ->
              db.takeWhile has
                (List.filter (fun item : db.Item => String.leb item.1 key) D)
              = List.filter
                  (fun item : db.Item => has item && String.leb item.1 key) D)
      as Htake.
    { intros key Hp.
      rewrite (takeWhile_filter (flip db.key_le)).
      - apply filter_filter.
      - by apply filter_sorted.
      - intros x y Hx Hy Hxy Hhas. unfold flip, db.key_le in Hxy.
        apply list_elem_of_In, filter_In in Hx as [_ Hx].
        unfold has in *. cbn beta in *.
        apply (prefix_between prefix x.1 key); [|done|done].
        apply (string_leb_trans _ y.1); [by apply prefix_leb|done]. }
    destruct (String.eqb prefix "") eqn:Hp.
    + (* empty prefix: plain Rewind *)
      apply String.eqb_eq in Hp. subst prefix.
      cbn [andb String.length Nat.ltb Nat.leb]. unfold db.Seek. cbn [String.eqb].
      rewrite (takeWhile_filter (fun _ _ => True)).
      * unfold has, reached. apply filter_ext. intros x. by destruct (fst x).
      * apply trivially_sorted.
      * intros. unfold has. by destruct (fst x).
    + assert (prefix <> "") as Hne by (by apply String.eqb_neq).
      assert ((0 <? String.length prefix)%nat = true) as ->
        by (by destruct prefix).
      cbn [andb].
      set (seekKey := prefix +:+ String "255" "").
      assert (seekKey <> "") as Hsk by (unfold seekKey; by destruct prefix).
      assert (List.filter (fun item : db.Item => reached prefix true item.1) D
              = List.filter
                  (fun item : db.Item => has item && String.leb item.1 seekKey) D)
        as ->.
      { apply filter_ext. intros x. unfold reached, has. by rewrite Hp. }
      rewrite !Hseek by done.
      pose proof (Htake seekKey (prefix_seekKey prefix)) as Hfull.
      destruct (db.Valid prefix (List.filter _ D)) eqn:Hvalid; cbn [negb];
        [exact Hfull|].
      (* the seek fell outside the prefix: Rewind *)
      rewrite (Htake prefix (prefix_refl prefix)).
      assert (db.takeWhile has
                (List.filter (fun item : db.Item => String.leb item.1 seekKey) D)
              = []) as Hnil.
      { destruct (List.filter (fun item : db.Item => String.leb item.1 seekKey) D)
          as [|item rest]; [done|].
        cbn [db.Valid] in Hvalid. cbn [db.takeWhile]. unfold has at 1.
        by rewrite Hvalid. }
      rewrite Hnil in Hfull. rewrite <- Hfull.
      apply filter_none. intros y Hy.
      destruct (has y && String.leb y.1 prefix) eqn:Hy'; [|done].
      apply andb_true_iff in Hy' as [Hh Hle].
      assert (y ∈ List.filter
                    (fun item : db.Item => has item && String.leb item.1 seekKey)
                    D) as Hin.
      { apply list_elem_of_In, filter_In.
        split; [by apply list_elem_of_In|].
        rewrite Hh. cbn [andb].
        apply (string_leb_trans _ _ _ Hle), prefix_leb, prefix_seekKey. }
      rewrite <- Hfull in Hin. by apply elem_of_nil in Hin.
  - (* forward *)
    cbn [andb id]. unfold db.Seek.
    assert (List.filter (fun item : db.Item => reached prefix false item.1) L
            = List.filter has L) as ->.
    { apply filter_ext. intros x. unfold reached, has. cbn [negb orb].
      by rewrite andb_true_r. }
    destruct (String.eqb prefix "") eqn:Hp.
    + apply String.eqb_eq in Hp.
      rewrite (takeWhile_filter (fun _ _ => True)); [done| |].
      * apply trivially_sorted.
      * intros. unfold has. rewrite Hp. by destruct (fst x).
    + rewrite (dropWhile_filter db.key_le
                 (fun item : db.Item => String.leb prefix item.1)); [|done|].
      2: { intros x y Hxy Hx. by apply (string_leb_trans _ _ _ Hx). }
      rewrite (takeWhile_filter db.key_le).
      * rewrite filter_filter. apply filter_ext. intros x. unfold has.
        destruct (String.prefix prefix x.1) eqn:Hh; [|done].
        by rewrite (prefix_leb _ _ Hh).
      * by apply filter_sorted.
      * intros x y Hx Hy Hxy Hhas.
        apply list_elem_of_In, filter_In in Hx as [_ Hx].
        unfold has in *. by apply (prefix_between prefix x.1 y.1).
Qed.

Lemma reached_forward prefix k : reached prefix false k = String.prefix prefix k.
Proof. unfold reached. cbn [negb orb]. apply andb_true_r. Qed.

Lemma reached_prefix prefix reverse k :
  reached prefix reverse k = true -> String.prefix prefix k = true.
Proof. unfold reached. by intros [? _]%andb_true_iff. Qed.

Lemma prefixItems_elem (txn : gmap string Value) prefix reverse k v :
  (k, v) ∈ db.prefixItems txn prefix reverse <->
  txn !! k = Some v /\ reached prefix reverse k = true.
Proof.
  rewrite prefixItems_filter.
  assert (forall l : list db.Item,
            (k, v) ∈ (if reverse then @rev db.Item else id) l <-> (k, v) ∈ l)
    as Hrev.
  { intros l. destruct reverse; [|done].
    rewrite !list_elem_of_In. symmetry. apply in_rev. }
  rewrite Hrev.
  rewrite list_elem_of_In, filter_In, <- list_elem_of_In.
  by rewrite merge_sort_Permutation, elem_of_map_to_list.
Qed.

Lemma prefixItems_elem_forward (txn : gmap string Value) prefix k v :
  (k, v) ∈ db.prefixItems txn prefix false <->
  txn !! k = Some v /\ String.prefix prefix k = true.
Proof. by rewrite prefixItems_elem, reached_forward. Qed.

(** ** History listing *)

Lemma iterate_listCallback b f skip ps items entries total :
  Forall (fun item => exists e, db.loadEntry b f item = Ok e) items ->
  db.iterate items (db.listCallback b f skip ps) (entries, total) =
  ((entries ++ drop (Z.to_nat (skip - total)) (db.matchingEntries b f items),
    total + Z.of_nat (length (db.matchingEntries b f items))), None).
Proof.
  intros Hok. revert entries total.
  induction Hok as [|item items [e He] _ IH]; intros entries total; simpl.
  { rewrite drop_nil, app_nil_r. do 2 f_equal. lia. }
  unfold db.matchingEntries in *. simpl. rewrite He.
  destruct (db.applyFilters f e) eqn:Hm; simpl.
  - destruct (total + 1 <=? skip) eqn:Hs.
    + apply Z.leb_le in Hs. rewrite IH.
      replace (Z.to_nat (skip - total)) with (S (Z.to_nat (skip - (total + 1))))
        by lia.
      simpl. f_equal. f_equal. lia.
    + apply Z.leb_gt in Hs.
      assert (forall x : (list HistoryEntry.t * Z) * option error,
                 (if Z.of_nat (length (entries ++ [e])) >=? ps then x else x) = x)
        as Hif by (intros; by destruct (_ >=? _)).
      rewrite Hif, IH.
      replace (Z.to_nat (skip - total)) with 0%nat by lia.
      replace (Z.to_nat (skip - (total + 1))) with 0%nat by lia.
      simpl. rewrite <- app_assoc. simpl. f_equal. f_equal. lia.
  - apply IH.
Qed.

(** Whatever [pageSize] is, a scan that meets no undecodable item returns
    every matching entry after the first [skip] ones, and counts all of
    them. *)
Lemma ListHistory_all_after_skip b f page pageSize :
  Forall (fun item => exists e, db.loadEntry b f item = Ok e)
         (db.prefixItems b (db.listPrefix f) true) ->
  db.ListHistory b f page pageSize =
  (drop (Z.to_nat (wrap64 ((page - 1) * pageSize)))
        (db.matchingEntries b f (db.prefixItems b (db.listPrefix f) true)),
   Z.of_nat (length (db.matchingEntries b f
                        (db.prefixItems b (db.listPrefix f) true))),
   None).
Proof.
  intros Hok. unfold db.ListHistory, db.iterator.
  rewrite (iterate_listCallback _ _ _ _ _ _ _ Hok). simpl.
  by rewrite Z.sub_0_r.
Qed.

(** C1, evaluated on the scenario of the specification: one hundred
    entries with ascending timestamps, no filters, page 1, page size 20.
    [ListHistory] returns all one hundred entries, newest first, not the
    twenty newest: the test on [len(entries) >= pageSize] in the callback
    returns nil in both branches and stops nothing. *)
Theorem ListHistory_first_page_of_100 :
  let '(entries, total, err) :=
    db.ListHistory examples.store100 HistoryFilters.zero 1 20 in
  entries = rev examples.hundred /\ length entries = 100%nat /\
  total = 100 /\ err = None.
Proof. vm_compute. repeat split. Qed.

Lemma iterate_listCallback_ok b f skip ps items st st' :
  db.iterate items (db.listCallback b f skip ps) st = (st', None) ->
  Forall (fun item => exists e, db.loadEntry b f item = Ok e) items.
Proof.
  revert st. induction items as [|item items IH]; intros [entries total] H.
  { constructor. }
  simpl in H. unfold db.listCallback in H at 1.
  destruct (db.loadEntry b f item) as [e|err] eqn:He; [|discriminate].
  constructor; [by exists e|].
  destruct (negb (db.applyFilters f e)); [by eapply IH|].
  destruct (total + 1 <=? skip); [by eapply IH|].
  destruct (_ >=? _); by eapply IH.
Qed.

Lemma applyFilters_untitled f e s :
  HistoryEntry.EpisodeTitle e = "" ->
  db.applyFilters (HistoryFilters.setSearch s f) e = db.applyFilters f e.
Proof.
  intros Ht. unfold db.applyFilters. simpl. rewrite Ht. simpl.
  by rewrite !andb_false_r.
Qed.

Lemma leb_app (p : string) (a b : string) :
  String.leb (p +:+ a) (p +:+ b) = String.leb a b.
Proof.
  unfold String.leb. induction p as [|c p IH]; [done|].
  change (String c p +:+ a) with (String c (p +:+ a)).
  change (String c p +:+ b) with (String c (p +:+ b)).
  cbn [String.compare]. unfold Ascii.compare at 1.
  rewrite N.compare_refl. exact IH.
Qed.

(** A key made of a non-empty prefix and a rest is reached by the reverse
    scan exactly when the rest is not above the one-byte string 0xFF. *)
Lemma reached_append (p rest : string) :
  p <> "" ->
  reached p true (p +:+ rest) = String.leb rest (String "255" "").
Proof.
  intros Hp. unfold reached.
  assert (String.prefix p (p +:+ rest) = true) as ->.
  { pose proof (prefix_app_same p "" rest) as H.
    rewrite append_empty_r in H. rewrite H. apply prefix_empty. }
  apply String.eqb_neq in Hp. rewrite Hp. cbn [negb orb andb].
  apply leb_app.
Qed.



(** C10, the claim as first stated: every entry without episode title that
    passes the other filters is included.  A journal with an ordinary
    entry and an entry whose identifier starts with the byte 0xFF, both
    without episode title and both passing the filters: the reverse scan
    starts at the seek key and never visits the second, which is neither
    returned nor counted. *)
Lemma ListHistory_search_misses_entry_above_seek_key :
  samples.highJournal !! historyKey (HistoryEntry.ID samples.highEntry)
  = Some (VHistory samples.highEntry) /\
  HistoryEntry.EpisodeTitle samples.highEntry = "" /\
  db.applyFilters (HistoryFilters.setSearch "" examples.searchFilter)
    samples.highEntry = true /\
  db.applyFilters examples.searchFilter samples.highEntry = true /\
  db.ListHistory samples.highJournal examples.searchFilter 1 20
  = ([samples.entryA], 1, None).
Proof. vm_compute. repeat split. Qed.

(** ** Walking the episodes of a feed *)

Lemma episodeKey_prefix feedID episodeID :
  String.prefix (db.getKey (db.episodePrefix feedID))
                (episodeKey feedID episodeID) = true.
Proof.
  unfold episodeKey, db.getKey, db.episodePrefix, db.episodePath.
  rewrite (prefix_app_same "podsync/v1/").
  rewrite (prefix_app_same "episode/").
  rewrite (prefix_app_same feedID).
  replace "/" with ("/" +:+ "") at 1 by reflexivity.
  rewrite (prefix_app_same "/"). apply prefix_empty.
Qed.

Lemma wellKeyed_item b feedID k v :
  wellKeyed b feedID ->
  (k, v) ∈ db.prefixItems b (db.getKey (db.episodePrefix feedID)) false ->
  exists e, v = VEpisode e /\ k = episodeKey feedID (Episode.ID e) /\
            b !! k = Some v.
Proof.
  intros Hwk [Hlook Hpre]%prefixItems_elem_forward.
  specialize (Hwk k v Hlook). unfold wellKeyedItem in Hwk.
  rewrite Hpre in Hwk. destruct v as [| |e| |]; try discriminate.
  apply String.eqb_eq in Hwk. by exists e.
Qed.

Lemma storedEpisodes_elem b feedID e :
  wellKeyed b feedID ->
  e ∈ storedEpisodes b feedID <->
  b !! episodeKey feedID (Episode.ID e) = Some (VEpisode e).
Proof.
  intros Hwk. unfold storedEpisodes. rewrite list_elem_of_omap. split.
  - intros ([k v] & Hin & Hdec).
    destruct (wellKeyed_item _ _ _ _ Hwk Hin) as (e' & -> & -> & Hl).
    simpl in Hdec. by injection Hdec as <-.
  - intros Hl. exists (episodeKey feedID (Episode.ID e), VEpisode e).
    split; [|done]. apply prefixItems_elem_forward. split; [done|].
    apply episodeKey_prefix.
Qed.

Lemma scan_NoDup_keys (b : gmap string Value) prefix reverse :
  NoDup (List.filter (fun item : db.Item => reached prefix reverse item.1)
           (merge_sort db.key_le (map_to_list b))).*1.
Proof.
  assert (NoDup (merge_sort db.key_le (map_to_list b)).*1) as H.
  { rewrite merge_sort_Permutation. apply NoDup_fst_map_to_list. }
  induction (merge_sort db.key_le (map_to_list b)) as [|[k v] l IH]; simpl;
    [constructor|].
  apply NoDup_cons in H as [Hk Hl].
  destruct (reached prefix reverse k); simpl; [|by apply IH].
  apply NoDup_cons. split; [|by apply IH].
  intros Hin. apply Hk. apply list_elem_of_fmap in Hin as ([k' v'] & -> & Hin).
  apply list_elem_of_fmap. exists (k', v'). split; [done|].
  apply list_elem_of_In. apply list_elem_of_In in Hin.
  by apply filter_In in Hin as [? _].
Qed.

Lemma prefixItems_NoDup_keys b prefix reverse :
  NoDup (db.prefixItems b prefix reverse).*1.
Proof.
  rewrite prefixItems_filter.
  pose proof (scan_NoDup_keys b prefix reverse) as Hnd.
  destruct reverse; [|done].
  by rewrite <- Permutation_rev.
Qed.

Lemma storedEpisodes_NoDup_ID b feedID :
  wellKeyed b feedID ->
  NoDup (List.map Episode.ID (storedEpisodes b feedID)).
Proof.
  intros Hwk. unfold storedEpisodes.
  pose proof (prefixItems_NoDup_keys b
                (db.getKey (db.episodePrefix feedID)) false) as Hnd.
  pose proof (fun k v => wellKeyed_item b feedID k v Hwk) as Hitem.
  induction (db.prefixItems b _ false) as [|[k v] l IH]; simpl; [constructor|].
  apply NoDup_cons in Hnd as [Hk Hl].
  destruct (Hitem k v) as (e & -> & -> & _); [left|]. simpl.
  assert (forall k v, (k, v) ∈ l ->
            exists e, v = VEpisode e /\ k = episodeKey feedID (Episode.ID e)
                      /\ b !! k = Some v) as Hitem'.
  { intros k' v' Hin. apply Hitem. by right. }
  apply NoDup_cons. split; [|by apply IH].
  intros Hin. apply Hk.
  apply list_elem_of_In, in_map_iff in Hin as (e' & Hid & Hin).
  apply list_elem_of_In, list_elem_of_omap in Hin as ([k' v'] & Hin & Hdec).
  destruct (Hitem' k' v' Hin) as (e'' & -> & -> & _).
  simpl in Hdec. injection Hdec as ->.
  apply list_elem_of_fmap. exists (episodeKey feedID (Episode.ID e'), VEpisode e').
  split; [by rewrite Hid | done].
Qed.

Lemma storedEpisodes_NoDup b feedID :
  wellKeyed b feedID -> NoDup (storedEpisodes b feedID).
Proof.
  intros Hwk. apply storedEpisodes_NoDup_ID in Hwk.
  by apply (NoDup_fmap_1 Episode.ID).
Qed.

(** A walk with a callback that never fails is a fold over the stored
    episodes. *)
Lemma walkEpisodes_fold {St} b feedID
    (cb : Episode.t -> St -> St * option error) st :
  wellKeyed b feedID ->
  (forall e s, (cb e s).2 = None) ->
  db.walkEpisodes b feedID cb st =
  (fold_left (fun s e => (cb e s).1) (storedEpisodes b feedID) st, None).
Proof.
  intros Hwk Hcb. unfold db.walkEpisodes, db.iterator, storedEpisodes.
  pose proof (fun k v => wellKeyed_item b feedID k v Hwk) as Hitem.
  revert st.
  induction (db.prefixItems b _ false) as [|[k v] l IH]; intros st; simpl;
    [done|].
  destruct (Hitem k v) as (e & -> & -> & _); [left|]. simpl.
  destruct (cb e st) as [st' err] eqn:Hc.
  pose proof (Hcb e st) as Hn. rewrite Hc in Hn. simpl in Hn. subst err.
  apply IH. intros k' v' Hin. apply Hitem. by right.
Qed.


(** ** AddFeed: upsert of the feed record, insert-if-absent of episodes *)

Lemma feedKey_ne_episodeKey feedID feedID' episodeID :
  db.getKey (db.feedPath feedID) <> db.getKey (db.episodePath feedID' episodeID).
Proof. unfold db.getKey, db.feedPath, db.episodePath. simpl. discriminate. Qed.

Lemma episodeKey_inj feedID a b :
  db.getKey (db.episodePath feedID a) = db.getKey (db.episodePath feedID b) ->
  a = b.
Proof.
  unfold db.getKey, db.episodePath. intros H.
  apply (append_inj_l "podsync/v1/") in H.
  apply (append_inj_l "episode/") in H.
  apply (append_inj_l feedID) in H.
  by apply (append_inj_l "/") in H.
Qed.

(** The episode loop never fails, keeps every key that is already bound, and
    binds a free key to the first supplied episode that maps to it. *)
Lemma appendEpisodes_lookup txn feedID episodes :
  exists txn',
    db.appendEpisodes txn feedID episodes = (txn', None) /\
    forall k,
      txn' !! k =
      match txn !! k with
      | Some v => Some v
      | None =>
          VEpisode <$>
            List.find (fun ep => String.eqb
                         (db.getKey (db.episodePath feedID (Episode.ID ep))) k)
                      episodes
      end.
Proof.
  revert txn.
  induction episodes as [|ep rest IH]; intros txn;
    cbn [db.appendEpisodes List.find].
  { exists txn. split; [done|]. intros k. by destruct (txn !! k). }
  unfold db.setObj. cbn [negb].
  set (key := db.getKey (db.episodePath feedID (Episode.ID ep))).
  destruct (txn !! key) as [v|] eqn:Hkey.
  - destruct (decide (ErrAlreadyExists = ErrAlreadyExists)); [|done].
    destruct (IH txn) as (txn' & -> & Hl). exists txn'. split; [done|].
    intros k. rewrite Hl. destruct (txn !! k) eqn:Hk; [done|].
    destruct (String.eqb_spec key k) as [->|]; [congruence | done].
  - destruct (IH (<[key := VEpisode ep]> txn)) as (txn' & -> & Hl).
    exists txn'. split; [done|]. intros k. rewrite Hl.
    destruct (String.eqb_spec key k) as [<-|Hne].
    + by rewrite lookup_insert_eq, Hkey.
    + by rewrite lookup_insert_ne.
Qed.

Lemma AddFeed_lookup b feedID feed :
  exists b',
    db.AddFeed b feedID feed = (b', None) /\
    forall k,
      b' !! k =
      match <[db.getKey (db.feedPath feedID) := db.marshalFeed feed]> b !! k with
      | Some v => Some v
      | None =>
          VEpisode <$>
            List.find (fun ep => String.eqb
                         (db.getKey (db.episodePath feedID (Episode.ID ep))) k)
                      (Feed.Episodes feed)
      end.
Proof.
  unfold db.AddFeed, db.Update, db.setObj. cbn [negb].
  destruct (appendEpisodes_lookup
              (<[db.getKey (db.feedPath feedID) := db.marshalFeed feed]> b)
              feedID (Feed.Episodes feed)) as (b' & -> & Hl).
  by exists b'.
Qed.

Section FaultyAddFeed.

Variable Quote : string -> string.
Variable F : db.Faults.

Lemma faulty_txnSet txn key data :
  (exists msg, db.faulty.txnSet F txn key data = (txn, Some (ErrOther msg))) \/
  db.faulty.txnSet F txn key data = (<[key := data]> txn, None).
Proof.
  unfold db.faulty.txnSet. destruct (db.setFault F txn key data); eauto.
Qed.

(** When the episode loop ends without error, it has kept every key that
    was bound and has bound every free key to the first supplied episode
    that maps to it. *)
Lemma faulty_appendEpisodes_lookup feedID episodes :
  forall txn txn',
    db.faulty.appendEpisodes Quote F txn feedID episodes = (txn', None) ->
    forall k,
      txn' !! k =
      match txn !! k with
      | Some v => Some v
      | None =>
          VEpisode <$>
            List.find (fun ep => String.eqb
                         (db.getKey (db.episodePath feedID (Episode.ID ep))) k)
                      episodes
      end.
Proof.
  induction episodes as [|ep rest IH]; intros txn txn';
    cbn [db.faulty.appendEpisodes List.find].
  { intros [= <-] k. by destruct (txn !! k). }
  unfold db.faulty.setObj. cbn [negb].
  set (key := db.getKey (db.episodePath feedID (Episode.ID ep))).
  destruct (db.getFault F txn key) as [msg|].
  { unfold Wrap. destruct (decide (_ = ErrAlreadyExists)); [done|].
    intros [=]. }
  destruct (txn !! key) as [v|] eqn:Hkey.
  - destruct (decide (ErrAlreadyExists = ErrAlreadyExists)); [|done].
    intros Happ k. rewrite (IH _ _ Happ k).
    destruct (txn !! k) eqn:Hk; [done|].
    destruct (String.eqb_spec key k) as [->|]; [congruence | done].
  - destruct (faulty_txnSet txn key (VEpisode ep)) as [[msg ->] | ->].
    + destruct (decide (ErrOther msg = ErrAlreadyExists)); [done|].
      intros [=].
    + intros Happ k. rewrite (IH _ _ Happ k).
      destruct (String.eqb_spec key k) as [<-|Hne].
      * by rewrite lookup_insert_eq, Hkey.
      * by rewrite lookup_insert_ne.
Qed.

(** What a committed [AddFeed] leaves in the store. *)
Lemma faulty_AddFeed_lookup b feedID feed b' :
  db.faulty.AddFeed Quote F b feedID feed = (b', None) ->
  forall k,
    b' !! k =
    match <[db.getKey (db.feedPath feedID) := db.marshalFeed feed]> b !! k with
    | Some v => Some v
    | None =>
        VEpisode <$>
          List.find (fun ep => String.eqb
                       (db.getKey (db.episodePath feedID (Episode.ID ep))) k)
                    (Feed.Episodes feed)
    end.
Proof.
  unfold db.faulty.AddFeed, db.faulty.Update, db.faulty.setObj. cbn [negb].
  destruct (faulty_txnSet b (db.getKey (db.feedPath feedID))
              (db.marshalFeed feed)) as [[msg ->] | ->]; [intros [=]|].
  destruct (db.faulty.appendEpisodes Quote F _ feedID (Feed.Episodes feed))
    as [txn [e|]] eqn:Happ; [intros [=]|].
  destruct (db.commitFault F txn); [intros [=]|].
  intros [= <-]. by apply faulty_appendEpisodes_lookup.
Qed.

(** A transaction that fails leaves the store as it was. *)
Lemma faulty_Update_discards b fn :
  (db.faulty.Update F b fn).2 <> None -> (db.faulty.Update F b fn).1 = b.
Proof.
  unfold db.faulty.Update. destruct (fn b) as [txn [e|]]; [done|].
  by destruct (db.commitFault F txn).
Qed.

End FaultyAddFeed.

(** Without faults the episode loop and [AddFeed] are the ones of the
    gateway. *)
Lemma faulty_appendEpisodes_noFaults Quote feedID episodes :
  forall txn,
    db.faulty.appendEpisodes Quote db.noFaults txn feedID episodes
    = db.appendEpisodes txn feedID episodes.
Proof.
  induction episodes as [|ep rest IH]; intros txn;
    cbn [db.faulty.appendEpisodes db.appendEpisodes]; [done|].
  unfold db.faulty.setObj, db.setObj, db.faulty.txnSet.
  cbn [negb db.noFaults db.getFault db.setFault].
  destruct (txn !! _).
  - destruct (decide (ErrAlreadyExists = ErrAlreadyExists)); [|done].
    apply IH.
  - apply IH.
Qed.

Lemma faulty_AddFeed_noFaults Quote b feedID feed :
  db.faulty.AddFeed Quote db.noFaults b feedID feed = db.AddFeed b feedID feed.
Proof.
  unfold db.faulty.AddFeed, db.AddFeed, db.faulty.Update, db.Update.
  unfold db.faulty.setObj, db.setObj, db.faulty.txnSet.
  cbn [negb db.noFaults db.getFault db.setFault db.commitFault].
  rewrite faulty_appendEpisodes_noFaults.
  by destruct (db.appendEpisodes _ _ _) as [txn [e|]].
Qed.

(** C6.  [AddFeed] is one transaction, whichever of its primitives fail:
    a call that returns an error has written nothing, not even the feed
    record; a call that returns nil has committed all of its writes.  In
    the committed store the feed record is the supplied feed without its
    episode list, whatever was stored before; every supplied episode whose
    key was bound keeps the stored value unchanged; every supplied episode
    whose key was free is inserted (the first supplied episode with that
    identifier when the list repeats one); every other key is untouched.
    When no primitive fails the call returns nil. *)
Theorem AddFeed_insert_if_absent
    (Quote : string -> string) (F : db.Faults)
    (b : gmap string Value) (feedID : string) (feed : Feed.t) :
  let res := db.faulty.AddFeed Quote F b feedID feed in
  (res.2 <> None -> res.1 = b) /\
  (res.2 = None ->
   res.1 !! db.getKey (db.feedPath feedID)
   = Some (VFeed (Feed.mk (Feed.ID feed) (Feed.Title feed)
                          (Feed.Description feed) [])) /\
   (forall ep v,
       ep ∈ Feed.Episodes feed ->
       b !! db.getKey (db.episodePath feedID (Episode.ID ep)) = Some v ->
       res.1 !! db.getKey (db.episodePath feedID (Episode.ID ep)) = Some v) /\
   (forall ep,
       ep ∈ Feed.Episodes feed ->
       b !! db.getKey (db.episodePath feedID (Episode.ID ep)) = None ->
       exists ep',
         ep' ∈ Feed.Episodes feed /\ Episode.ID ep' = Episode.ID ep /\
         List.find (fun x => String.eqb (Episode.ID x) (Episode.ID ep))
                   (Feed.Episodes feed) = Some ep' /\
         res.1 !! db.getKey (db.episodePath feedID (Episode.ID ep))
         = Some (VEpisode ep')) /\
   (forall k,
       k <> db.getKey (db.feedPath feedID) ->
       (forall ep, ep ∈ Feed.Episodes feed ->
                   k <> db.getKey (db.episodePath feedID (Episode.ID ep))) ->
       res.1 !! k = b !! k)) /\
  db.faulty.AddFeed Quote db.noFaults b feedID feed = db.AddFeed b feedID feed /\
  (db.AddFeed b feedID feed).2 = None.
Proof.
  cbv zeta. split; [apply faulty_Update_discards|]. split.
  2: { split; [apply faulty_AddFeed_noFaults|].
       by destruct (AddFeed_lookup b feedID feed) as (b' & -> & _). }
  destruct (db.faulty.AddFeed Quote F b feedID feed) as [b' err] eqn:Hadd.
  cbn [fst snd]. intros ->.
  pose proof (faulty_AddFeed_lookup Quote F b feedID feed b' Hadd) as Hl.
  set (feedKey := db.getKey (db.feedPath feedID)) in *.
  assert (forall id, feedKey <> db.getKey (db.episodePath feedID id)) as Hfk
    by (intros; apply feedKey_ne_episodeKey).
  split; [by rewrite Hl, lookup_insert_eq|].
  split.
  { intros ep v _ Hv. by rewrite Hl, lookup_insert_ne, Hv. }
  split.
  { intros ep Hin Hnone. rewrite Hl, lookup_insert_ne, Hnone by done.
    assert (forall l : list Episode.t,
      List.find (fun x => String.eqb
                   (db.getKey (db.episodePath feedID (Episode.ID x)))
                   (db.getKey (db.episodePath feedID (Episode.ID ep)))) l
      = List.find (fun x => String.eqb (Episode.ID x) (Episode.ID ep)) l)
      as Hfind.
    { induction l as [|x l IHl]; cbn [List.find]; [done|]. rewrite IHl.
      destruct (String.eqb_spec (Episode.ID x) (Episode.ID ep)) as [->|Hne].
      - by rewrite String.eqb_refl.
      - destruct (String.eqb_spec
                    (db.getKey (db.episodePath feedID (Episode.ID x)))
                    (db.getKey (db.episodePath feedID (Episode.ID ep))))
          as [Heq|]; [|done].
        by apply episodeKey_inj in Heq. }
    rewrite Hfind.
    destruct (List.find _ _) as [ep'|] eqn:Hf.
    - apply find_some in Hf as [Hin' Heq]. apply String.eqb_eq in Heq.
      exists ep'. by rewrite list_elem_of_In.
    - exfalso. apply list_elem_of_In in Hin.
      apply (find_none _ _ Hf) in Hin. by rewrite String.eqb_refl in Hin. }
  intros k Hk Hne. rewrite Hl, lookup_insert_ne by done.
  destruct (b !! k) eqn:Hbk; [done|].
  destruct (List.find _ _) as [ep'|] eqn:Hf; [|done].
  apply find_some in Hf as [Hin' Heq]. apply String.eqb_eq in Heq.
  exfalso. apply (Hne ep'); [by apply list_elem_of_In | done].
Qed.

(** The listing [a], [b] on a store that holds [a]: the call that commits
    inserts [b] and keeps the stored [a]; when the transaction refuses the
    write of [b], or cannot commit, the store is left without the new feed
    record as well. *)
Lemma AddFeed_insert_if_absent_witness :
  (db.faulty.AddFeed samples.Quote db.noFaults examples.storeA "f1"
     examples.listingAB =
   (<[db.getKey (db.episodePath "f1" "b") := VEpisode examples.listedB]>
      (<[db.getKey (db.feedPath "f1")
         := VFeed (Feed.mk "f1" "Channel" "A channel" [])]>
         examples.storeA), None) /\
   (db.faulty.AddFeed samples.Quote db.noFaults examples.storeA "f1"
      examples.listingAB).1
     !! db.getKey (db.episodePath "f1" "a") = Some (VEpisode examples.storedA)) /\
  ((db.faulty.AddFeed samples.Quote samples.tooBig examples.storeA "f1"
      examples.listingAB).2 <> None /\
   (db.faulty.AddFeed samples.Quote samples.tooBig examples.storeA "f1"
      examples.listingAB).1 = examples.storeA) /\
  ((db.faulty.AddFeed samples.Quote samples.conflicting examples.storeA "f1"
      examples.listingAB).2 <> None /\
   (db.faulty.AddFeed samples.Quote samples.conflicting examples.storeA "f1"
      examples.listingAB).1 = examples.storeA).
Proof.
  split; [|split].
  - split; [vm_compute; reflexivity|].
    pose proof (AddFeed_insert_if_absent samples.Quote db.noFaults
                  examples.storeA "f1" examples.listingAB) as H.
    cbv zeta in H. destruct H as (_ & H & _).
    destruct (H ltac:(vm_compute; reflexivity)) as (_ & Hkeep & _).
    apply (Hkeep examples.listedA).
    + apply list_elem_of_In. simpl. auto.
    + vm_compute. reflexivity.
  - assert ((db.faulty.AddFeed samples.Quote samples.tooBig examples.storeA
               "f1" examples.listingAB).2 <> None) as Herr
      by (vm_compute; discriminate).
    split; [exact Herr|].
    pose proof (AddFeed_insert_if_absent samples.Quote samples.tooBig
                  examples.storeA "f1" examples.listingAB) as H.
    cbv zeta in H. destruct H as (H & _). exact (H Herr).
  - assert ((db.faulty.AddFeed samples.Quote samples.conflicting
               examples.storeA "f1" examples.listingAB).2 <> None) as Herr
      by (vm_compute; discriminate).
    split; [exact Herr|].
    pose proof (AddFeed_insert_if_absent samples.Quote samples.conflicting
                  examples.storeA "f1" examples.listingAB) as H.
    cbv zeta in H. destruct H as (H & _). exact (H Herr).
Defined.

(** ** updateFeed: reconciliation with the listing *)

Lemma classify_fold (l : list Episode.t) (es bs : gset string) :
  let r := fold_left (fun s e => (update.classify e s).1) l (es, bs) in
  (forall id, id ∈ r.1 <->
              id ∈ es \/ exists e, e ∈ l /\ Episode.ID e = id /\ pending e) /\
  (forall id, id ∈ r.2 <->
              id ∈ bs \/ exists e, e ∈ l /\ Episode.ID e = id /\
                                   Episode.Status e = EpisodeBlocked).
Proof.
  revert es bs. induction l as [|x l IH]; intros es bs.
  { simpl. split; intros id; set_solver. }
  cbn [fold_left].
  destruct (update.classify x (es, bs)) as [[es1 bs1] err] eqn:Hc. cbn [fst].
  specialize (IH es1 bs1). cbv zeta in IH |- *. destruct IH as [H1 H2].
  unfold update.classify in Hc. unfold pending.
  split; intros id; [rewrite H1 | rewrite H2]; clear H1 H2;
    repeat case_decide; simplify_eq.
  all: unfold pending in *; set_unfold; naive_solver.
Qed.

Lemma difference_fold (l : list Episode.t) (s : gset string) id :
  id ∈ fold_left (fun s e => s ∖ {[Episode.ID e]}) l s <->
  id ∈ s /\ forall e, e ∈ l -> Episode.ID e <> id.
Proof.
  revert s. induction l as [|x l IH]; intros s; simpl.
  { set_solver. }
  rewrite IH. set_solver.
Qed.

Lemma removeEpisodes_lookup b feedID ids :
  exists b',
    update.removeEpisodes b feedID ids = (b', None) /\
    (forall id, id ∈ ids -> b' !! episodeKey feedID id = None) /\
    (forall k, (forall id, id ∈ ids -> k <> episodeKey feedID id) ->
               b' !! k = b !! k).
Proof.
  revert b. induction ids as [|id ids IH]; intros b; cbn [update.removeEpisodes].
  { exists b. split; [done|]. split; [|done]. by intros id ?%elem_of_nil. }
  unfold db.DeleteEpisode, db.Update. fold (episodeKey feedID id).
  destruct (IH (delete (episodeKey feedID id) b)) as (b' & -> & Hin & Hout).
  exists b'. split; [done|]. split.
  - intros i [->|Hi]%elem_of_cons; [|by apply Hin].
    destruct (decide (id ∈ ids)) as [Hid|Hid]; [by apply Hin|].
    rewrite Hout.
    + apply lookup_delete_eq.
    + intros i Hi ->%episodeKey_inj. done.
  - intros k Hk. rewrite Hout.
    + apply lookup_delete_ne. intros <-. by apply (Hk id); [left|].
    + intros i Hi. apply Hk. by right.
Qed.

Lemma classify_no_error e s : (update.classify e s).2 = None.
Proof.
  unfold update.classify. destruct s. by repeat case_decide.
Qed.

Lemma stored_same_ID (b : gmap string Value) feedID (e e' : Episode.t) :
  b !! episodeKey feedID (Episode.ID e) = Some (VEpisode e) ->
  b !! episodeKey feedID (Episode.ID e') = Some (VEpisode e') ->
  Episode.ID e' = Episode.ID e -> e' = e.
Proof. intros H H' Hid. rewrite Hid in H'. congruence. Qed.

Section Reconcile.

Variable env : update.Env.

(** What the reconciliation does to a stored episode: with a listing at
    hand, [updateFeed] returns nil; the record is deleted when its status is
    none of blocked, downloaded, cleaned and the listing does not contain
    its identifier, and is left as it was otherwise. *)
Lemma updateFeed_reconcile (cfg : feed.Config.t) (b : gmap string Value)
    (result : Feed.t) :
  wellKeyed b (feed.Config.ID cfg) ->
  update.listing env = Ok result ->
  exists b',
    update.updateFeed env cfg b = (b', None) /\
    forall e,
      b !! episodeKey (feed.Config.ID cfg) (Episode.ID e) = Some (VEpisode e) ->
      (pending e ->
       (forall x, x ∈ Feed.Episodes result -> Episode.ID x <> Episode.ID e) ->
       b' !! episodeKey (feed.Config.ID cfg) (Episode.ID e) = None) /\
      (~ (pending e /\
          forall x, x ∈ Feed.Episodes result -> Episode.ID x <> Episode.ID e) ->
       b' !! episodeKey (feed.Config.ID cfg) (Episode.ID e)
       = Some (VEpisode e)).
Proof.
  intros Hwk Hlist. unfold update.updateFeed. rewrite Hlist.
  unfold db.WalkEpisodes.
  rewrite (walkEpisodes_fold _ _ _ _ Hwk classify_no_error).
  set (F := feed.Config.ID cfg).
  pose proof (classify_fold (storedEpisodes b F) ∅ ∅) as Hcl.
  destruct (fold_left _ (storedEpisodes b F) (∅, ∅)) as [es bs].
  cbv zeta in Hcl. cbn [fst snd] in Hcl. destruct Hcl as [Hes Hbs].
  set (filtered := List.filter _ (Feed.Episodes result)).
  destruct (AddFeed_lookup b F (Feed.setEpisodes filtered result))
    as (b1 & -> & Hb1).
  cbn [Feed.Episodes Feed.setEpisodes].
  set (es' := fold_left _ filtered es).
  destruct (removeEpisodes_lookup b1 F (elements es')) as (b' & -> & Hin & Hout).
  exists b'. split; [done|]. intros e He.
  assert (b1 !! episodeKey F (Episode.ID e) = Some (VEpisode e)) as He1.
  { rewrite Hb1, lookup_insert_ne, He; [done|].
    apply feedKey_ne_episodeKey. }
  assert (Episode.ID e ∈ es <-> pending e) as Hpend.
  { rewrite Hes. split.
    - intros [[]%elem_of_empty|(e' & Hin' & Hid & Hp)].
      apply (storedEpisodes_elem _ _ _ Hwk) in Hin'.
      by rewrite <- (stored_same_ID _ _ _ _ He Hin' Hid).
    - intros Hp. right. exists e. split; [|done].
      by apply storedEpisodes_elem. }
  assert (Episode.Status e <> EpisodeBlocked -> Episode.ID e ∉ bs) as Hnb.
  { intros Hs. rewrite Hbs.
    intros [[]%elem_of_empty|(e' & Hin' & Hid & Hp)].
    apply (storedEpisodes_elem _ _ _ Hwk) in Hin'.
    rewrite (stored_same_ID _ _ _ _ He Hin' Hid) in Hp. done. }
  assert (pending e ->
          ((forall x, x ∈ filtered -> Episode.ID x <> Episode.ID e) <->
           (forall x, x ∈ Feed.Episodes result -> Episode.ID x <> Episode.ID e)))
    as Hfilt.
  { intros [Hs _]. specialize (Hnb Hs). split; intros H x Hx.
    - intros Hid. apply (H x); [|done].
      apply list_elem_of_In, filter_In. split; [by apply list_elem_of_In|].
      rewrite Hid. by rewrite bool_decide_eq_false_2.
    - apply H. apply list_elem_of_In, filter_In in Hx as [Hx _].
      by apply list_elem_of_In. }
  assert (Episode.ID e ∈ es' <->
          pending e /\
          forall x, x ∈ Feed.Episodes result -> Episode.ID x <> Episode.ID e)
    as Hdel.
  { unfold es'. rewrite difference_fold, Hpend. split.
    - intros [Hp H]. split; [done|]. by apply Hfilt.
    - intros [Hp H]. split; [done|]. by apply Hfilt. }
  split.
  - intros Hp Hx. apply Hin. apply elem_of_elements. apply Hdel. done.
  - intros Hn. rewrite Hout; [done|].
    intros id Hid%elem_of_elements Heq. apply episodeKey_inj in Heq.
    subst id. by apply Hn, Hdel.
Qed.


End Reconcile.

Lemma storeStatuses_wellKeyed : wellKeyed examples.storeStatuses "f1".
Proof.
  unfold wellKeyed. apply map_Forall_to_list. vm_compute.
  repeat constructor.
Qed.


(** C3, evaluated where the code departs from the claim: feed [f1] holds
    one episode of each status other than new and error, and the listing
    contains none of them.  The reconciliation keeps the downloaded, the
    cleaned and the blocked episode, and deletes the queued, the
    downloading and the ignored one: the removal set is built from every
    status but blocked, downloaded and cleaned, not from new and error
    alone. *)
Theorem updateFeed_removes_queued_downloading_ignored :
  let b' := (update.updateFeed (examples.listingOf []) examples.feedF1
               examples.storeStatuses).1 in
  b' !! episodeKey "f1" "q" = None /\
  b' !! episodeKey "f1" "g" = None /\
  b' !! episodeKey "f1" "i" = None /\
  b' !! episodeKey "f1" "d" = Some (VEpisode examples.epD) /\
  b' !! episodeKey "f1" "c" = Some (VEpisode examples.epCl) /\
  b' !! episodeKey "f1" "k" = Some (VEpisode examples.epK).
Proof. vm_compute. repeat split. Qed.

(** ** Artifact store: Create on the local backend *)

Lemma len_append (a b : string) : fs.len (a +:+ b) = fs.len a + fs.len b.
Proof.
  unfold fs.len. induction a as [|x a IH]; [done|].
  change (String x a +:+ b) with (String x (a +:+ b)).
  cbn [String.length]. rewrite !Nat2Z.inj_succ. lia.
Qed.

Lemma write_lookup disk path chunk content :
  disk !! path = Some content ->
  fs.write disk path chunk = <[path := content +:+ chunk]> disk.
Proof. intros H. unfold fs.write. by rewrite H. Qed.

(** [io.Copy] appends every chunk to the destination, in place. *)
Lemma Copy_appends chunks :
  forall disk path failure written content,
    disk !! path = Some content ->
    fs.Copy disk path chunks failure written =
    (<[path := content +:+ fold_right String.append "" chunks]> disk,
     written + fs.len (fold_right String.append "" chunks), failure).
Proof.
  induction chunks as [|chunk rest IH]; intros disk path failure written
                                               content Hc;
    cbn [fs.Copy fold_right].
  { rewrite append_empty_r, insert_id by done. do 2 f_equal.
    unfold fs.len. simpl. lia. }
  rewrite (write_lookup _ _ _ _ Hc).
  rewrite (IH _ _ _ _ (content +:+ chunk)) by apply lookup_insert_eq.
  rewrite insert_insert_eq, append_assoc, len_append.
  do 2 f_equal. lia.
Qed.

Lemma copyStates_prefix chunks :
  forall disk path content st,
    disk !! path = Some content ->
    st ∈ fs.copyStates disk path chunks ->
    exists k,
      st = <[path := content +:+
                     fold_right String.append "" (take k chunks)]> disk.
Proof.
  induction chunks as [|chunk rest IH]; intros disk path content st Hc Hin;
    cbn [fs.copyStates] in Hin.
  { by apply elem_of_nil in Hin. }
  rewrite (write_lookup _ _ _ _ Hc) in Hin.
  apply elem_of_cons in Hin as [->|Hin].
  - exists 1%nat. cbn [take fold_right]. by rewrite append_empty_r.
  - destruct (IH _ path (content +:+ chunk) st (lookup_insert_eq _ _ _) Hin)
      as (k & ->).
    exists (S k). cbn [take fold_right].
    by rewrite insert_insert_eq, append_assoc.
Qed.

(** C8, as the code has it.  [Create] truncates or creates the destination
    itself and streams into it: every state the disk passes through holds,
    at the destination, the chunks written so far (a prefix of the data),
    and differs from the initial disk at no other path, so there is no
    temporary file and no rename.  When the reader ends normally the
    destination holds all the data and [Create] returns its length; when
    the reader fails, [Create] returns the error and the destination keeps
    the part written before the failure. *)
Theorem Create_streams_in_place
    (disk : gmap string string) (name : string) (reader : fs.Reader) :
  (forall st, st ∈ fs.createStates disk name reader ->
     (exists k, st !! name
                = Some (fold_right String.append "" (take k (fs.chunks reader))))
     /\ forall p, p <> name -> st !! p = disk !! p) /\
  (fs.failure reader = None ->
   fs.Create disk name reader =
   (<[name := fs.content reader]> disk, fs.len (fs.content reader), None)) /\
  (forall e, fs.failure reader = Some e ->
   exists e',
     fs.Create disk name reader = (<[name := fs.content reader]> disk, 0, Some e')).
Proof.
  assert (fs.osCreate disk name !! name = Some "") as Hc
    by apply lookup_insert_eq.
  split; [|split].
  - intros st [->|Hin]%elem_of_cons.
    + split; [exists 0%nat; by rewrite take_0 |].
      intros p Hp. unfold fs.osCreate. by rewrite lookup_insert_ne.
    + destruct (copyStates_prefix _ _ _ _ _ Hc Hin) as (k & ->).
      split; [exists k; by rewrite lookup_insert_eq |].
      intros p Hp. unfold fs.osCreate. by rewrite !lookup_insert_ne.
  - intros Hf. unfold fs.Create, fs.copyFile.
    rewrite (Copy_appends _ _ _ _ _ _ Hc), Hf.
    unfold fs.osCreate, fs.content. rewrite insert_insert_eq. simpl.
    reflexivity.
  - intros e Hf. unfold fs.Create, fs.copyFile.
    rewrite (Copy_appends _ _ _ _ _ _ Hc), Hf.
    unfold fs.osCreate, fs.content. rewrite insert_insert_eq. simpl.
    eexists. reflexivity.
Qed.

Lemma Create_streams_in_place_witness :
  fs.Create ∅ "f1/a.mp3" examples.twoChunks
  = (<["f1/a.mp3" := "abcdef"]> ∅, 6, None).
Proof.
  destruct (Create_streams_in_place ∅ "f1/a.mp3" examples.twoChunks)
    as (_ & H & _).
  rewrite H; reflexivity.
Defined.

(** C8 as stated fails: with a reader that delivers "abc" and then "def"
    the destination is observed holding "abc", which is neither absent nor
    the complete artifact "abcdef". *)
Lemma Create_exposes_partial_artifact :
  ~ (forall (disk : gmap string string) (name : string) (reader : fs.Reader)
            (st : gmap string string),
        st ∈ fs.createStates disk name reader ->
        st !! name = None \/ st !! name = Some (fs.content reader)).
Proof.
  intros H.
  destruct (H ∅ "f1/a.mp3" examples.twoChunks (<["f1/a.mp3" := "abc"]> ∅))
    as [Hn|Hf].
  - apply list_elem_of_In. vm_compute. right. left. reflexivity.
  - vm_compute in Hn. discriminate.
  - vm_compute in Hf. discriminate.
Qed.

(** A reader that breaks after "abc" makes [Create] fail and leaves "abc"
    at the destination. *)
Lemma Create_failed_copy_leaves_partial_artifact :
  exists e,
    fs.Create ∅ "f1/a.mp3" examples.broken
    = (<["f1/a.mp3" := "abc"]> ∅, 0, Some e).
Proof. eexists. vm_compute. reflexivity. Qed.

(** ** Scheduler start-up: the boot-time kick *)

Section Scheduler.

Variable durationString : Z -> string.
Variable validSpec : string -> bool.

Local Abbreviation effective := (scheduler.effective durationString).
Local Abbreviation schedule := (scheduler.schedule durationString validSpec).
Local Abbreviation scheduleAll :=
  (scheduler.scheduleAll durationString validSpec).
Local Abbreviation cronScheduler :=
  (scheduler.cronScheduler durationString validSpec).

Lemma effective_ID f : feed.Config.ID (effective f) = feed.Config.ID f.
Proof. unfold scheduler.effective. by destruct (String.eqb _ _). Qed.

Lemma effective_explicit f :
  feed.Config.CronSchedule f <> "" -> effective f = f.
Proof.
  intros H. unfold scheduler.effective.
  by destruct (String.eqb_spec (feed.Config.CronSchedule f) "").
Qed.

Lemma schedule_spec f st st' :
  schedule f st = Ok st' ->
  scheduler.updates st' =
    scheduler.updates st ++ (if interval f then [effective f] else []) /\
  scheduler.running st' = scheduler.running st /\
  exists id,
    scheduler.entries st' =
    scheduler.entries st ++
      [scheduler.mkEntry id (feed.Config.CronSchedule (effective f))
                         (effective f)].
Proof.
  unfold scheduler.schedule, scheduler.AddFunc, interval.
  destruct (validSpec _); [|discriminate].
  destruct (String.eqb (feed.Config.CronSchedule f) ""); simpl;
    intros [= <-]; simpl; rewrite ?app_nil_r; eauto.
Qed.

Lemma scheduleAll_spec feeds :
  forall st st',
    scheduleAll feeds st = Ok st' ->
    scheduler.updates st' =
      scheduler.updates st ++ List.map effective (List.filter interval feeds) /\
    scheduler.running st' = scheduler.running st /\
    forall e, e ∈ scheduler.entries st' ->
              e ∈ scheduler.entries st \/
              exists f, f ∈ feeds /\ scheduler.cronFeed e = effective f.
Proof.
  induction feeds as [|f feeds IH]; intros st st';
    cbn [scheduler.scheduleAll List.filter List.map].
  { intros [= <-]. rewrite app_nil_r. auto. }
  destruct (schedule f st) as [st1|] eqn:Hs; [|discriminate].
  intros H. apply IH in H as (Hu & Hr & He).
  apply schedule_spec in Hs as (Hu1 & Hr1 & id & He1).
  split; [|split].
  - rewrite Hu, Hu1.
    destruct (interval f); cbn [List.map]; by rewrite <- app_assoc.
  - congruence.
  - intros e Hin. apply He in Hin as [Hin|(g & Hg & Hj)].
    + rewrite He1 in Hin. apply elem_of_app in Hin as [Hin|Hin]; [by left|].
      apply list_elem_of_singleton in Hin as ->. right. exists f.
      split; [by left | done].
    + right. exists g. split; [by right | done].
Qed.

Lemma fire_entries id st :
  scheduler.entries (scheduler.fire id st) = scheduler.entries st.
Proof.
  unfold scheduler.fire. destruct (scheduler.running st); [|done].
  by destruct (List.find _ _).
Qed.

Lemma fireAll_updates ids :
  forall st q,
    q ∈ scheduler.updates (scheduler.fireAll ids st) ->
    q ∈ scheduler.updates st \/
    exists e, e ∈ scheduler.entries st /\ scheduler.cronFeed e = q /\
              scheduler.EntryID e ∈ ids.
Proof.
  induction ids as [|id ids IH]; intros st q; simpl; [by left|].
  intros Hq. apply IH in Hq as [Hq|(e & He & Hj & Hid)].
  - unfold scheduler.fire in Hq. destruct (scheduler.running st); [|by left].
    destruct (List.find _ _) as [e|] eqn:Hf; [|by left].
    simpl in Hq. apply elem_of_app in Hq as [Hq|Hq]; [by left|].
    apply list_elem_of_singleton in Hq as ->.
    apply find_some in Hf as [Hin Heq]. apply Z.eqb_eq in Heq.
    right. exists e. split; [by apply list_elem_of_In|].
    split; [done|]. rewrite Heq. by left.
  - rewrite fire_entries in He. right. exists e.
    split; [done|]. split; [done|]. by right.
Qed.

Lemma NoDup_ID_eq (feeds : list feed.Config.t) f g :
  NoDup (List.map feed.Config.ID feeds) ->
  f ∈ feeds -> g ∈ feeds -> feed.Config.ID f = feed.Config.ID g -> f = g.
Proof.
  induction feeds as [|x feeds IH]; simpl; [by intros _ ?%elem_of_nil|].
  intros [Hx Hnd]%NoDup_cons [->|Hf]%elem_of_cons [->|Hg]%elem_of_cons Hid;
    [done| | |by apply IH].
  - exfalso. apply Hx. rewrite Hid. apply list_elem_of_In, in_map.
    by apply list_elem_of_In.
  - exfalso. apply Hx. rewrite <- Hid. apply list_elem_of_In, in_map.
    by apply list_elem_of_In.
Qed.

(** C9. When the scheduler has started (every feed registered with the cron
    engine, then [c.Start()]), the update queue holds exactly the feeds
    without cron expression, each once, in the order of registration and
    with the schedule synthesised from the update period: a feed has been
    enqueued if and only if it has no explicit cron expression.  A feed with
    an explicit cron expression reaches the queue later only through a
    firing of its own cron entry. *)
Theorem cronScheduler_boot_kick (feeds : list feed.Config.t)
    (st : scheduler.State) :
  NoDup (List.map feed.Config.ID feeds) ->
  cronScheduler feeds = Ok st ->
  scheduler.updates st = List.map effective (List.filter interval feeds) /\
  (forall f, f ∈ feeds ->
     ((exists q, q ∈ scheduler.updates st /\
                 feed.Config.ID q = feed.Config.ID f) <->
      feed.Config.CronSchedule f = "")) /\
  (forall f fired q,
     f ∈ feeds -> feed.Config.CronSchedule f <> "" ->
     q ∈ scheduler.updates (scheduler.fireAll fired st) ->
     feed.Config.ID q = feed.Config.ID f ->
     exists e, e ∈ scheduler.entries st /\ scheduler.cronFeed e = f /\
               scheduler.EntryID e ∈ fired).
Proof.
  intros Hnd. unfold scheduler.cronScheduler.
  destruct (scheduleAll feeds scheduler.init) as [st0|] eqn:Hs; [|discriminate].
  intros [= <-]. simpl.
  apply scheduleAll_spec in Hs as (Hu & _ & He). simpl in Hu, He.
  assert (forall f, f ∈ feeds ->
            ((exists q, q ∈ scheduler.updates st0 /\
                        feed.Config.ID q = feed.Config.ID f) <->
             feed.Config.CronSchedule f = "")) as Hiff.
  { intros f Hf. rewrite Hu. split.
    - intros (q & Hq & Hid).
      apply list_elem_of_In, in_map_iff in Hq as (g & <- & Hg).
      apply filter_In in Hg as [Hg Hi]. rewrite effective_ID in Hid.
      apply list_elem_of_In in Hg.
      rewrite <- (NoDup_ID_eq feeds g f Hnd Hg Hf Hid).
      by apply String.eqb_eq.
    - intros Hc. exists (effective f). split; [|apply effective_ID].
      apply list_elem_of_In, in_map, filter_In.
      split; [by apply list_elem_of_In | by apply String.eqb_eq]. }
  split; [done|]. split; [done|].
  intros f fired q Hf Hc Hq Hid.
  apply fireAll_updates in Hq as [Hq|(e & Hin & Hj & Hfired)]; simpl in *.
  - exfalso. apply Hc. apply (Hiff f Hf). by exists q.
  - exists e. split; [done|]. split; [|done].
    destruct (He e Hin) as [[]%elem_of_nil|(g & Hg & Hjg)].
    rewrite Hjg in Hj. subst q. rewrite effective_ID in Hid.
    rewrite Hjg, (NoDup_ID_eq feeds g f Hnd Hg Hf Hid).
    by apply effective_explicit.
Qed.

End Scheduler.

Lemma cronScheduler_boot_kick_witness :
  exists st,
    scheduler.cronScheduler examples.durationString examples.validSpec
      [examples.feedF1; examples.feedF2] = Ok st /\
    scheduler.updates st =
      [feed.Config.setCronSchedule "@every 3600s" examples.feedF1].
Proof.
  eexists. split; [vm_compute; reflexivity|].
  match goal with
  | |- scheduler.updates ?st = _ =>
      destruct (cronScheduler_boot_kick examples.durationString
                  examples.validSpec [examples.feedF1; examples.feedF2] st)
        as (H & _)
  end.
  - vm_compute. repeat constructor; set_solver.
  - vm_compute. reflexivity.
  - rewrite H. vm_compute. reflexivity.
Defined.

(** ** Progress tracker *)

Lemma wrap64_id z : - 2 ^ 63 <= z < 2 ^ 63 -> wrap64 z = z.
Proof. intros H. unfold wrap64. rewrite Z.mod_small; lia. Qed.

Lemma filter_perm {A} (f : A -> bool) (l l' : list A) :
  l ≡ₚ l' -> List.filter f l ≡ₚ List.filter f l'.
Proof.
  induction 1 as [|x l l' _ IH|x y l|l l' l'' _ IH1 _ IH2]; simpl.
  - done.
  - destruct (f x); [by constructor | done].
  - destruct (f x), (f y); try done. apply perm_swap.
  - by etrans.
Qed.

Section Tracker.

Implicit Types (m : gmap string progress.EpisodeProgress.t).

(** The number of records a map holds for a feed. *)
Local Abbreviation count m feedID :=
  (length (List.filter
             (fun ep => String.eqb (progress.EpisodeProgress.FeedID ep) feedID)
             (List.map snd (map_to_list m)))).

Lemma count_insert_fresh m k ep feedID :
  m !! k = None ->
  count (<[k := ep]> m) feedID =
  ((if String.eqb (progress.EpisodeProgress.FeedID ep) feedID then 1 else 0)
   + count m feedID)%nat.
Proof.
  intros Hk.
  rewrite (Permutation_length
             (filter_perm _ _ _
                (Permutation_map snd (map_to_list_insert m k ep Hk)))).
  simpl. by destruct (String.eqb _ _).
Qed.

Lemma count_delete m k ep feedID :
  m !! k = Some ep ->
  count m feedID =
  ((if String.eqb (progress.EpisodeProgress.FeedID ep) feedID then 1 else 0)
   + count (delete k m) feedID)%nat.
Proof.
  intros Hk. rewrite <- (count_insert_fresh (delete k m) k ep feedID)
    by apply lookup_delete_eq.
  by rewrite insert_delete_eq, insert_id.
Qed.

Lemma count_overwrite m k ep ep' feedID :
  m !! k = Some ep ->
  progress.EpisodeProgress.FeedID ep' = progress.EpisodeProgress.FeedID ep ->
  count (<[k := ep']> m) feedID = count m feedID.
Proof.
  intros Hk Hf. rewrite <- (insert_delete_eq m).
  rewrite count_insert_fresh by apply lookup_delete_eq.
  rewrite (count_delete m k ep feedID Hk). by rewrite Hf.
Qed.

Lemma count_filter_le (P : string * progress.EpisodeProgress.t -> Prop)
    `{!forall x, Decision (P x)} m feedID :
  (count (filter P m) feedID <= count m feedID)%nat.
Proof.
  induction m as [|k ep m Hk _ IH] using map_first_key_ind.
  { by rewrite map_filter_empty. }
  rewrite (count_insert_fresh m k ep feedID Hk).
  destruct (decide (P (k, ep))) as [HP|HP].
  - rewrite map_filter_insert_True by done.
    rewrite count_insert_fresh by (by apply map_lookup_filter_None_2; left).
    lia.
  - rewrite map_filter_insert_not' by naive_solver. lia.
Qed.

Lemma episodesOf_elem t feedID ep :
  ep ∈ progress.episodesOf t feedID ->
  exists k, progress.episodeProgress t !! k = Some ep.
Proof.
  unfold progress.episodesOf.
  intros Hin%list_elem_of_In. apply filter_In in Hin as [Hin _].
  apply in_map_iff in Hin as ([k ep'] & <- & Hin).
  exists k. by apply elem_of_map_to_list, list_elem_of_In.
Qed.

End Tracker.

Lemma share_bounds (p : Q) : (0 <= p <= 100)%Q -> (0 <= p / 100 <= 1)%Q.
Proof.
  intros [H0 H1]. unfold Qdiv. change (/ 100)%Q with (1 # 100)%Q. lra.
Qed.

Lemma sum_bounds (l : list progress.EpisodeProgress.t) :
  Forall (fun ep => (0 <= progress.EpisodeProgress.Percent ep <= 100)%Q) l ->
  forall acc : Q,
    (acc <= fold_left (fun a ep =>
                         (a + progress.EpisodeProgress.Percent ep / 100)%Q)
                      l acc
         <= acc + inject_Z (Z.of_nat (length l)))%Q.
Proof.
  induction 1 as [|ep l Hp _ IH]; intros acc; cbn [fold_left length].
  { change (inject_Z (Z.of_nat 0)) with 0%Q. lra. }
  destruct (IH (acc + progress.EpisodeProgress.Percent ep / 100)%Q) as [Hl Hu].
  apply share_bounds in Hp as [Hp0 Hp1].
  rewrite Nat2Z.inj_succ. unfold Z.succ. rewrite inject_Z_plus.
  change (inject_Z 1) with 1%Q. lra.
Qed.

(** What [updateFeedPercent] stores, when the counters are consistent with
    the records the tracker holds. *)
Lemma updateFeedPercent_bounds t fp :
  0 <= progress.FeedProgress.CompletedCount fp ->
  progress.FeedProgress.CompletedCount fp +
  Z.of_nat (length (progress.episodesOf t (progress.FeedProgress.FeedID fp)))
    <= progress.FeedProgress.TotalEpisodes fp ->
  (forall k ep, progress.episodeProgress t !! k = Some ep ->
                (0 <= progress.EpisodeProgress.Percent ep <= 100)%Q) ->
  (0 <= progress.FeedProgress.OverallPercent (progress.updateFeedPercent t fp)
     <= 100)%Q.
Proof.
  intros HC HT Hp. unfold progress.updateFeedPercent.
  destruct (progress.FeedProgress.TotalEpisodes fp =? 0) eqn:H0; simpl.
  { lra. }
  apply Z.eqb_neq in H0.
  set (l := progress.episodesOf t (progress.FeedProgress.FeedID fp)) in *.
  assert (Forall (fun ep => (0 <= progress.EpisodeProgress.Percent ep <= 100)%Q)
                 l) as Hl.
  { apply Forall_forall. intros ep Hin.
    destruct (episodesOf_elem _ _ _ Hin) as (k & Hk). by eapply Hp. }
  destruct (sum_bounds l Hl (inject_Z (progress.FeedProgress.CompletedCount fp)))
    as [Hlo Hhi].
  set (s := fold_left _ l _) in *.
  assert (0 <= inject_Z (progress.FeedProgress.CompletedCount fp))%Q as HC'.
  { change 0%Q with (inject_Z 0). by rewrite <- Zle_Qle. }
  assert (s <= inject_Z (progress.FeedProgress.TotalEpisodes fp))%Q as HsT.
  { eapply Qle_trans; [exact Hhi|]. rewrite <- inject_Z_plus.
    by rewrite <- Zle_Qle. }
  assert (0 < inject_Z (progress.FeedProgress.TotalEpisodes fp))%Q as HT'.
  { change 0%Q with (inject_Z 0). rewrite <- Zlt_Qlt. lia. }
  assert (0 <= s / inject_Z (progress.FeedProgress.TotalEpisodes fp))%Q as H1.
  { apply Qle_shift_div_l; [done|]. lra. }
  assert (s / inject_Z (progress.FeedProgress.TotalEpisodes fp) <= 1)%Q as H2.
  { apply Qle_shift_div_r; [done|]. lra. }
  lra.
Qed.

Lemma updateFeedPercent_fields t fp :
  let fp' := progress.updateFeedPercent t fp in
  progress.FeedProgress.FeedID fp' = progress.FeedProgress.FeedID fp /\
  progress.FeedProgress.TotalEpisodes fp' = progress.FeedProgress.TotalEpisodes fp /\
  progress.FeedProgress.CompletedCount fp' = progress.FeedProgress.CompletedCount fp /\
  progress.FeedProgress.DownloadingCount fp'
  = progress.FeedProgress.DownloadingCount fp.
Proof.
  unfold progress.updateFeedPercent. by destruct (_ =? 0).
Qed.

Lemma feedOk_mono t t' feedID fp :
  feedOk t feedID fp ->
  (length (progress.episodesOf t' feedID)
   <= length (progress.episodesOf t feedID))%nat ->
  feedOk t' feedID fp.
Proof.
  unfold feedOk. intros (?&?&?&?&?&?&?&?) ?.
  repeat split; try assumption; lia.
Qed.

Lemma episodesOf_insert_fresh t fp' k ep feedID :
  progress.episodeProgress t !! k = None ->
  length (progress.episodesOf
            (progress.mkTracker fp' (<[k := ep]> (progress.episodeProgress t)))
            feedID) =
  ((if String.eqb (progress.EpisodeProgress.FeedID ep) feedID then 1 else 0)
   + length (progress.episodesOf t feedID))%nat.
Proof. intros H. by apply count_insert_fresh. Qed.

Lemma episodesOf_delete t fp' k ep feedID :
  progress.episodeProgress t !! k = Some ep ->
  length (progress.episodesOf t feedID) =
  ((if String.eqb (progress.EpisodeProgress.FeedID ep) feedID then 1 else 0)
   + length (progress.episodesOf
               (progress.mkTracker fp' (delete k (progress.episodeProgress t)))
               feedID))%nat.
Proof. intros H. by apply count_delete. Qed.

Lemma episodesOf_feeds t fp' feedID :
  progress.episodesOf (progress.mkTracker fp' (progress.episodeProgress t))
                      feedID = progress.episodesOf t feedID.
Proof. done. Qed.

Lemma StartEpisode_ok t now feedID episodeID title :
  trackerOk t ->
  allowed (progress.OpStart feedID episodeID title) t ->
  trackerOk (progress.StartEpisode t now feedID episodeID title).
Proof.
  intros [Hfeeds Hrec] [Hfresh Hroom]. unfold progress.StartEpisode.
  fold (progressKey feedID episodeID).
  set (r := progress.EpisodeProgress.mk _ _ _ _ _ _ _ _ _ _).
  set (t1 := progress.mkTracker (progress.feedProgress t) _).
  assert (forall k ep, progress.episodeProgress t1 !! k = Some ep ->
            (0 <= progress.EpisodeProgress.Percent ep <= 100)%Q) as Hrec1.
  { intros k ep. unfold t1. cbn [progress.episodeProgress].
    rewrite lookup_insert. case_decide.
    - intros [= <-]. simpl. lra.
    - apply Hrec. }
  assert (forall g, length (progress.episodesOf t1 g) =
            ((if String.eqb feedID g then 1 else 0)
             + length (progress.episodesOf t g))%nat) as Hcount.
  { intros g. unfold t1. by rewrite episodesOf_insert_fresh. }
  assert (forall g fp, g <> feedID -> feedOk t g fp -> feedOk t1 g fp) as Hother.
  { intros g fp Hne Hok. apply (feedOk_mono t); [done|].
    rewrite Hcount. destruct (String.eqb_spec feedID g); [congruence | done]. }
  cbn [progress.feedProgress t1].
  destruct (progress.feedProgress t !! feedID) as [fp|] eqn:Hfp.
  - split; [|exact Hrec1]. intros g fpg. cbn [progress.feedProgress].
    rewrite lookup_insert. case_decide as Hg.
    + subst g. intros [= <-].
      destruct (Hfeeds _ _ Hfp) as (Hid & HC & HD & Hsum & HT & Hcnt & Hov).
      specialize (Hroom fp eq_refl).
      set (fp1 := if _ >? 0 then _ else _).
      assert (progress.FeedProgress.FeedID fp1 = feedID /\
              progress.FeedProgress.TotalEpisodes fp1
              = progress.FeedProgress.TotalEpisodes fp /\
              progress.FeedProgress.CompletedCount fp1
              = progress.FeedProgress.CompletedCount fp /\
              progress.FeedProgress.DownloadingCount fp1
              = progress.FeedProgress.DownloadingCount fp + 1)
        as (Hid1 & HT1 & HC1 & HD1).
      { unfold fp1. destruct (_ >? 0); simpl;
          rewrite wrap64_id by lia; done. }
      destruct (updateFeedPercent_fields t1 fp1) as (Ei & ET & EC & ED).
      assert (length (progress.episodesOf t1 feedID)
              = S (length (progress.episodesOf t feedID))) as Hc1.
      { rewrite Hcount. by rewrite String.eqb_refl. }
      unfold feedOk. rewrite episodesOf_feeds, Ei, ET, EC, ED, Hid1, HT1, HC1, HD1.
      repeat split; try lia.
      all: apply updateFeedPercent_bounds; rewrite ?Hid1, ?HT1, ?HC1; try lia;
        apply Hrec1.
    + intros Hl. apply (feedOk_mono t1); [|done].
      apply Hother; [congruence|]. by apply Hfeeds.
  - split; [|exact Hrec1]. intros g fpg Hl.
    change (progress.feedProgress t !! g = Some fpg) in Hl.
    apply Hother; [|by apply Hfeeds]. intros ->. congruence.
Qed.

Lemma CompleteEpisode_ok t feedID episodeID :
  trackerOk t ->
  allowed (progress.OpComplete feedID episodeID) t ->
  trackerOk (progress.CompleteEpisode t feedID episodeID).
Proof.
  intros [Hfeeds Hrec] (r & Hr & Hrf). unfold progress.CompleteEpisode.
  fold (progressKey feedID episodeID).
  set (t1 := progress.mkTracker (progress.feedProgress t) _).
  assert (forall k ep, progress.episodeProgress t1 !! k = Some ep ->
            (0 <= progress.EpisodeProgress.Percent ep <= 100)%Q) as Hrec1.
  { intros k ep. unfold t1. cbn [progress.episodeProgress].
    intros [_ H]%lookup_delete_Some. by eapply Hrec. }
  assert (forall g, length (progress.episodesOf t g) =
            ((if String.eqb feedID g then 1 else 0)
             + length (progress.episodesOf t1 g))%nat) as Hcount.
  { intros g. unfold t1.
    rewrite (episodesOf_delete t (progress.feedProgress t) _ r g Hr).
    by rewrite Hrf. }
  assert (forall g fp, feedOk t g fp -> feedOk t1 g fp) as Hother.
  { intros g fp Hok. apply (feedOk_mono t); [done|]. rewrite (Hcount g). lia. }
  cbn [progress.feedProgress t1].
  destruct (progress.feedProgress t !! feedID) as [fp|] eqn:Hfp.
  - split; [|exact Hrec1]. intros g fpg. cbn [progress.feedProgress].
    rewrite lookup_insert. case_decide as Hg.
    + subst g. intros [= <-].
      destruct (Hfeeds _ _ Hfp) as (Hid & HC & HD & Hsum & HT & Hcnt & Hov).
      pose proof (Hcount feedID) as Hc. rewrite String.eqb_refl in Hc.
      set (fp1 := if _ >? 0 then _ else _).
      assert (progress.FeedProgress.FeedID fp1 = feedID /\
              progress.FeedProgress.TotalEpisodes fp1
              = progress.FeedProgress.TotalEpisodes fp /\
              progress.FeedProgress.CompletedCount fp1
              = progress.FeedProgress.CompletedCount fp /\
              progress.FeedProgress.DownloadingCount fp1
              = progress.FeedProgress.DownloadingCount fp - 1)
        as (Hid1 & HT1 & HC1 & HD1).
      { unfold fp1.
        destruct (progress.FeedProgress.DownloadingCount fp >? 0) eqn:Hpos.
        - simpl. rewrite wrap64_id by lia. done.
        - rewrite Z.gtb_ltb in Hpos. apply Z.ltb_ge in Hpos. lia. }
      set (fp2 := progress.FeedProgress.setCompletedCount _ fp1).
      assert (progress.FeedProgress.FeedID fp2 = feedID /\
              progress.FeedProgress.TotalEpisodes fp2
              = progress.FeedProgress.TotalEpisodes fp /\
              progress.FeedProgress.CompletedCount fp2
              = progress.FeedProgress.CompletedCount fp + 1 /\
              progress.FeedProgress.DownloadingCount fp2
              = progress.FeedProgress.DownloadingCount fp - 1)
        as (Hid2 & HT2 & HC2 & HD2).
      { unfold fp2. simpl. rewrite HC1, wrap64_id by lia. done. }
      destruct (updateFeedPercent_fields t1 fp2) as (Ei & ET & EC & ED).
      unfold feedOk. rewrite episodesOf_feeds, Ei, ET, EC, ED, Hid2, HT2, HC2, HD2.
      repeat split; try lia.
      all: apply updateFeedPercent_bounds; rewrite ?Hid2, ?HT2, ?HC2; try lia;
        apply Hrec1.
    + intros Hl. apply (feedOk_mono t1); [|done].
      apply Hother. by apply Hfeeds.
  - split; [|exact Hrec1]. intros g fpg Hl.
    change (progress.feedProgress t !! g = Some fpg) in Hl.
    apply Hother. by apply Hfeeds.
Qed.

Lemma UpdateEpisode_ok t now feedID episodeID stage percent downloaded total
    speed :
  trackerOk t ->
  allowed (progress.OpUpdate feedID episodeID stage percent downloaded total
             speed) t ->
  trackerOk (progress.UpdateEpisode t now feedID episodeID stage percent
               downloaded total speed).
Proof.
  intros [Hfeeds Hrec] [(r & Hr & Hrf) Hp]. unfold progress.UpdateEpisode.
  fold (progressKey feedID episodeID). rewrite Hr.
  split.
  - intros g fp Hl. apply (feedOk_mono t); [by apply Hfeeds|].
    unfold progress.episodesOf. cbn [progress.episodeProgress].
    by rewrite (count_overwrite _ _ r).
  - intros k ep. cbn [progress.episodeProgress].
    rewrite lookup_insert. case_decide.
    + by intros [= <-].
    + apply Hrec.
Qed.

Lemma QueueEpisodes_ok t feedID n :
  trackerOk t -> trackerOk (progress.QueueEpisodes t feedID n).
Proof.
  intros [Hfeeds Hrec]. unfold progress.QueueEpisodes.
  destruct (progress.feedProgress t !! feedID) as [fp|] eqn:Hfp; [|done].
  split; [|exact Hrec]. intros g fpg. cbn [progress.feedProgress].
  rewrite lookup_insert. case_decide as Hg.
  - subst g. intros [= <-].
    destruct (Hfeeds _ _ Hfp) as (Hid & HC & HD & Hsum & HT & Hcnt & Hov).
    set (fp1 := progress.FeedProgress.setQueuedCount _ fp).
    destruct (updateFeedPercent_fields t fp1) as (Ei & ET & EC & ED).
    unfold feedOk. rewrite episodesOf_feeds, Ei, ET, EC, ED. simpl.
    repeat split; try done; try lia.
    all: apply updateFeedPercent_bounds; simpl; rewrite ?Hid; try lia;
      apply Hrec.
  - intros Hl. apply (feedOk_mono t); [by apply Hfeeds | done].
Qed.

Lemma InitFeedProgress_ok t now feedID total :
  trackerOk t ->
  allowed (progress.OpInit feedID total) t ->
  trackerOk (progress.InitFeedProgress t now feedID total).
Proof.
  intros [Hfeeds Hrec] [Htot Hnone]. unfold progress.InitFeedProgress.
  split; [|exact Hrec]. intros g fpg. cbn [progress.feedProgress].
  rewrite lookup_insert. case_decide as Hg.
  - subst g. intros [= <-]. unfold feedOk. rewrite episodesOf_feeds, Hnone.
    simpl. repeat split; try lia; lra.
  - intros Hl. apply (feedOk_mono t); [by apply Hfeeds | done].
Qed.

Lemma ClearFeed_ok t feedID :
  trackerOk t -> trackerOk (progress.ClearFeed t feedID).
Proof.
  intros [Hfeeds Hrec]. unfold progress.ClearFeed. split.
  - intros g fpg. cbn [progress.feedProgress].
    intros [_ Hl]%lookup_delete_Some.
    apply (feedOk_mono t); [by apply Hfeeds|].
    unfold progress.episodesOf. cbn [progress.episodeProgress].
    apply count_filter_le.
  - intros k ep. cbn [progress.episodeProgress].
    intros [Hl _]%map_lookup_filter_Some. by eapply Hrec.
Qed.

Lemma apply_ok now op t :
  trackerOk t -> allowed op t -> trackerOk (progress.apply now op t).
Proof.
  intros Hok Hal. destruct op; cbn [progress.apply].
  - by apply InitFeedProgress_ok.
  - by apply QueueEpisodes_ok.
  - by apply StartEpisode_ok.
  - by apply UpdateEpisode_ok.
  - by apply CompleteEpisode_ok.
  - by apply ClearFeed_ok.
Qed.

Lemma New_ok : trackerOk progress.New.
Proof. split; intros ? ? H; simpl in H; by rewrite lookup_empty in H. Qed.

Lemma run_ok ops :
  forall t, trackerOk t -> disciplined ops t -> trackerOk (progress.run ops t).
Proof.
  induction ops as [|[now op] ops IH]; intros t Hok Hd; [done|].
  destruct Hd as [Hal Hd]. unfold progress.run. cbn [fold_left].
  apply IH; [by apply apply_ok | done].
Qed.


Lemma oneOfTwo_disciplined : disciplined examples.oneOfTwo progress.New.
Proof.
  vm_compute.
  repeat split; try discriminate; try reflexivity;
    try (intros ? [= <-]; reflexivity).
  all: eexists; split; reflexivity.
Qed.



(** ** Updating one episode record *)

Lemma UpdateEpisode_stored (b : gmap string Value) feedID (e : Episode.t)
    (f : Episode.t -> Episode.t) :
  b !! episodeKey feedID (Episode.ID e) = Some (VEpisode e) ->
  Episode.ID (f e) = Episode.ID e ->
  db.UpdateEpisode b feedID (Episode.ID e) (fun ep => Ok (f ep)) =
  (<[episodeKey feedID (Episode.ID e) := VEpisode (f e)]> b, None).
Proof.
  intros Hl Hid. unfold db.UpdateEpisode, db.Update, db.getObj.
  fold (episodeKey feedID (Episode.ID e)). rewrite Hl.
  cbn [db.unmarshalEpisode]. rewrite Hid.
  destruct (decide (Episode.ID e <> Episode.ID e)) as [Hne|_]; [done|].
  reflexivity.
Qed.

Lemma mutateEpisode_stored w feedID (e : Episode.t)
    (f : Episode.t -> Episode.t) :
  update.database w !! episodeKey feedID (Episode.ID e) = Some (VEpisode e) ->
  Episode.ID (f e) = Episode.ID e ->
  update.mutateEpisode w feedID (Episode.ID e) f =
  (update.setDatabase
     (<[episodeKey feedID (Episode.ID e) := VEpisode (f e)]>
        (update.database w)) w, None).
Proof.
  intros Hl Hid. unfold update.mutateEpisode.
  by rewrite (UpdateEpisode_stored _ _ _ _ Hl Hid).
Qed.

Lemma episodeKey_inj' feedID a b :
  episodeKey feedID a = episodeKey feedID b -> a = b.
Proof. apply episodeKey_inj. Qed.

(** ** Cleanup: keep the last N downloaded episodes *)

Lemma collect_fold (l acc : list Episode.t) :
  fold_left
    (fun (s : list Episode.t) e =>
       (if decide (Episode.Status e = EpisodeDownloaded)
        then (s ++ [e], None (A := error)) else (s, None)).1) l acc
  = acc ++ List.filter
             (fun e => bool_decide (Episode.Status e = EpisodeDownloaded)) l.
Proof.
  revert acc. induction l as [|x l IH]; intros acc; cbn [fold_left List.filter].
  { by rewrite app_nil_r. }
  rewrite IH. destruct (decide (Episode.Status x = EpisodeDownloaded)).
  - rewrite bool_decide_eq_true_2 by done. cbn [fst]. by rewrite <- app_assoc.
  - by rewrite bool_decide_eq_false_2.
Qed.

Section Cleanup.

Variable EpisodeName : feed.Config.t -> Episode.t -> string.

Local Abbreviation artifactPath := (update.artifactPath EpisodeName).

(** The loop over [list[count:]]: every victim whose record is in the
    database loses its artifact and is marked cleaned; nothing else
    changes, and no error accumulates. *)
Lemma cleanLoop cfg victims :
  forall w errs,
    NoDup (List.map Episode.ID victims) ->
    (forall v, v ∈ victims ->
       update.database w !! episodeKey (feed.Config.ID cfg) (Episode.ID v)
       = Some (VEpisode v)) ->
    exists w',
      fold_left (fun st episode => update.cleanEpisode EpisodeName cfg episode st)
                victims (w, errs) = (w', errs) /\
      (forall v, v ∈ victims ->
         update.database w' !! episodeKey (feed.Config.ID cfg) (Episode.ID v)
         = Some (VEpisode (cleaned v))) /\
      (forall k, (forall v, v ∈ victims ->
                    k <> episodeKey (feed.Config.ID cfg) (Episode.ID v)) ->
                 update.database w' !! k = update.database w !! k) /\
      (forall v, v ∈ victims -> update.storage w' !! artifactPath cfg v = None) /\
      (forall p, (forall v, v ∈ victims -> p <> artifactPath cfg v) ->
                 update.storage w' !! p = update.storage w !! p).
Proof.
  induction victims as [|v rest IH]; intros w errs Hnd Hst; cbn [fold_left].
  { exists w. split; [done|]. repeat split; try done;
      by intros v ?%elem_of_nil. }
  cbn [List.map] in Hnd. apply NoDup_cons in Hnd as [Hv Hnd].
  set (F := feed.Config.ID cfg) in *.
  assert (exists w1,
    update.cleanEpisode EpisodeName cfg v (w, errs) = (w1, errs) /\
    update.database w1 = <[episodeKey F (Episode.ID v) := VEpisode (cleaned v)]>
                           (update.database w) /\
    update.storage w1 = delete (artifactPath cfg v) (update.storage w))
    as (w1 & Hstep & Hdb1 & Hfs1).
  { unfold update.cleanEpisode, fs.Delete.
    fold (artifactPath cfg v). fold F.
    assert (update.database w !! episodeKey F (Episode.ID v)
            = Some (VEpisode v)) as Hl by (apply Hst; by left).
    destruct (update.storage w !! artifactPath cfg v) as [c|] eqn:Hp.
    - rewrite (mutateEpisode_stored _ F v
                 (fun ep => Episode.setDescription ""
                              (Episode.setTitle ""
                                 (Episode.setStatus EpisodeCleaned ep))))
        by done.
      eexists. split; [reflexivity|]. done.
    - cbn [IsErrNotExist negb].
      rewrite (mutateEpisode_stored _ F v
                 (fun ep => Episode.setDescription ""
                              (Episode.setTitle ""
                                 (Episode.setStatus EpisodeCleaned ep))))
        by done.
      eexists. split; [reflexivity|]. split; [done|].
      cbn [update.storage update.setStorage update.setDatabase].
      by rewrite delete_id. }
  rewrite Hstep.
  assert (forall v', v' ∈ rest -> Episode.ID v' <> Episode.ID v) as Hids.
  { intros v' Hin Heq. apply Hv. rewrite <- Heq.
    apply list_elem_of_In, in_map. by apply list_elem_of_In. }
  destruct (IH w1 errs Hnd) as (w' & -> & Hcl & Hdb & Hgone & Hfs).
  { intros v' Hin. rewrite Hdb1, lookup_insert_ne.
    - apply Hst. by right.
    - intros Heq%episodeKey_inj'. by apply (Hids v' Hin). }
  exists w'. split; [done|]. repeat split.
  - intros v' [->|Hin]%elem_of_cons; [|by apply Hcl].
    rewrite Hdb, Hdb1; [apply lookup_insert_eq|].
    intros v' Hin Heq%episodeKey_inj'. by apply (Hids v' Hin).
  - intros k Hk. rewrite Hdb, Hdb1.
    + apply lookup_insert_ne. intros <-. by apply (Hk v); [left|].
    + intros v' Hin. apply Hk. by right.
  - intros v' [->|Hin]%elem_of_cons; [|by apply Hgone].
    destruct (decide (Exists (fun v' => artifactPath cfg v = artifactPath cfg v')
                             rest)) as [Hex|Hex].
    + apply Exists_exists in Hex as (v' & Hin & ->). by apply Hgone.
    + rewrite Hfs, Hfs1; [apply lookup_delete_eq|].
      intros v' Hin Heq. apply Hex, Exists_exists. by exists v'.
  - intros p Hp. rewrite Hfs, Hfs1.
    + apply lookup_delete_ne. intros <-. by apply (Hp v); [left|].
    + intros v' Hin. apply Hp. by right.
Qed.

Variable sortSlice :
  (Episode.t -> Episode.t -> bool) -> list Episode.t -> list Episode.t.

(** What [sort.Slice] guarantees: the result is a rearrangement of the
    input in which no element is followed by one that [less] puts before
    it; for the comparison of [cleanup], no episode is followed by a newer
    one. *)
Hypothesis sortSlice_perm : forall less l, sortSlice less l ≡ₚ l.
Hypothesis sortSlice_sorted :
  forall l, StronglySorted notOlder (sortSlice newerFirst l).


End Cleanup.

(** The insertion sort used in the examples meets the contract of
    [sort.Slice]. *)
Lemma insertBy_perm less x l : examples.insertBy less x l ≡ₚ x :: l.
Proof.
  induction l as [|y l IH]; simpl; [done|].
  destruct (less y x); [|done]. rewrite IH. apply perm_swap.
Qed.

Lemma examples_sortSlice_perm less l : examples.sortSlice less l ≡ₚ l.
Proof.
  unfold examples.sortSlice. induction l as [|x l IH]; simpl; [done|].
  by rewrite insertBy_perm, IH.
Qed.

Lemma insertBy_sorted x l :
  StronglySorted notOlder l ->
  StronglySorted notOlder (examples.insertBy newerFirst x l).
Proof.
  induction 1 as [|y l Hl IH Hy]; simpl.
  { repeat constructor. }
  unfold newerFirst at 1, time.After.
  destruct (Episode.PubDate x <? Episode.PubDate y) eqn:Hlt.
  - apply Z.ltb_lt in Hlt. constructor; [done|].
    rewrite insertBy_perm. constructor; [unfold notOlder; lia | done].
  - apply Z.ltb_ge in Hlt. constructor; [by constructor|].
    constructor; [done|].
    eapply Forall_impl; [exact Hy|]. unfold notOlder. intros z ?. lia.
Qed.

Lemma examples_sortSlice_sorted l :
  StronglySorted notOlder (examples.sortSlice newerFirst l).
Proof.
  unfold examples.sortSlice. induction l as [|x l IH]; simpl.
  - constructor.
  - by apply insertBy_sorted.
Qed.

Lemma fourDownloaded_wellKeyed :
  wellKeyed (update.database examples.fourDownloaded) "f1".
Proof.
  unfold wellKeyed. apply map_Forall_to_list. vm_compute.
  repeat constructor.
Qed.

Lemma fourDownloaded_victims :
  drop (Z.to_nat 2)
    (examples.sortSlice newerFirst
       (downloadedEpisodes (update.database examples.fourDownloaded)
          (feed.Config.ID examples.feedKeep2)))
  = [examples.ep2; examples.ep1].
Proof. vm_compute. reflexivity. Qed.


(** ** What the stages of the pipeline leave alone *)

Lemma historyKey_foreign feedID id : foreign feedID (historyKey id).
Proof.
  split; [|intros episodeID];
    unfold historyKey, episodeKey, db.getKey, db.historyPath, db.feedPath,
      db.episodePath; intros H; apply (append_inj_l "podsync/v1/") in H;
    discriminate.
Qed.

Lemma UpdateEpisode_frame b feedID episodeID cb k :
  k <> episodeKey feedID episodeID ->
  (db.UpdateEpisode b feedID episodeID cb).1 !! k = b !! k.
Proof.
  intros Hk. unfold db.UpdateEpisode, db.Update.
  fold (episodeKey feedID episodeID).
  destruct (db.getObj _ _ _) as [e|]; [|done].
  destruct (cb e) as [e'|]; [|done].
  destruct (decide _); [done|]. unfold db.setObj. cbn [negb fst].
  by rewrite lookup_insert_ne.
Qed.

Lemma mutateEpisode_frame w feedID episodeID f k :
  k <> episodeKey feedID episodeID ->
  update.database (update.mutateEpisode w feedID episodeID f).1 !! k
  = update.database w !! k.
Proof.
  intros Hk. unfold update.mutateEpisode.
  pose proof (UpdateEpisode_frame (update.database w) feedID episodeID
                (fun ep => Ok (f ep)) k Hk) as H.
  by destruct (db.UpdateEpisode _ _ _ _).
Qed.

Lemma iterate_inv {St} (P : St -> Prop) items
    (cb : db.Item -> St -> St * option error) st :
  P st -> (forall item s, P s -> P (cb item s).1) ->
  P (db.iterate items cb st).1.
Proof.
  intros Hst Hcb. revert st Hst.
  induction items as [|item items IH]; intros st Hst; cbn [db.iterate];
    [done|].
  specialize (Hcb item st Hst). destruct (cb item st) as [st' [e|]]; [done|].
  by apply IH.
Qed.

Section Frames.

Variable EpisodeName : feed.Config.t -> Episode.t -> string.
Variable matchFilters : Episode.t -> feed.Config.t -> bool.
Variable feedBuild : Feed.t -> feed.Config.t -> string -> result string.
Variable BuildOPML : gmap string Value -> string -> result string.
Variable sortSlice :
  (Episode.t -> Episode.t -> bool) -> list Episode.t -> list Episode.t.
Variable u : update.Manager.
Variable env : update.Env.

Lemma updateFeed_frame cfg b k :
  foreign (feed.Config.ID cfg) k ->
  (update.updateFeed env cfg b).1 !! k = b !! k.
Proof.
  intros [Hfk Hek]. unfold update.updateFeed.
  destruct (update.listing env) as [result|]; [|done].
  destruct (db.WalkEpisodes _ _ _ _) as [[es bs] [e|]]; [done|].
  set (feed' := Feed.setEpisodes _ result).
  destruct (AddFeed_lookup b (feed.Config.ID cfg) feed') as (b1 & -> & Hb1).
  set (ids := elements _).
  destruct (removeEpisodes_lookup b1 (feed.Config.ID cfg) ids)
    as (b' & -> & _ & Hout).
  cbn [fst]. rewrite Hout by (intros; apply Hek).
  rewrite Hb1, lookup_insert_ne by done.
  destruct (b !! k); [done|].
  destruct (List.find _ _) as [ep|] eqn:Hf; [|done].
  apply find_some in Hf as [_ Heq]. apply String.eqb_eq in Heq.
  exfalso. by apply (Hek (Episode.ID ep)).
Qed.

Lemma fetchEpisodes_frame cfg b k :
  foreign (feed.Config.ID cfg) k ->
  (update.fetchEpisodes matchFilters cfg b).1 !! k = b !! k.
Proof.
  intros [Hfk Hek]. unfold update.fetchEpisodes, db.WalkEpisodes,
    db.walkEpisodes, db.iterator.
  match goal with
  | |- context [db.iterate ?items ?cb ?st] =>
      pose proof (iterate_inv
                    (fun s : gmap string Value * list Episode.t * Z =>
                       s.1.1 !! k = b !! k) items cb st) as Hinv
  end.
  cbn [fst] in Hinv.
  destruct (db.iterate _ _ _) as [[[b' l] n] [e|]]; cbn [fst] in *;
    apply Hinv; try done.
  all: intros item [[b0 l0] n0] Hs;
    destruct (db.unmarshalEpisode item.2) as [episode|]; [|done];
    unfold update.selectEpisode;
    repeat (case_decide; [done|]);
    destruct (negb _); [|by destruct (_ <? 0)];
    case_decide; [|done];
    pose proof (UpdateEpisode_frame b0 (feed.Config.ID cfg)
                  (Episode.ID episode)
                  (fun ep => Ok (Episode.setStatus EpisodeIgnored ep)) k
                  (Hek _)) as Hf;
    destruct (db.UpdateEpisode _ _ _ _); cbn [fst] in *; congruence.
Qed.

Lemma cleanEpisode_frame cfg episode st k :
  foreign (feed.Config.ID cfg) k ->
  update.database (update.cleanEpisode EpisodeName cfg episode st).1 !! k
  = update.database st.1 !! k.
Proof.
  intros [Hfk Hek]. destruct st as [w errs]. unfold update.cleanEpisode.
  destruct (fs.Delete _ _) as [disk err].
  set (w1 := update.setStorage disk w).
  destruct (match err with
            | Some e => if negb (IsErrNotExist e) then Some e else None
            | None => None
            end); [done|].
  pose proof (mutateEpisode_frame w1 (feed.Config.ID cfg) (Episode.ID episode)
                (fun ep => Episode.setDescription ""
                             (Episode.setTitle ""
                                (Episode.setStatus EpisodeCleaned ep))) k
                (Hek _)) as Hf.
  destruct (update.mutateEpisode _ _ _ _) as [w2 [e|]]; exact Hf.
Qed.

Lemma cleanup_frame cfg w k :
  foreign (feed.Config.ID cfg) k ->
  update.database (update.cleanup EpisodeName sortSlice cfg w).1 !! k
  = update.database w !! k.
Proof.
  intros Hk. unfold update.cleanup.
  destruct (feed.Config.Clean cfg) as [clean|]; [|done].
  destruct (_ <? 1); [done|].
  destruct (db.WalkEpisodes _ _ _ _) as [l [e|]]; [done|].
  destruct (_ >? _); [done|].
  set (victims := drop _ _).
  assert (forall st,
            update.database
              (fold_left (fun st episode =>
                            update.cleanEpisode EpisodeName cfg episode st)
                         victims st).1 !! k
            = update.database st.1 !! k) as Hfold.
  { induction victims as [|v rest IH]; intros st; cbn [fold_left]; [done|].
    rewrite IH. by apply cleanEpisode_frame. }
  specialize (Hfold (w, [])).
  by destruct (fold_left _ _ _).
Qed.

Lemma buildXML_database cfg w :
  update.database (update.buildXML feedBuild u cfg w).1 = update.database w.
Proof.
  unfold update.buildXML.
  destruct (db.GetFeed _ _); [|done].
  destruct (feedBuild _ _ _); [|done].
  destruct (fs.Create _ _ _) as [[disk n] [e|]]; done.
Qed.

Lemma buildOPML_database w :
  update.database (update.buildOPML BuildOPML u w).1 = update.database w.
Proof.
  unfold update.buildOPML.
  destruct (BuildOPML _ _); [|done].
  destruct (fs.Create _ _ _) as [[disk n] [e|]]; done.
Qed.

End Frames.

(** ** The download stage under a rate limit *)

Lemma Create_complete disk name reader :
  fs.failure reader = None ->
  fs.Create disk name reader =
  (<[name := fs.content reader]> disk, fs.len (fs.content reader), None).
Proof.
  intros Hf.
  assert (fs.osCreate disk name !! name = Some "") as Hc
    by apply lookup_insert_eq.
  unfold fs.Create, fs.copyFile.
  rewrite (Copy_appends _ _ _ _ _ _ Hc), Hf.
  unfold fs.osCreate, fs.content. rewrite insert_insert_eq. simpl.
  reflexivity.
Qed.

Lemma mutateEpisode_at w feedID id (e : Episode.t)
    (f : Episode.t -> Episode.t) :
  update.database w !! episodeKey feedID id = Some (VEpisode e) ->
  Episode.ID e = id ->
  Episode.ID (f e) = id ->
  update.mutateEpisode w feedID id f =
  (update.setDatabase
     (<[episodeKey feedID id := VEpisode (f e)]> (update.database w)) w, None).
Proof.
  intros Hl <- Hid. by apply mutateEpisode_stored.
Qed.

Lemma markQueued_lookup feedID l :
  forall w,
    NoDup (List.map Episode.ID l) ->
    (forall x, x ∈ l ->
       update.database w !! episodeKey feedID (Episode.ID x)
       = Some (VEpisode x)) ->
    let w' := update.markQueued w feedID l in
    (forall x, x ∈ l ->
       update.database w' !! episodeKey feedID (Episode.ID x)
       = Some (VEpisode (Episode.setStatus EpisodeQueued x))) /\
    (forall k, (forall x, x ∈ l -> k <> episodeKey feedID (Episode.ID x)) ->
               update.database w' !! k = update.database w !! k) /\
    update.storage w' = update.storage w /\
    update.progressTracker w' = update.progressTracker w /\
    update.downloadRequests w' = update.downloadRequests w.
Proof.
  induction l as [|x l IH]; intros w Hnd Hst; cbn [update.markQueued].
  { repeat split; try done. by intros x ?%elem_of_nil. }
  cbn [List.map] in Hnd. apply NoDup_cons in Hnd as [Hx Hnd].
  assert (forall y, y ∈ l -> Episode.ID y <> Episode.ID x) as Hids.
  { intros y Hin Heq. apply Hx. rewrite <- Heq.
    apply list_elem_of_In, in_map. by apply list_elem_of_In. }
  rewrite (mutateEpisode_stored w feedID x (Episode.setStatus EpisodeQueued))
    by (try apply Hst; by try left).
  cbn [fst]. set (w1 := update.setDatabase _ w).
  destruct (IH w1 Hnd) as (Hq & Hfr & Hs & Ht & Hr).
  { intros y Hin. unfold w1. cbn [update.database update.setDatabase].
    rewrite lookup_insert_ne; [apply Hst; by right|].
    intros Heq%episodeKey_inj'. by apply (Hids y). }
  repeat split; try done.
  - intros y [->|Hin]%elem_of_cons; [|by apply Hq].
    rewrite Hfr.
    + unfold w1. cbn [update.database update.setDatabase].
      apply lookup_insert_eq.
    + intros y Hin Heq%episodeKey_inj'. by apply (Hids y).
  - intros k Hk. rewrite Hfr.
    + unfold w1. cbn [update.database update.setDatabase].
      apply lookup_insert_ne. intros <-. by apply (Hk x); [left|].
    + intros y Hin. apply Hk. by right.
Qed.

(** The progress callback only writes to the tracker. *)
Lemma reportProgress_world env w line :
  update.database (update.reportProgress env w line) = update.database w /\
  update.storage (update.reportProgress env w line) = update.storage w /\
  update.downloadRequests (update.reportProgress env w line)
  = update.downloadRequests w /\
  update.progressCallback (update.reportProgress env w line)
  = update.progressCallback w.
Proof.
  unfold update.reportProgress.
  destruct (update.progressCallback w) as [[feedID episodeID]|] eqn:Hcb;
    cbn [update.database update.storage update.downloadRequests
           update.progressCallback update.setTracker]; by rewrite ?Hcb.
Qed.

Lemma downloading_world env x w :
  update.database (update.downloading env x w) = update.database w /\
  update.storage (update.downloading env x w) = update.storage w /\
  update.downloadRequests (update.downloading env x w)
  = update.downloadRequests w ++ [Episode.ID x] /\
  update.progressCallback (update.downloading env x w)
  = update.progressCallback w.
Proof.
  unfold update.downloading.
  change (update.database w) with
    (update.database (update.logRequest (Episode.ID x) w)).
  change (update.storage w) with
    (update.storage (update.logRequest (Episode.ID x) w)).
  change (update.downloadRequests w ++ [Episode.ID x]) with
    (update.downloadRequests (update.logRequest (Episode.ID x) w)).
  change (update.progressCallback w) with
    (update.progressCallback (update.logRequest (Episode.ID x) w)).
  generalize (update.logRequest (Episode.ID x) w). clear w.
  induction (update.progressLines env x) as [|line lines IH]; intros w;
    cbn [fold_left]; [done|].
  destruct (IH (update.reportProgress env w line)) as (-> & -> & -> & ->).
  apply reportProgress_world.
Qed.

(** The driver at work after the callback was set up, as in one turn of
    the download loop. *)
Lemma downloading_turn (u : update.Manager) env feedID x w :
  let w' :=
    update.downloading env x
      (if update.ytdl u
       then update.SetProgressCallback (Some (feedID, Episode.ID x)) w
       else w) in
  update.database w' = update.database w /\
  update.storage w' = update.storage w /\
  update.downloadRequests w' = update.downloadRequests w ++ [Episode.ID x].
Proof.
  cbv zeta.
  destruct (downloading_world env x
              (if update.ytdl u
               then update.SetProgressCallback (Some (feedID, Episode.ID x)) w
               else w)) as (-> & -> & -> & _).
  by destruct (update.ytdl u).
Qed.

Section Download.

Variable EpisodeName : feed.Config.t -> Episode.t -> string.
Variable u : update.Manager.
Variable env : update.Env.

Local Abbreviation artifactPath := (update.artifactPath EpisodeName).

(** One turn of the loop for an episode whose artifact is not in the store
    and whose download succeeds. *)
Lemma downloadEpisode_success cfg (x x' : Episode.t) w reader :
  update.database w !! episodeKey (feed.Config.ID cfg) (Episode.ID x)
    = Some (VEpisode x') ->
  Episode.ID x' = Episode.ID x ->
  update.storage w !! artifactPath cfg x = None ->
  update.download env x = Ok reader ->
  fs.failure reader = None ->
  exists w',
    update.downloadEpisode EpisodeName u env cfg x w = (w', update.Continue) /\
    update.database w' =
      <[episodeKey (feed.Config.ID cfg) (Episode.ID x) :=
          VEpisode (Episode.setStatus EpisodeDownloaded
                      (Episode.setSize (fs.len (fs.content reader))
                         (Episode.setStatus EpisodeDownloading x')))]>
        (update.database w) /\
    update.storage w' =
      <[artifactPath cfg x := fs.content reader]> (update.storage w) /\
    update.downloadRequests w' = update.downloadRequests w ++ [Episode.ID x].
Proof.
  intros Hl Hid Hp Hd Hf. unfold update.downloadEpisode, fs.Size.
  fold (artifactPath cfg x). rewrite Hp. cbn [IsNotExist negb].
  rewrite (mutateEpisode_at w _ _ x' (Episode.setStatus EpisodeDownloading))
    by done.
  cbn [fst]. rewrite Hd.
  match goal with
  | |- context [update.downloading env x
                  (if update.ytdl u
                   then update.SetProgressCallback (Some (?F, _)) ?w0
                   else _)] =>
      destruct (downloading_turn u env F x w0) as (Hdb0 & Hfs0 & Hr0)
  end.
  set (wd := update.downloading env x _) in *.
  rewrite Hfs0.
  cbn [update.storage update.setTracker update.setDatabase].
  rewrite (Create_complete _ _ _ Hf).
  match goal with
  | |- context [update.mutateEpisode ?w0 _ _ ?f] =>
      rewrite (mutateEpisode_at w0 _ _
                 (Episode.setStatus EpisodeDownloading x') f)
  end.
  - eexists. split; [reflexivity|].
    cbn [update.database update.storage update.downloadRequests
           update.setTracker update.setDatabase update.setStorage].
    rewrite Hdb0, Hr0.
    cbn [update.database update.storage update.downloadRequests
           update.setTracker update.setDatabase update.setStorage].
    by rewrite insert_insert_eq.
  - cbn [update.database update.setStorage]. rewrite Hdb0.
    cbn [update.database update.setTracker update.setDatabase].
    apply lookup_insert_eq.
  - done.
  - done.
Qed.

(** One turn of the loop for an episode on which the driver answers
    TooManyRequests: the record has become [downloading], the loop is left,
    no error is recorded. *)
Lemma downloadEpisode_rate_limited cfg (x x' : Episode.t) w :
  update.database w !! episodeKey (feed.Config.ID cfg) (Episode.ID x)
    = Some (VEpisode x') ->
  Episode.ID x' = Episode.ID x ->
  update.storage w !! artifactPath cfg x = None ->
  update.download env x = Err ErrTooManyRequests ->
  exists w',
    update.downloadEpisode EpisodeName u env cfg x w = (w', update.Break) /\
    update.database w' =
      <[episodeKey (feed.Config.ID cfg) (Episode.ID x) :=
          VEpisode (Episode.setStatus EpisodeDownloading x')]>
        (update.database w) /\
    update.storage w' = update.storage w /\
    update.downloadRequests w' = update.downloadRequests w ++ [Episode.ID x].
Proof.
  intros Hl Hid Hp Hd. unfold update.downloadEpisode, fs.Size.
  fold (artifactPath cfg x). rewrite Hp. cbn [IsNotExist negb].
  rewrite (mutateEpisode_at w _ _ x' (Episode.setStatus EpisodeDownloading))
    by done.
  cbn [fst]. rewrite Hd.
  destruct (decide (ErrTooManyRequests = ErrTooManyRequests)); [|done].
  match goal with
  | |- context [update.downloading env x
                  (if update.ytdl u
                   then update.SetProgressCallback (Some (?F, _)) ?w0
                   else _)] =>
      destruct (downloading_turn u env F x w0) as (Hdb0 & Hfs0 & Hr0)
  end.
  eexists. split; [reflexivity|]. by rewrite Hdb0, Hfs0, Hr0.
Qed.

Lemma setStatus_collapse s1 s2 n (e : Episode.t) :
  Episode.setStatus s1 (Episode.setSize n (Episode.setStatus s2 e))
  = Episode.setStatus s1 (Episode.setSize n e).
Proof. by destruct e. Qed.

Lemma setStatus_twice s1 s2 (e : Episode.t) :
  Episode.setStatus s1 (Episode.setStatus s2 e) = Episode.setStatus s1 e.
Proof. by destruct e. Qed.

(** Candidates A, B, C; A downloads, the driver answers TooManyRequests on
    B.  The stage returns nil; A is downloaded with the size of its
    artifact, B is left [downloading], C is left [queued] and was never
    handed to the driver. *)
Lemma downloadEpisodes_rate_limited cfg w (A B C : Episode.t) reader :
  let F := feed.Config.ID cfg in
  update.database w !! episodeKey F (Episode.ID A) = Some (VEpisode A) ->
  update.database w !! episodeKey F (Episode.ID B) = Some (VEpisode B) ->
  update.database w !! episodeKey F (Episode.ID C) = Some (VEpisode C) ->
  Episode.ID A <> Episode.ID B ->
  Episode.ID A <> Episode.ID C ->
  Episode.ID B <> Episode.ID C ->
  update.storage w !! artifactPath cfg A = None ->
  update.storage w !! artifactPath cfg B = None ->
  artifactPath cfg A <> artifactPath cfg B ->
  update.download env A = Ok reader ->
  fs.failure reader = None ->
  update.download env B = Err ErrTooManyRequests ->
  exists wd,
    update.downloadEpisodes EpisodeName u env cfg [A; B; C] w = (wd, None) /\
    update.database wd !! episodeKey F (Episode.ID A)
    = Some (VEpisode (Episode.setStatus EpisodeDownloaded
                        (Episode.setSize (fs.len (fs.content reader)) A))) /\
    update.database wd !! episodeKey F (Episode.ID B)
    = Some (VEpisode (Episode.setStatus EpisodeDownloading B)) /\
    update.database wd !! episodeKey F (Episode.ID C)
    = Some (VEpisode (Episode.setStatus EpisodeQueued C)) /\
    (forall k, k <> episodeKey F (Episode.ID A) ->
               k <> episodeKey F (Episode.ID B) ->
               k <> episodeKey F (Episode.ID C) ->
               update.database wd !! k = update.database w !! k) /\
    update.storage wd
    = <[artifactPath cfg A := fs.content reader]> (update.storage w) /\
    update.downloadRequests wd
    = update.downloadRequests w ++ [Episode.ID A; Episode.ID B].
Proof.
  intros F HA HB HC HAB HAC HBC HpA HpB Hpath HdA Hf HdB.
  assert (episodeKey F (Episode.ID A) <> episodeKey F (Episode.ID B)) as KAB
    by (intros ?%episodeKey_inj'; done).
  assert (episodeKey F (Episode.ID A) <> episodeKey F (Episode.ID C)) as KAC
    by (intros ?%episodeKey_inj'; done).
  assert (episodeKey F (Episode.ID B) <> episodeKey F (Episode.ID C)) as KBC
    by (intros ?%episodeKey_inj'; done).
  unfold update.downloadEpisodes. fold F.
  change (negb (Z.of_nat (length [A; B; C]) >? 0)) with false. cbv iota.
  set (w1 := update.setTracker _ w).
  destruct (markQueued_lookup F [A; B; C] w1) as (Hq & Hfr & Hs & Ht & Hr).
  { cbn [List.map]. repeat constructor; set_solver. }
  { intros x Hx. unfold w1. cbn [update.database update.setTracker].
    apply list_elem_of_In in Hx. cbn [In] in Hx.
    destruct Hx as [<-|[<-|[<-|[]]]]; done. }
  set (w2 := update.markQueued w1 F [A; B; C]) in *.
  set (w3 := update.setTracker _ w2).
  cbn [update.downloadLoop].
  destruct (downloadEpisode_success cfg A (Episode.setStatus EpisodeQueued A)
              w3 reader) as (w4 & -> & Hdb4 & Hfs4 & Hr4); try done.
  { unfold w3. cbn [update.database update.setTracker].
    apply Hq. by left. }
  { unfold w3. cbn [update.storage update.setTracker]. by rewrite Hs. }
  destruct (downloadEpisode_rate_limited cfg B
              (Episode.setStatus EpisodeQueued B) w4)
    as (w5 & -> & Hdb5 & Hfs5 & Hr5); try done.
  { rewrite Hdb4, lookup_insert_ne by done.
    unfold w3. cbn [update.database update.setTracker].
    apply Hq. right. by left. }
  { rewrite Hfs4, lookup_insert_ne by done.
    unfold w3. cbn [update.storage update.setTracker]. by rewrite Hs. }
  eexists. split; [reflexivity|].
  cbn [update.database update.storage update.downloadRequests
         update.setTracker].
  rewrite Hdb5, Hdb4, Hfs5, Hfs4, Hr5, Hr4.
  unfold w3. cbn [update.database update.storage update.downloadRequests
                    update.setTracker].
  rewrite Hs, Hr. unfold w1 at 1 2.
  cbn [update.storage update.downloadRequests update.setTracker].
  repeat split.
  - rewrite lookup_insert_ne, lookup_insert_eq by done.
    by rewrite setStatus_collapse.
  - rewrite lookup_insert_eq. by rewrite setStatus_twice.
  - rewrite !lookup_insert_ne by done. apply Hq. right. right. by left.
  - intros k HkA HkB HkC. rewrite !lookup_insert_ne by done.
    rewrite Hfr; [done|].
    intros x Hx. apply list_elem_of_In in Hx. cbn [In] in Hx.
    destruct Hx as [<-|[<-|[<-|[]]]]; done.
  - by rewrite <- app_assoc.
Qed.

End Download.

(** ** A whole run under a rate limit *)

Lemma newEntryID_nonempty now uuid :
  String.eqb (history.newEntryID now uuid) "" = false.
Proof. unfold history.newEntryID. destruct (pretty _); reflexivity. Qed.

Lemma historyIndex_ne feedID id :
  db.getKey (db.historyByFeed feedID id) <> historyKey id.
Proof.
  unfold historyKey, db.getKey, db.historyByFeed, db.historyPath.
  intros H. apply (append_inj_l "podsync/v1/") in H.
  vm_compute in H. discriminate.
Qed.

Lemma xml_ne_opml feedID : feedID +:+ ".xml" <> "podsync" +:+ ".opml".
Proof.
  change ("podsync" +:+ ".opml") with "podsync.opml".
  intros H.
  repeat (destruct feedID as [|c feedID]; vm_compute in H;
          [discriminate H|]; injection H as _ H; clear c).
  destruct feedID; vm_compute in H; discriminate H.
Qed.

(** With the recorder enabled, the start of a run stores a running entry
    under a fresh, non-empty identifier. *)
Lemma LogFeedUpdateStart_enabled m b now uuid feedID feedTitle trigger
    b1 hid e :
  history.enabled m = true ->
  history.LogFeedUpdateStart m b now uuid feedID feedTitle trigger
  = (b1, hid, e) ->
  e = None /\ hid = history.newEntryID now uuid /\
  b1 !! historyKey hid
  = Some (VHistory
            (HistoryEntry.mk hid JobTypeFeedUpdate feedID feedTitle "" ""
               now None 0 JobStatusRunning trigger JobStatistics.zero "")).
Proof.
  intros Hen.
  unfold history.LogFeedUpdateStart, db.AddHistory, db.Update, db.setObj.
  rewrite Hen. cbn [negb HistoryEntry.ID HistoryEntry.FeedID].
  fold (historyKey (history.newEntryID now uuid)).
  destruct (decide (feedID <> "")); intros [= <- <- <-]; repeat split.
  - rewrite lookup_insert_ne by apply historyIndex_ne.
    apply lookup_insert_eq.
  - apply lookup_insert_eq.
Qed.

(** Closing a stored entry. *)
Lemma LogFeedUpdateEndWithEpisodes_stored m b now hid feedID ids status
    stats msg (entry : HistoryEntry.t) :
  history.enabled m = true ->
  String.eqb hid "" = false ->
  b !! historyKey hid = Some (VHistory entry) ->
  HistoryEntry.ID entry = hid ->
  (history.LogFeedUpdateEndWithEpisodes m b now hid feedID ids status stats
     msg).1 !! historyKey hid
  = Some (VHistory
            (history.closeEntry now status
               (history.setEpisodeDetails
                  (history.episodeDetails b feedID ids) stats) msg entry)).
Proof.
  intros Hen Hne Hl Hid.
  unfold history.LogFeedUpdateEndWithEpisodes. rewrite Hen, Hne.
  cbn [negb orb]. unfold db.UpdateHistory, db.Update, db.getObj.
  fold (historyKey hid). rewrite Hl. cbn [db.unmarshalHistory].
  cbn [history.closeEntry HistoryEntry.ID]. rewrite Hid.
  destruct (decide (hid <> hid)); [done|].
  unfold db.setObj. cbn [negb fst]. apply lookup_insert_eq.
Qed.

(** *** The statistics of the download stage *)

Lemma collectEpisodeStats_cons b feedID x rest stats (current : Episode.t) :
  b !! episodeKey feedID (Episode.ID x) = Some (VEpisode current) ->
  update.collectEpisodeStats b feedID (x :: rest) stats =
  update.collectEpisodeStats b feedID rest
    (match Episode.Status current with
     | EpisodeDownloaded =>
         update.mkStats (update.downloaded stats + 1) (update.failed stats)
           (wrap64 (update.bytesDownloaded stats + Episode.Size current))
     | EpisodeError =>
         update.mkStats (update.downloaded stats) (update.failed stats + 1)
           (update.bytesDownloaded stats)
     | _ => stats
     end).
Proof.
  intros H. cbn [update.collectEpisodeStats].
  unfold db.GetEpisode, db.getObj.
  fold (episodeKey feedID (Episode.ID x)). by rewrite H.
Qed.

Lemma errorCount_nonneg l : 0 <= errorCount l.
Proof. unfold errorCount. lia. Qed.

(** Before the downloads, the only candidates that count are the ones left
    in status error by an earlier run. *)
Lemma collectEpisodeStats_candidates b feedID l :
  forall stats,
    (forall x, x ∈ l ->
       b !! episodeKey feedID (Episode.ID x) = Some (VEpisode x)) ->
    Forall candidate l ->
    update.collectEpisodeStats b feedID l stats =
    update.mkStats (update.downloaded stats)
      (update.failed stats + errorCount l) (update.bytesDownloaded stats).
Proof.
  induction l as [|x l IH]; intros stats Hst Hc.
  - unfold errorCount. cbn. rewrite Z.add_0_r. by destruct stats.
  - apply Forall_cons in Hc as [Hx Hc].
    rewrite (collectEpisodeStats_cons _ _ _ _ _ x) by (apply Hst; left).
    rewrite IH; [|intros; apply Hst; by right|done].
    unfold errorCount. cbn [List.filter].
    destruct Hx as [Hx|Hx]; rewrite Hx.
    + rewrite bool_decide_eq_false_2 by done. reflexivity.
    + rewrite bool_decide_eq_true_2 by done.
      cbn [update.downloaded update.failed update.bytesDownloaded length].
      f_equal. lia.
Qed.

Lemma fetchEpisodes_candidates matchFilters cfg b b' l :
  update.fetchEpisodes matchFilters cfg b = (b', Ok l) ->
  Forall candidate l.
Proof.
  unfold update.fetchEpisodes, db.WalkEpisodes, db.walkEpisodes, db.iterator.
  match goal with
  | |- context [db.iterate ?items ?cb ?st] =>
      pose proof (iterate_inv
                    (fun s : gmap string Value * list Episode.t * Z =>
                       Forall candidate s.1.2) items cb st) as Hinv
  end.
  cbn [fst snd] in Hinv.
  destruct (db.iterate _ _ _) as [[[b0 l0] n] [e|]]; intros [= <- <-].
  cbn [fst snd] in Hinv. apply Hinv; [constructor|].
  intros item [[b1 l1] n1] Hs. cbn [fst snd] in Hs.
  destruct (db.unmarshalEpisode item.2) as [episode|]; [|done].
  unfold update.selectEpisode.
  case_decide; [done|]. case_decide as Hst; [done|].
  destruct (negb _).
  - case_decide; [|done]. by destruct (db.UpdateEpisode _ _ _ _).
  - destruct (_ <? 0); [done|]. cbn [fst snd].
    apply Forall_app. split; [done|]. constructor; [|constructor].
    unfold candidate.
    destruct (Episode.Status episode); try (by left); try (by right);
      exfalso; apply Hst; by split.
Qed.

(** *** What the later stages leave of the download trace *)

Lemma cleanEpisode_requests EpisodeName cfg episode st :
  update.downloadRequests
    (update.cleanEpisode EpisodeName cfg episode st).1
  = update.downloadRequests st.1.
Proof.
  destruct st as [w errs]. unfold update.cleanEpisode.
  destruct (fs.Delete _ _) as [disk err].
  destruct (match err with
            | Some e => if negb (IsErrNotExist e) then Some e else None
            | None => None
            end); [done|].
  unfold update.mutateEpisode.
  destruct (db.UpdateEpisode _ _ _ _) as [b [e|]]; done.
Qed.

Lemma cleanup_requests EpisodeName sortSlice cfg w :
  update.downloadRequests (update.cleanup EpisodeName sortSlice cfg w).1
  = update.downloadRequests w.
Proof.
  unfold update.cleanup.
  destruct (feed.Config.Clean cfg) as [clean|]; [|done].
  destruct (_ <? 1); [done|].
  destruct (db.WalkEpisodes _ _ _ _) as [l [e|]]; [done|].
  destruct (_ >? _); [done|].
  set (victims := drop _ _).
  assert (forall st,
            update.downloadRequests
              (fold_left (fun st episode =>
                            update.cleanEpisode EpisodeName cfg episode st)
                         victims st).1
            = update.downloadRequests st.1) as Hfold.
  { induction victims as [|v rest IH]; intros st; cbn [fold_left]; [done|].
    rewrite IH. by apply cleanEpisode_requests. }
  specialize (Hfold (w, [])).
  by destruct (fold_left _ _ _).
Qed.

Lemma buildXML_ok feedBuild u cfg w wx :
  update.buildXML feedBuild u cfg w = (wx, None) ->
  exists f podcast,
    db.GetFeed (update.database w) (feed.Config.ID cfg) = Ok f /\
    feedBuild f cfg (update.hostname u) = Ok podcast /\
    wx = update.setStorage
           (<[feed.Config.ID cfg +:+ ".xml" := podcast]> (update.storage w)) w.
Proof.
  unfold update.buildXML.
  destruct (db.GetFeed _ _) as [f|]; [|intros [=]].
  destruct (feedBuild _ _ _) as [podcast|] eqn:Hb; [|intros [=]].
  rewrite Create_complete by done.
  unfold fs.content, fs.fileReader. cbn [fs.chunks fold_right].
  rewrite append_empty_r. intros [= <-]. eauto.
Qed.

Lemma buildOPML_ok BuildOPML u w wo :
  update.buildOPML BuildOPML u w = (wo, None) ->
  exists opml,
    wo = update.setStorage
           (<["podsync" +:+ ".opml" := opml]> (update.storage w)) w.
Proof.
  unfold update.buildOPML.
  destruct (BuildOPML _ _) as [opml|]; [|intros [=]].
  rewrite Create_complete by done.
  unfold fs.content, fs.fileReader. cbn [fs.chunks fold_right].
  rewrite append_empty_r. intros [= <-]. eauto.
Qed.

Section Run.

Variable EpisodeName : feed.Config.t -> Episode.t -> string.
Variable matchFilters : Episode.t -> feed.Config.t -> bool.
Variable feedBuild : Feed.t -> feed.Config.t -> string -> result string.
Variable BuildOPML : gmap string Value -> string -> result string.
Variable sortSlice :
  (Episode.t -> Episode.t -> bool) -> list Episode.t -> list Episode.t.
Variable u : update.Manager.
Variable env : update.Env.

Local Abbreviation Update :=
  (update.Update EpisodeName matchFilters feedBuild BuildOPML sortSlice u env).
Local Abbreviation artifactPath := (update.artifactPath EpisodeName).

(** C2.  A run of [Update] with the history recorder enabled, whose
    download list is A, B, C in this order (each stored under its own key,
    the artifacts of A and B not yet in the store), in which the driver
    delivers A and answers TooManyRequests on B, and which returns nil.
    Then the download stage returns nil with A downloaded (its size the
    length of the artifact), B left in status downloading and C left in
    status queued; only A and B were handed to the driver; the feed document
    built by the feed builder is in the artifact store; and the history
    entry of the run is closed with status success, queued = 3,
    downloaded = 1, failed = minus the number of candidates that were in
    status error before the run (0 when all were new), and an empty
    error. *)
Theorem Update_rate_limited cfg w (A B C : Episode.t) reader :
  let F := feed.Config.ID cfg in
  let started :=
    history.LogFeedUpdateStart (update.historyManager u) (update.database w)
      (update.now env) (update.uuid env) F (update.feedTitleOf cfg w)
      TriggerScheduled in
  let hid := started.1.2 in
  let listed := update.updateFeed env cfg started.1.1 in
  let fetched := update.fetchEpisodes matchFilters cfg listed.1 in
  history.enabled (update.historyManager u) = true ->
  listed.2 = None ->
  fetched.2 = Ok [A; B; C] ->
  fetched.1 !! episodeKey F (Episode.ID A) = Some (VEpisode A) ->
  fetched.1 !! episodeKey F (Episode.ID B) = Some (VEpisode B) ->
  fetched.1 !! episodeKey F (Episode.ID C) = Some (VEpisode C) ->
  Episode.ID A <> Episode.ID B ->
  Episode.ID A <> Episode.ID C ->
  Episode.ID B <> Episode.ID C ->
  update.storage w !! artifactPath cfg A = None ->
  update.storage w !! artifactPath cfg B = None ->
  artifactPath cfg A <> artifactPath cfg B ->
  update.download env A = Ok reader ->
  fs.failure reader = None ->
  update.download env B = Err ErrTooManyRequests ->
  (Update cfg w).2 = None ->
  let wf := (Update cfg w).1 in
  (exists wd,
     update.downloadEpisodes EpisodeName u env cfg [A; B; C]
       (update.setDatabase fetched.1 w) = (wd, None) /\
     update.database wd !! episodeKey F (Episode.ID A)
     = Some (VEpisode (Episode.setStatus EpisodeDownloaded
                         (Episode.setSize (fs.len (fs.content reader)) A))) /\
     update.database wd !! episodeKey F (Episode.ID B)
     = Some (VEpisode (Episode.setStatus EpisodeDownloading B)) /\
     update.database wd !! episodeKey F (Episode.ID C)
     = Some (VEpisode (Episode.setStatus EpisodeQueued C))) /\
  update.downloadRequests wf
  = update.downloadRequests w ++ [Episode.ID A; Episode.ID B] /\
  (exists f podcast,
     feedBuild f cfg (update.hostname u) = Ok podcast /\
     update.storage wf !! (F +:+ ".xml") = Some podcast) /\
  (exists entry,
     update.database wf !! historyKey hid = Some (VHistory entry) /\
     HistoryEntry.Status entry = JobStatusSuccess /\
     HistoryEntry.EndTime entry = Some (update.now env) /\
     JobStatistics.EpisodesQueued (HistoryEntry.Statistics entry) = 3 /\
     JobStatistics.EpisodesDownloaded (HistoryEntry.Statistics entry) = 1 /\
     JobStatistics.EpisodesFailed (HistoryEntry.Statistics entry)
     = - errorCount [A; B; C] /\
     HistoryEntry.Error entry = "").
Proof.
  intros F. cbv zeta.
  destruct (history.LogFeedUpdateStart _ _ _ _ _ _ _) as [[b1 hid] e0]
    eqn:Hstart.
  cbn [fst snd].
  destruct (update.updateFeed env cfg b1) as [b2 e2] eqn:Hupd.
  cbn [fst snd].
  destruct (update.fetchEpisodes matchFilters cfg b2) as [b3 r3] eqn:Hfetch.
  cbn [fst snd].
  intros Hen -> -> HA HB HC HAB HAC HBC HpA HpB Hpath HdA Hf HdB.
  destruct (Update cfg w) as [wf err] eqn:Hrun. cbn [fst snd]. intros ->.
  destruct (LogFeedUpdateStart_enabled _ _ _ _ _ _ _ _ _ _ Hen Hstart)
    as (-> & Hhid & Hentry).
  pose proof (fetchEpisodes_candidates _ _ _ _ _ Hfetch) as Hcand.
  pose proof (updateFeed_frame env cfg b1 (historyKey hid)
                (historyKey_foreign _ _)) as Hfr2.
  rewrite Hupd in Hfr2. cbn [fst] in Hfr2.
  pose proof (fetchEpisodes_frame matchFilters cfg b2 (historyKey hid)
                (historyKey_foreign _ _)) as Hfr3.
  rewrite Hfetch in Hfr3. cbn [fst] in Hfr3.
  destruct (downloadEpisodes_rate_limited EpisodeName u env cfg
              (update.setDatabase b3 w) A B C reader)
    as (wd & Hdl & HdA' & HdB' & HdC' & Hfrd & Hsd & Hrd); try done.
  fold F in HdA', HdB', HdC', Hfrd.
  cbn [update.database update.setDatabase update.downloadRequests]
    in Hfrd, Hrd.
  (* the run, stage by stage *)
  unfold update.Update in Hrun. fold F in Hrun. rewrite Hstart in Hrun.
  cbv beta iota zeta in Hrun.
  change (update.database (update.setDatabase b1 w)) with b1 in Hrun.
  rewrite Hupd in Hrun. cbv beta iota zeta in Hrun.
  change (update.database (update.setDatabase b2 (update.setDatabase b1 w)))
    with b2 in Hrun.
  rewrite Hfetch in Hrun. cbv beta iota zeta in Hrun.
  change (update.setDatabase b3
            (update.setDatabase b2 (update.setDatabase b1 w)))
    with (update.setDatabase b3 w) in Hrun.
  unfold update.downloadEpisodesWithStats in Hrun. fold F in Hrun.
  rewrite Hdl in Hrun. cbv beta iota zeta in Hrun.
  change (update.database (update.setDatabase b3 w)) with b3 in Hrun.
  rewrite (collectEpisodeStats_candidates b3 F [A; B; C]) in Hrun; [|
    intros x Hx; apply list_elem_of_In in Hx; cbn [In] in Hx;
    destruct Hx as [<-|[<-|[<-|[]]]]; done | done].
  rewrite (collectEpisodeStats_cons _ _ _ _ _ _ HdA'),
    (collectEpisodeStats_cons _ _ _ _ _ _ HdB'),
    (collectEpisodeStats_cons _ _ _ _ _ _ HdC') in Hrun.
  cbn [Episode.Status Episode.setStatus Episode.setSize Episode.Size
         update.collectEpisodeStats update.downloaded update.failed
         update.bytesDownloaded] in Hrun.
  pose proof (cleanup_frame EpisodeName sortSlice cfg wd (historyKey hid)
                (historyKey_foreign _ _)) as Hfrc.
  pose proof (cleanup_requests EpisodeName sortSlice cfg wd) as Hrc.
  destruct (update.cleanup EpisodeName sortSlice cfg wd) as [wc ec].
  cbn [fst] in Hfrc, Hrc.
  destruct (update.buildXML feedBuild u cfg wc) as [wx [ex|]] eqn:Hx;
    [discriminate Hrun|].
  apply buildXML_ok in Hx as (f & podcast & _ & Hbuild & ->).
  destruct (update.buildOPML BuildOPML u _) as [wo [eo|]] eqn:Ho;
    [discriminate Hrun|].
  apply buildOPML_ok in Ho as (opml & ->).
  injection Hrun as <-.
  cbn [fst update.database update.setDatabase update.storage
         update.setStorage update.progressTracker update.downloadRequests].
  split; [by exists wd|]. split.
  { by rewrite Hrc, Hrd. }
  split.
  { exists f, podcast. split; [done|].
    rewrite lookup_insert_ne by (intros Heq; by apply (xml_ne_opml F)).
    apply lookup_insert_eq. }
  eexists. split.
  { unfold update.logHistoryEndWithEpisodes.
    apply LogFeedUpdateEndWithEpisodes_stored; [done| |
      rewrite Hfrc, Hfrd, Hfr3, Hfr2 by apply historyKey_foreign;
      exact Hentry | reflexivity].
    rewrite Hhid. apply newEntryID_nonempty. }
  cbn [history.closeEntry history.setEpisodeDetails update.setCounts
         HistoryEntry.Status HistoryEntry.EndTime HistoryEntry.Statistics
         HistoryEntry.Error JobStatistics.EpisodesQueued
         JobStatistics.EpisodesDownloaded JobStatistics.EpisodesFailed].
  pose proof (errorCount_nonneg [A; B; C]) as Hnn.
  split; [|split; [done|]; split; [done|]; split; [lia|]; split; [lia|done]].
  unfold update.finalStatus.
  cbn [update.setCounts JobStatistics.EpisodesFailed
         JobStatistics.EpisodesDownloaded].
  replace (0 - (0 + errorCount [A; B; C]) >? 0) with false
    by (symmetry; rewrite Z.gtb_ltb; apply Z.ltb_ge; lia).
  reflexivity.
Qed.

End Run.

(** The scenario "rate limit mid-run" on an empty store: the listing returns
    A, B, C, all new; the driver delivers A and answers TooManyRequests
    on B. *)
Lemma Update_rate_limited_witness :
  let wf :=
    (update.Update examples.EpisodeName examples.matchFilters
       examples.feedBuild examples.BuildOPML examples.sortSlice
       examples.manager examples.rateLimited examples.feedF1
       examples.emptyWorld).1 in
  let hid :=
    (history.LogFeedUpdateStart (update.historyManager examples.manager)
       (update.database examples.emptyWorld)
       (update.now examples.rateLimited) (update.uuid examples.rateLimited)
       (feed.Config.ID examples.feedF1)
       (update.feedTitleOf examples.feedF1 examples.emptyWorld)
       TriggerScheduled).1.2 in
  update.downloadRequests wf = ["A"; "B"] /\
  exists entry,
    update.database wf !! historyKey hid = Some (VHistory entry) /\
    HistoryEntry.Status entry = JobStatusSuccess /\
    JobStatistics.EpisodesDownloaded (HistoryEntry.Statistics entry) = 1 /\
    JobStatistics.EpisodesFailed (HistoryEntry.Statistics entry) = 0 /\
    HistoryEntry.Error entry = "".
Proof.
  pose proof (Update_rate_limited examples.EpisodeName examples.matchFilters
                examples.feedBuild examples.BuildOPML examples.sortSlice
                examples.manager examples.rateLimited examples.feedF1
                examples.emptyWorld examples.epA examples.epB examples.epC
                (fs.fileReader "media of A")) as H.
  cbv zeta in H.
  specialize (H ltac:(vm_compute; reflexivity) ltac:(vm_compute; reflexivity)
                ltac:(vm_compute; reflexivity) ltac:(vm_compute; reflexivity)
                ltac:(vm_compute; reflexivity) ltac:(vm_compute; reflexivity)
                ltac:(vm_compute; discriminate) ltac:(vm_compute; discriminate)
                ltac:(vm_compute; discriminate) ltac:(vm_compute; reflexivity)
                ltac:(vm_compute; reflexivity) ltac:(vm_compute; discriminate)
                ltac:(vm_compute; reflexivity) ltac:(vm_compute; reflexivity)
                ltac:(vm_compute; reflexivity) ltac:(vm_compute; reflexivity)).
  destruct H as (_ & Hreq & _ & entry & Hl & Hs & _ & _ & Hd & Hfail & He).
  cbv zeta. split; [exact Hreq|].
  exists entry. split; [exact Hl|]. split; [exact Hs|]. split; [exact Hd|].
  split; [|exact He]. rewrite Hfail. reflexivity.
Defined.

(** C2, the run that contradicts the claim.  On an empty store the listing
    returns A, B, C and the driver answers TooManyRequests on B after
    delivering A.  The run returns nil and only A and B were handed to the
    driver, but B is left in status downloading (not queued), and the
    history entry is closed with status success (not partial), with
    queued = 3, downloaded = 1, failed = 0 and an empty error. *)
Lemma Update_rate_limited_not_queued_not_partial :
  let r :=
    examples.run examples.rateLimited examples.feedF1 examples.emptyWorld in
  r.2 = None /\
  update.download examples.rateLimited examples.epA
  = Ok (fs.fileReader "media of A") /\
  update.download examples.rateLimited examples.epB = Err ErrTooManyRequests /\
  update.downloadRequests r.1 = ["A"; "B"] /\
  db.GetEpisode (update.database r.1) "f1" "A"
  = Ok (Episode.setStatus EpisodeDownloaded
          (Episode.setSize 10 examples.epA)) /\
  db.GetEpisode (update.database r.1) "f1" "B"
  = Ok (Episode.setStatus EpisodeDownloading examples.epB) /\
  db.GetEpisode (update.database r.1) "f1" "B"
  <> Ok (Episode.setStatus EpisodeQueued examples.epB) /\
  db.GetEpisode (update.database r.1) "f1" "C"
  = Ok (Episode.setStatus EpisodeQueued examples.epC) /\
  match db.GetHistory (update.database r.1) "1664403200-uuid-1" with
  | Ok entry =>
      HistoryEntry.Status entry = JobStatusSuccess /\
      HistoryEntry.Status entry <> JobStatusPartial /\
      JobStatistics.EpisodesQueued (HistoryEntry.Statistics entry) = 3 /\
      JobStatistics.EpisodesDownloaded (HistoryEntry.Statistics entry) = 1 /\
      JobStatistics.EpisodesFailed (HistoryEntry.Statistics entry) = 0 /\
      HistoryEntry.Error entry = ""
  | Err _ => False
  end.
Proof.
  vm_compute. repeat split; discriminate.
Qed.

(** * Further properties of the code *)

(** ** Storage gateway: episodes and feeds *)

(** [UpdateEpisode] is all or nothing.  It never touches a key other than
    the episode's; whenever it returns an error the database is exactly as
    it was: [ErrNotFound] for an episode that is not stored, the callback's
    own error, or "can't change episode ID" when the callback changed the
    identifier; and when it returns nil the episode read back is the one the
    callback produced. *)
Theorem UpdateEpisode_all_or_nothing (b : gmap string Value)
    (feedID episodeID : string) (cb : Episode.t -> result Episode.t) :
  let r := db.UpdateEpisode b feedID episodeID cb in
  (forall k, k <> episodeKey feedID episodeID -> r.1 !! k = b !! k) /\
  (r.2 <> None -> r.1 = b) /\
  (b !! episodeKey feedID episodeID = None -> r.2 = Some ErrNotFound) /\
  (forall e err,
      db.GetEpisode b feedID episodeID = Ok e -> cb e = Err err ->
      r.2 = Some err) /\
  (forall e e',
      db.GetEpisode b feedID episodeID = Ok e -> cb e = Ok e' ->
      Episode.ID e' <> episodeID ->
      r.2 = Some (ErrOther "can't change episode ID")) /\
  (forall e e',
      db.GetEpisode b feedID episodeID = Ok e -> cb e = Ok e' ->
      Episode.ID e' = episodeID ->
      r.2 = None /\ db.GetEpisode r.1 feedID episodeID = Ok e').
Proof.
  cbv zeta. unfold db.UpdateEpisode, db.Update, db.GetEpisode, db.setObj.
  fold (episodeKey feedID episodeID). cbn [negb].
  split; [|split; [|split; [|split; [|split]]]].
  - intros k Hk.
    destruct (db.getObj _ _ _) as [e|]; [|done].
    destruct (cb e) as [e'|]; [|done].
    destruct (decide _); [done|]. cbn [fst]. by rewrite lookup_insert_ne.
  - destruct (db.getObj _ _ _) as [e|]; [|done].
    destruct (cb e) as [e'|]; [|done].
    destruct (decide _); done.
  - intros Hnone. unfold db.getObj. by rewrite Hnone.
  - intros e err -> ->. done.
  - intros e e' -> -> Hne. by rewrite decide_True.
  - intros e e' -> -> Heq. rewrite decide_False by (intros ?; done).
    cbn [fst snd]. split; [done|]. unfold db.getObj.
    by rewrite lookup_insert_eq.
Qed.

(** The keys a forward scan with a prefix visits are the bound keys that
    start with the prefix. *)
Lemma prefixItems_keys (txn : gmap string Value) prefix k :
  k ∈ (db.prefixItems txn prefix false).*1 <->
  is_Some (txn !! k) /\ String.prefix prefix k = true.
Proof.
  rewrite list_elem_of_fmap. split.
  - intros ([k' v] & -> & Hin).
    apply prefixItems_elem_forward in Hin as [Hl Hp].
    split; [by exists v | done].
  - intros [[v Hl] Hp]. exists (k, v). split; [done|].
    by apply prefixItems_elem_forward.
Qed.

(** Deleting the keys of a list of items, one after the other. *)
Lemma iterate_delete (items : list db.Item) (txn : gmap string Value) :
  exists txn',
    db.iterate items
      (fun item (txn : gmap string Value) => (delete item.1 txn, None)) txn
    = (txn', None) /\
    forall k, txn' !! k = if decide (k ∈ items.*1) then None else txn !! k.
Proof.
  revert txn. induction items as [|[k0 v0] items IH]; intros txn;
    cbn [db.iterate fst].
  { exists txn. split; [done|]. intros k. case_decide as H; [|done].
    by apply elem_of_nil in H. }
  destruct (IH (delete k0 txn)) as (txn' & -> & Hl).
  exists txn'. split; [done|]. intros k. rewrite Hl.
  cbn [fmap list_fmap fst].
  destruct (decide (k = k0)) as [->|Hne].
  - rewrite lookup_delete_eq.
    destruct (decide (k0 ∈ k0 :: items.*1)) as [_|Hn];
      [by case_decide | exfalso; apply Hn; left].
  - rewrite lookup_delete_ne by done.
    repeat case_decide; try done; set_solver.
Qed.

(** [DeleteFeed] returns nil and removes the feed record together with every
    key of the episode range of the feed, and nothing else.  Afterwards the
    feed and each of its episodes read as not found. *)
Theorem DeleteFeed_removes_feed_and_episodes (b : gmap string Value)
    (feedID : string) :
  exists b',
    db.DeleteFeed b feedID = (b', None) /\
    (forall k,
        b' !! k =
        if decide (k = feedKey feedID) then None
        else if inEpisodeRange feedID k then None else b !! k) /\
    db.GetFeed b' feedID = Err ErrNotFound /\
    (forall episodeID, db.GetEpisode b' feedID episodeID = Err ErrNotFound) /\
    storedEpisodes b' feedID = [].
Proof.
  unfold db.DeleteFeed, db.Update, db.iterator. fold (feedKey feedID).
  destruct (iterate_delete
              (db.prefixItems (delete (feedKey feedID) b)
                 (db.getKey (db.episodePrefix feedID)) false)
              (delete (feedKey feedID) b)) as (b' & -> & Hl).
  exists b'.
  assert (forall k,
            b' !! k =
            if decide (k = feedKey feedID) then None
            else if inEpisodeRange feedID k then None else b !! k) as Hspec.
  { intros k. rewrite Hl. unfold inEpisodeRange.
    destruct (decide (k = feedKey feedID)) as [->|Hne].
    - rewrite lookup_delete_eq. by case_decide.
    - rewrite lookup_delete_ne by done.
      case_decide as Hin.
      + apply prefixItems_keys in Hin as [_ ->]. done.
      + destruct (String.prefix _ k) eqn:Hp; [|done].
        destruct (b !! k) as [v|] eqn:Hk; [|done].
        exfalso. apply Hin. apply prefixItems_keys. split; [|done].
        rewrite lookup_delete_ne by done. by rewrite Hk. }
  split; [done|]. split; [exact Hspec|]. split; [|split].
  - unfold db.GetFeed, db.getObj. fold (feedKey feedID).
    rewrite Hspec. by rewrite decide_True.
  - intros episodeID. unfold db.GetEpisode, db.getObj.
    fold (episodeKey feedID episodeID). rewrite Hspec.
    case_decide; [done|]. unfold inEpisodeRange.
    by rewrite episodeKey_prefix.
  - unfold storedEpisodes.
    destruct (db.prefixItems b' _ false) as [|[k v] l] eqn:Hitems; [done|].
    assert ((k, v) ∈ db.prefixItems b' (db.getKey (db.episodePrefix feedID))
                       false) as Hin by (rewrite Hitems; left).
    apply prefixItems_elem_forward in Hin as [Hlook Hp].
    rewrite Hspec in Hlook. case_decide; [done|].
    unfold inEpisodeRange in Hlook. by rewrite Hp in Hlook.
Qed.

Lemma feedKey_not_inEpisodeRange feedID feedID' :
  inEpisodeRange feedID (feedKey feedID') = false.
Proof.
  unfold inEpisodeRange, feedKey, db.getKey, db.episodePrefix, db.feedPath.
  rewrite (prefix_app_same "podsync/v1/"). reflexivity.
Qed.

Lemma AddFeed_wellKeyed b feedID feed b' :
  wellKeyed b feedID ->
  db.AddFeed b feedID feed = (b', None) ->
  wellKeyed b' feedID.
Proof.
  intros Hwk Hadd.
  destruct (AddFeed_lookup b feedID feed) as (b0 & Heq & Hl).
  rewrite Hadd in Heq. injection Heq as <-.
  intros k v Hk. rewrite Hl in Hk. fold (feedKey feedID) in Hk.
  destruct (decide (k = feedKey feedID)) as [->|Hne].
  - rewrite lookup_insert_eq in Hk. injection Hk as <-.
    unfold wellKeyedItem. fold (inEpisodeRange feedID (feedKey feedID)).
    by rewrite feedKey_not_inEpisodeRange.
  - rewrite lookup_insert_ne in Hk by done.
    destruct (b !! k) as [v0|] eqn:Hb.
    + injection Hk as <-. by apply (Hwk k v0).
    + destruct (List.find _ _) as [ep|] eqn:Hf; [|done].
      injection Hk as <-. apply find_some in Hf as [_ Heq].
      apply String.eqb_eq in Heq. subst k. unfold wellKeyedItem.
      fold (episodeKey feedID (Episode.ID ep)).
      rewrite episodeKey_prefix. apply String.eqb_refl.
Qed.

Lemma fold_left_snoc {A} (l acc : list A) :
  fold_left (fun (s : list A) e => (s ++ [e], None (A := error)).1) l acc
  = acc ++ l.
Proof.
  revert acc. induction l as [|x l IH]; intros acc; cbn [fold_left].
  { by rewrite app_nil_r. }
  rewrite IH. cbn [fst]. by rewrite <- app_assoc.
Qed.

(** [GetFeed] on a store whose episode range is well keyed: the feed record
    with the identifier of the request and the stored episodes in key
    order. *)
Lemma GetFeed_stored b feedID f :
  wellKeyed b feedID ->
  b !! feedKey feedID = Some (VFeed f) ->
  db.GetFeed b feedID =
  Ok (Feed.setEpisodes (Feed.Episodes f ++ storedEpisodes b feedID)
        (Feed.setID feedID f)).
Proof.
  intros Hwk Hf. unfold db.GetFeed, db.getObj. fold (feedKey feedID).
  rewrite Hf. cbn [db.unmarshalFeed].
  rewrite (walkEpisodes_fold _ _ _ _ Hwk) by done.
  by rewrite fold_left_snoc.
Qed.

(** After [AddFeed] the feed read back by [GetFeed] carries the identifier
    of the request (whatever identifier the supplied value had), the title
    and description just written, and as episodes exactly the episode
    records stored under the feed: each supplied episode is represented by
    a record with its identifier, and the records stored before are still
    listed unchanged. *)
Theorem GetFeed_after_AddFeed (b : gmap string Value) (feedID : string)
    (feed : Feed.t) :
  wellKeyed b feedID ->
  exists b' got,
    db.AddFeed b feedID feed = (b', None) /\
    db.GetFeed b' feedID = Ok got /\
    Feed.ID got = feedID /\
    Feed.Title got = Feed.Title feed /\
    Feed.Description got = Feed.Description feed /\
    (forall e,
        e ∈ Feed.Episodes got <->
        b' !! episodeKey feedID (Episode.ID e) = Some (VEpisode e)) /\
    (forall ep,
        ep ∈ Feed.Episodes feed ->
        exists e, e ∈ Feed.Episodes got /\ Episode.ID e = Episode.ID ep) /\
    (forall e,
        b !! episodeKey feedID (Episode.ID e) = Some (VEpisode e) ->
        e ∈ Feed.Episodes got).
Proof.
  intros Hwk.
  destruct (AddFeed_lookup b feedID feed) as (b' & Hadd & Hl).
  pose proof (AddFeed_wellKeyed _ _ _ _ Hwk Hadd) as Hwk'.
  assert (b' !! feedKey feedID = Some (db.marshalFeed feed)) as Hrec.
  { rewrite Hl. fold (feedKey feedID). by rewrite lookup_insert_eq. }
  exists b'. eexists. split; [exact Hadd|]. split.
  { apply (GetFeed_stored _ _ _ Hwk' Hrec). }
  cbn [Feed.ID Feed.Title Feed.Description Feed.Episodes Feed.setEpisodes
         Feed.setID app].
  split; [done|]. split; [done|]. split; [done|].
  assert (forall e,
            e ∈ storedEpisodes b' feedID <->
            b' !! episodeKey feedID (Episode.ID e) = Some (VEpisode e))
    as Hmem by (intros e; by apply storedEpisodes_elem).
  split; [exact Hmem|]. split.
  - intros ep Hin.
    pose proof (Hl (episodeKey feedID (Episode.ID ep))) as Hk.
    fold (feedKey feedID) in Hk.
    rewrite lookup_insert_ne in Hk
      by (unfold feedKey, episodeKey; apply feedKey_ne_episodeKey).
    destruct (b !! episodeKey feedID (Episode.ID ep)) as [v|] eqn:Hb.
    + pose proof (Hwk _ _ Hb) as Hitem. unfold wellKeyedItem in Hitem.
      rewrite episodeKey_prefix in Hitem.
      destruct v as [| |e| |]; try discriminate.
      apply String.eqb_eq, episodeKey_inj' in Hitem.
      exists e. split; [|done]. apply Hmem. by rewrite <- Hitem.
    + destruct (List.find _ _) as [ep'|] eqn:Hf.
      * apply find_some in Hf as [_ Heq].
        apply String.eqb_eq in Heq.
        fold (episodeKey feedID (Episode.ID ep')) in Heq.
        apply episodeKey_inj' in Heq.
        exists ep'. split; [|done]. apply Hmem. by rewrite Heq.
      * exfalso. apply list_elem_of_In in Hin.
        pose proof (find_none _ _ Hf ep Hin) as Hfalse. cbn beta in Hfalse.
        unfold episodeKey in Hfalse. rewrite String.eqb_refl in Hfalse.
        discriminate.
  - intros e He. apply Hmem. rewrite Hl. fold (feedKey feedID).
    rewrite lookup_insert_ne
      by (unfold feedKey, episodeKey; apply feedKey_ne_episodeKey).
    by rewrite He.
Qed.

Lemma GetFeed_after_AddFeed_witness :
  exists b' got,
    db.AddFeed examples.storeStatuses "f1" examples.listingAB = (b', None) /\
    db.GetFeed b' "f1" = Ok got /\
    Feed.Title got = "Channel" /\
    examples.epD ∈ Feed.Episodes got /\
    examples.listedB ∈ Feed.Episodes got.
Proof.
  destruct (GetFeed_after_AddFeed examples.storeStatuses "f1"
              examples.listingAB storeStatuses_wellKeyed)
    as (b' & got & Hadd & Hget & _ & Ht & _ & Hmem & _ & Hold).
  exists b', got. split; [exact Hadd|]. split; [exact Hget|].
  split; [exact Ht|]. split.
  - apply Hold. vm_compute. reflexivity.
  - apply Hmem.
    assert (b' = (db.AddFeed examples.storeStatuses "f1"
                    examples.listingAB).1) as -> by (by rewrite Hadd).
    vm_compute. reflexivity.
Defined.

(** *** Enumerating the feeds *)

Lemma prefix_split (p k : string) :
  String.prefix p k = true -> exists s, k = p +:+ s.
Proof.
  revert k. induction p as [|c p IH]; intros k.
  { by exists k. }
  destruct k as [|c' k]; [done|]. simpl.
  destruct (ascii_dec c c') as [->|]; [|intros [=]].
  intros [s ->]%IH. by exists s.
Qed.

Lemma substring_all (s : string) :
  String.substring 0 (String.length s) s = s.
Proof. induction s as [|c s IH]; cbn; by f_equal. Qed.

Lemma length_append (p s : string) :
  String.length (p +:+ s) = (String.length p + String.length s)%nat.
Proof.
  induction p as [|c p IH]; [done|].
  change (String c p +:+ s) with (String c (p +:+ s)). cbn [String.length].
  by rewrite IH.
Qed.

Lemma substring_suffix (p s : string) :
  String.substring (String.length p)
    (String.length (p +:+ s) - String.length p) (p +:+ s) = s.
Proof.
  rewrite length_append.
  replace (String.length p + String.length s - String.length p)%nat
    with (String.length s) by lia.
  induction p as [|c p IH]; [apply substring_all|].
  change (String c p +:+ s) with (String c (p +:+ s)). exact IH.
Qed.

Lemma walkedFeed_feedKey feedID f :
  walkedFeed (feedKey feedID, VFeed f) =
  Some (if decide (feedID = "") then f else Feed.setID feedID f).
Proof.
  unfold walkedFeed, feedKey, db.feedPath. cbn [snd fst db.unmarshalFeed].
  assert (db.getKey ("feed/" +:+ feedID) = db.getKey db.feedPrefix +:+ feedID)
    as -> by reflexivity.
  set (p := db.getKey db.feedPrefix).
  rewrite substring_suffix, length_append.
  destruct feedID as [|c feedID].
  - cbn [String.length]. rewrite Nat.add_0_r, Nat.ltb_irrefl.
    by rewrite decide_True.
  - rewrite decide_False by done.
    replace (_ <? _)%nat with true; [done|].
    symmetry. apply Nat.ltb_lt. cbn [String.length]. lia.
Qed.

Lemma listFeeds_scan b :
  feedsDecodable b ->
  listFeeds b =
  (omap walkedFeed (db.prefixItems b (db.getKey db.feedPrefix) false), None).
Proof.
  intros Hdec. unfold listFeeds, db.WalkFeeds, db.iterator.
  assert (forall item,
            item ∈ db.prefixItems b (db.getKey db.feedPrefix) false ->
            exists f, item.2 = VFeed f) as Hitems.
  { intros [k v] [Hl Hp]%prefixItems_elem_forward. by apply (Hdec k v). }
  assert (forall acc,
            db.iterate (db.prefixItems b (db.getKey db.feedPrefix) false)
              (fun item (st : list Feed.t) =>
                 match db.unmarshalFeed item.2 with
                 | Err e => (st, Some e)
                 | Ok feed =>
                     (st ++
                      [if (String.length (db.getKey db.feedPrefix)
                           <? String.length item.1)%nat
                       then Feed.setID
                              (String.substring
                                 (String.length (db.getKey db.feedPrefix))
                                 (String.length item.1 -
                                  String.length (db.getKey db.feedPrefix))
                                 item.1) feed
                       else feed], None)
                 end) acc
            = (acc ++ omap walkedFeed
                        (db.prefixItems b (db.getKey db.feedPrefix) false),
               None)) as Hgen.
  { induction (db.prefixItems b (db.getKey db.feedPrefix) false)
      as [|item items IH]; intros acc; cbn [db.iterate omap list_omap].
    { by rewrite app_nil_r. }
    destruct (Hitems item) as [f Hf]; [left|].
    unfold walkedFeed at 1. rewrite Hf. cbn [db.unmarshalFeed].
    rewrite IH by (intros; apply Hitems; by right).
    by rewrite <- app_assoc. }
  apply (Hgen []).
Qed.

(** [WalkFeeds] names each feed after its key.  When the feed range holds
    only feed records the walk succeeds; a record stored under the key of a
    non-empty identifier F is handed over with its identifier set to F,
    whatever identifier is inside the record; and everything handed over
    comes from such a record. *)
Theorem WalkFeeds_names_feeds_after_keys (b : gmap string Value) :
  feedsDecodable b ->
  exists l,
    listFeeds b = (l, None) /\
    (forall feedID f,
        feedID <> "" -> b !! feedKey feedID = Some (VFeed f) ->
        Feed.setID feedID f ∈ l) /\
    (forall g,
        g ∈ l ->
        exists feedID f,
          b !! feedKey feedID = Some (VFeed f) /\
          g = if decide (feedID = "") then f else Feed.setID feedID f).
Proof.
  intros Hdec. eexists. split; [by apply listFeeds_scan|]. split.
  - intros feedID f Hne Hl. apply list_elem_of_omap.
    exists (feedKey feedID, VFeed f). split.
    + apply prefixItems_elem_forward. split; [done|].
      unfold feedKey, db.feedPath, db.getKey.
      rewrite (prefix_app_same "podsync/v1/").
      change db.feedPrefix with ("feed/" +:+ "").
      rewrite (prefix_app_same "feed/"). apply prefix_empty.
    + rewrite walkedFeed_feedKey. by rewrite decide_False.
  - intros g ([k v] & [Hl Hp]%prefixItems_elem_forward & Hw)%list_elem_of_omap.
    destruct (Hdec k v Hl Hp) as [f ->].
    apply prefix_split in Hp as [feedID ->].
    change (db.getKey db.feedPrefix +:+ feedID) with (feedKey feedID) in *.
    rewrite walkedFeed_feedKey in Hw. injection Hw as <-.
    by exists feedID, f.
Qed.

Lemma twoFeeds_decodable : feedsDecodable samples.twoFeeds.
Proof.
  intros k v Hl Hp. apply elem_of_map_to_list in Hl. vm_compute in Hl.
  repeat (apply elem_of_cons in Hl as [Hl|Hl];
          [injection Hl as -> ->; vm_compute in Hp;
           first [discriminate Hp | eexists; reflexivity]|]).
  by apply elem_of_nil in Hl.
Qed.

Lemma WalkFeeds_names_feeds_after_keys_witness :
  exists l,
    listFeeds samples.twoFeeds = (l, None) /\
    Feed.mk "f1" "Channel" "A channel" [] ∈ l.
Proof.
  destruct (WalkFeeds_names_feeds_after_keys samples.twoFeeds
              twoFeeds_decodable) as (l & Hl & Hin & _).
  exists l. split; [exact Hl|].
  apply (Hin "f1" (Feed.mk "inner" "Channel" "A channel" [])); [done|].
  vm_compute. reflexivity.
Defined.

(** ** Prefix scans depend only on the keys of the prefix *)

(** The items of a scan are sorted by key. *)
Lemma prefixItems_sorted (b : gmap string Value) prefix :
  StronglySorted db.key_le (db.prefixItems b prefix false).
Proof. rewrite prefixItems_filter. apply filter_sorted, sorted_all. Qed.

Lemma scan_elem (b : gmap string Value) prefix reverse k v :
  (k, v) ∈ List.filter (fun item : db.Item => reached prefix reverse item.1)
             (merge_sort db.key_le (map_to_list b)) <->
  b !! k = Some v /\ reached prefix reverse k = true.
Proof.
  rewrite list_elem_of_In, filter_In, <- list_elem_of_In.
  by rewrite merge_sort_Permutation, elem_of_map_to_list.
Qed.

Lemma prefixItems_agree (b b' : gmap string Value) prefix reverse :
  (forall k, String.prefix prefix k = true -> b' !! k = b !! k) ->
  db.prefixItems b' prefix reverse = db.prefixItems b prefix reverse.
Proof.
  intros Hagree. rewrite !prefixItems_filter. f_equal.
  apply (StronglySorted_unique_strong db.key_le).
  - intros [k1 v1] [k2 v2] [Hl1 Hp1]%scan_elem [Hl2 Hp2]%scan_elem H12 H21.
    unfold db.key_le in H12, H21. cbn [fst] in H12, H21.
    pose proof (String.leb_antisym _ _ H12 H21) as ->.
    rewrite Hagree in Hl1 by (by eapply reached_prefix). congruence.
  - apply filter_sorted, sorted_all.
  - apply filter_sorted, sorted_all.
  - apply NoDup_Permutation.
    + apply (NoDup_fmap_1 fst), scan_NoDup_keys.
    + apply (NoDup_fmap_1 fst), scan_NoDup_keys.
    + intros [k v]. rewrite !scan_elem.
      split; intros [Hl Hp]; (split; [|done]).
      * rewrite <- Hagree; [done|by eapply reached_prefix].
      * rewrite Hagree; [done|by eapply reached_prefix].
Qed.

Lemma storedEpisodes_agree (b b' : gmap string Value) feedID :
  (forall k, inEpisodeRange feedID k = true -> b' !! k = b !! k) ->
  storedEpisodes b' feedID = storedEpisodes b feedID.
Proof.
  intros Hagree. unfold storedEpisodes.
  by rewrite (prefixItems_agree b b' _ false Hagree).
Qed.

(** [GetFeed] reads the feed record and the episode range of the feed, and
    nothing else. *)
Lemma GetFeed_agree (b b' : gmap string Value) feedID :
  b' !! feedKey feedID = b !! feedKey feedID ->
  (forall k, inEpisodeRange feedID k = true -> b' !! k = b !! k) ->
  db.GetFeed b' feedID = db.GetFeed b feedID.
Proof.
  intros Hrec Hagree.
  unfold db.GetFeed, db.getObj, db.walkEpisodes, db.iterator.
  fold (feedKey feedID). rewrite Hrec.
  by rewrite (prefixItems_agree b b' _ false Hagree).
Qed.

Lemma inEpisodeRange_split feedID k :
  inEpisodeRange feedID k = true ->
  exists s, k = db.getKey ("episode/" +:+ feedID +:+ "/" +:+ s).
Proof.
  intros [s ->]%prefix_split. exists s.
  unfold db.getKey, db.episodePrefix.
  rewrite !append_assoc. reflexivity.
Qed.

Lemma inEpisodeRange_not_history feedID k :
  inEpisodeRange feedID k = true ->
  inHistoryRange k = false /\ (forall F id, k <> historyIndexKey F id) /\
  k <> feedKey feedID.
Proof.
  intros [s ->]%inEpisodeRange_split. split; [|split].
  - unfold inHistoryRange, db.getKey.
    rewrite (prefix_app_same "podsync/v1/"). reflexivity.
  - intros F id H. unfold historyIndexKey, db.getKey, db.historyByFeed in H.
    apply (append_inj_l "podsync/v1/") in H. discriminate.
  - intros H. unfold feedKey, db.getKey, db.feedPath in H.
    apply (append_inj_l "podsync/v1/") in H. discriminate.
Qed.

Lemma feedKey_not_history feedID :
  inHistoryRange (feedKey feedID) = false /\
  forall F id, feedKey feedID <> historyIndexKey F id.
Proof.
  split.
  - unfold inHistoryRange, feedKey, db.getKey.
    rewrite (prefix_app_same "podsync/v1/"). reflexivity.
  - intros F id H.
    unfold feedKey, historyIndexKey, db.getKey, db.historyByFeed,
      db.feedPath in H.
    apply (append_inj_l "podsync/v1/") in H. discriminate.
Qed.

(** ** Storage gateway: the history table and its feed index *)

Lemma historyKey_inj a b : historyKey a = historyKey b -> a = b.
Proof.
  unfold historyKey, db.getKey, db.historyPath. intros H.
  apply (append_inj_l "podsync/v1/") in H.
  by apply (append_inj_l "history/") in H.
Qed.

Lemma historyKey_inHistoryRange id : inHistoryRange (historyKey id) = true.
Proof.
  unfold inHistoryRange, historyKey, db.getKey, db.historyPath.
  rewrite (prefix_app_same "podsync/v1/").
  change db.historyPrefix with ("history/" +:+ "").
  rewrite (prefix_app_same "history/"). apply prefix_empty.
Qed.

Lemma historyIndexKey_not_inHistoryRange feedID id :
  inHistoryRange (historyIndexKey feedID id) = false.
Proof.
  unfold inHistoryRange, historyIndexKey, db.getKey, db.historyByFeed.
  rewrite (prefix_app_same "podsync/v1/"). reflexivity.
Qed.

Lemma historyIndexKey_ne_historyKey feedID id id' :
  historyIndexKey feedID id <> historyKey id'.
Proof.
  intros H. pose proof (historyKey_inHistoryRange id') as Hr.
  rewrite <- H in Hr. by rewrite historyIndexKey_not_inHistoryRange in Hr.
Qed.

(** [AddHistory] never fails; the entry can be read back under its
    identifier; an entry that names a feed is also entered in the index of
    that feed; an entry without feed writes nothing else; no other key is
    touched. *)
Theorem AddHistory_then_GetHistory (b : gmap string Value)
    (entry : HistoryEntry.t) :
  exists b',
    db.AddHistory b entry = (b', None) /\
    db.GetHistory b' (HistoryEntry.ID entry) = Ok entry /\
    (HistoryEntry.FeedID entry <> "" ->
     b' !! historyIndexKey (HistoryEntry.FeedID entry) (HistoryEntry.ID entry)
     = Some (VBytes (HistoryEntry.ID entry))) /\
    (HistoryEntry.FeedID entry = "" ->
     forall k, k <> historyKey (HistoryEntry.ID entry) -> b' !! k = b !! k) /\
    (forall k,
        k <> historyKey (HistoryEntry.ID entry) ->
        k <> historyIndexKey (HistoryEntry.FeedID entry)
               (HistoryEntry.ID entry) ->
        b' !! k = b !! k).
Proof.
  unfold db.AddHistory, db.Update, db.setObj, db.GetHistory, db.getObj.
  cbn [negb].
  fold (historyKey (HistoryEntry.ID entry)).
  fold (historyIndexKey (HistoryEntry.FeedID entry) (HistoryEntry.ID entry)).
  destruct (decide (HistoryEntry.FeedID entry <> "")) as [Hne|Heq];
    eexists; (split; [reflexivity|]).
  - rewrite lookup_insert_ne by apply historyIndexKey_ne_historyKey.
    rewrite lookup_insert_eq. split; [done|]. split.
    { intros _. apply lookup_insert_eq. }
    split; [done|].
    intros k Hk Hi. by rewrite !lookup_insert_ne.
  - rewrite lookup_insert_eq. split; [done|]. split; [done|].
    split; intros; by rewrite lookup_insert_ne.
Qed.


(** Deleting an entry right after adding it restores the store, provided
    the identifier was free (neither the entry key nor its index line were
    bound). *)
Theorem DeleteHistory_undoes_AddHistory (b : gmap string Value)
    (entry : HistoryEntry.t) :
  b !! historyKey (HistoryEntry.ID entry) = None ->
  b !! historyIndexKey (HistoryEntry.FeedID entry) (HistoryEntry.ID entry)
  = None ->
  db.DeleteHistory (db.AddHistory b entry).1 (HistoryEntry.ID entry)
  = (b, None).
Proof.
  intros Hk Hi.
  unfold db.AddHistory, db.DeleteHistory, db.Update, db.setObj, db.getObj.
  cbn [negb].
  fold (historyKey (HistoryEntry.ID entry)).
  fold (historyIndexKey (HistoryEntry.FeedID entry) (HistoryEntry.ID entry)).
  destruct (decide (HistoryEntry.FeedID entry <> "")) as [Hne|Heq];
    cbn [fst].
  - rewrite lookup_insert_ne by apply historyIndexKey_ne_historyKey.
    rewrite lookup_insert_eq. cbn [db.unmarshalHistory].
    rewrite decide_True by done.
    fold (historyIndexKey (HistoryEntry.FeedID entry)
            (HistoryEntry.ID entry)).
    f_equal.
    rewrite delete_insert_ne
      by (apply not_eq_sym, historyIndexKey_ne_historyKey).
    rewrite delete_insert_id; [by rewrite delete_insert_id|].
    by rewrite lookup_delete_ne, lookup_insert_ne
      by (apply not_eq_sym, historyIndexKey_ne_historyKey).
  - rewrite lookup_insert_eq. cbn [db.unmarshalHistory].
    rewrite decide_False by done. f_equal. by apply delete_insert_id.
Qed.

Lemma DeleteHistory_undoes_AddHistory_witness :
  db.DeleteHistory (db.AddHistory examples.store2 (examples.mkEntry
                      "1700000200-x" 1700000200 "")).1 "1700000200-x"
  = (examples.store2, None).
Proof.
  apply (DeleteHistory_undoes_AddHistory examples.store2
           (examples.mkEntry "1700000200-x" 1700000200 ""));
    vm_compute; reflexivity.
Defined.

(** *** Retention *)

Lemma reached_historyKey reverse id :
  reached (db.getKey db.historyPrefix) reverse (historyKey id)
  = scanned reverse id.
Proof.
  destruct reverse.
  - change (historyKey id) with (db.getKey db.historyPrefix +:+ id).
    by rewrite reached_append.
  - rewrite reached_forward. apply historyKey_inHistoryRange.
Qed.

Lemma historyKeyed_item b reverse k v :
  historyKeyed b ->
  (k, v) ∈ db.prefixItems b (db.getKey db.historyPrefix) reverse ->
  exists e, v = VHistory e /\ k = historyKey (HistoryEntry.ID e) /\
            b !! k = Some v /\ scanned reverse (HistoryEntry.ID e) = true.
Proof.
  intros Hk [Hl Hr]%prefixItems_elem.
  destruct (Hk k v Hl (reached_prefix _ _ _ Hr)) as (e & -> & ->).
  exists e. by rewrite reached_historyKey in Hr.
Qed.

Lemma historyScan_items b reverse :
  historyKeyed b ->
  db.prefixItems b (db.getKey db.historyPrefix) reverse =
  List.map (fun e => (historyKey (HistoryEntry.ID e), VHistory e))
           (historyScan b reverse).
Proof.
  intros Hk. unfold historyScan.
  pose proof (fun k v => historyKeyed_item b reverse k v Hk) as Hitem.
  induction (db.prefixItems b _ reverse) as [|[k v] l IH]; [done|].
  destruct (Hitem k v) as (e & -> & -> & _); [left|].
  cbn [omap list_omap snd db.unmarshalHistory List.map]. f_equal.
  apply IH. intros k' v' Hin. apply Hitem. by right.
Qed.

(** The entries of a scan are the stored entries the scan reaches. *)
Lemma historyScan_elem b reverse e :
  historyKeyed b ->
  e ∈ historyScan b reverse <->
  b !! historyKey (HistoryEntry.ID e) = Some (VHistory e) /\
  scanned reverse (HistoryEntry.ID e) = true.
Proof.
  intros Hk. unfold historyScan. rewrite list_elem_of_omap. split.
  - intros ([k v] & Hin & Hdec).
    destruct (historyKeyed_item _ _ _ _ Hk Hin) as (e' & -> & -> & Hl & Hs).
    cbn in Hdec. by injection Hdec as <-.
  - intros [Hl Hs]. exists (historyKey (HistoryEntry.ID e), VHistory e).
    split; [|done]. apply prefixItems_elem. split; [done|].
    by rewrite reached_historyKey.
Qed.

Lemma historyScan_NoDup_ID b reverse :
  historyKeyed b ->
  NoDup (List.map HistoryEntry.ID (historyScan b reverse)).
Proof.
  intros Hk.
  pose proof (prefixItems_NoDup_keys b (db.getKey db.historyPrefix) reverse)
    as Hnd.
  rewrite (historyScan_items _ _ Hk) in Hnd.
  induction (historyScan b reverse) as [|e l IH]; [constructor|].
  cbn [List.map fmap list_fmap fst] in *.
  apply NoDup_cons in Hnd as [Hx Hnd]. apply NoDup_cons.
  split; [|by apply IH].
  intros Hin. apply Hx.
  apply list_elem_of_In, in_map_iff in Hin as (e' & Hid & Hin).
  apply list_elem_of_fmap.
  exists (historyKey (HistoryEntry.ID e'), VHistory e').
  split; [by rewrite Hid|].
  apply list_elem_of_In.
  exact (in_map (fun e => (historyKey (HistoryEntry.ID e), VHistory e))
           l e' Hin).
Qed.

Lemma iterate_markEntry rd me cutoff (scan : list HistoryEntry.t) :
  forall entries toDelete,
    db.iterate
      (List.map (fun e => (historyKey (HistoryEntry.ID e), VHistory e)) scan)
      (db.markEntry rd me cutoff) (entries, toDelete)
    = ((entries ++ scan,
        toDelete ++ markedIDs rd me cutoff (length entries) scan), None).
Proof.
  induction scan as [|e scan IH]; intros entries toDelete;
    cbn [List.map db.iterate markedIDs].
  { by rewrite !app_nil_r. }
  unfold db.markEntry at 1. cbn [snd db.unmarshalHistory].
  assert (length (entries ++ [e]) = S (length entries)) as Hlen
    by (rewrite length_app; cbn; lia).
  unfold marked. rewrite Hlen.
  destruct ((rd =? 0) && (me =? 0)); cbn [orb].
  { rewrite IH, Hlen, <- !app_assoc. done. }
  destruct ((rd >? 0) && time.Before (HistoryEntry.StartTime e) cutoff);
    cbn [orb].
  { rewrite IH, Hlen, <- !app_assoc. done. }
  destruct ((me >? 0) && (Z.of_nat (S (length entries)) >? me)).
  { rewrite IH, Hlen, <- !app_assoc. done. }
  rewrite IH, Hlen, <- !app_assoc. done.
Qed.

Lemma markedIDs_elem rd me cutoff (l : list HistoryEntry.t) :
  forall n id,
    id ∈ markedIDs rd me cutoff n l <->
    exists i e, l !! i = Some e /\ HistoryEntry.ID e = id /\
                marked rd me cutoff (n + i) e = true.
Proof.
  induction l as [|x l IH]; intros n id; cbn [markedIDs].
  { split; [by intros ?%elem_of_nil | by intros (i & e & ? & _)]. }
  rewrite elem_of_app, IH. split.
  - intros [Hx|(i & e & Hi & Hid & Hm)].
    + destruct (marked rd me cutoff n x) eqn:Hm;
        [|by apply elem_of_nil in Hx].
      apply list_elem_of_singleton in Hx as ->.
      exists 0%nat, x. rewrite Nat.add_0_r. done.
    + exists (S i), e. replace (n + S i)%nat with (S n + i)%nat by lia. done.
  - intros ([|i] & e & Hi & Hid & Hm).
    + left. injection Hi as ->. rewrite Nat.add_0_r in Hm. rewrite Hm.
      subst id. by left.
    + right. exists i, e.
      replace (S n + i)%nat with (n + S i)%nat by lia. done.
Qed.

Lemma historyKeyed_subseteq (b b' : gmap string Value) :
  b' ⊆ b -> historyKeyed b -> historyKeyed b'.
Proof.
  intros Hsub Hk k v Hl. apply Hk. by eapply lookup_weaken.
Qed.

(** One [DeleteHistory] on a store whose history table is well keyed. *)
Lemma DeleteHistory_keyed b id :
  historyKeyed b ->
  exists b',
    db.DeleteHistory b id = (b', None) /\ b' ⊆ b /\
    b' !! historyKey id = None /\
    (forall e, b !! historyKey id = Some (VHistory e) ->
               HistoryEntry.FeedID e <> "" ->
               b' !! historyIndexKey (HistoryEntry.FeedID e) id = None) /\
    (forall k, k <> historyKey id -> (forall F, k <> historyIndexKey F id) ->
               b' !! k = b !! k).
Proof.
  intros Hk. unfold db.DeleteHistory, db.Update, db.getObj.
  fold (historyKey id).
  destruct (b !! historyKey id) as [v|] eqn:Hl.
  - destruct (Hk _ _ Hl (historyKey_inHistoryRange id)) as (e & -> & _).
    cbn [db.unmarshalHistory].
    fold (historyIndexKey (HistoryEntry.FeedID e) id).
    destruct (decide (HistoryEntry.FeedID e <> "")) as [Hne|Heq];
      eexists; (split; [reflexivity|]).
    + split; [etrans; apply delete_subseteq|].
      split.
      { rewrite lookup_delete_ne by apply historyIndexKey_ne_historyKey.
        apply lookup_delete_eq. }
      split.
      { intros e' [= <-] _. apply lookup_delete_eq. }
      intros k Hne1 Hne2. by rewrite !lookup_delete_ne.
    + split; [apply delete_subseteq|].
      split; [apply lookup_delete_eq|]. split.
      { intros e' [= <-] Hne. by destruct Heq. }
      intros k Hne1 Hne2. by rewrite lookup_delete_ne.
  - rewrite decide_True by done. exists b. repeat split; try done.
Qed.

Lemma deleteMarked_keyed ids :
  forall b,
    historyKeyed b ->
    exists b',
      db.deleteMarked b ids = (b', None) /\ b' ⊆ b /\
      (forall id, id ∈ ids ->
         b' !! historyKey id = None /\
         forall e, b !! historyKey id = Some (VHistory e) ->
                   HistoryEntry.FeedID e <> "" ->
                   b' !! historyIndexKey (HistoryEntry.FeedID e) id = None) /\
      (forall k, (forall id, id ∈ ids -> k <> historyKey id) ->
                 (forall F id, k <> historyIndexKey F id) ->
                 b' !! k = b !! k).
Proof.
  induction ids as [|id ids IH]; intros b Hk; cbn [db.deleteMarked].
  { exists b. split; [done|]. split; [done|].
    split; [by intros ? ?%elem_of_nil | done]. }
  destruct (DeleteHistory_keyed b id Hk) as (b1 & -> & Hsub1 & Hn1 & Hi1 & Hf1).
  destruct (IH b1 (historyKeyed_subseteq _ _ Hsub1 Hk))
    as (b' & -> & Hsub & Hids & Hf).
  exists b'. split; [done|]. split; [by etrans|]. split.
  - intros id' Hin. apply elem_of_cons in Hin as [->|Hin].
    + split; [by eapply lookup_weaken_None|].
      intros e He Hne. eapply lookup_weaken_None; [|exact Hsub]. by apply Hi1.
    + destruct (Hids id' Hin) as [Hnone Hidx]. split; [done|].
      intros e He Hne.
      destruct (decide (id' = id)) as [->|Hdiff].
      * eapply lookup_weaken_None; [|exact Hsub]. by apply Hi1.
      * apply Hidx; [|done]. rewrite Hf1; [done| |].
        -- intros Heq%historyKey_inj. done.
        -- intros F Heq. symmetry in Heq.
           by apply historyIndexKey_ne_historyKey in Heq.
  - intros k Hne1 Hne2. rewrite Hf.
    + apply Hf1; [apply Hne1; left | intros F; apply Hne2].
    + intros id' Hin. apply Hne1. by right.
    + done.
Qed.

Lemma CleanupHistory_marked b cutoff rd me :
  historyKeyed b ->
  exists b',
    db.CleanupHistory b cutoff rd me = (b', None) /\ b' ⊆ b /\
    (forall i e,
        historyScan b true !! i = Some e ->
        if marked rd me cutoff i e then
          db.GetHistory b' (HistoryEntry.ID e) = Err ErrNotFound /\
          (HistoryEntry.FeedID e <> "" ->
           b' !! historyIndexKey (HistoryEntry.FeedID e) (HistoryEntry.ID e)
           = None)
        else db.GetHistory b' (HistoryEntry.ID e) = Ok e) /\
    (forall id,
        scanned true id = false ->
        db.GetHistory b' id = db.GetHistory b id) /\
    (forall k,
        inHistoryRange k = false ->
        (forall F id, k <> historyIndexKey F id) ->
        b' !! k = b !! k).
Proof.
  intros Hk. unfold db.CleanupHistory, db.iterator.
  rewrite (historyScan_items _ _ Hk).
  rewrite (iterate_markEntry rd me cutoff (historyScan b true) [] []).
  cbn [app length].
  destruct (deleteMarked_keyed
              (markedIDs rd me cutoff 0 (historyScan b true)) b Hk)
    as (b' & -> & Hsub & Hids & Hframe).
  exists b'. split; [done|]. split; [done|]. split; [|split].
  - intros i e Hi.
    assert (b !! historyKey (HistoryEntry.ID e) = Some (VHistory e)) as He.
    { apply (historyScan_elem b true e Hk). by eapply list_elem_of_lookup_2. }
    destruct (marked rd me cutoff i e) eqn:Hm.
    + destruct (Hids (HistoryEntry.ID e)) as [Hnone Hidx].
      { apply markedIDs_elem. by exists i, e. }
      split; [|by apply Hidx].
      unfold db.GetHistory, db.getObj.
      fold (historyKey (HistoryEntry.ID e)). by rewrite Hnone.
    + unfold db.GetHistory, db.getObj.
      fold (historyKey (HistoryEntry.ID e)).
      rewrite Hframe, He; [done| |].
      * intros id (j & e' & Hj & Hid & Hm')%markedIDs_elem Heq.
        apply historyKey_inj in Heq.
        pose proof (historyScan_NoDup_ID b true Hk) as Hnd.
        assert (i = j) as <-.
        { eapply (NoDup_lookup _ _ _ (HistoryEntry.ID e) Hnd).
          - change (List.map HistoryEntry.ID (historyScan b true))
              with (HistoryEntry.ID <$> historyScan b true).
            by rewrite list_lookup_fmap, Hi.
          - change (List.map HistoryEntry.ID (historyScan b true))
              with (HistoryEntry.ID <$> historyScan b true).
            rewrite list_lookup_fmap, Hj. cbn. congruence. }
        rewrite Hi in Hj. injection Hj as <-. cbn in Hm'. congruence.
      * intros F id Heq. symmetry in Heq.
        by apply historyIndexKey_ne_historyKey in Heq.
  - intros id Hs. unfold db.GetHistory, db.getObj. fold (historyKey id).
    rewrite Hframe; [done| |].
    + intros id' (j & e' & Hj & Hid & _)%markedIDs_elem Heq.
      apply historyKey_inj in Heq.
      assert (e' ∈ historyScan b true) as Hin
        by (by eapply list_elem_of_lookup_2).
      apply (historyScan_elem b true e' Hk) in Hin as [_ Hs'].
      rewrite Hid, <- Heq in Hs'. congruence.
    + intros F id' Heq. symmetry in Heq.
      by apply historyIndexKey_ne_historyKey in Heq.
  - intros k Hr Hidx. apply Hframe; [|done].
    intros id _ ->. by rewrite historyKey_inHistoryRange in Hr.
Qed.

(** The retention policy of [CleanupHistory] on a well-keyed history table.
    The call returns nil.  The entries it looks at are those of the
    reverse scan: the stored entries whose identifier is not above the
    one-byte string 0xFF, newest identifier first (position [i] counted
    from 0).  With both limits 0 every such entry is deleted; with
    [maxEntries > 0] every entry beyond the first [maxEntries] scanned is
    deleted; with [retentionDays > 0] every entry that started before the
    cut-off is deleted (such an entry still counts for the positions of the
    entries after it); a deleted entry loses its line in the index of its
    feed; every other scanned entry is kept unchanged.  An entry the scan
    does not reach is kept whatever the limits; keys outside the history
    table and its index are untouched. *)
Theorem CleanupHistory_applies_retention (b : gmap string Value)
    (cutoffTime : time.Time) (retentionDays maxEntries : Z) :
  historyKeyed b ->
  exists b',
    db.CleanupHistory b cutoffTime retentionDays maxEntries = (b', None) /\
    (forall e,
        e ∈ historyScan b true <->
        db.GetHistory b (HistoryEntry.ID e) = Ok e /\
        String.leb (HistoryEntry.ID e) (String "255" "") = true) /\
    (forall i e,
        historyScan b true !! i = Some e ->
        ((retentionDays = 0 /\ maxEntries = 0) \/
         (0 < maxEntries <= Z.of_nat i) \/
         (0 < retentionDays /\ HistoryEntry.StartTime e < cutoffTime) ->
         db.GetHistory b' (HistoryEntry.ID e) = Err ErrNotFound /\
         (HistoryEntry.FeedID e <> "" ->
          b' !! historyIndexKey (HistoryEntry.FeedID e) (HistoryEntry.ID e)
          = None)) /\
        ((retentionDays <> 0 \/ maxEntries <> 0) ->
         (maxEntries <= 0 \/ Z.of_nat i < maxEntries) ->
         (retentionDays <= 0 \/ cutoffTime <= HistoryEntry.StartTime e) ->
         db.GetHistory b' (HistoryEntry.ID e) = Ok e)) /\
    (forall id,
        String.leb id (String "255" "") = false ->
        db.GetHistory b' id = db.GetHistory b id) /\
    (forall k,
        inHistoryRange k = false ->
        (forall F id, k <> historyIndexKey F id) ->
        b' !! k = b !! k).
Proof.
  intros Hk.
  destruct (CleanupHistory_marked b cutoffTime retentionDays maxEntries Hk)
    as (b' & Hc & _ & Hscan & Hkept & Hframe).
  exists b'. split; [done|]. split; [|split; [|split; [exact Hkept|done]]].
  { intros e. rewrite (historyScan_elem b true e Hk).
    unfold db.GetHistory, db.getObj.
    fold (historyKey (HistoryEntry.ID e)). cbn [scanned negb orb].
    split; intros [Hl Hs]; (split; [|done]).
    - by rewrite Hl.
    - destruct (b !! historyKey (HistoryEntry.ID e)) as [v|] eqn:Hv; [|done].
      destruct (Hk _ _ Hv (historyKey_inHistoryRange _)) as (e' & -> & _).
      cbn in Hl. congruence. }
  intros i e Hi. specialize (Hscan i e Hi).
  unfold marked, time.Before in Hscan. split.
  - intros Hcase.
    replace (_ || _ || _) with true in Hscan; [done|].
    symmetry. destruct Hcase as [[-> ->]|[[H1 H2]|[H1 H2]]].
    + done.
    + apply orb_true_iff. right. apply andb_true_iff.
      rewrite !Z.gtb_ltb, !Z.ltb_lt. lia.
    + apply orb_true_iff. left. apply orb_true_iff. right.
      apply andb_true_iff. rewrite Z.gtb_ltb, !Z.ltb_lt. lia.
  - intros H0 H1 H2.
    replace (_ || _ || _) with false in Hscan; [done|].
    symmetry. apply orb_false_iff. split; [apply orb_false_iff; split|].
    + apply andb_false_iff. rewrite !Z.eqb_neq. tauto.
    + apply andb_false_iff. rewrite Z.gtb_ltb, Z.ltb_ge, Z.ltb_ge. lia.
    + apply andb_false_iff. rewrite !Z.gtb_ltb, !Z.ltb_ge. lia.
Qed.

Lemma prefixItems_nil (b : gmap string Value) prefix reverse :
  (forall k, String.prefix prefix k = true -> b !! k = None) ->
  db.prefixItems b prefix reverse = [].
Proof.
  intros Hnone.
  destruct (db.prefixItems b prefix reverse) as [|[k v] l] eqn:Hitems;
    [done|].
  assert ((k, v) ∈ db.prefixItems b prefix reverse) as Hin
    by (rewrite Hitems; left).
  apply prefixItems_elem in Hin as [Hl Hp].
  by rewrite Hnone in Hl by (by eapply reached_prefix).
Qed.

(** "Delete all history": [CleanupHistory] with both limits 0 on a
    well-keyed history table returns nil and deletes every entry its
    reverse scan reaches, that is, every entry whose identifier is not
    above the one-byte string 0xFF; an entry whose identifier starts with
    the byte 0xFF and goes on is not reached and stays.  When no stored
    identifier is of that kind the table is empty afterwards and
    [GetHistoryStats] reports no entry.  Feeds and episodes are
    untouched. *)
Theorem CleanupHistory_zero_zero_deletes_scanned_entries
    (b : gmap string Value) (cutoffTime : time.Time) :
  historyKeyed b ->
  exists b',
    db.CleanupHistory b cutoffTime 0 0 = (b', None) /\
    (forall id,
        String.leb id (String "255" "") = true ->
        db.GetHistory b' id = Err ErrNotFound) /\
    (forall id,
        String.leb id (String "255" "") = false ->
        db.GetHistory b' id = db.GetHistory b id) /\
    ((forall id,
         is_Some (b !! historyKey id) ->
         String.leb id (String "255" "") = true) ->
     (forall id, db.GetHistory b' id = Err ErrNotFound) /\
     db.GetHistoryStats b' = (0, None, None)) /\
    (forall feedID, db.GetFeed b' feedID = db.GetFeed b feedID) /\
    (forall feedID episodeID,
        db.GetEpisode b' feedID episodeID = db.GetEpisode b feedID episodeID).
Proof.
  intros Hk.
  destruct (CleanupHistory_marked b cutoffTime 0 0 Hk)
    as (b' & Hc & Hsub & Hscan & Hkept & Hframe).
  exists b'. split; [done|].
  assert (forall id,
            String.leb id (String "255" "") = true ->
            b' !! historyKey id = None) as Hgone.
  { intros id Hs. destruct (b' !! historyKey id) as [v|] eqn:Hl; [|done].
    exfalso.
    pose proof (lookup_weaken _ _ _ _ Hl Hsub) as Hb.
    destruct (Hk _ _ Hb (historyKey_inHistoryRange id)) as (e & -> & Hid).
    apply historyKey_inj in Hid. subst id.
    assert (e ∈ historyScan b true) as Hin by (by apply historyScan_elem).
    apply list_elem_of_lookup_1 in Hin as [i Hi].
    specialize (Hscan i e Hi). cbn in Hscan. destruct Hscan as [Hg _].
    unfold db.GetHistory, db.getObj in Hg.
    fold (historyKey (HistoryEntry.ID e)) in Hg. by rewrite Hl in Hg. }
  split; [|split; [exact Hkept|split; [|split]]].
  - intros id Hs. unfold db.GetHistory, db.getObj. fold (historyKey id).
    by rewrite Hgone.
  - intros Hall.
    assert (forall k, inHistoryRange k = true -> b' !! k = None) as Hempty.
    { intros k Hr. destruct (b' !! k) as [v|] eqn:Hl; [|done]. exfalso.
      pose proof (lookup_weaken _ _ _ _ Hl Hsub) as Hb.
      destruct (Hk _ _ Hb Hr) as (e & -> & ->).
      rewrite Hgone in Hl; [done|]. apply Hall. by rewrite Hb. }
    split.
    + intros id. unfold db.GetHistory, db.getObj. fold (historyKey id).
      by rewrite Hempty by apply historyKey_inHistoryRange.
    + unfold db.GetHistoryStats, db.iterator.
      by rewrite (prefixItems_nil b' _ false Hempty).
  - intros feedID. apply GetFeed_agree.
    + apply Hframe; apply feedKey_not_history.
    + intros k Hr. apply inEpisodeRange_not_history in Hr as (? & ? & _).
      by apply Hframe.
  - intros feedID episodeID. unfold db.GetEpisode, db.getObj.
    fold (episodeKey feedID episodeID).
    pose proof (inEpisodeRange_not_history feedID
                  (episodeKey feedID episodeID)
                  (episodeKey_prefix feedID episodeID)) as (? & ? & _).
    by rewrite Hframe.
Qed.

Lemma journal_historyKeyed : historyKeyed samples.journal.
Proof.
  intros k v Hl Hp. apply elem_of_map_to_list in Hl. vm_compute in Hl.
  repeat (apply elem_of_cons in Hl as [Hl|Hl];
          [injection Hl as -> ->; vm_compute in Hp;
           first [discriminate Hp | eexists; split; reflexivity]|]).
  by apply elem_of_nil in Hl.
Qed.

Lemma highJournal_historyKeyed : historyKeyed samples.highJournal.
Proof.
  intros k v Hl Hp. apply elem_of_map_to_list in Hl. vm_compute in Hl.
  repeat (apply elem_of_cons in Hl as [Hl|Hl];
          [injection Hl as -> ->; vm_compute in Hp;
           first [discriminate Hp | eexists; split; reflexivity]|]).
  by apply elem_of_nil in Hl.
Qed.

Lemma CleanupHistory_applies_retention_witness :
  exists b',
    db.CleanupHistory samples.journal 0 0 2 = (b', None) /\
    db.GetHistory b' "1700000000-a" = Err ErrNotFound /\
    b' !! historyIndexKey "f1" "1700000000-a" = None /\
    db.GetHistory b' "1700000200-c" = Ok samples.entryC.
Proof.
  destruct (CleanupHistory_applies_retention samples.journal 0 0 2
              journal_historyKeyed) as (b' & Hc & _ & Hscan & _).
  exists b'. split; [exact Hc|].
  assert (historyScan samples.journal true !! 2%nat = Some samples.entryA)
    as HA by (vm_compute; reflexivity).
  assert (historyScan samples.journal true !! 0%nat = Some samples.entryC)
    as HC by (vm_compute; reflexivity).
  destruct (Hscan _ _ HA) as [Hdel _]. destruct (Hscan _ _ HC) as [_ Hkeep].
  destruct Hdel as [Hgone Hidx].
  { right. left. cbn. lia. }
  split; [exact Hgone|]. split; [by apply Hidx|].
  apply Hkeep; [right; lia | right; cbn; lia | left; lia].
Defined.

Lemma CleanupHistory_zero_zero_deletes_scanned_entries_witness :
  exists b',
    db.CleanupHistory samples.highJournal 0 0 0 = (b', None) /\
    db.GetHistory b' "1700000000-a" = Err ErrNotFound /\
    db.GetHistory b' (HistoryEntry.ID samples.highEntry)
    = Ok samples.highEntry.
Proof.
  destruct (CleanupHistory_zero_zero_deletes_scanned_entries
              samples.highJournal 0 highJournal_historyKeyed)
    as (b' & Hc & Hgone & Hkept & _).
  exists b'. split; [exact Hc|]. split.
  - apply Hgone. vm_compute. reflexivity.
  - rewrite Hkept by (vm_compute; reflexivity). vm_compute. reflexivity.
Defined.

(** *** Statistics *)

Lemma iterate_count (scan : list HistoryEntry.t) :
  forall entries count,
    db.iterate
      (List.map (fun e => (historyKey (HistoryEntry.ID e), VHistory e)) scan)
      (fun item (st : list HistoryEntry.t * Z) =>
         let '(entries, count) := st in
         match db.unmarshalHistory item.2 with
         | Err e => (st, Some e)
         | Ok entry => ((entries ++ [entry], count + 1), None)
         end) (entries, count)
    = ((entries ++ scan, count + Z.of_nat (length scan)), None).
Proof.
  induction scan as [|e scan IH]; intros entries count;
    cbn [List.map db.iterate snd db.unmarshalHistory].
  { rewrite app_nil_r. do 2 f_equal. cbn. lia. }
  rewrite IH, <- app_assoc. do 2 f_equal. cbn [length]. lia.
Qed.

Lemma oldest_fold (l : list HistoryEntry.t) :
  forall first,
    let r :=
      fold_left
        (fun oldestEntry entry =>
           if time.Before (HistoryEntry.StartTime entry)
                          (HistoryEntry.StartTime oldestEntry)
           then entry else oldestEntry) l first in
    (r = first \/ r ∈ l) /\
    HistoryEntry.StartTime r <= HistoryEntry.StartTime first /\
    forall e, e ∈ l -> HistoryEntry.StartTime r <= HistoryEntry.StartTime e.
Proof.
  induction l as [|x l IH]; intros first; cbn [fold_left].
  { split; [by left|]. split; [lia|]. by intros e ?%elem_of_nil. }
  cbv zeta in IH.
  destruct (time.Before (HistoryEntry.StartTime x)
              (HistoryEntry.StartTime first)) eqn:Hlt;
    unfold time.Before in Hlt.
  - apply Z.ltb_lt in Hlt. destruct (IH x) as (Hin & Hle & Hall).
    split; [|split].
    + right. destruct Hin as [->|Hin]; [left | by right].
    + lia.
    + intros e [->|He]%elem_of_cons; [done | by apply Hall].
  - apply Z.ltb_ge in Hlt. destruct (IH first) as (Hin & Hle & Hall).
    split; [|split].
    + destruct Hin as [->|Hin]; [by left | right; by right].
    + done.
    + intros e [->|He]%elem_of_cons; [lia | by apply Hall].
Qed.

(** [GetHistoryStats] on a well-keyed history table returns nil, the number
    of entries, and an entry whose start time no other entry precedes (none
    when the table is empty); the entries counted are exactly the ones
    [GetHistory] returns. *)
Theorem GetHistoryStats_counts_and_finds_oldest (b : gmap string Value) :
  historyKeyed b ->
  exists oldestEntry,
    db.GetHistoryStats b
    = (Z.of_nat (length (historyScan b false)), oldestEntry, None) /\
    (historyScan b false = [] -> oldestEntry = None) /\
    (historyScan b false <> [] ->
     exists o,
       oldestEntry = Some o /\ db.GetHistory b (HistoryEntry.ID o) = Ok o /\
       forall e,
         db.GetHistory b (HistoryEntry.ID e) = Ok e ->
         HistoryEntry.StartTime o <= HistoryEntry.StartTime e) /\
    (forall e,
        e ∈ historyScan b false <->
        db.GetHistory b (HistoryEntry.ID e) = Ok e).
Proof.
  intros Hk.
  assert (forall e,
            e ∈ historyScan b false <->
            db.GetHistory b (HistoryEntry.ID e) = Ok e) as Hmem.
  { intros e. rewrite (historyScan_elem b false e Hk).
    unfold db.GetHistory, db.getObj. fold (historyKey (HistoryEntry.ID e)).
    split; [by intros [-> _]|].
    destruct (b !! historyKey (HistoryEntry.ID e)) as [v|]; [|done].
    destruct v; cbn; try done. by intros [= ->]. }
  unfold db.GetHistoryStats, db.iterator.
  rewrite (historyScan_items _ _ Hk), (iterate_count _ [] 0).
  cbn [app]. rewrite Z.add_0_l.
  eexists. split; [reflexivity|]. split; [by intros ->|]. split; [|done].
  intros Hne. destruct (historyScan b false) as [|first l] eqn:Hscan; [done|].
  cbn [db.oldest].
  destruct (oldest_fold (first :: l) first) as (Hin & _ & Hall).
  eexists. split; [reflexivity|]. split.
  - apply Hmem. by destruct Hin as [->|Hin]; [left|].
  - intros e He. apply Hall. by apply Hmem.
Qed.

Lemma GetHistoryStats_counts_and_finds_oldest_witness :
  exists oldestEntry,
    db.GetHistoryStats samples.journal = (3, oldestEntry, None) /\
    exists o, oldestEntry = Some o /\
              HistoryEntry.StartTime o <= 1700000000000000000.
Proof.
  destruct (GetHistoryStats_counts_and_finds_oldest samples.journal
              journal_historyKeyed) as (oldestEntry & Hs & _ & Hne & _).
  exists oldestEntry. split.
  { rewrite Hs. vm_compute. reflexivity. }
  destruct Hne as (o & -> & _ & Hall).
  { vm_compute. discriminate. }
  exists o. split; [done|].
  apply (Hall samples.entryA). vm_compute. reflexivity.
Defined.

(** ** Storage gateway: the search helper of the history listing *)

Lemma substring_0_prefix (t : string) :
  forall s,
    String.substring 0 (String.length t) s = t -> exists b, s = t +:+ b.
Proof.
  induction t as [|c t IH]; intros s H.
  - by exists s.
  - destruct s as [|c' s]; [discriminate H|].
    cbn in H. injection H as -> H.
    destruct (IH s H) as [b ->]. by exists b.
Qed.

Lemma substring_occurrence (i : nat) :
  forall s t,
    String.substring i (String.length t) s = t ->
    exists a b, s = a +:+ t +:+ b.
Proof.
  induction i as [|i IH]; intros s t H.
  - destruct (substring_0_prefix t s H) as [b ->]. by exists "", b.
  - destruct s as [|c s].
    + cbn in H. subst t. by exists "", "".
    + cbn in H. destruct (IH s t H) as (a & b & ->).
      by exists (String c a), b.
Qed.

Lemma substring_at (a : string) :
  forall t b,
    String.substring (String.length a) (String.length t) (a +:+ t +:+ b) = t.
Proof.
  induction a as [|c a IH]; intros t b.
  - change ("" +:+ t +:+ b) with (t +:+ b). cbn [String.length].
    induction t as [|x t IHt]; [by destruct b|].
    change (String x t +:+ b) with (String x (t +:+ b)). cbn. by f_equal.
  - change (String c a +:+ t +:+ b) with (String c (a +:+ t +:+ b)).
    cbn. apply IH.
Qed.

(** The loop of [simpleContains] finds exactly the literal occurrences. *)
Lemma simpleContains_occurrence (s substr : string) :
  db.simpleContains s substr = true <-> exists a b, s = a +:+ substr +:+ b.
Proof.
  unfold db.simpleContains, db.len. rewrite existsb_exists. split.
  - intros (i & _ & Heq). apply String.eqb_eq in Heq.
    by apply substring_occurrence in Heq.
  - intros (a & b & ->). exists (String.length a). split.
    + apply in_seq. rewrite !length_append. lia.
    + apply String.eqb_eq, substring_at.
Qed.

(** [contains], the "case-insensitive substring search" of the history
    listing, as it behaves.  The empty search string is contained in
    everything.  A non-empty one is contained in [s] exactly when it occurs
    in [s] literally, with the case of every letter as given, and in
    addition the first byte of [s] equals the first byte of the search
    string up to the case of an ASCII letter.  So an occurrence that does
    not start like [s] itself is not found, and the case is never
    ignored beyond that first comparison. *)
Theorem contains_is_literal_occurrence_with_matching_start
    (s substr : string) :
  (substr = "" -> db.contains s substr = true) /\
  (substr <> "" ->
   (db.contains s substr = true <->
    (exists a b, s = a +:+ substr +:+ b) /\
    db.toLower (db.byteAt s 0) = db.toLower (db.byteAt substr 0))).
Proof.
  split.
  - intros ->. unfold db.contains, db.len. cbn [String.length].
    replace (Z.of_nat 0 <=? Z.of_nat (String.length s)) with true
      by (symmetry; apply Z.leb_le; lia).
    cbn [andb]. change (Z.of_nat 0 =? 0) with true.
    by rewrite orb_true_r.
  - intros Hne.
    assert ((db.len substr =? 0) = false) as Hlen.
    { apply Z.eqb_neq. unfold db.len. destruct substr; [done|]. cbn. lia. }
    unfold db.contains. rewrite Hlen, !orb_false_r. split.
    + intros [Hle [Heq|[HD HE]%andb_true_iff]%orb_true_iff]%andb_true_iff.
      * apply String.eqb_eq in Heq as ->. split; [|done].
        exists "", "". by rewrite append_empty_r.
      * apply andb_true_iff in HD as [Hpos Hfirst].
        apply Z.ltb_lt in Hpos.
        apply orb_true_iff in HE as [HE|HE].
        { apply Z.eqb_eq in HE. lia. }
        split; [by apply simpleContains_occurrence|].
        apply orb_true_iff in Hfirst as [Hf|Hf]; apply Ascii.eqb_eq in Hf;
          congruence.
    + intros [Hocc Hfirst].
      assert (db.simpleContains s substr = true) as Hsc
        by (by apply simpleContains_occurrence).
      destruct Hocc as (a & b & Hs).
      assert (db.len substr <= db.len s /\ 0 < db.len s) as [Hle Hpos].
      { unfold db.len. rewrite Hs, !length_append.
        destruct substr; [done|]. cbn [String.length]. lia. }
      apply andb_true_iff. split; [by apply Z.leb_le|].
      apply orb_true_iff. right.
      rewrite Hsc, orb_true_r, andb_true_r.
      apply andb_true_iff. split; [by apply Z.ltb_lt|].
      apply orb_true_iff. right. by apply Ascii.eqb_eq.
Qed.

(** ** Artifact store: Create, Size and Delete together *)

(** Without the Web UI overlay, or for a name no UI asset carries, [Size]
    reads the data directory. *)
Lemma Size'_data webUIEnabled ui disk name :
  webUIEnabled = false \/ (name <> "/" /\ fs.html ui !! name = None) ->
  fs.Size' webUIEnabled ui disk name = fs.Size disk name.
Proof.
  intros Hcase. unfold fs.Size', fs.Open, fs.openData, fs.Size.
  destruct Hcase as [->|[Hne Hnone]].
  - by destruct (disk !! name).
  - destruct webUIEnabled; [|by destruct (disk !! name)].
    apply String.eqb_neq in Hne. rewrite Hne, Hnone.
    by destruct (disk !! name).
Qed.



(** With the Web UI enabled [Size] answers from [./html] first: for a name
    that a UI asset carries it reports the size of the asset, whatever the
    data directory holds under that name: before and after a [Create], and
    even after a [Delete].  With the Web UI disabled it reports what
    [Create] wrote. *)
Theorem Size_answers_from_html_first (ui : fs.UI) (disk : gmap string string)
    (name asset : string) (reader : fs.Reader) :
  name <> "/" ->
  fs.html ui !! name = Some asset ->
  fs.failure reader = None ->
  fs.Size' true ui disk name = Ok (fs.len asset) /\
  fs.Size' true ui (fs.Create disk name reader).1.1 name = Ok (fs.len asset) /\
  fs.Size' true ui (fs.Delete disk name).1 name = Ok (fs.len asset) /\
  fs.Size' false ui (fs.Create disk name reader).1.1 name
  = Ok (fs.len (fs.content reader)).
Proof.
  intros Hne Hasset Hf.
  assert (forall d, fs.Size' true ui d name = Ok (fs.len asset)) as Hui.
  { intros d. unfold fs.Size', fs.Open. apply String.eqb_neq in Hne.
    by rewrite Hne, Hasset. }
  split; [apply Hui|]. split; [apply Hui|]. split; [apply Hui|].
  rewrite (Create_complete _ _ _ Hf). cbn [fst].
  unfold fs.Size', fs.Open, fs.openData. by rewrite lookup_insert_eq.
Qed.

Lemma Size_answers_from_html_first_witness :
  fs.Size' true (fs.mkUI (<["favicon.ico" := "icon"]> ∅) (Some 4096))
    (fs.Create ∅ "favicon.ico" examples.twoChunks).1.1 "favicon.ico"
  = Ok 4.
Proof.
  destruct (Size_answers_from_html_first
              (fs.mkUI (<["favicon.ico" := "icon"]> ∅) (Some 4096)) ∅
              "favicon.ico" "icon" examples.twoChunks) as (_ & H & _).
  - discriminate.
  - vm_compute. reflexivity.
  - reflexivity.
  - exact H.
Defined.

(** ** Progress tracker: clearing a feed *)

Lemma ClearFeed_all_episodes (t : progress.Tracker) (feedID : string) ep :
  ep ∈ progress.GetAllEpisodeProgress (progress.ClearFeed t feedID) <->
  ep ∈ progress.GetAllEpisodeProgress t /\
  progress.EpisodeProgress.FeedID ep <> feedID.
Proof.
  unfold progress.ClearFeed, progress.GetAllEpisodeProgress.
  cbn [progress.episodeProgress].
  rewrite !list_elem_of_In, !in_map_iff. split.
  - intros ([k ep'] & <- & Hin).
    apply list_elem_of_In, elem_of_map_to_list in Hin.
    apply map_lookup_filter_Some in Hin as [Hl Hne]. split; [|done].
    exists (k, ep'). split; [done|].
    by apply list_elem_of_In, elem_of_map_to_list.
  - intros [([k ep'] & <- & Hin) Hne]. exists (k, ep'). split; [done|].
    apply list_elem_of_In, elem_of_map_to_list.
    apply map_lookup_filter_Some. split; [|done].
    by apply elem_of_map_to_list, list_elem_of_In.
Qed.

Lemma ClearFeed_no_episodes (t : progress.Tracker) (feedID : string) :
  progress.GetEpisodesForFeed (progress.ClearFeed t feedID) feedID = [].
Proof.
  unfold progress.GetEpisodesForFeed.
  match goal with |- ?l = [] => destruct l as [|ep rest] eqn:Hl end; [done|].
  assert (ep ∈ ep :: rest) as Hin by left. rewrite <- Hl in Hin.
  apply list_elem_of_In, filter_In in Hin as [Hin Heq].
  apply list_elem_of_In in Hin.
  change (ep ∈ progress.GetAllEpisodeProgress (progress.ClearFeed t feedID))
    in Hin.
  apply ClearFeed_all_episodes in Hin as [_ Hne].
  by apply String.eqb_eq in Heq.
Qed.

(** [ClearFeed] forgets the feed: its feed record is gone and no episode
    record with that feed identifier is left; the records of other feeds,
    and the episode records carrying another feed identifier, are exactly
    as before. *)
Theorem ClearFeed_forgets_the_feed (t : progress.Tracker) (feedID : string) :
  let t' := progress.ClearFeed t feedID in
  progress.GetFeedProgress t' feedID = None /\
  progress.GetEpisodesForFeed t' feedID = [] /\
  (forall other,
      other <> feedID ->
      progress.GetFeedProgress t' other = progress.GetFeedProgress t other) /\
  (forall F id ep,
      progress.GetEpisodeProgress t' F id = Some ep <->
      progress.GetEpisodeProgress t F id = Some ep /\
      progress.EpisodeProgress.FeedID ep <> feedID) /\
  (forall ep,
      ep ∈ progress.GetAllEpisodeProgress t' <->
      ep ∈ progress.GetAllEpisodeProgress t /\
      progress.EpisodeProgress.FeedID ep <> feedID).
Proof.
  cbv zeta. split; [apply lookup_delete_eq|].
  split; [apply ClearFeed_no_episodes|]. split; [|split].
  - intros other Hne. unfold progress.GetFeedProgress, progress.ClearFeed.
    cbn [progress.feedProgress]. by apply lookup_delete_ne.
  - intros F id ep. unfold progress.GetEpisodeProgress, progress.ClearFeed.
    cbn [progress.episodeProgress]. apply map_lookup_filter_Some.
  - apply ClearFeed_all_episodes.
Qed.

(** ** Feed updater: the download list *)

Lemma selectEpisode_no_error matchFilters cfg e s :
  (update.selectEpisode matchFilters cfg e s).2 = None.
Proof.
  unfold update.selectEpisode. destruct s as [[b l] p].
  repeat (case_decide; [done|]).
  destruct (negb _).
  - case_decide; [|done]. by destruct (db.UpdateEpisode _ _ _ _).
  - by destruct (_ <? 0).
Qed.

Lemma take_Z_cons {A} (p : Z) (x : A) (l : list A) :
  0 < p -> take (Z.to_nat p) (x :: l) = x :: take (Z.to_nat (p - 1)) l.
Proof.
  intros Hp. replace (Z.to_nat p) with (S (Z.to_nat (p - 1))) by lia. done.
Qed.

Lemma take_Z_nonpos {A} (p : Z) (l : list A) :
  p <= 0 -> take (Z.to_nat p) l = [].
Proof. intros Hp. replace (Z.to_nat p) with 0%nat by lia. done. Qed.

(** The fold of the selection callback over episodes that are still stored
    as the walk delivered them. *)
Lemma selectEpisode_fold matchFilters cfg (l : list Episode.t) :
  forall (b : gmap string Value) (acc : list Episode.t) (p : Z),
    let F := feed.Config.ID cfg in
    NoDup (List.map Episode.ID l) ->
    (forall e, e ∈ l -> b !! episodeKey F (Episode.ID e) = Some (VEpisode e)) ->
    - 2 ^ 63 <= p - Z.of_nat (length l) -> p < 2 ^ 63 ->
    exists b' p',
      fold_left (fun s e => (update.selectEpisode matchFilters cfg e s).1) l
                (b, acc, p)
      = (b', acc ++ take (Z.to_nat p)
                      (List.filter (selectable matchFilters cfg) l), p') /\
      (forall e, e ∈ l -> ignorable matchFilters cfg e = true ->
                 b' !! episodeKey F (Episode.ID e)
                 = Some (VEpisode (Episode.setStatus EpisodeIgnored e))) /\
      (forall k,
          (forall e, e ∈ l -> ignorable matchFilters cfg e = true ->
                     k <> episodeKey F (Episode.ID e)) ->
          b' !! k = b !! k).
Proof.
  induction l as [|x l IH]; intros b acc p F Hnd Hst Hlo Hhi.
  { exists b, p. cbn [fold_left List.filter]. rewrite take_nil, app_nil_r.
    split; [done|]. split; [by intros e ?%elem_of_nil | done]. }
  cbn [List.map] in Hnd. apply NoDup_cons in Hnd as [Hx Hnd].
  assert (forall y, y ∈ l -> Episode.ID y <> Episode.ID x) as Hids.
  { intros y Hin Heq. apply Hx. rewrite <- Heq.
    apply list_elem_of_In, in_map. by apply list_elem_of_In. }
  assert (b !! episodeKey F (Episode.ID x) = Some (VEpisode x)) as Hxs
    by (apply Hst; left).
  cbn [length] in Hlo. cbn [fold_left List.filter].
  unfold selectable at 1, update.selectEpisode at 2. fold F.
  (* the four ways the callback can go *)
  destruct (decide (Episode.Status x = EpisodeBlocked)) as [Hb|Hb].
  { (* blocked: skipped *)
    rewrite bool_decide_eq_false_2 by (rewrite Hb; intros [?|?]; done).
    cbn [andb fst].
    destruct (IH b acc p) as (b' & p' & -> & Hig & Hfr); try done.
    { intros; apply Hst; by right. } { lia. }
    exists b', p'. split; [done|]. split.
    - intros e [->|He]%elem_of_cons Hi; [|by apply Hig].
      unfold ignorable in Hi. rewrite Hb in Hi. done.
    - intros k Hk. apply Hfr. intros e He. apply Hk. by right. }
  destruct (decide (Episode.Status x <> EpisodeNew /\
                    Episode.Status x <> EpisodeError)) as [Hc|Hc].
  { (* neither new nor error: skipped *)
    rewrite bool_decide_eq_false_2 by (intros [?|?]; by destruct Hc).
    cbn [andb fst].
    destruct (IH b acc p) as (b' & p' & -> & Hig & Hfr); try done.
    { intros; apply Hst; by right. } { lia. }
    exists b', p'. split; [done|]. split.
    - intros e [->|He]%elem_of_cons Hi; [|by apply Hig].
      unfold ignorable in Hi. destruct Hc as [Hc _].
      by rewrite bool_decide_eq_false_2 in Hi.
    - intros k Hk. apply Hfr. intros e He. apply Hk. by right. }
  assert (Episode.Status x = EpisodeNew \/ Episode.Status x = EpisodeError)
    as Hcand.
  { destruct (Episode.Status x); try (by left); try (by right);
      exfalso; apply Hc; by split. }
  rewrite bool_decide_eq_true_2 by done. cbn [andb].
  destruct (matchFilters x cfg) eqn:Hm; cbn [negb].
  - (* selected, as far as the page size allows *)
    assert (wrap64 (p - 1) = p - 1) as -> by (apply wrap64_id; lia).
    destruct (p - 1 <? 0) eqn:Hp; cbn [fst].
    + apply Z.ltb_lt in Hp.
      destruct (IH b acc (p - 1)) as (b' & p' & -> & Hig & Hfr); try done.
      { intros; apply Hst; by right. } { lia. } { lia. }
      exists b', p'. rewrite !take_Z_nonpos by lia. split; [done|]. split.
      * intros e [->|He]%elem_of_cons Hi; [|by apply Hig].
        unfold ignorable in Hi. rewrite Hm in Hi.
        by rewrite andb_false_r in Hi.
      * intros k Hk. apply Hfr. intros e He. apply Hk. by right.
    + apply Z.ltb_ge in Hp.
      destruct (IH b (acc ++ [x]) (p - 1)) as (b' & p' & -> & Hig & Hfr);
        try done.
      { intros; apply Hst; by right. } { lia. } { lia. }
      exists b', p'. rewrite take_Z_cons by lia. rewrite <- app_assoc.
      split; [done|]. split.
      * intros e [->|He]%elem_of_cons Hi; [|by apply Hig].
        unfold ignorable in Hi. rewrite Hm in Hi.
        by rewrite andb_false_r in Hi.
      * intros k Hk. apply Hfr. intros e He. apply Hk. by right.
  - (* fails the filters: a new episode becomes ignored *)
    destruct (decide (Episode.Status x = EpisodeNew)) as [Hn|Hn].
    + rewrite (UpdateEpisode_stored b F x (Episode.setStatus EpisodeIgnored))
        by done.
      cbn [fst].
      destruct (IH (<[episodeKey F (Episode.ID x) :=
                        VEpisode (Episode.setStatus EpisodeIgnored x)]> b)
                  acc p) as (b' & p' & -> & Hig & Hfr); try done.
      { intros e He. rewrite lookup_insert_ne; [apply Hst; by right|].
        intros Heq%episodeKey_inj'. by apply (Hids e). }
      { lia. }
      exists b', p'. split; [done|]. split.
      * intros e [->|He]%elem_of_cons Hi; [|by apply Hig].
        rewrite Hfr; [apply lookup_insert_eq|].
        intros e He _ Heq%episodeKey_inj'. by apply (Hids e).
      * intros k Hk. rewrite Hfr.
        -- apply lookup_insert_ne. intros <-. apply (Hk x); [left| |done].
           unfold ignorable. rewrite Hm.
           by rewrite bool_decide_eq_true_2.
        -- intros e He. apply Hk. by right.
    + cbn [fst].
      destruct (IH b acc p) as (b' & p' & -> & Hig & Hfr); try done.
      { intros; apply Hst; by right. } { lia. }
      exists b', p'. split; [done|]. split.
      * intros e [->|He]%elem_of_cons Hi; [|by apply Hig].
        unfold ignorable in Hi.
        by rewrite bool_decide_eq_false_2 in Hi.
      * intros k Hk. apply Hfr. intros e He. apply Hk. by right.
Qed.

Section Fetch.

Variable matchFilters : Episode.t -> feed.Config.t -> bool.


End Fetch.

Lemma mixedStore_wellKeyed : wellKeyed samples.mixedStore "f1".
Proof.
  unfold wellKeyed. apply map_Forall_to_list. vm_compute.
  repeat constructor.
Qed.


(** ** Feed updater: the other outcomes of a download turn *)

Section DownloadTurns.

Variable EpisodeName : feed.Config.t -> Episode.t -> string.
Variable u : update.Manager.
Variable env : update.Env.

Local Abbreviation artifactPath := (update.artifactPath EpisodeName).

(** One turn for an episode whose artifact is already in the store: the
    record takes the size of the file, the driver is not called. *)
Lemma downloadEpisode_existing cfg (x x' : Episode.t) w content :
  update.database w !! episodeKey (feed.Config.ID cfg) (Episode.ID x)
    = Some (VEpisode x') ->
  Episode.ID x' = Episode.ID x ->
  update.storage w !! artifactPath cfg x = Some content ->
  exists w',
    update.downloadEpisode EpisodeName u env cfg x w = (w', update.Continue) /\
    update.database w' =
      <[episodeKey (feed.Config.ID cfg) (Episode.ID x) :=
          VEpisode (Episode.setStatus EpisodeDownloaded
                      (Episode.setSize (fs.len content) x'))]>
        (update.database w) /\
    update.storage w' = update.storage w /\
    update.downloadRequests w' = update.downloadRequests w.
Proof.
  intros Hl Hid Hp. unfold update.downloadEpisode, fs.Size.
  fold (artifactPath cfg x). rewrite Hp.
  rewrite (mutateEpisode_at w _ _ x'
             (fun ep => Episode.setStatus EpisodeDownloaded
                          (Episode.setSize (fs.len content) ep))) by done.
  eexists. split; [reflexivity|]. done.
Qed.

(** One turn for an episode on which the driver fails with an error other
    than TooManyRequests: the record takes status error and the message,
    and the loop goes on. *)
Lemma downloadEpisode_failure cfg (x x' : Episode.t) w e :
  update.database w !! episodeKey (feed.Config.ID cfg) (Episode.ID x)
    = Some (VEpisode x') ->
  Episode.ID x' = Episode.ID x ->
  update.storage w !! artifactPath cfg x = None ->
  update.download env x = Err e ->
  e <> ErrTooManyRequests ->
  exists w',
    update.downloadEpisode EpisodeName u env cfg x w = (w', update.Continue) /\
    update.database w' =
      <[episodeKey (feed.Config.ID cfg) (Episode.ID x) :=
          VEpisode (Episode.setError (Error e)
                      (Episode.setStatus EpisodeError x'))]>
        (update.database w) /\
    update.storage w' = update.storage w /\
    update.downloadRequests w' = update.downloadRequests w ++ [Episode.ID x].
Proof.
  intros Hl Hid Hp Hd Hne. unfold update.downloadEpisode, fs.Size.
  fold (artifactPath cfg x). rewrite Hp. cbn [IsNotExist negb].
  rewrite (mutateEpisode_at w _ _ x' (Episode.setStatus EpisodeDownloading))
    by done.
  cbn [fst]. rewrite Hd. rewrite decide_False by done.
  match goal with
  | |- context [update.downloading env x
                  (if update.ytdl u
                   then update.SetProgressCallback (Some (?F, _)) ?w0
                   else _)] =>
      destruct (downloading_turn u env F x w0) as (Hdb0 & Hfs0 & Hr0)
  end.
  set (wd := update.downloading env x _) in *.
  rewrite (mutateEpisode_at wd _ _
             (Episode.setStatus EpisodeDownloading x')
             (fun ep => Episode.setError (Error e)
                          (Episode.setStatus EpisodeError ep))).
  - eexists. split; [reflexivity|].
    cbn [update.database update.storage update.downloadRequests
           update.setDatabase].
    rewrite Hdb0, Hfs0, Hr0.
    cbn [update.database update.storage update.downloadRequests
           update.setTracker update.setDatabase].
    rewrite insert_insert_eq. split; [|done].
    by destruct x'.
  - rewrite Hdb0. cbn [update.database update.setTracker update.setDatabase].
    apply lookup_insert_eq.
  - done.
  - done.
Qed.

Lemma setError_setStatus_collapse m s1 s2 (e : Episode.t) :
  Episode.setError m (Episode.setStatus s1 (Episode.setStatus s2 e))
  = Episode.setError m (Episode.setStatus s1 e).
Proof. by destruct e. Qed.

(** A failed download does not stop the run, and a file that is already
    there is not downloaded again.  Candidates A, B, C, each stored under
    its own key: the artifact of A is in the store, the driver fails on B
    with an error other than TooManyRequests and delivers C.  The stage
    returns nil; A is downloaded with the size of the file found, without
    a call of the driver; B has status error and the driver's message; C is
    downloaded with the size written; the driver was called for B and C, in
    this order; the only change of the artifact store is the file of C. *)
Theorem downloadEpisodes_continues_after_failure cfg w (A B C : Episode.t)
    content e reader :
  let F := feed.Config.ID cfg in
  update.database w !! episodeKey F (Episode.ID A) = Some (VEpisode A) ->
  update.database w !! episodeKey F (Episode.ID B) = Some (VEpisode B) ->
  update.database w !! episodeKey F (Episode.ID C) = Some (VEpisode C) ->
  Episode.ID A <> Episode.ID B ->
  Episode.ID A <> Episode.ID C ->
  Episode.ID B <> Episode.ID C ->
  update.storage w !! artifactPath cfg A = Some content ->
  update.storage w !! artifactPath cfg B = None ->
  update.storage w !! artifactPath cfg C = None ->
  update.download env B = Err e ->
  e <> ErrTooManyRequests ->
  update.download env C = Ok reader ->
  fs.failure reader = None ->
  exists wd,
    update.downloadEpisodes EpisodeName u env cfg [A; B; C] w = (wd, None) /\
    update.database wd !! episodeKey F (Episode.ID A)
    = Some (VEpisode (Episode.setStatus EpisodeDownloaded
                        (Episode.setSize (fs.len content) A))) /\
    update.database wd !! episodeKey F (Episode.ID B)
    = Some (VEpisode (Episode.setError (Error e)
                        (Episode.setStatus EpisodeError B))) /\
    update.database wd !! episodeKey F (Episode.ID C)
    = Some (VEpisode (Episode.setStatus EpisodeDownloaded
                        (Episode.setSize (fs.len (fs.content reader)) C))) /\
    update.storage wd
    = <[artifactPath cfg C := fs.content reader]> (update.storage w) /\
    update.downloadRequests wd
    = update.downloadRequests w ++ [Episode.ID B; Episode.ID C].
Proof.
  intros F HA HB HC HAB HAC HBC HpA HpB HpC HdB Hne HdC Hf.
  assert (episodeKey F (Episode.ID A) <> episodeKey F (Episode.ID B)) as KAB
    by (intros ?%episodeKey_inj'; done).
  assert (episodeKey F (Episode.ID A) <> episodeKey F (Episode.ID C)) as KAC
    by (intros ?%episodeKey_inj'; done).
  assert (episodeKey F (Episode.ID B) <> episodeKey F (Episode.ID C)) as KBC
    by (intros ?%episodeKey_inj'; done).
  unfold update.downloadEpisodes. fold F.
  change (negb (Z.of_nat (length [A; B; C]) >? 0)) with false. cbv iota.
  set (w1 := update.setTracker _ w).
  destruct (markQueued_lookup F [A; B; C] w1) as (Hq & Hfr & Hs & Ht & Hr).
  { cbn [List.map]. repeat constructor; set_solver. }
  { intros x Hx. unfold w1. cbn [update.database update.setTracker].
    apply list_elem_of_In in Hx. cbn [In] in Hx.
    destruct Hx as [<-|[<-|[<-|[]]]]; done. }
  set (w2 := update.markQueued w1 F [A; B; C]) in *.
  set (w3 := update.setTracker _ w2).
  cbn [update.downloadLoop].
  destruct (downloadEpisode_existing cfg A (Episode.setStatus EpisodeQueued A)
              w3 content) as (w4 & -> & Hdb4 & Hfs4 & Hr4); try done.
  { unfold w3. cbn [update.database update.setTracker].
    apply Hq. by left. }
  { unfold w3. cbn [update.storage update.setTracker]. by rewrite Hs. }
  destruct (downloadEpisode_failure cfg B (Episode.setStatus EpisodeQueued B)
              w4 e) as (w5 & -> & Hdb5 & Hfs5 & Hr5); try done.
  { rewrite Hdb4, lookup_insert_ne by done.
    unfold w3. cbn [update.database update.setTracker].
    apply Hq. right. by left. }
  { rewrite Hfs4. unfold w3. cbn [update.storage update.setTracker].
    by rewrite Hs. }
  destruct (downloadEpisode_success EpisodeName u env cfg C
              (Episode.setStatus EpisodeQueued C) w5 reader)
    as (w6 & -> & Hdb6 & Hfs6 & Hr6); try done.
  { rewrite Hdb5, Hdb4, !lookup_insert_ne by done.
    unfold w3. cbn [update.database update.setTracker].
    apply Hq. right. right. by left. }
  { rewrite Hfs5, Hfs4. unfold w3. cbn [update.storage update.setTracker].
    by rewrite Hs. }
  eexists. split; [reflexivity|].
  cbn [update.database update.storage update.downloadRequests
         update.setTracker].
  rewrite Hdb6, Hdb5, Hdb4, Hfs6, Hfs5, Hfs4, Hr6, Hr5, Hr4.
  unfold w3. cbn [update.database update.storage update.downloadRequests
                    update.setTracker].
  rewrite Hs, Hr. unfold w1 at 1 2.
  cbn [update.storage update.downloadRequests update.setTracker].
  repeat split.
  - rewrite !lookup_insert_ne, lookup_insert_eq by done.
    by rewrite setStatus_collapse.
  - rewrite lookup_insert_ne, lookup_insert_eq by done.
    by rewrite setError_setStatus_collapse.
  - rewrite lookup_insert_eq.
    by rewrite setStatus_collapse, setStatus_collapse.
  - by rewrite <- app_assoc.
Qed.

(** Whatever the downloads did, a stage that had at least one candidate
    leaves no progress behind for the feed: the tracker has no feed record
    and no episode record of the feed when [downloadEpisodes] returns; with
    no candidate the stage returns nil at once and changes nothing. *)
Theorem downloadEpisodes_clears_progress cfg (downloadList : list Episode.t)
    w :
  let r := update.downloadEpisodes EpisodeName u env cfg downloadList w in
  (downloadList = [] -> r = (w, None)) /\
  (downloadList <> [] ->
   progress.GetFeedProgress (update.progressTracker r.1) (feed.Config.ID cfg)
   = None /\
   progress.GetEpisodesForFeed (update.progressTracker r.1)
     (feed.Config.ID cfg) = []).
Proof.
  cbv zeta. split.
  - intros ->. reflexivity.
  - intros Hne. unfold update.downloadEpisodes.
    replace (negb (Z.of_nat (length downloadList) >? 0)) with false.
    2: { symmetry. apply negb_false_iff. rewrite Z.gtb_ltb. apply Z.ltb_lt.
         destruct downloadList; [done|]. cbn [length]. lia. }
    destruct (update.downloadLoop _ _ _ _ _ _) as [wl err].
    cbn [fst update.progressTracker update.setTracker]. split.
    + apply lookup_delete_eq.
    + apply ClearFeed_no_episodes.
Qed.

End DownloadTurns.

Lemma downloadEpisodes_continues_after_failure_witness :
  exists wd,
    update.downloadEpisodes examples.EpisodeName examples.manager
      samples.flaky examples.feedF1
      [examples.epA; examples.epB; examples.epC] samples.withFileOfA
    = (wd, None) /\
    update.downloadRequests wd = ["B"; "C"] /\
    update.database wd !! episodeKey "f1" "B"
    = Some (VEpisode (Episode.setError "video unavailable"
                        (Episode.setStatus EpisodeError examples.epB))).
Proof.
  pose proof (downloadEpisodes_continues_after_failure examples.EpisodeName
                examples.manager samples.flaky examples.feedF1
                samples.withFileOfA
                examples.epA examples.epB examples.epC "old file"
                (ErrOther "video unavailable") (fs.fileReader "media of C"))
    as H.
  cbv zeta in H.
  specialize (H ltac:(vm_compute; reflexivity) ltac:(vm_compute; reflexivity)
                ltac:(vm_compute; reflexivity) ltac:(vm_compute; discriminate)
                ltac:(vm_compute; discriminate) ltac:(vm_compute; discriminate)
                ltac:(vm_compute; reflexivity) ltac:(vm_compute; reflexivity)
                ltac:(vm_compute; reflexivity) ltac:(vm_compute; reflexivity)
                ltac:(discriminate) ltac:(vm_compute; reflexivity)
                ltac:(reflexivity)).
  destruct H as (wd & Hd & _ & HB & _ & _ & Hr).
  exists wd. split; [exact Hd|]. split; [exact Hr | exact HB].
Defined.

(** ** Feed updater: what a run leaves alone, and a run that fails *)

Lemma LogFeedUpdateStart_frame m b now uuid feedID feedTitle trigger k :
  k <> historyKey (history.newEntryID now uuid) ->
  k <> historyIndexKey feedID (history.newEntryID now uuid) ->
  (history.LogFeedUpdateStart m b now uuid feedID feedTitle trigger).1.1 !! k
  = b !! k.
Proof.
  intros Hk Hi.
  unfold history.LogFeedUpdateStart, db.AddHistory, db.Update, db.setObj.
  destruct (negb (history.enabled m)); [done|].
  cbn [negb HistoryEntry.ID HistoryEntry.FeedID].
  fold (historyKey (history.newEntryID now uuid)).
  fold (historyIndexKey feedID (history.newEntryID now uuid)).
  destruct (decide (feedID <> "")); cbn [fst];
    by rewrite ?lookup_insert_ne.
Qed.

Lemma UpdateHistory_frame b id cb k :
  k <> historyKey id -> (db.UpdateHistory b id cb).1 !! k = b !! k.
Proof.
  intros Hk. unfold db.UpdateHistory, db.Update. fold (historyKey id).
  destruct (db.getObj _ _ _) as [e|]; [|done].
  destruct (cb e) as [e'|]; [|done].
  destruct (decide _); [done|]. unfold db.setObj. cbn [negb fst].
  by rewrite lookup_insert_ne.
Qed.

Lemma LogFeedUpdateEnd_frame m b now id status stats msg k :
  (history.enabled m = true -> k <> historyKey id) ->
  (history.LogFeedUpdateEnd m b now id status stats msg).1 !! k = b !! k.
Proof.
  intros Hk. unfold history.LogFeedUpdateEnd.
  destruct (history.enabled m); [|done]. cbn [negb orb].
  destruct (String.eqb id ""); [done|]. by apply UpdateHistory_frame, Hk.
Qed.

Lemma LogFeedUpdateEndWithEpisodes_frame m b now id feedID ids status stats
    msg k :
  (history.enabled m = true -> k <> historyKey id) ->
  (history.LogFeedUpdateEndWithEpisodes m b now id feedID ids status stats
     msg).1 !! k = b !! k.
Proof.
  intros Hk. unfold history.LogFeedUpdateEndWithEpisodes.
  destruct (history.enabled m); [|done]. cbn [negb orb].
  destruct (String.eqb id ""); [done|]. by apply UpdateHistory_frame, Hk.
Qed.

(** Closing a stored entry through [LogFeedUpdateEnd]. *)
Lemma LogFeedUpdateEnd_stored m b now hid status stats msg
    (entry : HistoryEntry.t) :
  history.enabled m = true ->
  String.eqb hid "" = false ->
  b !! historyKey hid = Some (VHistory entry) ->
  HistoryEntry.ID entry = hid ->
  history.LogFeedUpdateEnd m b now hid status stats msg
  = (<[historyKey hid :=
         VHistory (history.closeEntry now status stats msg entry)]> b, None).
Proof.
  intros Hen Hne Hl Hid.
  unfold history.LogFeedUpdateEnd. rewrite Hen, Hne.
  cbn [negb orb]. unfold db.UpdateHistory, db.Update, db.getObj.
  fold (historyKey hid). rewrite Hl. cbn [db.unmarshalHistory].
  cbn [history.closeEntry HistoryEntry.ID]. rewrite Hid.
  destruct (decide (hid <> hid)); [done|].
  unfold db.setObj. cbn [negb]. reflexivity.
Qed.

(** The recorder, start to end.  With the recorder enabled, an entry opened
    at [t0] and closed at [t1] reads back with the feed, title, trigger and
    start time given at the start, and the end time, duration [t1 - t0]
    (as [time.Sub] computes it), status, statistics and message given at
    the end.  With the recorder disabled the start returns the empty
    identifier and neither call writes anything. *)
Theorem LogFeedUpdateEnd_closes_started_entry (m : history.Manager)
    (b : gmap string Value) (t0 t1 : time.Time)
    (uuid feedID feedTitle trigger status : string)
    (stats : JobStatistics.t) (msg : string) :
  let started :=
    history.LogFeedUpdateStart m b t0 uuid feedID feedTitle trigger in
  let ended :=
    history.LogFeedUpdateEnd m started.1.1 t1 started.1.2 status stats msg in
  (history.enabled m = true ->
   started.2 = None /\ ended.2 = None /\
   started.1.2 = history.newEntryID t0 uuid /\
   db.GetHistory ended.1 started.1.2 =
   Ok (HistoryEntry.mk started.1.2 JobTypeFeedUpdate feedID feedTitle "" ""
         t0 (Some t1) (history.Sub t1 t0) status trigger stats msg)) /\
  (history.enabled m = false ->
   started = (b, "", None) /\ ended = (b, None)).
Proof.
  cbv zeta. split.
  - intros Hen.
    destruct (history.LogFeedUpdateStart m b t0 uuid feedID feedTitle trigger)
      as [[b1 hid] e0] eqn:Hstart.
    destruct (LogFeedUpdateStart_enabled _ _ _ _ _ _ _ _ _ _ Hen Hstart)
      as (-> & Hhid & Hentry).
    cbn [fst snd].
    rewrite (LogFeedUpdateEnd_stored m b1 t1 hid status stats msg _ Hen
               ltac:(rewrite Hhid; apply newEntryID_nonempty) Hentry eq_refl).
    cbn [fst snd]. split; [done|]. split; [done|]. split; [done|].
    unfold db.GetHistory, db.getObj. fold (historyKey hid).
    by rewrite lookup_insert_eq.
  - intros Hdis. unfold history.LogFeedUpdateStart, history.LogFeedUpdateEnd.
    rewrite Hdis. done.
Qed.

Section Isolation.

Variable EpisodeName : feed.Config.t -> Episode.t -> string.
Variable matchFilters : Episode.t -> feed.Config.t -> bool.
Variable feedBuild : Feed.t -> feed.Config.t -> string -> result string.
Variable BuildOPML : gmap string Value -> string -> result string.
Variable sortSlice :
  (Episode.t -> Episode.t -> bool) -> list Episode.t -> list Episode.t.
Variable u : update.Manager.
Variable env : update.Env.

Lemma markQueued_frame feedID l k :
  forall w,
    (forall episodeID, k <> episodeKey feedID episodeID) ->
    update.database (update.markQueued w feedID l) !! k
    = update.database w !! k.
Proof.
  induction l as [|x l IH]; intros w Hk; cbn [update.markQueued]; [done|].
  rewrite IH by done. by apply mutateEpisode_frame.
Qed.

Lemma downloadEpisode_frame cfg episode w k :
  (forall episodeID, k <> episodeKey (feed.Config.ID cfg) episodeID) ->
  update.database (update.downloadEpisode EpisodeName u env cfg episode w).1 !! k
  = update.database w !! k.
Proof.
  intros Hk. unfold update.downloadEpisode.
  destruct (fs.Size _ _) as [size|e].
  { pose proof (mutateEpisode_frame w (feed.Config.ID cfg)
                  (Episode.ID episode)
                  (fun ep => Episode.setStatus EpisodeDownloaded
                               (Episode.setSize size ep)) k (Hk _)) as Hf.
    by destruct (update.mutateEpisode _ _ _ _) as [w' [e|]]. }
  destruct (negb (IsNotExist e)); [done|].
  pose proof (mutateEpisode_frame w (feed.Config.ID cfg) (Episode.ID episode)
                (Episode.setStatus EpisodeDownloading) k (Hk _)) as Hf1.
  set (w1 := (update.mutateEpisode w _ _ (Episode.setStatus _)).1) in *.
  match goal with
  | |- context [update.downloading env episode
                  (if update.ytdl u
                   then update.SetProgressCallback (Some (?F, _)) ?w0
                   else _)] =>
      destruct (downloading_turn u env F episode w0) as (Hdb0 & _ & _)
  end.
  set (w2 := update.downloading env episode _) in *.
  assert (update.database w2 !! k = update.database w !! k) as Hw2
    by (rewrite Hdb0; exact Hf1).
  destruct (update.download env episode) as [tempFile|e'].
  - destruct (fs.Create _ _ _) as [[disk n] [e1|]]; [exact Hw2|].
    set (w3 := update.setStorage disk w2).
    pose proof (mutateEpisode_frame w3 (feed.Config.ID cfg)
                  (Episode.ID episode)
                  (fun ep => Episode.setStatus EpisodeDownloaded
                               (Episode.setSize n ep)) k (Hk _)) as Hf.
    destruct (update.mutateEpisode w3 _ _ _) as [w' [e1|]];
      cbn [fst update.database update.setTracker] in *; by rewrite Hf.
  - destruct (decide (e' = ErrTooManyRequests)); [exact Hw2|].
    pose proof (mutateEpisode_frame w2 (feed.Config.ID cfg)
                  (Episode.ID episode)
                  (fun ep => Episode.setError (Error e')
                               (Episode.setStatus EpisodeError ep)) k (Hk _))
      as Hf.
    destruct (update.mutateEpisode w2 _ _ _) as [w' [e1|]];
      cbn [fst] in *; by rewrite Hf.
Qed.

Lemma downloadLoop_frame cfg l k :
  forall w,
    (forall episodeID, k <> episodeKey (feed.Config.ID cfg) episodeID) ->
    update.database (update.downloadLoop EpisodeName u env cfg l w).1 !! k
    = update.database w !! k.
Proof.
  induction l as [|x l IH]; intros w Hk; cbn [update.downloadLoop]; [done|].
  pose proof (downloadEpisode_frame cfg x w k Hk) as Hf.
  destruct (update.downloadEpisode EpisodeName u env cfg x w) as [w' []];
    cbn [fst] in *; [|done..].
  by rewrite IH.
Qed.

Lemma downloadEpisodes_frame cfg l w k :
  (forall episodeID, k <> episodeKey (feed.Config.ID cfg) episodeID) ->
  update.database (update.downloadEpisodes EpisodeName u env cfg l w).1 !! k
  = update.database w !! k.
Proof.
  intros Hk. unfold update.downloadEpisodes.
  destruct (negb _); [done|].
  match goal with
  | |- context [update.downloadLoop _ _ _ _ _ ?w0] =>
      pose proof (downloadLoop_frame cfg l k w0 Hk) as Hf
  end.
  destruct (update.downloadLoop _ _ _ _ _ _) as [w' err].
  cbn [fst update.database update.setTracker] in *. rewrite Hf.
  cbn [update.database update.setTracker].
  by rewrite markQueued_frame.
Qed.

Lemma downloadEpisodesWithStats_frame cfg l w k :
  (forall episodeID, k <> episodeKey (feed.Config.ID cfg) episodeID) ->
  update.database
    (update.downloadEpisodesWithStats EpisodeName u env cfg l w).1 !! k
  = update.database w !! k.
Proof.
  intros Hk. unfold update.downloadEpisodesWithStats.
  pose proof (downloadEpisodes_frame cfg l w k Hk) as Hf.
  by destruct (update.downloadEpisodes _ _ _ _ _) as [w' err].
Qed.

Lemma failWith_frame w historyID stats err k :
  (history.enabled (update.historyManager u) = true ->
   k <> historyKey historyID) ->
  update.database (update.failWith u env w historyID stats err).1 !! k
  = update.database w !! k.
Proof.
  intros Hk. unfold update.failWith, update.logHistoryEnd.
  cbn [fst update.database update.setDatabase].
  by apply LogFeedUpdateEnd_frame.
Qed.

Local Abbreviation Update :=
  (update.Update EpisodeName matchFilters feedBuild BuildOPML sortSlice u env).

(** A run of [Update] for a feed, however it ends, changes nothing in the
    database outside that feed and its own history entry: a key that is
    neither the feed record, nor an episode key of the feed, nor the key or
    the index line of the history entry of this run, holds after the run
    what it held before. *)
Theorem Update_touches_only_its_feed cfg w k :
  foreign (feed.Config.ID cfg) k ->
  k <> historyKey (history.newEntryID (update.now env) (update.uuid env)) ->
  k <> historyIndexKey (feed.Config.ID cfg)
         (history.newEntryID (update.now env) (update.uuid env)) ->
  update.database (Update cfg w).1 !! k = update.database w !! k.
Proof.
  intros Hfor Hk Hi. pose proof Hfor as [_ Hek].
  unfold update.Update.
  pose proof (LogFeedUpdateStart_frame (update.historyManager u)
                (update.database w) (update.now env) (update.uuid env)
                (feed.Config.ID cfg) (update.feedTitleOf cfg w)
                TriggerScheduled k Hk Hi) as Hstart.
  destruct (history.LogFeedUpdateStart _ _ _ _ _ _ _) as [[b1 hid] e0]
    eqn:Hs.
  cbn [fst] in Hstart.
  assert (history.enabled (update.historyManager u) = true ->
          k <> historyKey hid) as Hkh.
  { intros Hen.
    by destruct (LogFeedUpdateStart_enabled _ _ _ _ _ _ _ _ _ _ Hen Hs)
      as (_ & -> & _). }
  cbn [update.database update.setDatabase].
  pose proof (updateFeed_frame env cfg b1 k Hfor) as Hupd.
  destruct (update.updateFeed env cfg b1) as [b2 [e2|]]; cbn [fst] in Hupd.
  { rewrite failWith_frame by done.
    cbn [update.database update.setDatabase]. congruence. }
  cbn [update.database update.setDatabase].
  pose proof (fetchEpisodes_frame matchFilters cfg b2 k Hfor) as Hfetch.
  destruct (update.fetchEpisodes matchFilters cfg b2) as [b3 [l|e3]];
    cbn [fst] in Hfetch.
  2: { rewrite failWith_frame by done.
       cbn [update.database update.setDatabase]. congruence. }
  match goal with
  | |- context [update.downloadEpisodesWithStats _ _ _ _ _ ?w0] =>
      pose proof (downloadEpisodesWithStats_frame cfg l w0 k Hek) as Hdl
  end.
  destruct (update.downloadEpisodesWithStats _ _ _ _ _ _)
    as [wd [[dc fc] bd]].
  cbn [fst update.database update.setDatabase] in Hdl.
  pose proof (cleanup_frame EpisodeName sortSlice cfg wd k Hfor) as Hcl.
  destruct (update.cleanup EpisodeName sortSlice cfg wd) as [wc ec].
  cbn [fst] in Hcl.
  pose proof (buildXML_database feedBuild u cfg wc) as Hx.
  destruct (update.buildXML feedBuild u cfg wc) as [wx [ex|]];
    cbn [fst] in Hx.
  { rewrite failWith_frame by done. congruence. }
  pose proof (buildOPML_database BuildOPML u wx) as Ho.
  destruct (update.buildOPML BuildOPML u wx) as [wo [eo|]]; cbn [fst] in Ho.
  { rewrite failWith_frame by done. congruence. }
  cbn [fst update.database update.setDatabase].
  unfold update.logHistoryEndWithEpisodes.
  rewrite LogFeedUpdateEndWithEpisodes_frame by done. congruence.
Qed.


(** When the listing of the feed fails with [e], [Update] returns
    "update failed: " followed by the message of [e]; nothing is written to
    the storage, no episode is handed to the downloader and the tracker is
    not touched.  With the recorder enabled the history entry of the run
    reads back as failed, with zero statistics and that message, and every
    other key of the database but its index line is as before.  With the
    recorder disabled the database is as before. *)
Theorem Update_fails_when_listing_fails cfg w e :
  update.listing env = Err e ->
  let hid := history.newEntryID (update.now env) (update.uuid env) in
  let res := Update cfg w in
  res.2 = Some (ErrOther ("update failed: " +:+ Error e)) /\
  update.storage res.1 = update.storage w /\
  update.downloadRequests res.1 = update.downloadRequests w /\
  update.progressTracker res.1 = update.progressTracker w /\
  (history.enabled (update.historyManager u) = true ->
   db.GetHistory (update.database res.1) hid =
   Ok (HistoryEntry.mk hid JobTypeFeedUpdate (feed.Config.ID cfg)
         (update.feedTitleOf cfg w) "" "" (update.now env)
         (Some (update.now env))
         (history.Sub (update.now env) (update.now env)) JobStatusFailed
         TriggerScheduled JobStatistics.zero
         ("update failed: " +:+ Error e)) /\
   forall k,
     k <> historyKey hid -> k <> historyIndexKey (feed.Config.ID cfg) hid ->
     update.database res.1 !! k = update.database w !! k) /\
  (history.enabled (update.historyManager u) = false ->
   update.database res.1 = update.database w).
Proof.
  intros Hlist. cbv zeta. unfold update.Update.
  destruct (history.enabled (update.historyManager u)) eqn:Hen.
  - pose proof (fun k => LogFeedUpdateStart_frame (update.historyManager u)
                  (update.database w) (update.now env) (update.uuid env)
                  (feed.Config.ID cfg) (update.feedTitleOf cfg w)
                  TriggerScheduled k) as Hframe.
    destruct (history.LogFeedUpdateStart _ _ _ _ _ _ _) as [[b1 hid] e0]
      eqn:Hstart.
    destruct (LogFeedUpdateStart_enabled _ _ _ _ _ _ _ _ _ _ Hen Hstart)
      as (-> & Hhid & Hentry).
    cbn [fst] in Hframe. subst hid.
    set (hid := history.newEntryID (update.now env) (update.uuid env)) in *.
    unfold update.updateFeed. rewrite Hlist.
    unfold update.failWith, update.logHistoryEnd.
    cbn [update.database update.setDatabase fst snd update.storage
           update.downloadRequests update.progressTracker].
    rewrite (LogFeedUpdateEnd_stored (update.historyManager u) b1
               (update.now env) hid JobStatusFailed JobStatistics.zero _ _ Hen
               (newEntryID_nonempty _ _) Hentry eq_refl).
    cbn [fst]. repeat (split; [reflexivity|]). split; [|done].
    intros _. split.
    + unfold db.GetHistory, db.getObj. fold (historyKey hid).
      by rewrite lookup_insert_eq.
    + intros k Hk Hi. rewrite lookup_insert_ne by done. by apply Hframe.
  - unfold history.LogFeedUpdateStart. rewrite Hen. cbn [negb].
    unfold update.updateFeed. rewrite Hlist.
    unfold update.failWith, update.logHistoryEnd, history.LogFeedUpdateEnd.
    rewrite Hen.
    cbn [negb orb update.database update.setDatabase fst snd update.storage
           update.downloadRequests update.progressTracker].
    repeat (split; [reflexivity|]). split; [done|]. reflexivity.
Qed.

End Isolation.

Lemma Update_touches_only_its_feed_witness :
  update.database
    (update.Update examples.EpisodeName examples.matchFilters
       examples.feedBuild examples.BuildOPML examples.sortSlice
       examples.manager samples.flaky examples.feedF1
       samples.withFileOfA).1 !! feedKey "f2"
  = update.database samples.withFileOfA !! feedKey "f2".
Proof.
  apply (Update_touches_only_its_feed examples.EpisodeName
           examples.matchFilters examples.feedBuild examples.BuildOPML
           examples.sortSlice examples.manager samples.flaky examples.feedF1
           samples.withFileOfA (feedKey "f2")).
  - split; [vm_compute; discriminate|].
    intros episodeID H. vm_compute in H. discriminate H.
  - vm_compute. discriminate.
  - vm_compute. discriminate.
Defined.

Lemma Update_fails_when_listing_fails_witness :
  let res :=
    update.Update examples.EpisodeName examples.matchFilters
      examples.feedBuild examples.BuildOPML examples.sortSlice
      examples.manager samples.unreachable examples.feedF1
      samples.withFileOfA in
  res.2 = Some (ErrOther ("update failed: " +:+ "channel not found")) /\
  update.storage res.1 = update.storage samples.withFileOfA /\
  update.downloadRequests res.1 = [].
Proof.
  pose proof (Update_fails_when_listing_fails examples.EpisodeName
                examples.matchFilters examples.feedBuild examples.BuildOPML
                examples.sortSlice examples.manager samples.unreachable
                examples.feedF1 samples.withFileOfA
                (ErrOther "channel not found")) as H.
  cbv zeta in H.
  specialize (H ltac:(vm_compute; reflexivity)).
  destruct H as (Herr & Hdisk & Hreq & _).
  cbv zeta. split; [exact Herr|]. split; [exact Hdisk|exact Hreq].
Defined.

(** ** Manual operations on one episode *)

Lemma AddHistory_stored b (entry : HistoryEntry.t) :
  exists b',
    db.AddHistory b entry = (b', None) /\
    b' !! historyKey (HistoryEntry.ID entry) = Some (VHistory entry) /\
    forall k,
      k <> historyKey (HistoryEntry.ID entry) ->
      k <> historyIndexKey (HistoryEntry.FeedID entry)
             (HistoryEntry.ID entry) ->
      b' !! k = b !! k.
Proof.
  unfold db.AddHistory, db.Update, db.setObj. cbn [negb].
  fold (historyKey (HistoryEntry.ID entry)).
  fold (historyIndexKey (HistoryEntry.FeedID entry) (HistoryEntry.ID entry)).
  destruct (decide (HistoryEntry.FeedID entry <> "")) as [Hne|Heq];
    eexists; (split; [reflexivity|]).
  - rewrite lookup_insert_ne by apply historyIndexKey_ne_historyKey.
    rewrite lookup_insert_eq. split; [done|].
    intros k Hk Hi. by rewrite !lookup_insert_ne.
  - rewrite lookup_insert_eq. split; [done|].
    intros; by rewrite lookup_insert_ne.
Qed.

Lemma GetEpisode_Ok b feedID episodeID (episode : Episode.t) :
  db.GetEpisode b feedID episodeID = Ok episode <->
  b !! episodeKey feedID episodeID = Some (VEpisode episode).
Proof.
  unfold db.GetEpisode, db.getObj. fold (episodeKey feedID episodeID).
  destruct (b !! episodeKey feedID episodeID) as [[]|]; cbn; split;
    intros H; congruence.
Qed.

Lemma episodeKey_ne_historyKey feedID episodeID id :
  episodeKey feedID episodeID <> historyKey id.
Proof.
  intros H. symmetry in H.
  by apply (proj2 (historyKey_foreign feedID id) episodeID).
Qed.

Lemma episodeKey_ne_historyIndexKey feedID episodeID feedID' id :
  episodeKey feedID episodeID <> historyIndexKey feedID' id.
Proof.
  unfold episodeKey, historyIndexKey, db.getKey, db.episodePath,
    db.historyByFeed. intros H. apply (append_inj_l "podsync/v1/") in H.
  vm_compute in H. discriminate.
Qed.

Lemma feedKey_ne_historyIndexKey feedID feedID' id :
  feedKey feedID <> historyIndexKey feedID' id.
Proof.
  unfold feedKey, historyIndexKey, db.getKey, db.feedPath, db.historyByFeed.
  intros H. apply (append_inj_l "podsync/v1/") in H.
  vm_compute in H. discriminate.
Qed.

Lemma Delete_disk disk name : (fs.Delete disk name).1 = delete name disk.
Proof.
  unfold fs.Delete. destruct (disk !! name) eqn:Hl; [done|].
  cbn [fst]. by rewrite delete_id.
Qed.

Lemma recorded_AddHistory m b (entry : HistoryEntry.t) :
  recorded m b (if negb (history.enabled m) then b
                else (db.AddHistory b entry).1) entry.
Proof.
  destruct (AddHistory_stored b entry) as (b' & -> & Hl & Hframe).
  unfold recorded. destruct (history.enabled m); cbn [negb fst].
  - split.
    + intros _. unfold db.GetHistory, db.getObj.
      fold (historyKey (HistoryEntry.ID entry)). by rewrite Hl.
    + intros k Hk. destruct (Hk eq_refl). by apply Hframe.
  - split; [done|]. done.
Qed.

Lemma LogEpisodeDelete_recorded m b now uuid feedID feedTitle episodeID
    episodeTitle success errMsg :
  recorded m b
    (history.LogEpisodeDelete m b now uuid feedID feedTitle episodeID
       episodeTitle success errMsg).1
    (manualEntry JobTypeEpisodeDelete now uuid feedID feedTitle episodeID
       episodeTitle success errMsg).
Proof.
  pose proof (recorded_AddHistory m b
                (manualEntry JobTypeEpisodeDelete now uuid feedID feedTitle
                   episodeID episodeTitle success errMsg)) as H.
  unfold history.LogEpisodeDelete, manualEntry in *.
  by destruct (negb (history.enabled m)), success.
Qed.

Lemma LogEpisodeBlock_recorded m b now uuid feedID feedTitle episodeID
    episodeTitle success errMsg :
  recorded m b
    (history.LogEpisodeBlock m b now uuid feedID feedTitle episodeID
       episodeTitle success errMsg).1
    (manualEntry JobTypeEpisodeBlock now uuid feedID feedTitle episodeID
       episodeTitle success errMsg).
Proof.
  pose proof (recorded_AddHistory m b
                (manualEntry JobTypeEpisodeBlock now uuid feedID feedTitle
                   episodeID episodeTitle success errMsg)) as H.
  unfold history.LogEpisodeBlock, manualEntry in *.
  by destruct (negb (history.enabled m)), success.
Qed.

Lemma LogEpisodeRetry_recorded m b now uuid feedID feedTitle episodeID
    episodeTitle success errMsg :
  recorded m b
    (history.LogEpisodeRetry m b now uuid feedID feedTitle episodeID
       episodeTitle success errMsg).1
    (manualEntry JobTypeEpisodeRetry now uuid feedID feedTitle episodeID
       episodeTitle success errMsg).
Proof.
  pose proof (recorded_AddHistory m b
                (manualEntry JobTypeEpisodeRetry now uuid feedID feedTitle
                   episodeID episodeTitle success errMsg)) as H.
  unfold history.LogEpisodeRetry, manualEntry in *.
  by destruct (negb (history.enabled m)), success.
Qed.

Lemma recorded_episode m b b' entry feedID episodeID :
  recorded m b b' entry ->
  db.GetEpisode b' feedID episodeID = db.GetEpisode b feedID episodeID.
Proof.
  intros [_ Hframe]. unfold db.GetEpisode, db.getObj.
  fold (episodeKey feedID episodeID). rewrite Hframe; [done|].
  intros _. split;
    [apply episodeKey_ne_historyKey | apply episodeKey_ne_historyIndexKey].
Qed.

Section Manual.

Variable EpisodeName : feed.Config.t -> Episode.t -> string.
Variable feedBuild : Feed.t -> feed.Config.t -> string -> result string.
Variable u : update.Manager.
Variable env : update.Env.
Variable Quote : string -> string.
Variable feeds : gmap string feed.Config.t.

Local Abbreviation DeleteEpisode :=
  (update.DeleteEpisode EpisodeName u env Quote feeds).
Local Abbreviation BlockEpisode :=
  (update.BlockEpisode EpisodeName u env Quote feeds).
Local Abbreviation RetryEpisode :=
  (update.RetryEpisode EpisodeName feedBuild u env Quote feeds).
Local Abbreviation enabled := (history.enabled (update.historyManager u)).
Local Abbreviation entryID :=
  (history.newEntryID (update.now env) (update.uuid env)).

(** [DeleteEpisode] on a stored episode of a configured feed returns no
    error; afterwards [GetEpisode] answers [ErrNotFound], the storage is
    the one before without the file [feedID/EpisodeName] of the episode,
    and, with the recorder enabled, the journal holds a successful
    [episode_delete] entry carrying the title the episode had.  No other
    key of the database changes but, with the recorder enabled, the key
    and the index line of that entry. *)
Theorem DeleteEpisode_removes_record_and_file feedID episodeID w
    (feedConfig : feed.Config.t) (episode : Episode.t) :
  feeds !! feedID = Some feedConfig ->
  db.GetEpisode (update.database w) feedID episodeID = Ok episode ->
  let res := DeleteEpisode feedID episodeID w in
  res.2 = None /\
  db.GetEpisode (update.database res.1) feedID episodeID = Err ErrNotFound /\
  update.storage res.1 =
  delete (feedID +:+ "/" +:+ EpisodeName feedConfig episode)
    (update.storage w) /\
  update.downloadRequests res.1 = update.downloadRequests w /\
  (enabled = true ->
   db.GetHistory (update.database res.1) entryID =
   Ok (manualEntry JobTypeEpisodeDelete (update.now env) (update.uuid env)
         feedID
         (update.getFeedTitle
            (delete (episodeKey feedID episodeID) (update.database w)) feedID)
         episodeID (Episode.Title episode) true "")) /\
  forall k,
    k <> episodeKey feedID episodeID ->
    (enabled = true ->
     k <> historyKey entryID /\ k <> historyIndexKey feedID entryID) ->
    update.database res.1 !! k = update.database w !! k.
Proof.
  intros Hcfg Hget. cbv zeta. unfold update.DeleteEpisode.
  rewrite Hcfg, Hget.
  pose proof (Delete_disk (update.storage w)
                (feedID +:+ "/" +:+ EpisodeName feedConfig episode)) as Hd.
  destruct (fs.Delete _ _) as [disk e0]. cbn [fst] in Hd. subst disk.
  unfold db.DeleteEpisode, db.Update. fold (episodeKey feedID episodeID).
  cbn [update.database update.setStorage update.setDatabase].
  unfold update.logEpisodeDelete.
  cbn [fst snd update.database update.setStorage update.setDatabase
         update.storage update.downloadRequests].
  match goal with
  | |- context [history.LogEpisodeDelete ?m ?b ?n ?i ?f ?t ?e ?et ?s ?msg] =>
      pose proof (LogEpisodeDelete_recorded m b n i f t e et s msg) as Hrec
  end.
  split; [done|]. split.
  { rewrite (recorded_episode _ _ _ _ _ _ Hrec).
    unfold db.GetEpisode, db.getObj. fold (episodeKey feedID episodeID).
    by rewrite lookup_delete_eq. }
  split; [done|]. split; [done|].
  destruct Hrec as [Hentry Hframe]. split; [exact Hentry|].
  intros k Hk Hh. rewrite Hframe by exact Hh. by rewrite lookup_delete_ne.
Qed.

Lemma getFeedTitle_untitled b feedID (f : Feed.t) :
  b !! feedKey feedID = Some (VFeed f) ->
  Feed.Title f = "" ->
  update.getFeedTitle b feedID = feedID.
Proof.
  intros Hl Ht. unfold update.getFeedTitle, db.GetFeed, db.getObj.
  fold (feedKey feedID). rewrite Hl. cbn [db.unmarshalFeed].
  destruct (db.walkEpisodes _ _ _ _) as [eps [e|]]; [done|].
  destruct f. cbn in *. by rewrite Ht.
Qed.

Lemma buildXML_storage cfg w name :
  name <> feed.Config.ID cfg +:+ ".xml" ->
  update.storage (update.buildXML feedBuild u cfg w).1 !! name
  = update.storage w !! name.
Proof.
  intros Hne. unfold update.buildXML.
  destruct (db.GetFeed _ _); [|done].
  destruct (feedBuild _ _ _); [|done].
  rewrite Create_complete by done.
  cbn [fst update.storage update.setStorage]. by rewrite lookup_insert_ne.
Qed.

Lemma buildXML_requests cfg w :
  update.downloadRequests (update.buildXML feedBuild u cfg w).1
  = update.downloadRequests w.
Proof.
  unfold update.buildXML.
  destruct (db.GetFeed _ _); [|done].
  destruct (feedBuild _ _ _); [|done].
  by destruct (fs.Create _ _ _) as [[disk n] [e|]].
Qed.

(** [BlockEpisode] on a stored episode of a configured feed returns no
    error and leaves the record as it was but for the status, now
    blocked; the file [feedID/EpisodeName] of the episode is gone from the
    storage; with the recorder enabled the journal holds a successful
    [episode_block] entry with the title of the episode.  No other key of
    the database changes but, with the recorder enabled, the key and the
    index line of that entry. *)
Theorem BlockEpisode_blocks_stored_episode feedID episodeID w
    (feedConfig : feed.Config.t) (episode : Episode.t) :
  feeds !! feedID = Some feedConfig ->
  db.GetEpisode (update.database w) feedID episodeID = Ok episode ->
  Episode.ID episode = episodeID ->
  let res := BlockEpisode feedID episodeID w in
  let blocked := Episode.setStatus EpisodeBlocked episode in
  res.2 = None /\
  db.GetEpisode (update.database res.1) feedID episodeID = Ok blocked /\
  update.storage res.1 =
  delete (feedID +:+ "/" +:+ EpisodeName feedConfig episode)
    (update.storage w) /\
  update.downloadRequests res.1 = update.downloadRequests w /\
  (enabled = true ->
   db.GetHistory (update.database res.1) entryID =
   Ok (manualEntry JobTypeEpisodeBlock (update.now env) (update.uuid env)
         feedID
         (update.getFeedTitle
            (<[episodeKey feedID episodeID := VEpisode blocked]>
               (update.database w)) feedID)
         episodeID (Episode.Title episode) true "")) /\
  forall k,
    k <> episodeKey feedID episodeID ->
    (enabled = true ->
     k <> historyKey entryID /\ k <> historyIndexKey feedID entryID) ->
    update.database res.1 !! k = update.database w !! k.
Proof.
  intros Hcfg Hget Hid. cbv zeta. unfold update.BlockEpisode.
  rewrite Hcfg, Hget. apply GetEpisode_Ok in Hget.
  rewrite (mutateEpisode_at w feedID episodeID episode
             (Episode.setStatus EpisodeBlocked) Hget Hid)
    by (by destruct episode).
  cbn [update.storage update.setDatabase].
  pose proof (Delete_disk (update.storage w)
                (feedID +:+ "/" +:+ EpisodeName feedConfig episode)) as Hd.
  destruct (fs.Delete _ _) as [disk e0]. cbn [fst] in Hd. subst disk.
  unfold update.logEpisodeBlock.
  cbn [fst snd update.database update.setStorage update.setDatabase
         update.storage update.downloadRequests].
  match goal with
  | |- context [history.LogEpisodeBlock ?m ?b ?n ?i ?f ?t ?e ?et ?s ?msg] =>
      pose proof (LogEpisodeBlock_recorded m b n i f t e et s msg) as Hrec
  end.
  split; [done|]. split.
  { rewrite (recorded_episode _ _ _ _ _ _ Hrec).
    apply GetEpisode_Ok. by rewrite lookup_insert_eq. }
  split; [done|]. split; [done|].
  destruct Hrec as [Hentry Hframe]. split; [exact Hentry|].
  intros k Hk Hh. rewrite Hframe by exact Hh. by rewrite lookup_insert_ne.
Qed.

(** [BlockEpisode] on an episode the database does not hold creates the
    record: afterwards [GetEpisode] returns an episode with the requested
    identifier, status blocked and every other field empty.  It does so
    through [AddFeed] with a feed value that has only an identifier, so the
    stored feed record is replaced by one without title and description,
    whatever it held before, and the entry written to the journal carries
    the feed identifier as feed title. *)
Theorem BlockEpisode_creates_blocked_record feedID episodeID w
    (feedConfig : feed.Config.t) :
  feeds !! feedID = Some feedConfig ->
  db.GetEpisode (update.database w) feedID episodeID = Err ErrNotFound ->
  let res := BlockEpisode feedID episodeID w in
  let created := Episode.mk episodeID "" "" 0 "" 0 0 EpisodeBlocked "" in
  res.2 = None /\
  db.GetEpisode (update.database res.1) feedID episodeID = Ok created /\
  update.database res.1 !! feedKey feedID =
  Some (VFeed (Feed.mk feedID "" "" [])) /\
  update.storage res.1 =
  delete (feedID +:+ "/" +:+ EpisodeName feedConfig created)
    (update.storage w) /\
  (enabled = true ->
   db.GetHistory (update.database res.1) entryID =
   Ok (manualEntry JobTypeEpisodeBlock (update.now env) (update.uuid env)
         feedID feedID episodeID "" true "")) /\
  forall k,
    k <> episodeKey feedID episodeID -> k <> feedKey feedID ->
    (enabled = true ->
     k <> historyKey entryID /\ k <> historyIndexKey feedID entryID) ->
    update.database res.1 !! k = update.database w !! k.
Proof.
  intros Hcfg Hget. cbv zeta. unfold update.BlockEpisode.
  rewrite Hcfg, Hget.
  destruct (decide (ErrNotFound = ErrNotFound)) as [_|]; [|done].
  assert (update.database w !! episodeKey feedID episodeID = None) as Hnone.
  { unfold db.GetEpisode, db.getObj in Hget.
    fold (episodeKey feedID episodeID) in Hget.
    by destruct (update.database w !! episodeKey feedID episodeID)
      as [[]|]. }
  set (created := Episode.mk episodeID "" "" 0 "" 0 0 EpisodeBlocked "").
  destruct (AddFeed_lookup (update.database w) feedID
              (Feed.mk feedID "" "" [created])) as (b1 & -> & Hb1).
  fold (feedKey feedID) in Hb1.
  cbn [update.storage update.setDatabase].
  pose proof (Delete_disk (update.storage w)
                (feedID +:+ "/" +:+ EpisodeName feedConfig created)) as Hd.
  destruct (fs.Delete _ _) as [disk e0]. cbn [fst] in Hd. subst disk.
  unfold update.logEpisodeBlock.
  cbn [fst snd update.database update.setStorage update.setDatabase
         update.storage update.downloadRequests].
  assert (b1 !! feedKey feedID = Some (VFeed (Feed.mk feedID "" "" [])))
    as Hrecord.
  { by rewrite Hb1, lookup_insert_eq. }
  rewrite (getFeedTitle_untitled b1 feedID _ Hrecord eq_refl).
  match goal with
  | |- context [history.LogEpisodeBlock ?m ?b ?n ?i ?f ?t ?e ?et ?s ?msg] =>
      pose proof (LogEpisodeBlock_recorded m b n i f t e et s msg) as Hrec
  end.
  split; [done|]. split.
  { rewrite (recorded_episode _ _ _ _ _ _ Hrec).
    apply GetEpisode_Ok. rewrite Hb1.
    rewrite lookup_insert_ne by apply feedKey_ne_episodeKey.
    rewrite Hnone. cbn [List.find Feed.Episodes].
    fold (episodeKey feedID (Episode.ID created)). cbn [Episode.ID created].
    by rewrite String.eqb_refl. }
  destruct Hrec as [Hentry Hframe]. split.
  { rewrite Hframe; [exact Hrecord|].
    intros _. split.
    - intros H. by apply (proj1 (historyKey_foreign feedID entryID)).
    - apply feedKey_ne_historyIndexKey. }
  split; [done|]. split; [exact Hentry|].
  intros k Hk Hf Hh. rewrite Hframe by exact Hh. rewrite Hb1.
  rewrite lookup_insert_ne by done.
  destruct (update.database w !! k); [done|].
  cbn [List.find Feed.Episodes].
  fold (episodeKey feedID (Episode.ID created)). cbn [Episode.ID created].
  destruct (String.eqb _ _) eqn:Heq; [|done].
  apply String.eqb_eq in Heq. by subst k.
Qed.


(** [RetryEpisode] when the file of the episode is already in the storage:
    nothing is downloaded and nothing is written to the storage or the
    journal; the record gets status downloaded, the size of that file and
    an empty error message, and the call returns no error. *)
Theorem RetryEpisode_adopts_existing_file feedID episodeID w
    (feedConfig : feed.Config.t) (episode : Episode.t) (content : string) :
  feeds !! feedID = Some feedConfig ->
  db.GetEpisode (update.database w) feedID episodeID = Ok episode ->
  Episode.ID episode = episodeID ->
  update.storage w !! (feedID +:+ "/" +:+ EpisodeName feedConfig episode)
  = Some content ->
  RetryEpisode feedID episodeID w =
  (update.setDatabase
     (<[episodeKey feedID episodeID :=
          VEpisode (Episode.setStatus EpisodeDownloaded
                      (Episode.setSize (fs.len content)
                         (Episode.setError ""
                            (Episode.setStatus EpisodeNew episode))))]>
        (update.database w)) w, None).
Proof.
  intros Hcfg Hget Hid Hfile. unfold update.RetryEpisode.
  rewrite Hcfg, Hget. apply GetEpisode_Ok in Hget.
  rewrite (mutateEpisode_at w feedID episodeID episode
             (fun ep => Episode.setError "" (Episode.setStatus EpisodeNew ep))
             Hget Hid) by (by destruct episode).
  cbn [update.storage update.setDatabase]. unfold fs.Size. rewrite Hfile.
  erewrite mutateEpisode_at;
    [| cbn [update.database update.setDatabase]; apply lookup_insert_eq
     | by destruct episode | by destruct episode].
  cbn [update.database update.setDatabase]. rewrite insert_insert_eq.
  reflexivity.
Qed.

(** [RetryEpisode] when the file is absent and the download fails with
    [err]: the call returns "download failed: " followed by the message of
    [err]; the record has status error and that message; the storage is
    untouched; the episode was handed to the downloader once; with the
    recorder enabled the journal holds a failed [episode_retry] entry with
    the title of the episode and the message. *)
Theorem RetryEpisode_download_failure feedID episodeID w
    (feedConfig : feed.Config.t) (episode : Episode.t) (err : error) :
  feeds !! feedID = Some feedConfig ->
  db.GetEpisode (update.database w) feedID episodeID = Ok episode ->
  Episode.ID episode = episodeID ->
  update.storage w !! (feedID +:+ "/" +:+ EpisodeName feedConfig episode)
  = None ->
  update.download env episode = Err err ->
  let res := RetryEpisode feedID episodeID w in
  let failed :=
    Episode.setError (Error err)
      (Episode.setStatus EpisodeError
         (Episode.setError "" (Episode.setStatus EpisodeNew episode))) in
  res.2 = Some (ErrOther ("download failed: " +:+ Error err)) /\
  db.GetEpisode (update.database res.1) feedID episodeID = Ok failed /\
  update.storage res.1 = update.storage w /\
  update.downloadRequests res.1 = update.downloadRequests w ++ [episodeID] /\
  (enabled = true ->
   db.GetHistory (update.database res.1) entryID =
   Ok (manualEntry JobTypeEpisodeRetry (update.now env) (update.uuid env)
         feedID
         (update.getFeedTitle
            (<[episodeKey feedID episodeID := VEpisode failed]>
               (update.database w)) feedID)
         episodeID (Episode.Title episode) false (Error err))) /\
  forall k,
    k <> episodeKey feedID episodeID ->
    (enabled = true ->
     k <> historyKey entryID /\ k <> historyIndexKey feedID entryID) ->
    update.database res.1 !! k = update.database w !! k.
Proof.
  intros Hcfg Hget Hid Hfile Hdl. cbv zeta. unfold update.RetryEpisode.
  rewrite Hcfg, Hget. apply GetEpisode_Ok in Hget.
  rewrite (mutateEpisode_at w feedID episodeID episode
             (fun ep => Episode.setError "" (Episode.setStatus EpisodeNew ep))
             Hget Hid) by (by destruct episode).
  cbn [update.storage update.setDatabase]. unfold fs.Size. rewrite Hfile.
  cbn [IsNotExist negb]. rewrite Hdl.
  match goal with
  | |- context [update.downloading env episode ?w0] =>
      destruct (downloading_world env episode w0) as (Hdb0 & Hfs0 & Hr0 & _)
  end.
  set (wd := update.downloading env episode _) in *.
  cbn [update.database update.storage update.downloadRequests
         update.setDatabase] in Hdb0, Hfs0, Hr0.
  erewrite (mutateEpisode_at wd);
    [| rewrite Hdb0; apply lookup_insert_eq
     | by destruct episode | by destruct episode].
  unfold update.logEpisodeRetry.
  cbn [fst snd update.database update.setStorage update.setDatabase
         update.storage update.downloadRequests].
  rewrite Hdb0, Hfs0, Hr0, Hid.
  rewrite insert_insert_eq.
  match goal with
  | |- context [history.LogEpisodeRetry ?m ?b ?n ?i ?f ?t ?e ?et ?s ?msg] =>
      pose proof (LogEpisodeRetry_recorded m b n i f t e et s msg) as Hrec
  end.
  split; [done|]. split.
  { rewrite (recorded_episode _ _ _ _ _ _ Hrec).
    apply GetEpisode_Ok. by rewrite lookup_insert_eq. }
  split; [done|]. split; [done|].
  destruct Hrec as [Hentry Hframe]. split; [exact Hentry|].
  intros k Hk Hh. rewrite Hframe by exact Hh. by rewrite lookup_insert_ne.
Qed.

(** [RetryEpisode] when the file is absent and the download delivers a
    reader that ends normally: the call returns no error; the file
    [feedID/EpisodeName] holds what the reader delivered; the record has
    status downloaded, the size of the file and an empty error message;
    the episode was handed to the downloader once; with the recorder
    enabled the journal holds a successful [episode_retry] entry.  Besides
    that file the storage changes at most at the XML file of the feed,
    which is rebuilt. *)
Theorem RetryEpisode_downloads_missing_file feedID episodeID w
    (feedConfig : feed.Config.t) (episode : Episode.t) (reader : fs.Reader) :
  feeds !! feedID = Some feedConfig ->
  db.GetEpisode (update.database w) feedID episodeID = Ok episode ->
  Episode.ID episode = episodeID ->
  update.storage w !! (feedID +:+ "/" +:+ EpisodeName feedConfig episode)
  = None ->
  update.download env episode = Ok reader ->
  fs.failure reader = None ->
  let res := RetryEpisode feedID episodeID w in
  let fetched :=
    Episode.setError ""
      (Episode.setStatus EpisodeDownloaded
         (Episode.setSize (fs.len (fs.content reader))
            (Episode.setError "" (Episode.setStatus EpisodeNew episode)))) in
  res.2 = None /\
  db.GetEpisode (update.database res.1) feedID episodeID = Ok fetched /\
  (forall name,
      name <> feed.Config.ID feedConfig +:+ ".xml" ->
      update.storage res.1 !! name =
      <[feedID +:+ "/" +:+ EpisodeName feedConfig episode :=
          fs.content reader]> (update.storage w) !! name) /\
  update.downloadRequests res.1 = update.downloadRequests w ++ [episodeID] /\
  (enabled = true ->
   db.GetHistory (update.database res.1) entryID =
   Ok (manualEntry JobTypeEpisodeRetry (update.now env) (update.uuid env)
         feedID
         (update.getFeedTitle
            (<[episodeKey feedID episodeID := VEpisode fetched]>
               (update.database w)) feedID)
         episodeID (Episode.Title episode) true "")) /\
  forall k,
    k <> episodeKey feedID episodeID ->
    (enabled = true ->
     k <> historyKey entryID /\ k <> historyIndexKey feedID entryID) ->
    update.database res.1 !! k = update.database w !! k.
Proof.
  intros Hcfg Hget Hid Hfile Hdl Hreader. cbv zeta.
  unfold update.RetryEpisode.
  rewrite Hcfg, Hget. apply GetEpisode_Ok in Hget.
  rewrite (mutateEpisode_at w feedID episodeID episode
             (fun ep => Episode.setError "" (Episode.setStatus EpisodeNew ep))
             Hget Hid) by (by destruct episode).
  cbn [update.storage update.setDatabase]. unfold fs.Size. rewrite Hfile.
  cbn [IsNotExist negb]. rewrite Hdl.
  match goal with
  | |- context [update.downloading env episode ?w0] =>
      destruct (downloading_world env episode w0) as (Hdb0 & Hfs0 & Hr0 & _)
  end.
  set (wd := update.downloading env episode _) in *.
  cbn [update.database update.storage update.downloadRequests
         update.setDatabase] in Hdb0, Hfs0, Hr0.
  rewrite Hfs0.
  rewrite (Create_complete _ _ _ Hreader).
  erewrite (mutateEpisode_at (update.setStorage _ wd));
    [| cbn [update.database update.setStorage]; rewrite Hdb0;
       apply lookup_insert_eq
     | by destruct episode | by destruct episode].
  cbn [update.database update.setStorage update.setDatabase].
  rewrite Hdb0, insert_insert_eq.
  set (fetched := Episode.setError "" _).
  set (w3 := update.setDatabase _ _).
  pose proof (buildXML_database feedBuild u feedConfig w3) as Hxdb.
  pose proof (buildXML_storage feedConfig w3) as Hxst.
  pose proof (buildXML_requests feedConfig w3) as Hxrq.
  destruct (update.buildXML feedBuild u feedConfig w3) as [wx ex].
  cbn [fst] in Hxdb, Hxst, Hxrq.
  unfold update.logEpisodeRetry.
  cbn [fst snd update.database update.setDatabase update.storage
         update.downloadRequests].
  rewrite Hxdb, Hxrq.
  cbn [w3 update.database update.setDatabase update.downloadRequests].
  match goal with
  | |- context [history.LogEpisodeRetry ?m ?b ?n ?i ?f ?t ?e ?et ?s ?msg] =>
      pose proof (LogEpisodeRetry_recorded m b n i f t e et s msg) as Hrec
  end.
  split; [done|]. split.
  { rewrite (recorded_episode _ _ _ _ _ _ Hrec).
    apply GetEpisode_Ok. by rewrite lookup_insert_eq. }
  split; [intros name Hname; by rewrite Hxst|].
  split; [cbn [update.downloadRequests update.setStorage];
          by rewrite Hr0, Hid|].
  destruct Hrec as [Hentry Hframe]. split; [exact Hentry|].
  intros k Hk Hh. rewrite Hframe by exact Hh. by rewrite lookup_insert_ne.
Qed.


End Manual.

Lemma DeleteEpisode_removes_record_and_file_witness :
  let res :=
    update.DeleteEpisode examples.EpisodeName examples.manager samples.flaky
      samples.Quote samples.feeds "f1" "A" samples.withFileOfA in
  res.2 = None /\
  db.GetEpisode (update.database res.1) "f1" "A" = Err ErrNotFound /\
  update.storage res.1 = delete "f1/A.mp3" (update.storage samples.withFileOfA).
Proof.
  pose proof (DeleteEpisode_removes_record_and_file examples.EpisodeName
                examples.manager samples.flaky samples.Quote samples.feeds
                "f1" "A" samples.withFileOfA examples.feedF1 examples.epA)
    as H.
  cbv zeta in H.
  specialize (H ltac:(vm_compute; reflexivity) ltac:(vm_compute; reflexivity)).
  destruct H as (Herr & Hgone & Hdisk & _).
  cbv zeta. split; [exact Herr|]. split; [exact Hgone|]. exact Hdisk.
Defined.

Lemma BlockEpisode_blocks_stored_episode_witness :
  let res :=
    update.BlockEpisode examples.EpisodeName examples.manager samples.flaky
      samples.Quote samples.feeds "f1" "A" samples.withFileOfA in
  res.2 = None /\
  db.GetEpisode (update.database res.1) "f1" "A"
  = Ok (Episode.setStatus EpisodeBlocked examples.epA).
Proof.
  pose proof (BlockEpisode_blocks_stored_episode examples.EpisodeName
                examples.manager samples.flaky samples.Quote samples.feeds
                "f1" "A" samples.withFileOfA examples.feedF1 examples.epA)
    as H.
  cbv zeta in H.
  specialize (H ltac:(vm_compute; reflexivity) ltac:(vm_compute; reflexivity)
                ltac:(vm_compute; reflexivity)).
  destruct H as (Herr & Hrec & _).
  cbv zeta. split; [exact Herr|exact Hrec].
Defined.

Lemma BlockEpisode_creates_blocked_record_witness :
  let res :=
    update.BlockEpisode examples.EpisodeName examples.manager samples.flaky
      samples.Quote samples.feeds "f1" "Z" samples.withFileOfA in
  db.GetEpisode (update.database res.1) "f1" "Z"
  = Ok (Episode.mk "Z" "" "" 0 "" 0 0 EpisodeBlocked "") /\
  update.database res.1 !! feedKey "f1" = Some (VFeed (Feed.mk "f1" "" "" [])).
Proof.
  pose proof (BlockEpisode_creates_blocked_record examples.EpisodeName
                examples.manager samples.flaky samples.Quote samples.feeds
                "f1" "Z" samples.withFileOfA examples.feedF1) as H.
  cbv zeta in H.
  specialize (H ltac:(vm_compute; reflexivity) ltac:(vm_compute; reflexivity)).
  destruct H as (_ & Hrec & Hfeed & _).
  cbv zeta. split; [exact Hrec|exact Hfeed].
Defined.

Lemma RetryEpisode_adopts_existing_file_witness :
  update.RetryEpisode examples.EpisodeName examples.feedBuild examples.manager
    samples.flaky samples.Quote samples.feeds "f1" "A" samples.withFileOfA =
  (update.setDatabase
     (<[episodeKey "f1" "A" :=
          VEpisode (Episode.setStatus EpisodeDownloaded
                      (Episode.setSize (fs.len "old file")
                         (Episode.setError ""
                            (Episode.setStatus EpisodeNew examples.epA))))]>
        (update.database samples.withFileOfA)) samples.withFileOfA, None).
Proof.
  apply (RetryEpisode_adopts_existing_file examples.EpisodeName
           examples.feedBuild examples.manager samples.flaky samples.Quote
           samples.feeds "f1" "A" samples.withFileOfA examples.feedF1
           examples.epA "old file").
  - vm_compute; reflexivity.
  - vm_compute; reflexivity.
  - vm_compute; reflexivity.
  - vm_compute; reflexivity.
Defined.

Lemma RetryEpisode_download_failure_witness :
  let res :=
    update.RetryEpisode examples.EpisodeName examples.feedBuild
      examples.manager samples.flaky samples.Quote samples.feeds "f1" "B"
      samples.withFileOfA in
  res.2 = Some (ErrOther ("download failed: " +:+ "video unavailable")) /\
  update.downloadRequests res.1 = ["B"].
Proof.
  pose proof (RetryEpisode_download_failure examples.EpisodeName
                examples.feedBuild examples.manager samples.flaky
                samples.Quote samples.feeds "f1" "B" samples.withFileOfA
                examples.feedF1 examples.epB (ErrOther "video unavailable"))
    as H.
  cbv zeta in H.
  specialize (H ltac:(vm_compute; reflexivity) ltac:(vm_compute; reflexivity)
                ltac:(vm_compute; reflexivity) ltac:(vm_compute; reflexivity)
                ltac:(vm_compute; reflexivity)).
  destruct H as (Herr & _ & _ & Hreq & _).
  cbv zeta. split; [exact Herr|exact Hreq].
Defined.

Lemma RetryEpisode_downloads_missing_file_witness :
  let res :=
    update.RetryEpisode examples.EpisodeName examples.feedBuild
      examples.manager samples.flaky samples.Quote samples.feeds "f1" "C"
      samples.withFileOfA in
  res.2 = None /\
  update.storage res.1 !! "f1/C.mp3" = Some "media of C".
Proof.
  pose proof (RetryEpisode_downloads_missing_file examples.EpisodeName
                examples.feedBuild examples.manager samples.flaky
                samples.Quote samples.feeds "f1" "C" samples.withFileOfA
                examples.feedF1 examples.epC (fs.fileReader "media of C"))
    as H.
  cbv zeta in H.
  specialize (H ltac:(vm_compute; reflexivity) ltac:(vm_compute; reflexivity)
                ltac:(vm_compute; reflexivity) ltac:(vm_compute; reflexivity)
                ltac:(vm_compute; reflexivity) ltac:(vm_compute; reflexivity)).
  destruct H as (Herr & _ & Hdisk & _).
  cbv zeta. split; [exact Herr|].
  rewrite (Hdisk "f1/C.mp3" ltac:(vm_compute; discriminate)).
  vm_compute. reflexivity.
Defined.

(** ** Where the program departs from what is claimed of it *)

(** C4.  The pipeline itself drives the tracker out of the bounds.  The
    driver keeps the progress callback that [downloadEpisodes] installed
    last, and [RetryEpisode] downloads without installing one: a retry
    after a run of feed [f1] on episode A reports its progress under
    [f1]/A, where [UpdateEpisode] creates a record that no [ClearFeed]
    follows.  In the next run of [f1], with the one candidate B, the
    record of A is added to the sum: once B is complete the feed shows
    [completed_count = 1] of [total_episodes = 1] and an overall
    percentage of 200, until [downloadEpisodes] returns and clears it. *)
Theorem stale_callback_drives_overall_percent_to_200 :
  (exists e, (examples.run samples.failing examples.feedF1
                examples.emptyWorld).2 = None /\
             update.progressCallback samples.afterFailedRun = Some ("f1", "A") /\
             db.GetEpisode (update.database samples.afterFailedRun) "f1" "A"
             = Ok e /\ Episode.Status e = EpisodeError) /\
  progress.HasActiveDownloads (update.progressTracker samples.afterFailedRun)
  = false /\
  (update.RetryEpisode examples.EpisodeName examples.feedBuild
     examples.manager samples.recovered samples.Quote samples.feeds "f1" "A"
     samples.afterFailedRun).2 = None /\
  (exists r,
     progress.GetEpisodeProgress (update.progressTracker samples.afterRetry)
       "f1" "A" = Some r /\
     (progress.EpisodeProgress.Percent r == 100)%Q) /\
  List.map Episode.ID samples.nextRunCandidates = ["B"] /\
  (exists fp,
     progress.GetFeedProgress (update.progressTracker samples.nextRunLoop.1)
       "f1" = Some fp /\
     progress.FeedProgress.TotalEpisodes fp = 1 /\
     progress.FeedProgress.CompletedCount fp = 1 /\
     progress.FeedProgress.DownloadingCount fp = 0 /\
     (progress.FeedProgress.OverallPercent fp == 200)%Q /\
     ~ (progress.FeedProgress.OverallPercent fp <= 100)%Q) /\
  update.downloadEpisodes examples.EpisodeName examples.manager
    samples.recovered examples.feedF1 samples.nextRunCandidates
    samples.nextRunSelected
  = (update.setTracker
       (progress.ClearFeed (update.progressTracker samples.nextRunLoop.1)
          "f1")
       samples.nextRunLoop.1,
     samples.nextRunLoop.2).
Proof.
  split.
  { eexists. repeat split; vm_compute; reflexivity. }
  split; [vm_compute; reflexivity|].
  split; [vm_compute; reflexivity|].
  split.
  { eexists. split; [vm_compute; reflexivity|]. vm_compute. reflexivity. }
  split; [vm_compute; reflexivity|].
  split.
  { eexists. split; [vm_compute; reflexivity|].
    repeat split; try (vm_compute; reflexivity).
    vm_compute. intros H. by apply H. }
  vm_compute. reflexivity.
Qed.

(** C5.  A blocked record does not survive every run of [updateFeed].
    Feed [a] holds the blocked episode [k]; the feed [a/b] holds a new
    episode with the same identifier, under a key that starts with the key
    prefix of the episodes of [a].  The walk of [updateFeed] for feed [a]
    delivers both records: [k] enters [blockedEpisodes] and, for the
    record of [a/b], [episodeSet].  The listed episode [k] is filtered out
    before [AddFeed], so nothing takes [k] out of [episodeSet], and
    [DeleteEpisode] removes the blocked record of feed [a].  The record of
    [a/b] stays. *)
Theorem updateFeed_deletes_blocked_record_under_nested_feed :
  let b := samples.nestedBlocked in
  let res := update.updateFeed samples.listingA samples.feedA b in
  b !! episodeKey "a" "k" = Some (VEpisode examples.epK) /\
  Episode.Status examples.epK = EpisodeBlocked /\
  b !! episodeKey "a/b" "k" = Some (VEpisode samples.otherK) /\
  res.2 = None /\
  res.1 !! episodeKey "a" "k" = None /\
  res.1 !! episodeKey "a/b" "k" = Some (VEpisode samples.otherK).
Proof. vm_compute. repeat split. Qed.

(** C7.  The cleanup stage does not keep the [N] newest downloaded
    episodes of every feed.  Feed [a], with [keep_last = 1], holds the
    downloaded episodes [e3] and [e4]; the feed [a/b] holds the downloaded
    episode [e5], newer than both, under a key that starts with the key
    prefix of the episodes of [a].  The walk of [cleanup] for feed [a]
    delivers the three of them, [e5] takes the one place that is kept,
    and both [e3] and [e4] are cleaned and lose their artifacts: feed [a]
    keeps no downloaded episode. *)
Theorem cleanup_keeps_none_under_nested_feed :
  let w := samples.nestedDownloaded in
  let res :=
    update.cleanup examples.EpisodeName examples.sortSlice samples.feedA w in
  feed.Config.Clean samples.feedA = Some (feed.Cleanup.mk 1) /\
  update.database w !! episodeKey "a" "e3" = Some (VEpisode examples.ep3) /\
  update.database w !! episodeKey "a" "e4" = Some (VEpisode examples.ep4) /\
  update.database w !! episodeKey "a/b" "e5" = Some (VEpisode samples.ep5) /\
  res.2 = None /\
  update.database res.1 !! episodeKey "a" "e3"
  = Some (VEpisode (cleaned examples.ep3)) /\
  update.database res.1 !! episodeKey "a" "e4"
  = Some (VEpisode (cleaned examples.ep4)) /\
  update.database res.1 !! episodeKey "a/b" "e5"
  = Some (VEpisode samples.ep5) /\
  update.storage res.1 !! "a/e3.mp3" = None /\
  update.storage res.1 !! "a/e4.mp3" = None /\
  update.storage res.1 !! "a/b/e5.mp3" = Some "five".
Proof. vm_compute. repeat split. Qed.
